(* ===== verification/_CoqProject ===== *)
-Q . S2P
Prelude.v
Clist.v
Sched.v
SchedInv.v
Sync.v
Pages.v
Vpages.v
VpagesInv.v
StdFct.v
Tinyalloc.v
TinyallocInv.v
TinyallocThm.v
Buf.v
Bitmap.v
FsState.v
Layout.v
Mkfs.v
Bcache.v
BcacheInv.v
Mmio.v
Uart.v
Pci.v
Font.v
Console.v
ConsoleThm.v
Virtio.v
VirtioThm.v
Kenv.v
CacheThm.v
Balloc.v
BallocInv.v
AllocThm.v
Inode.v
FileMap.v
InodeInv.v
Str.v
StringLib.v
StringThm.v
StrtokThm.v
Doprnt.v
DoprntThm.v
Fs.v
File.v
FsDemo.v
InodeThm.v
Mmap.v
Hart.v
Elf.v
Task.v
Devices.v
Syscall.v
Lifecycle.v
Reap.v
Trap.v
User.v
UserThm.v
UserTests.v
