(* ===== verification/Prelude.v ===== *)
(** * rv-mini-os: a verification library of the kernel

    rv-mini-os is a small operating system for one RISC-V hart: a preemptive
    scheduler with priorities, Sv39 address spaces with copy-on-write, a file
    system on a virtio disk behind a block cache, a serial line and a text
    screen, and fourteen system calls.  This library translates its C code,
    function by function under the names of the source, and proves what the
    parts promise.  Paths below are relative to [src/src].

    ** How code becomes definitions

    A function of the kernel is a function [M S A]: from the state [S] it works
    on to an outcome, which is a value and a new state, a panic, a fault (an
    access that C gives no meaning to), a context switch with the rest of the
    code, or [NoFuel].  A machine integer is a [Z], wrapped where the C type
    wraps.  A pointer is the name or the address of the object it points to, in
    a store that the state holds, so that two pointers to one object see each
    other's writes.  [wp m Q s] says that [m] from [s] returns a result in [Q]:
    it excludes panics, faults, switches and lack of fuel.  [wpr] allows
    switches, with a relation that says what the state is when the task runs
    again.

    ** The parts, and where they are

    - Lists: [Clist] is lib/clist.c.  [Rep] relates a store of nodes to the
      lists it holds.
    - Scheduler: [Sched] is core/sched/scheduler.c with the part of
      core/task/task.c under it, [Sync] the wait queues, spinlocks, mutexes,
      semaphores and the timer.  The state is [kst].  [SchedInv] has the
      invariant and the behaviour of each operation.
    - Memory: [Pages] is pages.c, [Vpages] vpages.c, [VpagesInv] what a page
      tree translates; [Tinyalloc] is the heap, [TinyallocInv] its invariant,
      [TinyallocThm] its claims.
    - Library: [StdFct], [Bitmap], [StringLib], [Doprnt] are the files of lib;
      [Str] has the string functions on values; [StringThm], [StrtokThm],
      [DoprntThm] their claims.  [Font] is the table of glyphs.
    - File system: [FsState] has the data and the interface [Env] to the locks,
      the disk and user memory, with its laws [EnvLaws].  [Bcache], [Balloc],
      [Inode], [Fs], [File] are the files of core/fs; [Buf] and [Layout] the
      bytes of the structures on the disk; [Mkfs] is tools/mkfs.c.
      [BcacheInv], [BallocInv], [FileMap], [InodeInv] carry the proofs;
      [CacheThm], [AllocThm], [InodeThm] the claims.  [Kenv] instantiates [Env]
      with the scheduler, the physical memory and an array of blocks, and
      discharges the laws; [FsDemo] boots it on a disk that [Mkfs] made.
    - Devices: [Mmio] is the interface of device registers, [Pci], [Uart],
      [Console], [Virtio] the drivers, [ConsoleThm] and [VirtioThm] their
      claims.  [Devices] puts them, the interrupt controller and the daemons
      on the state of the kernel.
    - Tasks and calls: [Mmap] defines the state of the whole kernel, [kern], and
      the address spaces; [Elf] is the loader, [Task] is task.c, [Syscall]
      core/syscall, [Trap] the trap handlers and the boot.  [Lifecycle] and
      [Reap] follow a task from its end to its removal by its parent.
    - Processor: [Hart] has the registers, the control registers and the words
      of the memory, with the routines of arch/*.S, both crt0.S, and the C code
      that sets control registers (arch/cpu.h, arch/csr.h, trap.c, time.c,
      memory.c, the machine-mode part of init.c), instruction by instruction.
    - User programs: [User] is user/src and user/lib (the shell, its parser and
      commands, threads and tests) as interaction trees over the system calls.
      [UserThm] runs them over an interface [Kernel] of what answers a call, and
      a terminal; [UserTests] instantiates the interface with [Syscall] on a
      disk that [Mkfs] made.

    ** What is proved

    - Lists: every operation refines plain lists; sorted insertion and the
      draining traversal are correct.
    - Scheduler: every operation keeps the queues, the cached priority and the
      running task consistent, on every path and across switches; blocking,
      rotation and the wake-up of sleepers do what they should.  The mutex and
      the semaphore refine a FIFO lock and a FIFO counting semaphore.
    - Memory: the page allocator hands out pages that nobody holds; mapping
      changes one translation; copy-on-write gives a private page; copies out
      and in are inverse; heap blocks stay apart in every sequence of calls.
    - Files: the cache refines an array of blocks, the allocator a set of
      blocks, an inode a list of bytes, for any environment that keeps the laws.
    - Drivers: the ring of the serial line refines a queue; the cursor stays on
      the screen and characters show; address registers of PCI are sized and
      assigned; the requests of the disk keep to their own descriptors and are
      answered, whatever the interleaving with the device.
    - Tasks: a task that ends becomes a zombie of its waiting parent, which runs,
      gets its pid and frees all that it had.
    - Processor: a trap from user mode, an interrupt of the kernel and a context
      switch give back the registers they took; [start] ends in supervisor mode
      with the traps delegated; the start files clear the bss sections.
    - User programs: a turn of the shell runs the command of its line with its
      words and waits for it; the shell never returns; the file tests pass on
      the kernel.
    - Library: searches, copies, tokens, formatting and reading of numbers,
      multiplication and division.
    - Faults: where the code does not do what it means to, a theorem states what
      it does instead ([large_files_share_blocks], [enospc_is_remembered],
      [bcache_full_panics], [vpage_map_oom_dangling],
      [strtok_shared_between_callers], [snprintf_overruns], [heap_size_wraps],
      [scroll_out_of_framebuffer], [underscore_not_shown],
      [stream_cannot_write], [kernelvec_misaligns]).

    ** Bounds

    A loop over a list, a chain or a string runs on the size of the structure
    it walks, and the theorems show that it is enough.  The loops that wait for
    a device or for another task (the reset of the disk, the capability lists
    of PCI, [sys_wait]) take their bound as an argument.

    ** What is not modelled

    Linker scripts and build files: the addresses they give are arguments.  In
    the state of the kernel a switch of context is the [Switch] of the monad,
    and the value of the program counter of a task is kept with it; the
    registers that the switch saves are in [Hart], over a state of its own, in
    which compiled code is an argument that keeps to the calling convention.
    Memory barriers and flushes of the translation cache have no effect, since
    the memory of the model is sequential.  The messages of a panic are not on
    the console.  The disk under the file system is an array of blocks and not
    the driver of [Virtio], whose claims are about its queue.  The unit-test
    framework and the unit tests of lists on the host are not part of the
    system. *)

From Stdlib Require Export ZArith Lia.
From stdpp Require Export base numbers list gmap strings.

#[global] Open Scope Z_scope.

(** ** Machine integers

    An integer of [w] bits is a [Z]; the C conversions to an unsigned or a
    signed type of that width are [wrap] and [sext]. *)

Definition wrap (w x : Z) : Z := x mod 2 ^ w.
Definition sext (w x : Z) : Z :=
  let y := wrap w x in if decide (y < 2 ^ (w - 1)) then y else y - 2 ^ w.

Abbreviation u8 := (wrap 8).
Abbreviation u16 := (wrap 16).
Abbreviation u32 := (wrap 32).
Abbreviation u64 := (wrap 64).
Abbreviation s8 := (sext 8).
Abbreviation s32 := (sext 32).
Abbreviation s64 := (sext 64).

Definition UINT32_MAX : Z := 2 ^ 32 - 1.
Definition UINT64_MAX : Z := 2 ^ 64 - 1.

(** Bits of a mask, C's [x & m] used as a truth value. *)
Definition has (x m : Z) : bool := negb (Z.land x m =? 0).

(** ** Outcomes

    A piece of kernel code is a function from the state it works on to an
    outcome: it returns a value ([Done]), stops the machine ([Panic], the
    [panic()] macro), performs an access C gives no meaning to ([Fault]: a
    dereference of a null or dangling pointer, an index out of range), or
    gives the processor up ([Switch]): the state it leaves and what it does
    when it is given the processor back.  [NoFuel] is the outcome of a loop
    whose bound was too small; the termination theorems rule it out. *)

Inductive outcome (S A : Type) : Type :=
| Done (a : A) (s : S)
| Panic (msg : string)
| Fault
| NoFuel
| Switch (s : S) (k : S → outcome S A).
Arguments Done {S A} _ _.
Arguments Panic {S A} _.
Arguments Fault {S A}.
Arguments NoFuel {S A}.
Arguments Switch {S A} _ _.

Definition M (S A : Type) : Type := S → outcome S A.

Fixpoint obind {S A B : Type} (o : outcome S A) (f : A → M S B) : outcome S B :=
  match o with
  | Done a s => f a s
  | Panic msg => Panic msg
  | Fault => Fault
  | NoFuel => NoFuel
  | Switch s k => Switch s (λ s', obind (k s') f)
  end.

#[export] Instance M_ret (S : Type) : MRet (M S) := λ A a s, Done a s.
#[export] Instance M_bind (S : Type) : MBind (M S) := λ A B f m s, obind (m s) f.

Section Effects.
Context {S : Type}.

Definition get : M S S := λ s, Done s s.
Definition gets {A} (f : S → A) : M S A := λ s, Done (f s) s.
Definition modify (f : S → S) : M S unit := λ s, Done tt (f s).
Definition panic {A} (msg : string) : M S A := λ _, Panic msg.
Definition fault {A} : M S A := λ _, Fault.
Definition nofuel {A} : M S A := λ _, NoFuel.

(** Give the processor up in the current state. *)
Definition yield : M S unit := λ s, Switch s (λ s', Done tt s').

(** [for] over the elements of a list. *)
Fixpoint each {A} (f : A → M S unit) (l : list A) : M S unit :=
  match l with
  | [] => mret tt
  | x :: l => f x;; each f l
  end.

(** A partial pure function: [None] is an access out of the memory it owns. *)
Definition of_opt {A} (o : option A) : M S A :=
  match o with Some a => mret a | None => fault end.
Definition modify_opt (f : S → option S) : M S unit :=
  λ s, match f s with Some s' => Done tt s' | None => Fault end.
End Effects.

(** ** Error codes (lib/err.h) *)

Definition EPERM : Z := 1.
Definition ENOENT : Z := 2.
Definition EIO : Z := 5.
Definition E2BIG : Z := 7.
Definition ENOEXEC : Z := 8.
Definition EBADF : Z := 9.
Definition EAGAIN : Z := 11.
Definition ENOMEM : Z := 12.
Definition EFAULT : Z := 14.
Definition EBUSY : Z := 16.
Definition EEXIST : Z := 17.
Definition ENODEV : Z := 19.
Definition ENOTDIR : Z := 20.
Definition EISDIR : Z := 21.
Definition EINVAL : Z := 22.
Definition ENFILE : Z := 23.
Definition EMFILE : Z := 24.
Definition EFBIG : Z := 27.
Definition ENOSPC : Z := 28.
Definition EROFS : Z := 30.
Definition ERANGE : Z := 34.
Definition ENAMETOOLONG : Z := 36.
Definition ENOSYS : Z := 38.
Definition ENOTEMPTY : Z := 39.

(** ** Weakest preconditions

    [wp o Q]: the code returns, without a panic, a fault or a context switch,
    a value and a state that satisfy [Q]. *)

Definition wp {S A : Type} (o : outcome S A) (Q : A → S → Prop) : Prop :=
  match o with Done a s => Q a s | _ => False end.

Lemma wp_bind {S A B} (m : M S A) (f : A → M S B) s Q :
  wp ((m ≫= f) s) Q ↔ wp (m s) (λ a s', wp (f a s') Q).
Proof.
  unfold mbind, M_bind. destruct (m s); simpl; tauto.
Qed.

Lemma wp_mono {S A} (o : outcome S A) (P Q : A → S → Prop) :
  wp o P → (∀ a s, P a s → Q a s) → wp o Q.
Proof. destruct o; simpl; auto. Qed.

Lemma wp_and {S A} (o : outcome S A) (P Q : A → S → Prop) : wp o P → wp o Q → wp o (λ a s, P a s ∧ Q a s).
Proof. by destruct o. Qed.

Lemma wp_Done {S A} (o : outcome S A) Q :
  wp o Q ↔ ∃ a s, o = Done a s ∧ Q a s.
Proof.
  destruct o; simpl; split; intros H; naive_solver.
Qed.

Lemma wp_ret {S A} (a : A) (s : S) (Q : A → S → Prop) : Q a s → wp (mret (M := M S) a s) Q.
Proof. done. Qed.

Lemma wp_gets {S A} (f : S → A) s (Q : A → S → Prop) : Q (f s) s → wp (gets f s) Q.
Proof. done. Qed.

Lemma wp_modify {S} (f : S → S) s (Q : unit → S → Prop) : Q tt (f s) → wp (modify f s) Q.
Proof. done. Qed.

Lemma bind_Done {S A B} (m : M S A) (f : A → M S B) s a s' :
  m s = Done a s' → (m ≫= f) s = f a s'.
Proof. intros H. unfold mbind, M_bind. by rewrite H. Qed.

Lemma bind_Panic {S A B} (m : M S A) (f : A → M S B) s msg :
  m s = Panic msg → (m ≫= f) s = Panic msg.
Proof. intros H. unfold mbind, M_bind. by rewrite H. Qed.

Lemma bind_ret {S A B} (a : A) (f : A → M S B) s : (mret a ≫= f) s = f a s.
Proof. done. Qed.

(** [wpr Y R o Q]: the same for code that may switch context.  Each time it
    does, the state it leaves satisfies [Y]; it is resumed in any state [R]
    relates to that one, and ends with [Q]. *)

Fixpoint wpr {S A : Type} (Y : S → Prop) (R : S → S → Prop) (o : outcome S A)
    (Q : A → S → Prop) : Prop :=
  match o with
  | Done a s => Q a s
  | Switch s k => Y s ∧ ∀ s', R s s' → wpr Y R (k s') Q
  | _ => False
  end.

Lemma wpr_bind {S A B} Y R (m : M S A) (f : A → M S B) s Q :
  wpr Y R (m s) (λ a s', wpr Y R (f a s') Q) → wpr Y R ((m ≫= f) s) Q.
Proof.
  unfold mbind, M_bind. induction (m s) as [| | | |s0 k IH]; simpl; [done..|].
  intros [HY HR]. split; [done|]. intros s' Hs'. by apply IH, HR.
Qed.

Lemma wpr_mono {S A} Y R (o : outcome S A) (P Q : A → S → Prop) :
  wpr Y R o P → (∀ a s, P a s → Q a s) → wpr Y R o Q.
Proof.
  intros Ho HPQ. induction o as [| | | |s0 k IH]; simpl in *; [by auto|done..|].
  destruct Ho as [HY HR]. split; [done|]. intros s' Hs'. by apply IH, HR.
Qed.

Lemma wpr_wp {S A} Y R (o : outcome S A) Q : wp o Q → wpr Y R o Q.
Proof. by destruct o. Qed.

Lemma each_wpr {S A} Y R (I : list A → S → Prop) (f : A → M S unit) l s :
  (∀ pre x post s, l = pre ++ x :: post → I pre s → wpr Y R (f x s) (λ _ s', I (pre ++ [x]) s')) →
  I [] s → wpr Y R (each f l s) (λ _ s', I l s').
Proof.
  intros Hf. enough (∀ pre, ∀ post s, l = pre ++ post → I pre s → wpr Y R (each f post s) (λ _ s', I l s')) as Hg.
  { intros HI. by apply (Hg [] l s). }
  intros pre post. revert pre. induction post as [|x post IH]; intros pre s0 Hl HI; cbn [each].
  - rewrite app_nil_r in Hl. by subst.
  - apply wpr_bind. eapply wpr_mono; [apply (Hf pre x post s0 Hl HI)|]. intros [] s1 HI1. apply (IH (pre ++ [x])); [|done].
    by rewrite <-app_assoc.
Qed.

(** The state a computation stops in: when it returns, or when it first hands
    the processor over. *)
Definition landing {S A : Type} (o : outcome S A) : option S :=
  match o with Done _ s | Switch s _ => Some s | _ => None end.

(** ** Tactics *)

(** Run the next effect of a monadic term whose result is known. *)
Ltac mstep H := rewrite (bind_Done _ _ _ _ _ H); cbn beta iota.

(** Case analysis on the boolean comparisons and decisions in sight. *)
Ltac cases_bool :=
  repeat match goal with
  | |- context [Z.eqb ?a ?b] => destruct (Z.eqb_spec a b)
  | |- context [Z.ltb ?a ?b] => destruct (Z.ltb_spec a b)
  | |- context [Z.leb ?a ?b] => destruct (Z.leb_spec a b)
  | |- context [decide ?P] => destruct (decide P)
  end.

(** ** Shared lemmas on integers *)

Lemma wrap_small w x : 0 ≤ x < 2 ^ w → wrap w x = x.
Proof. apply Z.mod_small. Qed.

Lemma wrap_range w x : 0 ≤ w → 0 ≤ wrap w x < 2 ^ w.
Proof. intros. apply Z.mod_pos_bound. lia. Qed.

Lemma wrap_wrap w x : 0 ≤ w → wrap w (wrap w x) = wrap w x.
Proof. intros. apply wrap_small, wrap_range. done. Qed.

Lemma wrap_add_l w x y : wrap w (wrap w x + y) = wrap w (x + y).
Proof. apply Zplus_mod_idemp_l. Qed.

Lemma wrap_add_r w x y : wrap w (x + wrap w y) = wrap w (x + y).
Proof. apply Zplus_mod_idemp_r. Qed.

Lemma wrap_mul_l w x y : wrap w (wrap w x * y) = wrap w (x * y).
Proof. apply Zmult_mod_idemp_l. Qed.

Lemma wrap_mul_r w x y : wrap w (x * wrap w y) = wrap w (x * y).
Proof. apply Zmult_mod_idemp_r. Qed.

Lemma sext_small w x : 0 ≤ x < 2 ^ (w - 1) → 0 < w → sext w x = x.
Proof.
  intros. unfold sext. assert (2 ^ w = 2 * 2 ^ (w - 1)).
  { rewrite <-Z.pow_succ_r by lia. f_equal. lia. }
  rewrite wrap_small by lia. destruct (decide _); lia.
Qed.

Lemma sext_id w x : 0 < w → - 2 ^ (w - 1) ≤ x < 2 ^ (w - 1) → sext w x = x.
Proof.
  intros Hw Hx. unfold sext. assert (2 ^ w = 2 * 2 ^ (w - 1)) as E.
  { rewrite <-Z.pow_succ_r by lia. f_equal. lia. }
  destruct (decide (0 ≤ x)).
  - rewrite wrap_small by lia. destruct (decide _); lia.
  - assert (wrap w x = x + 2 ^ w) as ->.
    { unfold wrap. rewrite <-(Z_mod_plus_full x 1 (2 ^ w)), Z.mul_1_l. apply Z.mod_small. lia. }
    destruct (decide _); lia.
Qed.

(** ** Shared lemmas on lists *)

Lemma NoDup_middle {A} (x : A) l1 l2 :
  NoDup (l1 ++ x :: l2) ↔ (x ∉ l1 ++ l2) ∧ NoDup (l1 ++ l2).
Proof. rewrite <-Permutation_middle. apply NoDup_cons. Qed.

Create HintDb kernel.
#[export] Hint Resolve wrap_small wrap_range : kernel.
#[export] Hint Extern 1 (_ ≤ _) => lia : kernel.
#[export] Hint Extern 1 (_ < _) => lia : kernel.

(** Checking a property of a range, or that a value is there, by evaluation. *)
Lemma forall_range (P : Z → bool) a b : forallb P (seqZ a (b - a)) = true → ∀ x, a ≤ x < b → P x = true.
Proof. intros HP x Hx. rewrite forallb_forall in HP. apply HP, list_elem_of_In, elem_of_seqZ. lia. Qed.
Lemma bool_some {A} (o : option A) : match o with Some _ => true | None => false end = true → is_Some o.
Proof. destruct o; [eauto|done]. Qed.
