(* ===== verification/Clist.v ===== *)
(** * Circular doubly linked lists (lib/clist.c)

    The intrusive list every queue of the kernel is made of.  A node is a
    record in a store (the memory the nodes live in) and a pointer is the key
    of a node.  Operations are translated statement by statement, so that the
    order of the pointer writes is the one of the C code; [None] is the
    dereference of a pointer that is not a node of the store.

    [Rep s L] relates a store to the lists it represents: [L] maps every
    sentinel to the list of the nodes hanging from it.  The second half of the
    file shows that each operation refines the obvious operation on [L]. *)

From Stdlib Require Import Sorted.
From S2P Require Import Prelude.

(** ** Nodes and the store *)

Record cnode (N : Type) := CNode { next : N; prev : N; in_list : bool }.
Arguments CNode {N} _ _ _.
Arguments next {N} _.
Arguments prev {N} _.
Arguments in_list {N} _.

Abbreviation store N := (gmap N (cnode N)).

Section Operations.
Context {N : Type} `{Countable N}.
Implicit Types (s : store N) (n pos node head : N).

Definition set_next n (v : N) s : option (store N) :=
  c ← s !! n; Some (<[n := CNode v (prev c) (in_list c)]> s).
Definition set_prev n (v : N) s : option (store N) :=
  c ← s !! n; Some (<[n := CNode (next c) v (in_list c)]> s).
Definition set_in_list n (v : bool) s : option (store N) :=
  c ← s !! n; Some (<[n := CNode (next c) (prev c) v]> s).

Definition clist_init_node node s : store N := <[node := CNode node node false]> s.

Definition clist_empty head s : option bool :=
  c ← s !! head; Some (bool_decide (next c = head)).

Definition clist_is_in_list node s : option bool :=
  c ← s !! node; Some (in_list c).

Definition clist_insert_before pos node s : option (store N) :=
  c ← s !! node;
  if in_list c then Some s else
  s ← set_next node pos s;
  cp ← s !! pos;
  s ← set_prev node (prev cp) s;
  cp ← s !! pos;
  s ← set_next (prev cp) node s;
  s ← set_prev pos node s;
  set_in_list node true s.

Definition clist_insert_after pos node s : option (store N) :=
  c ← s !! node;
  if in_list c then Some s else
  cp ← s !! pos;
  s ← set_next node (next cp) s;
  cp ← s !! pos;
  s ← set_prev (next cp) node s;
  s ← set_prev node pos s;
  s ← set_next pos node s;
  set_in_list node true s.

Definition clist_push_back head node s : option (store N) :=
  clist_insert_before head node s.

Definition clist_push_front head node s : option (store N) :=
  clist_insert_after head node s.

(** The argument may be NULL. *)
Definition clist_remove (node : option N) s : option (store N) :=
  match node with
  | None => Some s
  | Some node =>
    c ← s !! node;
    if negb (in_list c) then Some s else
    s ← set_next (prev c) (next c) s;
    c ← s !! node;
    s ← set_prev (next c) (prev c) s;
    Some (clist_init_node node s)
  end.

Definition clist_first head s : option (option N) :=
  e ← clist_empty head s;
  c ← s !! head;
  Some (if e : bool then None else Some (next c)).

Definition clist_last head s : option (option N) :=
  e ← clist_empty head s;
  c ← s !! head;
  Some (if e : bool then None else Some (prev c)).

Definition clist_pop_front head s : option (option N * store N) :=
  e ← clist_empty head s;
  if e : bool then Some (None, s) else
  c ← s !! head;
  s ← clist_remove (Some (next c)) s;
  Some (Some (next c), s).

(** The loops take the number of nodes of the store as their bound: a walk
    along a well formed list never visits a node twice. *)
Fixpoint find_loop (fuel : nat) (step : cnode N → N) (head : N) (pred : N → bool)
    (current : N) s : option (option N) :=
  match fuel with
  | O => None
  | S fuel =>
    if decide (current = head) then Some None else
    if pred current then Some (Some current) else
    c ← s !! current;
    find_loop fuel step head pred (step c) s
  end.

Definition clist_find head (pred : N → bool) s : option (option N) :=
  c ← s !! head;
  find_loop (S (size s)) next head pred (next c) s.

Definition clist_find_rev head (pred : N → bool) s : option (option N) :=
  c ← s !! head;
  find_loop (S (size s)) prev head pred (prev c) s.

Fixpoint sorted_loop (fuel : nat) (head : N) (cmp : N → N → Z) (node current : N) s
    : option N :=
  match fuel with
  | O => None
  | S fuel =>
    if decide (current ≠ head) then
      if cmp current node <=? 0 then
        c ← s !! current;
        sorted_loop fuel head cmp node (next c) s
      else Some current
    else Some current
  end.

Definition clist_insert_sorted head node (cmp : N → N → Z) s : option (store N) :=
  c ← s !! head;
  current ← sorted_loop (S (size s)) head cmp node (next c) s;
  clist_insert_before current node s.
End Operations.

(** ** Traversals with a callback

    A callback works on the whole state of its caller, of which the node store
    is a part. *)

Class HasNodes (N W : Type) `{Countable N} := {
  nodes : W → store N;
  set_nodes : store N → W → W;
  nodes_set_nodes : ∀ s w, nodes (set_nodes s w) = s;
  set_nodes_nodes : ∀ w, set_nodes (nodes w) w = w;
  set_nodes_set_nodes : ∀ s s' w, set_nodes s (set_nodes s' w) = set_nodes s w;
}.

#[export] Program Instance store_has_nodes (N : Type) `{Countable N} : HasNodes N (store N) :=
  {| nodes := id; set_nodes := λ s _, s |}.
Next Obligation. done. Qed.
Next Obligation. done. Qed.
Next Obligation. done. Qed.

Section Traversals.
Context {N W : Type} `{HasNodes N W}.
Implicit Types (w : W) (n head : N).

Definition on_nodes (f : store N → option (store N)) : M W unit :=
  λ w, match f (nodes w) with
       | Some s => Done tt (set_nodes s w)
       | None => Fault
       end.
Definition read_nodes {A} (f : store N → option A) : M W A :=
  λ w, match f (nodes w) with Some a => Done a w | None => Fault end.

Fixpoint for_each_loop (fuel : nat) (head : N) (callback : N → M W Z) (current : N)
    : M W (option N) :=
  match fuel with
  | O => nofuel
  | S fuel =>
    if decide (current = head) then mret None else
    c ← read_nodes (λ s, s !! current);
    r ← callback current;
    if r =? 0 then for_each_loop fuel head callback (next c)
    else mret (Some current)
  end.

Definition clist_for_each (head : N) (callback : N → M W Z) : M W (option N) :=
  c ← read_nodes (λ s, s !! head);
  fuel ← gets (λ w, size (nodes w));
  for_each_loop (S fuel) head callback (next c).

Fixpoint for_each_and_del_loop (fuel : nat) (head : N) (callback : N → M W Z)
    (current : N) (failure : option N) : M W (option N) :=
  match fuel with
  | O => nofuel
  | S fuel =>
    if decide (current = head) then mret failure else
    c ← read_nodes (λ s, s !! current);
    on_nodes (clist_remove (Some current));;
    r ← callback current;
    for_each_and_del_loop fuel head callback (next c)
      (if r =? 0 then failure
       else match failure with Some _ => failure | None => Some current end)
  end.

Definition clist_for_each_and_del (head : N) (callback : N → M W Z) : M W (option N) :=
  c ← read_nodes (λ s, s !! head);
  on_nodes (λ s, Some (clist_init_node head s));;
  fuel ← gets (λ w, size (nodes w));
  for_each_and_del_loop (S fuel) head callback (next c) None.
End Traversals.

(** ** What a store represents *)

Section Representation.
Context {N : Type} `{Countable N}.
Implicit Types (s : store N) (n x y pos node head : N) (l : list N).

Definition nxt s n : option N := next <$> s !! n.
Definition prv s n : option N := prev <$> s !! n.
Definition inl s n : option bool := in_list <$> s !! n.

Definition link s x y : Prop := nxt s x = Some y ∧ prv s y = Some x.

(** [chain k s a l b]: the links [a -> l0 -> ... -> ln -> b], both ways.  When
    [k] is set the back link of [b] is stale: this is the state of a sentinel
    while [clist_for_each_and_del] empties its list. *)
Fixpoint chain (k : bool) s (a : N) l (b : N) : Prop :=
  match l with
  | [] => nxt s a = Some b ∧ (k = false → prv s b = Some a)
  | x :: l => link s a x ∧ chain k s x l b
  end.

(** The element before and after a point of a chain. *)
Fixpoint before (a : N) l : N := match l with [] => a | x :: l => before x l end.
Definition after l (b : N) : N := match l with [] => b | x :: _ => x end.

Record is_clist (k : bool) s head l : Prop := {
  clist_chain : chain k s head l head;
  clist_flags : Forall (λ x, inl s x = Some true) l;
  clist_sentinel : inl s head = Some false;
  clist_nodup : NoDup (head :: l);
}.

(** The lists [L] are all the lists of the store: they are pairwise disjoint
    and a node is flagged exactly when it is an element of one of them.  [B] is
    the sentinel being emptied by [clist_for_each_and_del], if any. *)
Record RepB (B : option N) s (L : gmap N (list N)) : Prop := {
  rep_clist : ∀ h l, L !! h = Some l → is_clist (bool_decide (B = Some h)) s h l;
  rep_disj : ∀ h1 h2 l1 l2 x, L !! h1 = Some l1 → L !! h2 = Some l2 →
    x ∈ h1 :: l1 → x ∈ h2 :: l2 → h1 = h2;
  rep_flag : ∀ x, inl s x = Some true → ∃ h l, L !! h = Some l ∧ x ∈ l;
}.
End Representation.
Abbreviation Rep := (RepB None).

(** ** Lemmas on chains *)

(** Membership in a list made of conses and appends, as propositions. *)
Ltac elems :=
  repeat first
    [ rewrite NoDup_cons in * | rewrite not_elem_of_cons in *
    | rewrite not_elem_of_app in * | rewrite elem_of_cons in *
    | rewrite elem_of_app in * | rewrite list_elem_of_singleton in *
    | rewrite elem_of_nil in * ];
  destruct_and?.

(** The goals left by the pointwise description of a pointer update. *)
Ltac ptr_cases := repeat case_decide; subst; elems; first [done | congruence | tauto | naive_solver].

Section Chains.
Context {N : Type} `{Countable N}.
Implicit Types (s : store N) (n x y a b : N) (l : list N).

Lemma chain_app k s a l1 x l2 b :
  chain k s a (l1 ++ x :: l2) b ↔ chain false s a l1 x ∧ chain k s x l2 b.
Proof.
  revert a. induction l1 as [|y l1 IH]; intros a; simpl; [unfold link; naive_solver|].
  rewrite IH. tauto.
Qed.

Lemma chain_prv s a l x : chain false s a l x → prv s x = Some (before a l).
Proof.
  revert a. induction l as [|y l IH]; intros a; simpl; [intros []; auto|].
  intros [_ ?]. auto.
Qed.

Lemma chain_nxt k s x l b : chain k s x l b → nxt s x = Some (after l b).
Proof. destruct l; simpl; [by intros []|]. by intros [[]]. Qed.

Lemma before_in a l : before a l = a ∨ before a l ∈ l.
Proof.
  revert a. induction l as [|x l IH]; intros a; simpl; [auto|].
  right. apply elem_of_cons. destruct (IH x); auto.
Qed.

Lemma before_app a l x : before a (l ++ [x]) = x.
Proof. revert a. induction l; simpl; auto. Qed.

Lemma after_in l b : after l b = b ∨ after l b ∈ l.
Proof. destruct l; simpl; [auto|]. right. apply elem_of_cons. auto. Qed.

Lemma chain_frame k s s' a l b :
  (∀ y, y ∈ a :: l → nxt s' y = nxt s y) →
  (∀ y, y ∈ l ++ [b] → prv s' y = prv s y) →
  chain k s a l b → chain k s' a l b.
Proof.
  revert a. induction l as [|x l IH]; intros a Hn Hp; simpl.
  - intros [??]; split; [rewrite Hn|intros; rewrite Hp]; auto; elems; auto.
  - intros [[??] ?]; split; [split|].
    + rewrite Hn; [done|]. elems; auto.
    + rewrite Hp; [done|]. elems; auto.
    + apply IH; [..|done]; intros y Hy; [apply Hn|apply Hp]; elems; tauto.
Qed.

Lemma chain_weaken k s a l b : chain false s a l b → chain k s a l b.
Proof. revert a. induction l; intros ? []; simpl; naive_solver. Qed.

(** Without the back link of its end, a chain does not depend on it. *)
Lemma chain_stale s s' a l b :
  (∀ y, nxt s' y = nxt s y) → (∀ y, y ≠ b → prv s' y = prv s y) →
  chain false s a l b → b ∉ l → chain true s' a l b.
Proof.
  intros HN HP. revert a. induction l as [|x l IH]; intros a; simpl.
  - intros [? _] _. by rewrite HN.
  - intros [[??] ?] Hb. elems. split; [split|]; [by rewrite HN|by rewrite HP|auto].
Qed.

(** Splicing [n] in between [l1] and [l2]. *)
Lemma chain_insert k s s' a l1 l2 b n :
  NoDup (a :: l1 ++ l2) → b ∉ l1 ++ l2 → n ∉ a :: l1 ++ l2 ++ [b] →
  (∀ y, nxt s' y = if decide (y = n) then Some (after l2 b)
                   else if decide (y = before a l1) then Some n else nxt s y) →
  (∀ y, prv s' y = if decide (y = n) then Some (before a l1)
                   else if decide (y = after l2 b) then Some n else prv s y) →
  chain k s a (l1 ++ l2) b → chain k s' a (l1 ++ n :: l2) b.
Proof.
  intros Hnd Hb Hn HN HP. revert a Hnd Hn HN HP.
  induction l1 as [|x l1 IH]; intros a Hnd Hn HN HP Hc; simpl in *.
  - split; [split; [rewrite HN|rewrite HP]; clear -Hn; ptr_cases|].
    destruct l2 as [|x l2]; simpl in *.
    + split; [rewrite HN|intros _; rewrite HP]; clear -Hn; ptr_cases.
    + destruct Hc as [_ Hc].
      split; [split; [rewrite HN|rewrite HP]; clear -Hn; ptr_cases|].
      eapply chain_frame; [| |exact Hc]; intros y Hy.
      * rewrite HN. clear -Hy Hnd Hn. ptr_cases.
      * rewrite HP. clear -Hy Hnd Hn Hb. ptr_cases.
  - destruct Hc as [[Hl1 Hl2] Hc].
    pose proof (before_in x l1) as Hbf. pose proof (after_in l2 b) as Haf.
    split; [split|].
    + rewrite HN. clear -Hbf Hnd Hn Hl1. ptr_cases.
    + rewrite HP. clear -Haf Hb Hnd Hn Hl2. ptr_cases.
    + apply IH; auto; clear -Hnd Hn Hb; elems; tauto.
Qed.

(** Unlinking [n]. *)
Lemma chain_delete k s s' a l1 l2 b n :
  NoDup (a :: l1 ++ n :: l2) → b ∉ l1 ++ n :: l2 →
  (∀ y, y ≠ n → nxt s' y = if decide (y = before a l1) then Some (after l2 b) else nxt s y) →
  (∀ y, y ≠ n → prv s' y = if decide (y = after l2 b) then Some (before a l1) else prv s y) →
  chain k s a (l1 ++ n :: l2) b → chain k s' a (l1 ++ l2) b.
Proof.
  intros Hnd Hb HN HP. revert a Hnd HN HP.
  induction l1 as [|x l1 IH]; intros a Hnd HN HP Hc; simpl in *.
  - destruct Hc as [_ Hc].
    destruct l2 as [|x l2]; simpl in *.
    + split; [rewrite HN|intros _; rewrite HP]; clear -Hnd Hb; ptr_cases.
    + destruct Hc as [_ Hc].
      split; [split; [rewrite HN|rewrite HP]; clear -Hnd Hb; ptr_cases|].
      eapply chain_frame; [| |exact Hc]; intros y Hy.
      * rewrite HN; clear -Hy Hnd Hb; ptr_cases.
      * rewrite HP; clear -Hy Hnd Hb; ptr_cases.
  - destruct Hc as [[Hl1 Hl2] Hc].
    pose proof (before_in x l1) as Hbf. pose proof (after_in l2 b) as Haf.
    split; [split|].
    + rewrite HN; clear -Hbf Hnd Hl1; ptr_cases.
    + rewrite HP; clear -Haf Hb Hnd Hl2; ptr_cases.
    + apply IH; auto; clear -Hnd Hb; elems; tauto.
Qed.
End Chains.

(** ** The effect of each operation on the pointers *)

Section Effects.
Context {N : Type} `{Countable N}.
Implicit Types (s : store N) (n x y pos node head : N) (l : list N).

Lemma nxt_Some s n x : nxt s n = Some x ↔ ∃ c, s !! n = Some c ∧ next c = x.
Proof. unfold nxt. rewrite fmap_Some. naive_solver. Qed.
Lemma prv_Some s n x : prv s n = Some x ↔ ∃ c, s !! n = Some c ∧ prev c = x.
Proof. unfold prv. rewrite fmap_Some. naive_solver. Qed.
Lemma inl_Some s n b : inl s n = Some b ↔ ∃ c, s !! n = Some c ∧ in_list c = b.
Proof. unfold inl. rewrite fmap_Some. naive_solver. Qed.

Lemma inl_dom s n b : inl s n = Some b → n ∈ dom s.
Proof. intros (c & ? & _)%inl_Some. apply elem_of_dom. eauto. Qed.
Lemma nxt_dom s n x : nxt s n = Some x → n ∈ dom s.
Proof. intros (c & ? & _)%nxt_Some. apply elem_of_dom. eauto. Qed.
Lemma prv_dom s n x : prv s n = Some x → n ∈ dom s.
Proof. intros (c & ? & _)%prv_Some. apply elem_of_dom. eauto. Qed.

(** [s'] has the fields [fn], [fp], [fi] and the nodes of [s]. *)
Definition fields s s' (fn fp : N → option N) (fi : N → option bool) : Prop :=
  (∀ y, nxt s' y = fn y) ∧ (∀ y, prv s' y = fp y) ∧ (∀ y, inl s' y = fi y) ∧ dom s' = dom s.

Lemma fields_insert s n c v :
  s !! n = Some c →
  fields s (<[n := v]> s)
    (λ y, if decide (y = n) then Some (next v) else nxt s y)
    (λ y, if decide (y = n) then Some (prev v) else prv s y)
    (λ y, if decide (y = n) then Some (in_list v) else inl s y).
Proof.
  intros Hc. unfold fields, nxt, prv, inl. split_and!.
  - intros y. rewrite lookup_insert. repeat case_decide; congruence || done.
  - intros y. rewrite lookup_insert. repeat case_decide; congruence || done.
  - intros y. rewrite lookup_insert. repeat case_decide; congruence || done.
  - rewrite dom_insert_L. apply elem_of_dom_2 in Hc. set_solver.
Qed.

Lemma set_next_fields s n v :
  n ∈ dom s → ∃ s', set_next n v s = Some s' ∧
    fields s s' (λ y, if decide (y = n) then Some v else nxt s y) (prv s) (inl s).
Proof.
  intros [c Hc]%elem_of_dom. unfold set_next. rewrite Hc. simpl.
  eexists. split; [done|]. destruct (fields_insert s n c (CNode v (prev c) (in_list c)) Hc)
    as (Hn & Hp & Hi & Hd).
  split_and!; [done| | |done]; intros y; [rewrite Hp|rewrite Hi]; unfold prv, inl; simpl;
    case_decide; subst; by rewrite ?Hc.
Qed.

Lemma set_prev_fields s n v :
  n ∈ dom s → ∃ s', set_prev n v s = Some s' ∧
    fields s s' (nxt s) (λ y, if decide (y = n) then Some v else prv s y) (inl s).
Proof.
  intros [c Hc]%elem_of_dom. unfold set_prev. rewrite Hc. simpl.
  eexists. split; [done|]. destruct (fields_insert s n c (CNode (next c) v (in_list c)) Hc)
    as (Hn & Hp & Hi & Hd).
  split_and!; [|done| |done]; intros y; [rewrite Hn|rewrite Hi]; unfold nxt, inl; simpl;
    case_decide; subst; by rewrite ?Hc.
Qed.

Lemma set_in_list_fields s n v :
  n ∈ dom s → ∃ s', set_in_list n v s = Some s' ∧
    fields s s' (nxt s) (prv s) (λ y, if decide (y = n) then Some v else inl s y).
Proof.
  intros [c Hc]%elem_of_dom. unfold set_in_list. rewrite Hc. simpl.
  eexists. split; [done|]. destruct (fields_insert s n c (CNode (next c) (prev c) v) Hc)
    as (Hn & Hp & Hi & Hd).
  split_and!; [| |done|done]; intros y; [rewrite Hn|rewrite Hp]; unfold nxt, prv; simpl;
    case_decide; subst; by rewrite ?Hc.
Qed.

Lemma insert_before_fields s pos p n :
  inl s n = Some false → prv s pos = Some p → p ∈ dom s → n ≠ pos → n ≠ p →
  ∃ s', clist_insert_before pos n s = Some s' ∧ fields s s'
    (λ y, if decide (y = n) then Some pos else if decide (y = p) then Some n else nxt s y)
    (λ y, if decide (y = n) then Some p else if decide (y = pos) then Some n else prv s y)
    (λ y, if decide (y = n) then Some true else inl s y).
Proof.
  intros Hi Hp Hpd Hnp Hnpp. unfold clist_insert_before.
  pose proof (inl_dom _ _ _ Hi) as Hnd. pose proof (prv_dom _ _ _ Hp) as Hposd.
  apply inl_Some in Hi as (c & Hc & Hf). rewrite Hc. simpl. rewrite Hf.
  destruct (set_next_fields s n pos Hnd) as (s1 & -> & N1 & P1 & I1 & D1). simpl.
  assert (prv s1 pos = Some p) as (cp & Hcp & Hcp')%prv_Some by (by rewrite P1).
  rewrite Hcp. simpl. rewrite Hcp'.
  destruct (set_prev_fields s1 n p) as (s2 & -> & N2 & P2 & I2 & D2); [congruence|]. simpl.
  assert (prv s2 pos = Some p) as (cp2 & Hcp2 & Hcp2')%prv_Some.
  { rewrite P2, P1. case_decide; congruence. }
  rewrite Hcp2. simpl. rewrite Hcp2'.
  destruct (set_next_fields s2 p n) as (s3 & -> & N3 & P3 & I3 & D3); [congruence|]. simpl.
  destruct (set_prev_fields s3 pos n) as (s4 & -> & N4 & P4 & I4 & D4); [congruence|]. simpl.
  destruct (set_in_list_fields s4 n true) as (s5 & -> & N5 & P5 & I5 & D5); [congruence|].
  eexists. split; [done|]. split_and!; [intros y..|congruence].
  - rewrite N5, N4, N3, N2, N1. repeat case_decide; congruence.
  - rewrite P5, P4, P3, P2, P1. repeat case_decide; congruence.
  - rewrite I5, I4, I3, I2, I1. repeat case_decide; congruence.
Qed.

Lemma insert_after_fields s pos q n :
  inl s n = Some false → nxt s pos = Some q → q ∈ dom s → n ≠ pos → n ≠ q →
  ∃ s', clist_insert_after pos n s = Some s' ∧ fields s s'
    (λ y, if decide (y = n) then Some q else if decide (y = pos) then Some n else nxt s y)
    (λ y, if decide (y = n) then Some pos else if decide (y = q) then Some n else prv s y)
    (λ y, if decide (y = n) then Some true else inl s y).
Proof.
  intros Hi Hq Hqd Hnp Hnq. unfold clist_insert_after.
  pose proof (inl_dom _ _ _ Hi) as Hnd. pose proof (nxt_dom _ _ _ Hq) as Hposd.
  apply inl_Some in Hi as (c & Hc & Hf). rewrite Hc. simpl. rewrite Hf.
  assert (nxt s pos = Some q) as (cp & Hcp & Hcp')%nxt_Some by done.
  rewrite Hcp. simpl. rewrite Hcp'.
  destruct (set_next_fields s n q Hnd) as (s1 & -> & N1 & P1 & I1 & D1). simpl.
  assert (nxt s1 pos = Some q) as (cp2 & Hcp2 & Hcp2')%nxt_Some.
  { rewrite N1. case_decide; congruence. }
  rewrite Hcp2. simpl. rewrite Hcp2'.
  destruct (set_prev_fields s1 q n) as (s2 & -> & N2 & P2 & I2 & D2); [congruence|]. simpl.
  destruct (set_prev_fields s2 n pos) as (s3 & -> & N3 & P3 & I3 & D3); [congruence|]. simpl.
  destruct (set_next_fields s3 pos n) as (s4 & -> & N4 & P4 & I4 & D4); [congruence|]. simpl.
  destruct (set_in_list_fields s4 n true) as (s5 & -> & N5 & P5 & I5 & D5); [congruence|].
  eexists. split; [done|]. split_and!; [intros y..|congruence].
  - rewrite N5, N4, N3, N2, N1. repeat case_decide; congruence.
  - rewrite P5, P4, P3, P2, P1. repeat case_decide; congruence.
  - rewrite I5, I4, I3, I2, I1. repeat case_decide; congruence.
Qed.

Lemma init_node_fields s n :
  n ∈ dom s → fields s (clist_init_node n s)
    (λ y, if decide (y = n) then Some n else nxt s y)
    (λ y, if decide (y = n) then Some n else prv s y)
    (λ y, if decide (y = n) then Some false else inl s y).
Proof. intros [c Hc]%elem_of_dom. by apply (fields_insert _ _ c). Qed.

Lemma remove_fields s n p q :
  inl s n = Some true → prv s n = Some p → nxt s n = Some q →
  p ∈ dom s → q ∈ dom s → n ≠ p → n ≠ q →
  ∃ s', clist_remove (Some n) s = Some s' ∧ fields s s'
    (λ y, if decide (y = n) then Some n else if decide (y = p) then Some q else nxt s y)
    (λ y, if decide (y = n) then Some n else if decide (y = q) then Some p else prv s y)
    (λ y, if decide (y = n) then Some false else inl s y).
Proof.
  intros Hi Hp Hq Hpd Hqd Hnp Hnq. unfold clist_remove.
  pose proof (inl_dom _ _ _ Hi) as Hnd.
  apply inl_Some in Hi as (c & Hc & Hf). rewrite Hc. simpl. rewrite Hf. simpl.
  assert (prev c = p ∧ next c = q) as [-> ->].
  { unfold prv, nxt in *. rewrite Hc in *. naive_solver. }
  destruct (set_next_fields s p q Hpd) as (s1 & -> & N1 & P1 & I1 & D1). simpl.
  assert (s1 !! n = Some c) as ->.
  { assert (n ∈ dom s1) as [c' Hc']%elem_of_dom by congruence.
    specialize (N1 n). specialize (P1 n). specialize (I1 n).
    unfold nxt, prv, inl in *. rewrite Hc' in *. rewrite Hc in *.
    rewrite decide_False in N1 by done. destruct c, c'. simpl in *. congruence. }
  simpl. assert (prev c = p ∧ next c = q) as [-> ->].
  { unfold prv, nxt in *. rewrite Hc in *. naive_solver. }
  destruct (set_prev_fields s1 q p) as (s2 & -> & N2 & P2 & I2 & D2); [congruence|]. simpl.
  eexists. split; [done|].
  destruct (init_node_fields s2 n) as (N3 & P3 & I3 & D3); [congruence|].
  split_and!; [intros y..|congruence].
  - rewrite N3, N2, N1. repeat case_decide; congruence.
  - rewrite P3, P2, P1. repeat case_decide; congruence.
  - rewrite I3, I2, I1. repeat case_decide; congruence.
Qed.
End Effects.

(** ** The operations refine operations on lists *)

Section Refinement.
Context {N : Type} `{Countable N}.
Implicit Types (s : store N) (n x y pos node h : N) (l : list N) (L : gmap N (list N)) (B : option N).

(** A node of the store that no list of [L] mentions. *)
Definition unused s L n : Prop :=
  n ∈ dom s ∧ L !! n = None ∧ ∀ h l, L !! h = Some l → n ∉ l.

Lemma unused_inl B s L n : RepB B s L → unused s L n → inl s n = Some false.
Proof.
  intros HR ([c Hc]%elem_of_dom & _ & Hno).
  destruct (in_list c) eqn:Hf; [|unfold inl; by rewrite Hc; simpl; rewrite Hf].
  destruct (rep_flag B s L HR n) as (h & l & Hh & Hl); [unfold inl; by rewrite Hc; simpl; rewrite Hf|].
  by destruct (Hno h l Hh).
Qed.

Lemma unused_not_elem s L n h l : unused s L n → L !! h = Some l → n ∉ h :: l.
Proof. intros (_ & Hn & Hno) Hh. rewrite not_elem_of_cons. split; [congruence|eauto]. Qed.

Lemma chain_dom k s a l b x : chain k s a l b → x ∈ a :: l → x ∈ dom s.
Proof.
  revert a. induction l as [|y l IH]; intros a; simpl.
  - intros [? _] ->%list_elem_of_singleton. by eapply nxt_dom.
  - intros [[? _] Hc] [->|Hx]%elem_of_cons; [by eapply nxt_dom|]. eauto.
Qed.

Lemma rep_dom B s L h l x : RepB B s L → L !! h = Some l → x ∈ h :: l → x ∈ dom s.
Proof. intros HR Hh. eapply chain_dom, (clist_chain _ s h l), HR, Hh. Qed.

Lemma rep_next_in B s L h l1 x l2 :
  RepB B s L → L !! h = Some (l1 ++ x :: l2) →
  nxt s x = Some (after l2 h) ∧ prv s x = Some (before h l1).
Proof.
  intros HR Hh. destruct (rep_clist B s L HR h _ Hh) as [Hc _ _ _].
  apply chain_app in Hc as [Hc1 Hc2]. split; [by eapply chain_nxt|by eapply chain_prv].
Qed.

Lemma rep_next_head B s L h l :
  RepB B s L → L !! h = Some l →
  nxt s h = Some (after l h) ∧ (B ≠ Some h → prv s h = Some (before h l)).
Proof.
  intros HR Hh. destruct (rep_clist B s L HR h _ Hh) as [Hc _ _ _].
  split; [by eapply chain_nxt|]. intros HB. rewrite bool_decide_false in Hc by done.
  by eapply chain_prv.
Qed.

Lemma after_elem l h : after l h ∈ h :: l.
Proof. rewrite elem_of_cons. apply after_in. Qed.
Lemma before_elem h l : before h l ∈ h :: l.
Proof. rewrite elem_of_cons. apply before_in. Qed.

Lemma is_clist_frame k s s' h l :
  (∀ y, y ∈ h :: l → nxt s' y = nxt s y ∧ prv s' y = prv s y ∧ inl s' y = inl s y) →
  is_clist k s h l → is_clist k s' h l.
Proof.
  intros Hy [Hc Hf Hs Hnd]. split; [| | |done].
  - eapply chain_frame; [| |exact Hc]; intros y Hin; apply Hy; elems; tauto.
  - apply Forall_forall. intros x Hx. rewrite Forall_forall in Hf.
    rewrite <-(Hf x Hx). apply Hy. elems; tauto.
  - rewrite <-Hs. apply Hy. elems; tauto.
Qed.

(** Splicing an unused node in one list leaves the others alone. *)
Lemma rep_insert B s s' L h l1 l2 n :
  RepB B s L → L !! h = Some (l1 ++ l2) → unused s L n →
  fields s s'
    (λ y, if decide (y = n) then Some (after l2 h) else if decide (y = before h l1) then Some n else nxt s y)
    (λ y, if decide (y = n) then Some (before h l1) else if decide (y = after l2 h) then Some n else prv s y)
    (λ y, if decide (y = n) then Some true else inl s y) →
  RepB B s' (<[h := l1 ++ n :: l2]> L).
Proof.
  intros HR Hh Hun (HN & HP & HI & HD).
  pose proof (unused_not_elem _ _ _ _ _ Hun Hh) as Hnin.
  pose proof (before_elem h l1) as Hbe. pose proof (after_elem l2 h) as Hae.
  destruct (rep_clist B s L HR h _ Hh) as [Hc Hf Hs Hnd].
  split.
  - intros h' l' Hl'. destruct (decide (h' = h)) as [->|Hne].
    + rewrite lookup_insert_eq in Hl'. injection Hl' as <-. split.
      * apply (chain_insert _ s); [done| | |done|done|done]; clear -Hnd Hnin; elems; tauto.
      * apply Forall_app in Hf as [Hf1 Hf2].
        apply Forall_app; split; [|constructor]; [|by rewrite HI, decide_True|];
          (eapply Forall_impl; [eassumption|]); intros x Hx; rewrite HI; by destruct (decide (x = n)).
      * rewrite HI. destruct (decide (h = n)) as [->|]; [elems; tauto|done].
      * clear -Hnd Hnin. rewrite NoDup_cons, NoDup_middle. elems. naive_solver.
    + rewrite lookup_insert_ne in Hl' by done.
      assert (Hout : ∀ y, y ∈ h' :: l' → y ∉ h :: l1 ++ l2).
      { intros y Hy Hy'. apply Hne. by eapply (rep_disj B s L). }
      pose proof (unused_not_elem _ _ _ _ _ Hun Hl') as Hnin'.
      eapply is_clist_frame; [|by apply (rep_clist B s L)].
      intros y Hy. specialize (Hout y Hy). rewrite HN, HP, HI.
      clear -Hout Hy Hnin' Hbe Hae. split_and!; ptr_cases.
  - assert (Hsub : ∀ k kl x, <[h:=l1 ++ n :: l2]> L !! k = Some kl → x ∈ k :: kl →
      (k = h ∧ x = n) ∨ (x ≠ n ∧ ∃ kl', L !! k = Some kl' ∧ x ∈ k :: kl')).
    { intros k kl x. rewrite lookup_insert. destruct (decide (h = k)) as [<-|].
      - intros [= <-] Hx. destruct (decide (x = n)); [auto|right; split; [done|]].
        eexists. split; [exact Hh|]. elems; tauto.
      - intros Hk Hx. right. pose proof (unused_not_elem _ _ _ _ _ Hun Hk).
        split; [|eauto]. by intros ->. }
    intros h1 h2 k1 k2 x Hk1 Hk2 Hx1 Hx2.
    destruct (Hsub _ _ _ Hk1 Hx1) as [[??]|(?&?&?&?)], (Hsub _ _ _ Hk2 Hx2) as [[??]|(?&?&?&?)];
      try congruence. by eapply (rep_disj B s L).
  - intros x. rewrite HI. destruct (decide (x = n)) as [->|].
    + intros _. exists h. eexists. rewrite lookup_insert_eq. split; [done|]. elems; tauto.
    + intros (h' & l' & Hl' & Hx)%(rep_flag B s L HR).
      destruct (decide (h' = h)) as [->|].
      * exists h. eexists. rewrite lookup_insert_eq. split; [done|]. simplify_eq. elems; tauto.
      * exists h', l'. by rewrite lookup_insert_ne.
Qed.

Lemma rep_delete B s s' L h l1 l2 n :
  RepB B s L → L !! h = Some (l1 ++ n :: l2) →
  fields s s'
    (λ y, if decide (y = n) then Some n else if decide (y = before h l1) then Some (after l2 h) else nxt s y)
    (λ y, if decide (y = n) then Some n else if decide (y = after l2 h) then Some (before h l1) else prv s y)
    (λ y, if decide (y = n) then Some false else inl s y) →
  RepB B s' (<[h := l1 ++ l2]> L).
Proof.
  intros HR Hh (HN & HP & HI & HD).
  pose proof (before_elem h l1) as Hbe. pose proof (after_elem l2 h) as Hae.
  destruct (rep_clist B s L HR h _ Hh) as [Hc Hf Hs Hnd].
  assert ((n ∉ h :: l1 ++ l2) ∧ NoDup (h :: l1 ++ l2)) as [Hnin Hnd'].
  { clear -Hnd. rewrite NoDup_cons, NoDup_middle in Hnd. elems. naive_solver. }
  split.
  - intros h' l' Hl'. destruct (decide (h' = h)) as [->|Hne].
    + rewrite lookup_insert_eq in Hl'. injection Hl' as <-. split; [| | |done].
      * apply (chain_delete _ s _ _ _ _ _ n); [done| | | |done].
        -- by apply NoDup_cons in Hnd as [? _].
        -- intros y Hy. rewrite HN. by rewrite decide_False.
        -- intros y Hy. rewrite HP. by rewrite decide_False.
      * apply Forall_app in Hf as [Hf1 Hf2]. inversion_clear Hf2.
        apply Forall_app; split; apply Forall_forall; intros x Hx;
          rewrite HI; (rewrite decide_False; [by eapply Forall_forall in Hx; [|eassumption]|]);
          intros ->; elems; tauto.
      * rewrite HI. by destruct (decide (h = n)).
    + rewrite lookup_insert_ne in Hl' by done.
      assert (Hout : ∀ y, y ∈ h' :: l' → y ∉ h :: l1 ++ n :: l2).
      { intros y Hy Hy'. apply Hne. by eapply (rep_disj B s L). }
      eapply is_clist_frame; [|by apply (rep_clist B s L)].
      intros y Hy. specialize (Hout y Hy). rewrite HN, HP, HI.
      clear -Hout Hy Hbe Hae. split_and!; ptr_cases.
  - assert (Hsub : ∀ k kl x, <[h:=l1 ++ l2]> L !! k = Some kl → x ∈ k :: kl →
      ∃ kl', L !! k = Some kl' ∧ x ∈ k :: kl').
    { intros k kl x. rewrite lookup_insert. destruct (decide (h = k)) as [<-|]; [|eauto].
      intros [= <-] Hx. eexists. split; [exact Hh|]. elems; tauto. }
    intros h1 h2 k1 k2 x Hk1 Hk2 Hx1 Hx2.
    destruct (Hsub _ _ _ Hk1 Hx1) as (?&?&?). destruct (Hsub _ _ _ Hk2 Hx2) as (?&?&?).
    by eapply (rep_disj B s L).
  - intros x. rewrite HI. destruct (decide (x = n)) as [->|]; [done|].
    intros (h' & l' & Hl' & Hx)%(rep_flag B s L HR).
    destruct (decide (h' = h)) as [->|].
    + exists h. eexists. rewrite lookup_insert_eq. split; [done|]. simplify_eq. elems; tauto.
    + exists h', l'. by rewrite lookup_insert_ne.
Qed.
End Refinement.

Section Lists.
Context {N : Type} `{Countable N}.
Implicit Types (s : store N) (n x y pos node h : N) (l : list N) (L : gmap N (list N)) (B : option N).

Lemma rep_split B s L h l1 l2 :
  RepB B s L → B ≠ Some h → L !! h = Some (l1 ++ l2) →
  nxt s (before h l1) = Some (after l2 h) ∧ prv s (after l2 h) = Some (before h l1).
Proof.
  intros HR HB Hh. split.
  - destruct l1 as [|x l1 _] using rev_ind; simpl in *; [by eapply rep_next_head|].
    rewrite before_app, <-app_assoc in *. by eapply rep_next_in.
  - destruct l2 as [|x l2]; simpl in *; [|by eapply rep_next_in].
    rewrite app_nil_r in Hh. by eapply rep_next_head.
Qed.

Lemma insert_before_rep B s L h l1 l2 n :
  RepB B s L → B ≠ Some h → L !! h = Some (l1 ++ l2) → unused s L n →
  ∃ s', clist_insert_before (after l2 h) n s = Some s' ∧
    RepB B s' (<[h := l1 ++ n :: l2]> L) ∧ dom s' = dom s.
Proof.
  intros HR HB Hh Hun. destruct (rep_split B s L h l1 l2 HR HB Hh) as [Hn Hp].
  pose proof (unused_not_elem _ _ _ _ _ Hun Hh) as Hnin.
  pose proof (after_elem l2 h). pose proof (before_elem h l1).
  destruct (insert_before_fields s (after l2 h) (before h l1) n) as (s' & Hs' & Hf);
    [by eapply unused_inl|done|by eapply nxt_dom|intros ->; elems; tauto..|].
  exists s'. split_and!; [done|by eapply rep_insert|apply Hf].
Qed.

Lemma insert_after_rep B s L h l1 l2 n :
  RepB B s L → B ≠ Some h → L !! h = Some (l1 ++ l2) → unused s L n →
  ∃ s', clist_insert_after (before h l1) n s = Some s' ∧
    RepB B s' (<[h := l1 ++ n :: l2]> L) ∧ dom s' = dom s.
Proof.
  intros HR HB Hh Hun. destruct (rep_split B s L h l1 l2 HR HB Hh) as [Hn Hp].
  pose proof (unused_not_elem _ _ _ _ _ Hun Hh) as Hnin.
  pose proof (after_elem l2 h). pose proof (before_elem h l1).
  destruct (insert_after_fields s (before h l1) (after l2 h) n) as (s' & Hs' & Hf);
    [by eapply unused_inl|done|by eapply prv_dom|intros ->; elems; tauto..|].
  exists s'. split_and!; [done|by eapply rep_insert|apply Hf].
Qed.

Lemma push_back_rep B s L h l n :
  RepB B s L → B ≠ Some h → L !! h = Some l → unused s L n →
  ∃ s', clist_push_back h n s = Some s' ∧ RepB B s' (<[h := l ++ [n]]> L) ∧ dom s' = dom s.
Proof. intros HR HB Hh Hun. apply (insert_before_rep B s L h l [] n); [done|done|by rewrite app_nil_r|done]. Qed.

Lemma push_front_rep B s L h l n :
  RepB B s L → B ≠ Some h → L !! h = Some l → unused s L n →
  ∃ s', clist_push_front h n s = Some s' ∧ RepB B s' (<[h := n :: l]> L) ∧ dom s' = dom s.
Proof. intros HR HB Hh Hun. by apply (insert_after_rep B s L h [] l n). Qed.

Lemma remove_rep B s L h l1 l2 n :
  RepB B s L → L !! h = Some (l1 ++ n :: l2) →
  ∃ s', clist_remove (Some n) s = Some s' ∧ RepB B s' (<[h := l1 ++ l2]> L) ∧ dom s' = dom s.
Proof.
  intros HR Hh. destruct (rep_next_in B s L h l1 n l2 HR Hh) as [Hn Hp].
  destruct (rep_clist B s L HR h _ Hh) as [_ Hf _ Hnd].
  pose proof (after_elem l2 h) as Ha. pose proof (before_elem h l1) as Hb.
  rewrite NoDup_cons, NoDup_middle in Hnd.
  destruct (remove_fields s n (before h l1) (after l2 h)) as (s' & Hs' & Hfs); try done.
  - rewrite Forall_app, Forall_cons in Hf. tauto.
  - eapply (rep_dom B s L h); [done|exact Hh|]. elems; tauto.
  - eapply (rep_dom B s L h); [done|exact Hh|]. elems; tauto.
  - clear -Hnd Hb. intros Hx. rewrite <-Hx in Hb. elems; naive_solver.
  - clear -Hnd Ha. intros Hx. rewrite <-Hx in Ha. elems; naive_solver.
  - exists s'. split_and!; [done|by eapply rep_delete|apply Hfs].
Qed.

Lemma empty_rep B s L h l : RepB B s L → L !! h = Some l → clist_empty h s = Some (bool_decide (l = [])).
Proof.
  intros HR Hh. destruct (rep_next_head B s L h l HR Hh) as [(c & Hc & Hn)%nxt_Some _].
  unfold clist_empty. rewrite Hc. simpl. f_equal. apply bool_decide_ext. rewrite Hn.
  destruct (rep_clist B s L HR h _ Hh) as [_ _ _ Hnd].
  destruct l as [|x l]; simpl; [tauto|]. split; [intros ->|done].
  rewrite NoDup_cons in Hnd. elems; tauto.
Qed.

Lemma first_rep B s L h l : RepB B s L → L !! h = Some l → clist_first h s = Some (head l).
Proof.
  intros HR Hh. unfold clist_first. rewrite (empty_rep B s L h l HR Hh). simpl.
  destruct (rep_next_head B s L h l HR Hh) as [(c & -> & Hn)%nxt_Some _]. simpl.
  rewrite Hn. by destruct l.
Qed.

Lemma last_before h x l : last (x :: l) = Some (before h (x :: l)).
Proof. revert x. induction l as [|y l IH]; intros x; [done|]. apply (IH y). Qed.

Lemma last_rep B s L h l : RepB B s L → B ≠ Some h → L !! h = Some l → clist_last h s = Some (last l).
Proof.
  intros HR HB Hh. unfold clist_last. rewrite (empty_rep B s L h l HR Hh). simpl.
  destruct (rep_next_head B s L h l HR Hh) as [_ Hp].
  apply prv_Some in Hp as (c & -> & Hn); [|done]. simpl.
  rewrite Hn. destruct l as [|x l]; [done|]. rewrite bool_decide_false by done.
  by rewrite (last_before h).
Qed.

Lemma pop_front_rep B s L h l :
  RepB B s L → L !! h = Some l →
  ∃ s', clist_pop_front h s = Some (head l, s') ∧ RepB B s' (<[h := tail l]> L) ∧ dom s' = dom s.
Proof.
  intros HR Hh. unfold clist_pop_front. rewrite (empty_rep B s L h l HR Hh). cbn [mbind option_bind].
  destruct l as [|x l].
  - rewrite bool_decide_true by done. simpl. exists s. by rewrite insert_id.
  - rewrite bool_decide_false by done.
    destruct (rep_next_head B s L h _ HR Hh) as [(c & -> & Hn)%nxt_Some _]. simpl in *. rewrite Hn.
    destruct (remove_rep B s L h [] l x HR Hh) as (s' & Hs' & ? & ?).
    change (option_bind ?a ?b ?f ?o) with (@mbind option option_bind a b f o).
    unfold clist_remove in Hs'. rewrite Hs'. simpl. eauto.
Qed.

(** Inserting a node that is in a list and removing one that is in none are
    no-ops. *)
Lemma insert_before_noop s pos n : inl s n = Some true → clist_insert_before pos n s = Some s.
Proof.
  intros (c & Hc & Hf)%inl_Some. unfold clist_insert_before. rewrite Hc. simpl. by rewrite Hf.
Qed.
Lemma insert_after_noop s pos n : inl s n = Some true → clist_insert_after pos n s = Some s.
Proof.
  intros (c & Hc & Hf)%inl_Some. unfold clist_insert_after. rewrite Hc. simpl. by rewrite Hf.
Qed.
Lemma remove_noop s n : inl s n = Some false → clist_remove (Some n) s = Some s.
Proof.
  intros (c & Hc & Hf)%inl_Some. unfold clist_remove. rewrite Hc. simpl. by rewrite Hf.
Qed.

Lemma rep_inl B s L h l n : RepB B s L → L !! h = Some l → n ∈ l → inl s n = Some true.
Proof. intros HR Hh Hn. destruct (rep_clist B s L HR h _ Hh) as [_ Hf _ _]. by eapply Forall_forall in Hf. Qed.

Lemma rep_nodup B s L h l : RepB B s L → L !! h = Some l → NoDup l.
Proof. intros HR Hh. destruct (rep_clist B s L HR h _ Hh) as [_ _ _ Hnd]. by apply NoDup_cons in Hnd as [_ ?]. Qed.

(** A list is at most as long as the store is large, which is what bounds the
    walks. *)
Lemma rep_length B s L h l : RepB B s L → L !! h = Some l → (length l < size s)%nat.
Proof.
  intros HR Hh. destruct (rep_clist B s L HR h _ Hh) as [_ _ _ Hnd].
  assert (list_to_set (h :: l) ⊆ dom s) as Hsub.
  { intros x Hx%elem_of_list_to_set. by eapply rep_dom. }
  apply subseteq_size in Hsub. rewrite size_list_to_set in Hsub by done.
  rewrite size_dom in Hsub. simpl in Hsub. lia.
Qed.
End Lists.

(** ** Walks *)

Section Walks.
Context {N : Type} `{Countable N}.
Implicit Types (s : store N) (n x y pos node h : N) (l : list N) (L : gmap N (list N)) (B : option N).

(** [l] followed by [b] are the successive values of [f]. *)
Fixpoint path (f : N → option N) l (b : N) : Prop :=
  match l with
  | [] => True
  | x :: l => f x = Some (after l b) ∧ path f l b
  end.

Lemma chain_path k s a l b : chain k s a l b → path (nxt s) l b.
Proof.
  revert a. induction l as [|x l IH]; intros a; simpl; [done|].
  intros [_ Hc]. split; [by eapply chain_nxt|eauto].
Qed.

Lemma path_snoc f l x b : path f (l ++ [x]) b ↔ path f l x ∧ f x = Some b.
Proof.
  induction l as [|y l IH]; simpl; [tauto|]. rewrite IH.
  assert (after (l ++ [x]) b = after l x) as -> by (by destruct l). tauto.
Qed.

Lemma after_reverse a l : after (reverse l) a = before a l.
Proof.
  induction l as [|x l _] using rev_ind; [done|].
  by rewrite reverse_app, before_app.
Qed.

Lemma chain_path_rev k s a l b : chain k s a l b → path (prv s) (reverse l) a.
Proof.
  revert a. induction l as [|x l IH]; intros a; simpl; [done|].
  intros [[_ Hp] Hc]. rewrite reverse_cons, path_snoc. eauto.
Qed.

Lemma find_loop_path s step h pred l fuel :
  path (λ y, step <$> s !! y) l h → h ∉ l → (length l < fuel)%nat →
  find_loop fuel step h pred (after l h) s = Some (List.find pred l).
Proof.
  revert fuel. induction l as [|x l IH]; intros [|fuel] Hp Hh Hf; simpl in *; try lia.
  - by rewrite decide_True.
  - destruct Hp as [(c & Hc & Hs)%fmap_Some Hp]. elems. rewrite decide_False by done.
    destruct (pred x); [done|]. rewrite Hc. simpl. rewrite <-Hs. apply IH; [done|done|lia].
Qed.

Lemma find_rep B s L h l pred :
  RepB B s L → L !! h = Some l → clist_find h pred s = Some (List.find pred l).
Proof.
  intros HR Hh. unfold clist_find.
  destruct (rep_next_head B s L h l HR Hh) as [(c & -> & Hn)%nxt_Some _]. cbn [mbind option_bind]. rewrite Hn.
  pose proof (rep_length B s L h l HR Hh).
  destruct (rep_clist B s L HR h _ Hh) as [Hc _ _ [? _]%NoDup_cons].
  apply find_loop_path; [by eapply chain_path|done|lia].
Qed.

Lemma find_rev_rep B s L h l pred :
  RepB B s L → B ≠ Some h → L !! h = Some l → clist_find_rev h pred s = Some (List.find pred (reverse l)).
Proof.
  intros HR HB Hh. unfold clist_find_rev.
  destruct (rep_next_head B s L h l HR Hh) as [_ Hp]. apply prv_Some in Hp as (c & -> & Hn); [|done]. cbn [mbind option_bind].
  rewrite Hn, <-after_reverse. pose proof (rep_length B s L h l HR Hh).
  destruct (rep_clist B s L HR h _ Hh) as [Hc _ _ [? _]%NoDup_cons].
  apply find_loop_path; [by eapply chain_path_rev|by rewrite elem_of_reverse|].
  rewrite length_reverse. lia.
Qed.

(** Where [clist_insert_sorted] stops: after the longest prefix [cmp] keeps
    before the node. *)
Fixpoint sorted_prefix (cmp : N → N → Z) (node : N) l : list N :=
  match l with
  | [] => []
  | x :: l => if cmp x node <=? 0 then x :: sorted_prefix cmp node l else []
  end.
Fixpoint sorted_suffix (cmp : N → N → Z) (node : N) l : list N :=
  match l with
  | [] => []
  | x :: l' => if cmp x node <=? 0 then sorted_suffix cmp node l' else l
  end.

Lemma sorted_prefix_suffix cmp n l : sorted_prefix cmp n l ++ sorted_suffix cmp n l = l.
Proof. induction l as [|x l IH]; simpl; [done|]. destruct (_ <=? _); simpl; congruence. Qed.

Lemma sorted_loop_path s h cmp n l fuel :
  path (nxt s) l h → h ∉ l → (length l < fuel)%nat →
  sorted_loop fuel h cmp n (after l h) s = Some (after (sorted_suffix cmp n l) h).
Proof.
  revert fuel. induction l as [|x l IH]; intros [|fuel] Hp Hh Hf; simpl in *; try lia.
  - by rewrite decide_False by tauto.
  - destruct Hp as [(c & Hc & Hs)%nxt_Some Hp]. elems. rewrite decide_True by done.
    destruct (cmp x n <=? 0); [|done]. rewrite Hc. simpl. rewrite Hs. apply IH; [done|done|lia].
Qed.

Lemma insert_sorted_rep B s L h l n cmp :
  RepB B s L → B ≠ Some h → L !! h = Some l → unused s L n →
  ∃ s', clist_insert_sorted h n cmp s = Some s' ∧
    RepB B s' (<[h := sorted_prefix cmp n l ++ n :: sorted_suffix cmp n l]> L) ∧ dom s' = dom s.
Proof.
  intros HR HB Hh Hun. unfold clist_insert_sorted.
  destruct (rep_next_head B s L h l HR Hh) as [(c & -> & Hn)%nxt_Some _]. cbn [mbind option_bind]. rewrite Hn.
  pose proof (rep_length B s L h l HR Hh).
  destruct (rep_clist B s L HR h _ Hh) as [Hc _ _ [? _]%NoDup_cons].
  rewrite (sorted_loop_path s h cmp n l); [|by eapply chain_path|done|lia]. cbn [mbind option_bind].
  apply insert_before_rep; [done|done|by rewrite sorted_prefix_suffix|done].
Qed.

(** Resetting a node no list mentions, or turning it into an empty list. *)
Lemma init_fields s n y :
  nxt (clist_init_node n s) y = (if decide (y = n) then Some n else nxt s y) ∧
  prv (clist_init_node n s) y = (if decide (y = n) then Some n else prv s y) ∧
  inl (clist_init_node n s) y = (if decide (y = n) then Some false else inl s y).
Proof.
  unfold nxt, prv, inl, clist_init_node. rewrite lookup_insert.
  repeat case_decide; try congruence; done.
Qed.

Lemma init_rep B s L n :
  RepB B s L → (∀ h l, L !! h = Some l → n ∉ h :: l) → RepB B (clist_init_node n s) L.
Proof.
  intros HR Hn. pose proof (init_fields s n) as Hi. split.
  - intros h l Hh. eapply is_clist_frame; [|by apply (rep_clist B s L)].
    intros y Hy. destruct (Hi y) as (-> & -> & ->).
    assert (y ≠ n) by (intros ->; by eapply Hn). by rewrite !decide_False.
  - eapply (rep_disj B s L HR).
  - intros x Hx. apply (rep_flag B s L HR). destruct (Hi x) as (_ & _ & Hix).
    rewrite Hix in Hx. by destruct (decide (x = n)).
Qed.

Lemma init_head_rep B s L n :
  RepB B s L → (∀ h l, L !! h = Some l → h ≠ n → n ∉ h :: l) → (∀ l, L !! n = Some l → l = []) →
  RepB B (clist_init_node n s) (<[n := []]> L).
Proof.
  intros HR Hn Hl. pose proof (init_fields s n) as Hi. split.
  - intros h l. rewrite lookup_insert. destruct (decide (n = h)) as [->|].
    + intros [= <-]. destruct (Hi h) as (Hi1 & Hi2 & Hi3). split; simpl.
      * split; [rewrite Hi1|rewrite Hi2]; by rewrite decide_True.
      * done.
      * by rewrite Hi3, decide_True.
      * apply NoDup_singleton.
    + intros Hh. eapply is_clist_frame; [|by apply (rep_clist B s L)].
      intros y Hy. destruct (Hi y) as (-> & -> & ->).
      assert (y ≠ n) by (intros ->; by eapply Hn). by rewrite !decide_False.
  - assert (Hsub : ∀ k kl x, <[n:=[]]> L !! k = Some kl → x ∈ k :: kl →
      (k = n ∧ x = n) ∨ (k ≠ n ∧ L !! k = Some kl)).
    { intros k kl x. rewrite lookup_insert. destruct (decide (n = k)) as [->|]; [|auto].
      intros [= <-] ->%list_elem_of_singleton. auto. }
    intros h1 h2 k1 k2 x Hk1 Hk2 Hx1 Hx2.
    destruct (Hsub _ _ _ Hk1 Hx1) as [[??]|[? Hl1]], (Hsub _ _ _ Hk2 Hx2) as [[??]|[? Hl2]]; subst.
    + done.
    + by destruct (Hn _ _ Hl2).
    + by destruct (Hn _ _ Hl1).
    + by eapply (rep_disj B s L HR).
  - intros x Hx. destruct (Hi x) as (_ & _ & Hix). rewrite Hix in Hx. destruct (decide (x = n)); [done|].
    destruct (rep_flag B s L HR x Hx) as (h & l & Hh & Hin). exists h, l.
    rewrite lookup_insert_ne; [done|]. intros ->. apply Hl in Hh. subst. by apply elem_of_nil in Hin.
Qed.
End Walks.

(** ** Traversals *)

Section TraversalRules.
Context {N W : Type} `{HasNodes N W}.
Implicit Types (s : store N) (w : W) (n x y h : N) (l : list N) (L : gmap N (list N)) (B : option N).

(** The first node whose callback returned a non-zero value. *)
Fixpoint first_failure (log : list (N * Z)) : option N :=
  match log with
  | [] => None
  | (x, r) :: log => if r =? 0 then first_failure log else Some x
  end.

Lemma wp_read_nodes {A} (f : store N → option A) a w (Q : A → W → Prop) :
  f (nodes w) = Some a → Q a w → wp (read_nodes f w) Q.
Proof. intros Hf. unfold read_nodes. by rewrite Hf. Qed.

Lemma wp_on_nodes (f : store N → option (store N)) s w (Q : unit → W → Prop) :
  f (nodes w) = Some s → Q tt (set_nodes s w) → wp (on_nodes f w) Q.
Proof. intros Hf. unfold on_nodes. by rewrite Hf. Qed.

(** [clist_for_each], for a callback that may unlink the node it is given and
    work on the other lists. [P log L w] is what holds once the callbacks of
    [log] have run. *)
Section ForEach.
Variables (h : N) (cb : N → M W Z) (P : list (N * Z) → gmap N (list N) → W → Prop).
Hypothesis cb_spec : ∀ log pre x rest L w,
  P log L w → Rep (nodes w) L → L !! h = Some (pre ++ x :: rest) →
  wp (cb x w) (λ r w', ∃ L' pre', P (log ++ [(x, r)]) L' w' ∧ Rep (nodes w') L' ∧
    L' !! h = Some (pre' ++ rest)).

Lemma for_each_loop_wp log pre l L w fuel :
  P log L w → Rep (nodes w) L → L !! h = Some (pre ++ l) → (length l < fuel)%nat →
  h ∉ l → first_failure log = None →
  wp (for_each_loop fuel h cb (after l h) w) (λ r w', ∃ log' L' pre' l',
    P (log ++ log') L' w' ∧ Rep (nodes w') L' ∧ l = log'.*1 ++ l' ∧ (r = None → l' = []) ∧
    L' !! h = Some (pre' ++ l') ∧ r = first_failure log').
Proof.
  revert fuel log pre L w. induction l as [|x l IH]; intros [|fuel] log pre L w HP HR Hh Hf Hn Hff;
    simpl in *; try lia.
  - rewrite decide_True by done. exists [], L, pre, []. by rewrite app_nil_r.
  - rewrite decide_False by (elems; done). apply wp_bind.
    destruct (rep_next_in None _ _ _ _ _ _ HR Hh) as [(c & Hc & Hnx)%nxt_Some _].
    eapply wp_read_nodes; [exact Hc|]. apply wp_bind.
    eapply wp_mono; [by eapply cb_spec|]. intros r w' (L' & pre' & HP' & HR' & Hh').
    destruct (r =? 0) eqn:Hr.
    + rewrite Hnx. eapply wp_mono.
      * eapply (IH fuel (log ++ [(x, r)])); [done|done|exact Hh'|lia|elems; done|].
        clear -Hff Hr. induction log as [|[y q] log IHl]; simpl in *; [by rewrite Hr|].
        destruct (q =? 0); auto.
      * intros r' w'' (log' & L'' & pre'' & l' & HP'' & HR'' & -> & Hl' & Hh'' & Hrr).
        exists ((x, r) :: log'), L'', pre'', l'. simpl. rewrite Hr, <-app_assoc in *. done.
    + exists [(x, r)], L', pre', l. simpl. by rewrite Hr.
Qed.

Lemma for_each_wp l L w :
  P [] L w → Rep (nodes w) L → L !! h = Some l →
  wp (clist_for_each h cb w) (λ r w', ∃ log L' pre' l',
    P log L' w' ∧ Rep (nodes w') L' ∧ l = log.*1 ++ l' ∧ (r = None → l' = []) ∧
    L' !! h = Some (pre' ++ l') ∧ r = first_failure log).
Proof.
  intros HP HR Hh. unfold clist_for_each. apply wp_bind.
  destruct (rep_next_head None _ _ _ _ HR Hh) as [(c & Hc & Hnx)%nxt_Some _].
  eapply wp_read_nodes; [exact Hc|]. apply wp_bind, wp_gets. rewrite Hnx.
  pose proof (rep_length None _ _ _ _ HR Hh).
  destruct (rep_clist None _ _ HR h _ Hh) as [_ _ _ [? _]%NoDup_cons].
  apply (for_each_loop_wp [] [] l L); [done|done|done|lia|done|done].
Qed.
End ForEach.

(** While its list is being emptied the back link of a sentinel is stale,
    until the last node has been unlinked. *)
Definition stale h (rest : list N) : option N := if rest is [] then None else Some h.

Lemma rep_stale s s' L h :
  Rep s L → (∀ y, nxt s' y = nxt s y) → (∀ y, inl s' y = inl s y) →
  (∀ y, y ≠ h → prv s' y = prv s y) → (∀ l, L !! h = Some l → prv s' h = prv s h ∨ l ≠ []) →
  ∀ l, L !! h = Some l → RepB (stale h l) s' L.
Proof.
  intros HR HN HI HP Hst l Hl. split.
  - intros h' l' Hl'. destruct (rep_clist None s L HR h' l' Hl') as [Hc Hf Hs Hnd].
    rewrite bool_decide_false in Hc by done. split; [| |by rewrite HI|done].
    + destruct (decide (h' = h)) as [->|Hne].
      * simplify_eq. destruct (Hst _ Hl) as [Hsame|Hnil].
        -- apply chain_weaken, (chain_frame _ s); [done| |done].
           intros y Hy. destruct (decide (y = h)) as [->|]; auto.
        -- unfold stale. destruct l; [done|]. rewrite bool_decide_true by done.
           apply NoDup_cons in Hnd as [? _]. by eapply chain_stale.
      * apply chain_weaken, (chain_frame _ s); [done| |done].
        intros y Hy. apply HP. intros ->. apply Hne.
        apply (rep_disj None s L HR h' h l' l h); [done|done|clear -Hy; elems; tauto|apply list_elem_of_here].
    + eapply Forall_impl; [done|]. intros x. by rewrite HI.
  - by apply (rep_disj None s L HR).
  - intros x. rewrite HI. by apply (rep_flag None s L HR).
Qed.

Lemma del_first s L h x l :
  Rep s L → L !! h = Some (x :: l) →
  ∃ s', clist_remove (Some x) (clist_init_node h s) = Some s' ∧
    RepB (stale h l) s' (<[h := l]> L) ∧ dom s' = dom s.
Proof.
  intros HR Hh. destruct (rep_clist None s L HR h _ Hh) as [_ Hf Hs Hnd].
  destruct (rep_next_in None s L h [] x l HR Hh) as [Hn Hp].
  rewrite NoDup_cons in Hnd. destruct Hnd as [Hhx [Hxl _]%NoDup_cons].
  apply not_elem_of_cons in Hhx as [Hhx Hhl].
  pose proof (rep_dom None s L h _ h HR Hh ltac:(apply list_elem_of_here)) as Hhd.
  pose proof (init_node_fields s h Hhd) as (N1 & P1 & I1 & D1).
  assert (x ≠ after l h) by (destruct (after_in l h) as [->|?]; congruence).
  destruct (remove_fields (clist_init_node h s) x h (after l h)) as (s' & Hs' & N2 & P2 & I2 & D2);
    rewrite ?N1, ?P1, ?I1, ?D1, ?decide_False by done; try done.
  { by apply Forall_cons in Hf as [? _]. }
  { eapply rep_dom; [done|exact Hh|]. destruct (after_in l h) as [->|?]; elems; tauto. }
  destruct (remove_fields s x h (after l h)) as (s'' & Hs'' & N3 & P3 & I3 & D3); try done.
  { by apply Forall_cons in Hf as [? _]. }
  { eapply rep_dom; [done|exact Hh|]. destruct (after_in l h) as [->|?]; elems; tauto. }
  exists s'. split_and!; [done| |congruence].
  apply (rep_stale s'').
  - apply (rep_delete None s s'' L h [] l x HR Hh). by split_and!.
  - intros y. rewrite N2, N3, N1. repeat destruct (decide _); congruence.
  - intros y. rewrite I2, I3, I1. repeat destruct (decide _); congruence.
  - intros y Hy. rewrite P2, P3, P1. repeat destruct (decide _); congruence.
  - intros l'. rewrite lookup_insert_eq. intros [= <-]. destruct l; [left|by right].
    rewrite P2, P3. simpl. repeat destruct (decide _); congruence.
  - by rewrite lookup_insert_eq.
Qed.

Lemma del_next s L h x l :
  RepB (Some h) s L → L !! h = Some (x :: l) →
  ∃ s', clist_remove (Some x) s = Some s' ∧ RepB (stale h l) s' (<[h := l]> L) ∧ dom s' = dom s.
Proof.
  intros HR Hh. destruct l as [|y l]; simpl; [|by apply (remove_rep _ _ _ _ [])].
  destruct (rep_clist _ s L HR h _ Hh) as [_ Hf _ Hnd].
  destruct (rep_next_in _ s L h [] x [] HR Hh) as [Hn Hp]. simpl in *.
  assert (h ≠ x) by (rewrite NoDup_cons in Hnd; clear -Hnd; elems; tauto).
  pose proof (rep_dom _ s L h _ h HR Hh ltac:(apply list_elem_of_here)) as Hhd.
  destruct (remove_fields s x h h) as (s' & Hs' & Hfs); try done.
  { by apply Forall_cons in Hf as [? _]. }
  exists s'. split_and!; [done| |apply Hfs].
  pose proof (rep_delete _ s s' L h [] [] x HR Hh Hfs) as HR'.
  destruct Hfs as (_ & HP & _ & _). split; [|apply HR'|apply HR'].
  intros h' l' Hl'. destruct (rep_clist _ _ _ HR' h' l' Hl') as [Hc ???]. split; try done.
  rewrite bool_decide_false by done. destruct (decide (h' = h)) as [->|].
  - rewrite lookup_insert_eq in Hl'. injection Hl' as <-. destruct Hc as [? _].
    split; [done|]. intros _. rewrite HP. repeat destruct (decide _); congruence.
  - by rewrite bool_decide_false in Hc by congruence.
Qed.
End TraversalRules.

(** [clist_for_each_and_del], for a callback that is given a node already
    unlinked and works on the other lists. *)
Section ForEachAndDel.
Context {N W : Type} `{HasNodes N W}.
Variables (h : N) (cb : N → M W Z) (P : list (N * Z) → gmap N (list N) → W → Prop).
Hypothesis cb_spec : ∀ log x rest L w s',
  P log L w → L !! h = Some (x :: rest) →
  RepB (stale h rest) s' (<[h := rest]> L) → dom s' = dom (nodes w) →
  wp (cb x (set_nodes s' w)) (λ r w', ∃ L', P (log ++ [(x, r)]) L' w' ∧
    RepB (stale h rest) (nodes w') L' ∧ L' !! h = Some rest).
Hypothesis P_nodes : ∀ L w s', P [] L w → dom s' = dom (nodes w) → P [] L (set_nodes s' w).

Definition or_first (failure : option N) (log : list (N * Z)) : option N :=
  match failure with Some _ => failure | None => first_failure log end.

Lemma or_first_step failure x r log :
  or_first (if r =? 0 then failure else match failure with Some _ => failure | None => Some x end) log
  = or_first failure ((x, r) :: log).
Proof. unfold or_first. simpl. destruct failure, (r =? 0); done. Qed.

Lemma for_each_and_del_loop_wp log l L w fuel failure :
  P log L w → RepB (stale h l) (nodes w) L → L !! h = Some l → (length l < fuel)%nat →
  wp (for_each_and_del_loop fuel h cb (after l h) failure w) (λ r w', ∃ log' L',
    P (log ++ log') L' w' ∧ Rep (nodes w') L' ∧ log'.*1 = l ∧ L' !! h = Some [] ∧
    r = or_first failure log').
Proof.
  revert fuel log L w failure.
  induction l as [|x l IH]; intros [|fuel] log L w failure HP HR Hh Hf; simpl in *; try lia.
  - rewrite decide_True by done. exists [], L. rewrite app_nil_r. by destruct failure.
  - destruct (rep_clist _ _ _ HR h _ Hh) as [_ _ _ Hnd].
    rewrite decide_False by (apply NoDup_cons in Hnd as [? _]; elems; congruence). apply wp_bind.
    destruct (rep_next_in _ _ _ _ [] _ _ HR Hh) as [(c & Hc & Hnx)%nxt_Some _].
    eapply wp_read_nodes; [exact Hc|]. apply wp_bind.
    destruct (del_next (nodes w) L h x l HR Hh) as (s' & Hs' & HR' & Hd').
    eapply wp_on_nodes; [exact Hs'|]. apply wp_bind.
    eapply wp_mono; [by eapply cb_spec|]. intros r w' (L' & HP' & HR'' & Hh').
    rewrite Hnx. eapply wp_mono; [apply (IH fuel (log ++ [(x, r)]) L'); [done|done|done|lia]|].
    intros r' w'' (log' & L'' & HP'' & HR3 & <- & Hh'' & ->).
    exists ((x, r) :: log'), L''. rewrite <-app_assoc in HP''. rewrite or_first_step. done.
Qed.

Lemma for_each_and_del_wp l L w :
  P [] L w → Rep (nodes w) L → L !! h = Some l →
  wp (clist_for_each_and_del h cb w) (λ r w', ∃ log L',
    P log L' w' ∧ Rep (nodes w') L' ∧ log.*1 = l ∧ L' !! h = Some [] ∧ r = first_failure log).
Proof.
  intros HP HR Hh. unfold clist_for_each_and_del. apply wp_bind.
  destruct (rep_next_head None _ _ _ _ HR Hh) as [Hc _].
  pose proof (nxt_dom _ _ _ Hc) as Hhd. apply nxt_Some in Hc as (c & Hc & Hnx).
  eapply wp_read_nodes; [exact Hc|]. apply wp_bind.
  eapply wp_on_nodes; [done|]. apply wp_bind, wp_gets.
  rewrite nodes_set_nodes, Hnx.
  destruct (init_node_fields (nodes w) h Hhd) as (_ & _ & _ & Hdom).
  destruct l as [|x l].
  - simpl. rewrite decide_True by done. exists [], L. simpl. rewrite nodes_set_nodes.
    split_and!; try done; [by apply P_nodes|].
    rewrite <-(insert_id L h []) by done. apply init_head_rep; [done| |naive_solver].
    intros h' l' Hl' Hne Hin. apply Hne.
    apply (rep_disj None _ L HR h' h l' [] h); [done..|apply list_elem_of_here].
  - cbn [for_each_and_del_loop after].
    destruct (rep_clist _ _ _ HR h _ Hh) as [_ _ _ Hnd].
    rewrite decide_False by (apply NoDup_cons in Hnd as [? _]; elems; congruence). apply wp_bind.
    destruct (rep_next_in None _ _ _ [] _ _ HR Hh) as [Hx _].
    pose proof (init_fields (nodes w) h x) as [Hix _].
    rewrite decide_False in Hix by (apply NoDup_cons in Hnd as [? _]; elems; congruence).
    rewrite Hx in Hix. apply nxt_Some in Hix as (c' & Hc' & Hnx').
    eapply wp_read_nodes; [rewrite nodes_set_nodes; exact Hc'|]. apply wp_bind.
    destruct (del_first (nodes w) L h x l HR Hh) as (s' & Hs' & HR' & Hd').
    eapply wp_on_nodes; [rewrite nodes_set_nodes; exact Hs'|]. rewrite set_nodes_set_nodes.
    apply wp_bind. eapply wp_mono; [by eapply cb_spec|]. intros r w' (L' & HP' & HR'' & Hh').
    rewrite Hnx'. pose proof (rep_length None _ _ _ _ HR Hh) as Hlen.
    eapply wp_mono.
    + apply (for_each_and_del_loop_wp ([] ++ [(x, r)]) l L'); [done|done|done|].
      rewrite <-size_dom, Hdom, size_dom. simpl in Hlen. lia.
    + intros r' w'' (log' & L'' & HP'' & HR3 & Hlog & Hh'' & ->).
      exists ((x, r) :: log'), L''. split_and!; [done|done| |done|apply (or_first_step None)].
      csimpl. by rewrite Hlog.
Qed.
End ForEachAndDel.

(** ** The contract of the component

    Programs over the list operations, on the store and on the lists they are
    meant to work on. *)

Section Contract.
Context {N : Type} `{Countable N}.

Inductive lop :=
| PushBack (head node : N)
| PushFront (head node : N)
| Remove (node : N)
| PopFront (head : N)
| First (head : N)
| Last (head : N).

Definition lop_nodes (o : lop) : list N :=
  match o with
  | PushBack h n | PushFront h n => [h; n]
  | Remove n => [n]
  | PopFront h | First h | Last h => [h]
  end.

Definition lop_run (o : lop) (s : store N) : option (option N * store N) :=
  match o with
  | PushBack h n => pair None <$> clist_push_back h n s
  | PushFront h n => pair None <$> clist_push_front h n s
  | Remove n => pair None <$> clist_remove (Some n) s
  | PopFront h => clist_pop_front h s
  | First h => (λ r, (r, s)) <$> clist_first h s
  | Last h => (λ r, (r, s)) <$> clist_last h s
  end.

(** Pushing a node that is already in a list changes nothing; a sentinel is
    never pushed nor removed. *)
Definition lop_spec (o : lop) (L : gmap N (list N)) : option (option N * gmap N (list N)) :=
  match o with
  | PushBack h n =>
    l ← L !! h; if L !! n is Some _ then None else
    Some (None, if decide (n ∈ concat ((map_to_list L).*2)) then L else <[h := l ++ [n]]> L)
  | PushFront h n =>
    l ← L !! h; if L !! n is Some _ then None else
    Some (None, if decide (n ∈ concat ((map_to_list L).*2)) then L else <[h := n :: l]> L)
  | Remove n =>
    if L !! n is Some _ then None else Some (None, filter (λ x, x ≠ n) <$> L)
  | PopFront h => l ← L !! h; Some (head l, <[h := tail l]> L)
  | First h => l ← L !! h; Some (head l, L)
  | Last h => l ← L !! h; Some (last l, L)
  end.

Fixpoint lops_run (os : list lop) (s : store N) : option (list (option N) * store N) :=
  match os with
  | [] => Some ([], s)
  | o :: os => r1 ← lop_run o s; r2 ← lops_run os (snd r1); Some (fst r1 :: fst r2, snd r2)
  end.

Fixpoint lops_spec (os : list lop) (L : gmap N (list N))
    : option (list (option N) * gmap N (list N)) :=
  match os with
  | [] => Some ([], L)
  | o :: os => r1 ← lop_spec o L; r2 ← lops_spec os (snd r1); Some (fst r1 :: fst r2, snd r2)
  end.

Lemma elem_of_lists (L : gmap N (list N)) n :
  n ∈ concat ((map_to_list L).*2) ↔ ∃ h l, L !! h = Some l ∧ n ∈ l.
Proof.
  rewrite list_elem_of_In, in_concat. setoid_rewrite <-list_elem_of_In.
  setoid_rewrite list_elem_of_fmap. split.
  - intros (l & ([h l'] & -> & Hm%elem_of_map_to_list) & Hn). eauto.
  - intros (h & l & Hh & Hn). exists l. split; [|done]. exists (h, l).
    by rewrite elem_of_map_to_list.
Qed.

Lemma filter_not_elem (l : list N) n : n ∉ l → filter (λ x, x ≠ n) l = l.
Proof.
  induction l as [|x l IH]; [done|]. rewrite not_elem_of_cons. intros [??].
  rewrite filter_cons_True by congruence. by rewrite IH.
Qed.

Lemma remove_fmap s (L : gmap N (list N)) h l1 l2 n :
  Rep s L → L !! h = Some (l1 ++ n :: l2) →
  filter (λ x, x ≠ n) <$> L = <[h := l1 ++ l2]> L.
Proof.
  intros HR Hh. apply map_eq. intros h'. rewrite lookup_fmap, lookup_insert.
  pose proof (rep_nodup _ _ _ _ _ HR Hh) as [? ?]%NoDup_middle. elems.
  destruct (decide (h = h')) as [<-|Hne].
  - rewrite Hh. simpl. f_equal. rewrite filter_app, filter_cons_False by tauto.
    by rewrite !filter_not_elem.
  - destruct (L !! h') as [l'|] eqn:Hl'; [|done]. simpl. f_equal. apply filter_not_elem.
    intros Hn. apply Hne. apply (rep_disj None s L HR h h' _ _ n Hh Hl'); elems; tauto.
Qed.

Lemma lop_refines o s L r L' :
  Rep s L → Forall (.∈ dom s) (lop_nodes o) → lop_spec o L = Some (r, L') →
  ∃ s', lop_run o s = Some (r, s') ∧ Rep s' L' ∧ dom s' = dom s.
Proof.
  intros HR Hd. destruct o as [h n|h n|n|h|h|h]; simpl in *.
  - intros (l & Hl & Hs)%bind_Some. destruct (L !! n) eqn:Hn; [done|]. simplify_eq.
    rewrite !Forall_cons in Hd. destruct (decide _) as [(h' & l' & Hh' & Hin)%elem_of_lists|Hno].
    + unfold clist_push_back. rewrite insert_before_noop by (by eapply rep_inl). by eexists.
    + rewrite elem_of_lists in Hno.
      destruct (push_back_rep None s L h l n) as (s' & -> & ? & ?); [done..| |by eexists].
      split_and!; [tauto|done|naive_solver].
  - intros (l & Hl & Hs)%bind_Some. destruct (L !! n) eqn:Hn; [done|]. simplify_eq.
    rewrite !Forall_cons in Hd. destruct (decide _) as [(h' & l' & Hh' & Hin)%elem_of_lists|Hno].
    + unfold clist_push_front. rewrite insert_after_noop by (by eapply rep_inl). by eexists.
    + rewrite elem_of_lists in Hno.
      destruct (push_front_rep None s L h l n) as (s' & -> & ? & ?); [done..| |by eexists].
      split_and!; [tauto|done|naive_solver].
  - intros Hs. destruct (L !! n) eqn:Hn; [done|]. simplify_eq. rewrite !Forall_cons in Hd.
    destruct (decide (n ∈ concat ((map_to_list L).*2))) as [(h & l & Hh & Hin)%elem_of_lists|Hno].
    + apply list_elem_of_split in Hin as (l1 & l2 & ->). rewrite (remove_fmap s L h l1 l2) by done.
      destruct (remove_rep None s L h l1 l2 n) as (s' & Hr & ? & ?); [done..|].
      unfold clist_remove in Hr. rewrite Hr. by eexists.
    + rewrite elem_of_lists in Hno.
      assert (inl s n = Some false) as Hi.
      { eapply unused_inl; [done|]. split_and!; [tauto|done|naive_solver]. }
      pose proof (remove_noop s n Hi) as Hr. unfold clist_remove in Hr. rewrite Hr. eexists.
      split; [done|]. rewrite (map_fmap_ext _ id L), map_fmap_id; [done|].
      intros h l Hl. apply filter_not_elem. naive_solver.
  - intros (l & Hl & Hs)%bind_Some. simplify_eq. by apply (pop_front_rep None).
  - intros (l & Hl & Hs)%bind_Some. simplify_eq. rewrite (first_rep None s L' h l) by done. by eexists.
  - intros (l & Hl & Hs)%bind_Some. simplify_eq. rewrite (last_rep None s L' h l) by done. by eexists.
Qed.

Lemma lops_refine (os : list lop) (s : store N) L rs L' :
  Rep s L → Forall (λ o, Forall (.∈ dom s) (lop_nodes o)) os →
  lops_spec os L = Some (rs, L') →
  ∃ s', lops_run os s = Some (rs, s') ∧ Rep s' L'.
Proof.
  revert s L rs. induction os as [|o os IH]; intros s L rs HR Hd Hs; simpl in *.
  - simplify_eq. eauto.
  - apply Forall_cons in Hd as [Hd1 Hd2].
    apply bind_Some in Hs as ([r1 L1] & Ho & Hs). apply bind_Some in Hs as ([rs2 L2] & Hos & ?).
    simplify_eq/=. destruct (lop_refines o s L r1 L1) as (s1 & -> & HR1 & Hdom); [done..|].
    destruct (IH s1 L1 rs2 HR1) as (s' & Hr & HR'); [by rewrite Hdom|done|].
    exists s'. simpl. by rewrite Hr.
Qed.
End Contract.

(** ** Theorems *)

(** A callback that appends the node to a log and returns a code of its own. *)
Section Logging.
Context {N : Type} `{Countable N}.

#[export] Program Instance log_has_nodes : HasNodes N (store N * list N) :=
  {| nodes := fst; set_nodes := λ s w, (s, snd w) |}.
Next Obligation. done. Qed.
Next Obligation. by intros []. Qed.
Next Obligation. done. Qed.

Definition logging (code : N → Z) (x : N) : M (store N * list N) Z :=
  λ w, Done (code x) (fst w, snd w ++ [x]).
End Logging.

Section Theorems.
Context {N : Type} `{Countable N}.
Implicit Types (s : store N) (L : gmap N (list N)) (h n : N) (l : list N).

(** C25: every sequence of [clist_push_back], [clist_push_front],
    [clist_remove], [clist_pop_front], [clist_first] and [clist_last] calls on
    a well formed store runs without an invalid access, returns what the same
    sequence returns on plain lists (a push of a node that is already in a list
    being a no-op), and leaves a store that represents the resulting lists. *)
Theorem clist_refines_lists (os : list lop) s L rs L' :
  Rep s L → Forall (λ o, Forall (.∈ dom s) (lop_nodes o)) os →
  lops_spec os L = Some (rs, L') →
  ∃ s', lops_run os s = Some (rs, s') ∧ Rep s' L'.
Proof. apply lops_refine. Qed.

(** [clist_find] returns the first node of the list that matches and
    [clist_find_rev] the last one; both return NULL exactly when none does, and
    neither runs out of the nodes of the store. *)
Theorem clist_find_matches s L h l (pred : N → bool) :
  Rep s L → L !! h = Some l →
  clist_find h pred s = Some (List.find pred l) ∧
  clist_find_rev h pred s = Some (List.find pred (reverse l)) ∧
  (clist_find h pred s = Some None ↔ Forall (λ x, pred x = false) l).
Proof.
  intros HR Hh. rewrite (find_rep None s L h l), (find_rev_rep None s L h l) by done.
  split_and!; [done..|]. split.
  - intros [= Hf]. apply Forall_forall. intros x Hx. by apply (find_none _ _ Hf), list_elem_of_In.
  - intros Hall. f_equal. clear -Hall. induction Hall as [|x l Hx _ IH]; simpl; [done|]. by rewrite Hx.
Qed.

(** [clist_insert_sorted] inserts the node in a list sorted by [cmp] so
    that the list stays sorted, keeps every other node in place, and puts the
    node after the nodes it ties with. *)
Theorem clist_insert_sorted_sorted s L h l n (cmp : N → N → Z) :
  Rep s L → L !! h = Some l → unused s L n →
  Sorted (λ x y, cmp x y <= 0) l → (∀ x, x ∈ l → 0 < cmp x n → cmp n x <= 0) →
  ∃ s' l1 l2, clist_insert_sorted h n cmp s = Some s' ∧ l = l1 ++ l2 ∧
    Rep s' (<[h := l1 ++ n :: l2]> L) ∧ Sorted (λ x y, cmp x y <= 0) (l1 ++ n :: l2) ∧
    Forall (λ x, cmp x n <= 0) l1 ∧ (∀ x, head l2 = Some x → 0 < cmp x n).
Proof.
  intros HR Hh Hun Hsrt Htot.
  destruct (insert_sorted_rep None s L h l n cmp) as (s' & ? & ? & _); [done..|].
  exists s', (sorted_prefix cmp n l), (sorted_suffix cmp n l).
  rewrite sorted_prefix_suffix. split_and!; [done|done|done| | |]; clear -Hsrt Htot.
  - induction Hsrt as [|x l Hs IH Hd]; simpl; [by repeat constructor|].
    destruct (Z.leb_spec (cmp x n) 0); simpl.
    + constructor; [apply IH; intros; apply Htot; [by right|done]|].
      destruct l as [|y l]; simpl; [by constructor|]. inversion_clear Hd.
      destruct (cmp y n <=? 0); simpl; by constructor.
    + constructor; [by constructor|]. constructor. apply Htot; [left|lia].
  - clear. induction l as [|x l IH]; simpl; [constructor|].
    destruct (Z.leb_spec (cmp x n) 0); constructor; done.
  - clear. induction l as [|x l IH]; simpl; [done|].
    destruct (Z.leb_spec (cmp x n) 0); [done|]. intros y [= <-]. lia.
Qed.

(** [clist_for_each_and_del] terminates, calls the callback once on every
    node of the list, in order, each node being unlinked before it is passed;
    it leaves the list empty and returns the first node whose callback
    failed, NULL if none did. *)
Theorem clist_for_each_and_del_drains s L h l (code : N → Z) :
  Rep s L → L !! h = Some l →
  ∃ s', clist_for_each_and_del h (logging code) (s, []) =
      Done (List.find (λ x, negb (code x =? 0)) l) (s', l) ∧
    Rep s' (<[h := []]> L) ∧ dom s' = dom s.
Proof.
  intros HR Hh.
  set (P := λ (log : list (N * Z)) L' (w : store N * list N),
    ∃ l', L' = <[h := l']> L ∧ l = log.*1 ++ l' ∧ w.2 = log.*1 ∧
      log = (λ x, (x, code x)) <$> log.*1 ∧ dom w.1 = dom s).
  assert (wp (clist_for_each_and_del h (logging code) (s, [])) (λ r w', ∃ log L',
    P log L' w' ∧ Rep (nodes w') L' ∧ log.*1 = l ∧ L' !! h = Some [] ∧ r = first_failure log))
    as (r & [s' l'] & Hrun & log & L' & (l'' & -> & Hl & Hw & Hlog & Hdom) & HR' & Hfst & Hemp & Hr)%wp_Done.
  { apply (for_each_and_del_wp h (logging code) P) with L; [| | |done|done].
    - intros log x rest L' w s' (l' & -> & Hl & Hw & Hlog & Hdom) Hx HR' Hd. simpl.
      rewrite lookup_insert_eq in Hx. simplify_eq. exists (<[h := rest]> L).
      rewrite insert_insert_eq in HR'. rewrite lookup_insert_eq.
      split_and!; [|done|done]. exists rest. rewrite fmap_app. simpl.
      rewrite fmap_app, <-Hlog, <-app_assoc, Hw. change (nodes w) with (fst w) in Hd. split_and!; done || congruence.
    - intros L' w s' (l' & -> & Hl & Hw & Hlog & Hdom) Hd. exists l'.
      change (nodes w) with (fst w) in Hd. simpl. split_and!; done || congruence.
    - exists l. by rewrite insert_id. }
  rewrite lookup_insert_eq in Hemp. injection Hemp as ->. simpl in Hw. rewrite Hfst in *.
  exists s'. split_and!; [|done|done]. rewrite Hrun, Hr, Hw, Hlog. f_equal. clear.
  induction l as [|x l IH]; csimpl; [done|]. destruct (code x =? 0); done.
Qed.
End Theorems.

(** ** Checking a concrete store *)

Section Checker.
Context {N : Type} `{Countable N}.

Fixpoint chainb (s : store N) (a : N) (l : list N) (b : N) : bool :=
  match l with
  | [] => bool_decide (nxt s a = Some b) && bool_decide (prv s b = Some a)
  | x :: l => bool_decide (nxt s a = Some x) && bool_decide (prv s x = Some a) && chainb s x l b
  end.

(** Every list is a chain of flagged nodes, no node is in two places, and the
    flagged nodes are the ones of the lists. *)
Definition repb (s : store N) (L : gmap N (list N)) : bool :=
  bool_decide (map_Forall (λ h l, chainb s h l h && forallb (λ x, bool_decide (inl s x = Some true)) l &&
    bool_decide (inl s h = Some false)) L) &&
  bool_decide (NoDup (concat ((λ p, p.1 :: p.2) <$> map_to_list L))) &&
  bool_decide (map_Forall (λ x c, in_list c → x ∈ concat ((map_to_list L).*2)) s).

Lemma chainb_chain s a l b : chainb s a l b = true → chain false s a l b.
Proof.
  revert a. induction l as [|x l IH]; intros a; simpl.
  - intros [?%bool_decide_eq_true ?%bool_decide_eq_true]%andb_prop. done.
  - intros [[?%bool_decide_eq_true ?%bool_decide_eq_true]%andb_prop ?]%andb_prop.
    by split; [|apply IH].
Qed.

Lemma concat_elem {A} (ll : list (list A)) l x : l ∈ ll → x ∈ l → x ∈ concat ll.
Proof. rewrite !list_elem_of_In, in_concat. eauto. Qed.

Lemma concat_nodup_in {A} (ll : list (list A)) l : NoDup (concat ll) → l ∈ ll → NoDup l.
Proof.
  induction ll as [|l' ll IH]; simpl; [by intros _ ?%elem_of_nil|].
  rewrite NoDup_app, elem_of_cons. intros (? & ? & ?) [->|?]; auto.
Qed.

Lemma concat_nodup_disj {A B} (f : B → list A) (bs : list B) b1 b2 x :
  NoDup (concat (f <$> bs)) → b1 ∈ bs → b2 ∈ bs → x ∈ f b1 → x ∈ f b2 → b1 = b2.
Proof.
  induction bs as [|b bs IH]; simpl; [by intros _ ?%elem_of_nil|].
  rewrite NoDup_app, !elem_of_cons. intros (? & Hd & ?) [->|Hb1] [->|Hb2] Hx1 Hx2; auto.
  - destruct (Hd x Hx1). eapply concat_elem; [|exact Hx2]. by apply list_elem_of_fmap_2.
  - destruct (Hd x Hx2). eapply concat_elem; [|exact Hx1]. by apply list_elem_of_fmap_2.
Qed.

Lemma repb_rep s L : repb s L = true → Rep s L.
Proof.
  unfold repb. intros [[HL%bool_decide_eq_true Hnd%bool_decide_eq_true]%andb_prop Hf%bool_decide_eq_true]%andb_prop.
  split.
  - intros h l Hl. rewrite bool_decide_false by done. specialize (HL h l Hl). simpl in HL.
    apply Is_true_true in HL. apply andb_prop in HL as [[Hc Hfl]%andb_prop Hh%bool_decide_eq_true].
    split; [by apply chainb_chain| |done|].
    + rewrite forallb_forall in Hfl. apply Forall_forall. intros x Hx%list_elem_of_In.
      by eapply bool_decide_eq_true_1, Hfl.
    + eapply (concat_nodup_in _ (h :: l) Hnd). apply list_elem_of_fmap. exists (h, l).
      by rewrite elem_of_map_to_list.
  - intros h1 h2 l1 l2 x Hl1 Hl2 Hx1 Hx2.
    assert ((h1, l1) = (h2, l2)) as [=]; [|done].
    eapply (concat_nodup_disj (λ p, p.1 :: p.2) _ _ _ x Hnd); by rewrite ?elem_of_map_to_list.
  - intros x (c & Hc & Hi)%inl_Some. apply elem_of_lists. apply (Hf x c Hc). by rewrite Hi.
Qed.
End Checker.

(** ** Witnesses *)

(** Two sentinels, 0 and 10, and three nodes in no list. *)
Definition demo_store : store nat :=
  clist_init_node 3%nat (clist_init_node 2%nat (clist_init_node 1%nat
    (clist_init_node 10%nat (clist_init_node 0%nat ∅)))).
Definition demo_lists : gmap nat (list nat) := {[0%nat := []; 10%nat := []]}.

Lemma demo_rep : Rep demo_store demo_lists.
Proof. apply repb_rep. by vm_compute. Qed.

(** The same store with 1, 2 and 3 in the first list. *)
Definition demo_full : store nat :=
  default ∅ (snd <$> lops_run [PushBack 0 1; PushBack 0 2; PushBack 0 3]%nat demo_store).
Definition demo_full_lists : gmap nat (list nat) := {[0%nat := [1;2;3]%nat; 10%nat := []]}.

Lemma demo_full_rep : Rep demo_full demo_full_lists.
Proof. apply repb_rep. by vm_compute. Qed.

Lemma clist_refines_lists_witness :
  ∃ s', lops_run [PushBack 0 1; PushBack 0 2; PushFront 0 3; PushBack 10 1; Remove 2; PopFront 0; Last 0]%nat
    demo_store = Some ([None; None; None; None; None; Some 3; Some 1]%nat, s') ∧
    Rep s' {[0%nat := [1%nat]; 10%nat := []]}.
Proof.
  apply (clist_refines_lists _ _ demo_lists).
  - exact demo_rep.
  - repeat constructor; vm_compute; reflexivity.
  - vm_compute. reflexivity.
Defined.

Lemma clist_find_matches_witness :
  clist_find 0%nat Nat.even demo_full = Some (Some 2%nat) ∧
  clist_find_rev 0%nat Nat.odd demo_full = Some (Some 3%nat) ∧
  clist_find 0%nat (Nat.eqb 7) demo_full = Some None.
Proof.
  split_and!.
  - apply (clist_find_matches demo_full demo_full_lists 0%nat [1;2;3]%nat Nat.even demo_full_rep eq_refl).
  - apply (clist_find_matches demo_full demo_full_lists 0%nat [1;2;3]%nat Nat.odd demo_full_rep eq_refl).
  - apply (clist_find_matches demo_full demo_full_lists 0%nat [1;2;3]%nat (Nat.eqb 7) demo_full_rep eq_refl).
    by repeat constructor.
Defined.

(** Node 9 is inserted by a comparison under which it ties with 2. *)
Definition demo_key (n : nat) : Z := if decide (n = 9%nat) then 2 else Z.of_nat n.
Definition demo_cmp (x y : nat) : Z := demo_key x - demo_key y.

Lemma clist_insert_sorted_sorted_witness :
  ∃ s' l1 l2, clist_insert_sorted 0%nat 9%nat demo_cmp (clist_init_node 9%nat demo_full) = Some s' ∧
    [1;2;3]%nat = l1 ++ l2 ∧
    Rep s' (<[0%nat := l1 ++ 9%nat :: l2]> demo_full_lists) ∧
    Sorted (λ x y, demo_cmp x y <= 0) (l1 ++ 9%nat :: l2) ∧
    Forall (λ x, demo_cmp x 9%nat <= 0) l1 ∧ (∀ x, head l2 = Some x → 0 < demo_cmp x 9%nat).
Proof.
  assert (Hno : ∀ h l, demo_full_lists !! h = Some l → 9%nat ∉ h :: l).
  { intros h l. unfold demo_full_lists.
    intros [[<- <-]|[? [<- <-]%lookup_singleton_Some]]%lookup_insert_Some; set_solver. }
  apply clist_insert_sorted_sorted.
  - apply init_rep; [exact demo_full_rep|exact Hno].
  - reflexivity.
  - split_and!; [vm_compute; reflexivity|reflexivity|].
    intros h l Hl Hn. apply (Hno h l Hl). by right.
  - repeat constructor; vm_compute; discriminate.
  - intros x Hx. unfold demo_cmp. lia.
Defined.

Lemma clist_for_each_and_del_drains_witness :
  ∃ s', clist_for_each_and_del 0%nat (logging (λ x, if Nat.eqb x 2 then -1 else 0)) (demo_full, []) =
      Done (Some 2%nat) (s', [1;2;3]%nat) ∧
    Rep s' (<[0%nat := []]> demo_full_lists) ∧ dom s' = dom demo_full.
Proof.
  apply (clist_for_each_and_del_drains demo_full demo_full_lists 0%nat [1;2;3]%nat
    (λ x, if Nat.eqb x 2 then -1 else 0) demo_full_rep). reflexivity.
Defined.
