(* ===== verification/Sched.v ===== *)
(** * Tasks and the scheduler (kernel/core/sched/scheduler.c and the part of
      kernel/core/task/task.c it is built on)

    The state is the task table, the scheduler's globals and the store of the
    list nodes embedded in them.  Code that switches context is a [Switch]: the
    state left to the next task and the rest of the code of this one. *)

From Stdlib Require Import Sorted.
From S2P Require Import Prelude Clist.

(** ** Data *)

Inductive tstate := NEW | RUNNING | READY | SLEEPING | BLOCKED | TERMINATED | ZOMBIE.
#[export] Instance tstate_eq_dec : EqDecision tstate.
Proof. solve_decision. Defined.

(** Priorities are compared as integers, the highest is 0. *)
Abbreviation priority := nat.
Definition HIGH : priority := 0%nat.
Definition NORMAL : priority := 1%nat.
Definition LOW : priority := 2%nat.
Definition IDLE : priority := 3%nat.
Definition PRIORITY_COUNT : nat := 4.

(** A task is named by its address. *)
Abbreviation tid := Z.

Record task := Task {
  pid : Z;
  tgid : Z;
  name : list Z;
  state : tstate;
  root_ptable : Z;
  user : bool;
  tframe_pa : Z;
  tframe_va : Z;
  wake_up_time : Z;
  parent : option tid;
  exit_code : Z;
  prio : priority;
  fdtable : list Z;
}.

(** The list nodes of the kernel: the four of each task, the sentinels of its
    two queues, the globals of task.c and scheduler.c, and the wait queues of
    the mutexes and semaphores. *)
Inductive nid :=
| NTask (t : tid)
| NReady (t : tid)
| NWait (t : tid)
| NSleep (t : tid)
| NZombies (t : tid)
| NZombieWq (t : tid)
| NTable
| NReadyQ (p : priority)
| NSleepHead
| NMutexWq (m : Z)
| NSemWq (m : Z).

#[export] Instance nid_eq_dec : EqDecision nid.
Proof. solve_decision. Defined.

Definition nid_code (n : nid) : nat * Z :=
  match n with
  | NTask t => (0%nat, t) | NReady t => (1%nat, t) | NWait t => (2%nat, t)
  | NSleep t => (3%nat, t) | NZombies t => (4%nat, t) | NZombieWq t => (5%nat, t)
  | NTable => (6%nat, 0) | NReadyQ p => (7%nat, Z.of_nat p) | NSleepHead => (8%nat, 0)
  | NMutexWq m => (9%nat, m) | NSemWq m => (10%nat, m)
  end.
Definition nid_decode (c : nat * Z) : nid :=
  match c with
  | (0%nat, t) => NTask t | (1%nat, t) => NReady t | (2%nat, t) => NWait t
  | (3%nat, t) => NSleep t | (4%nat, t) => NZombies t | (5%nat, t) => NZombieWq t
  | (6%nat, _) => NTable | (7%nat, p) => NReadyQ (Z.to_nat p) | (8%nat, _) => NSleepHead
  | (9%nat, m) => NMutexWq m | (_, m) => NSemWq m
  end.
#[export] Program Instance nid_countable : Countable nid := inj_countable' nid_code nid_decode _.
Next Obligation. intros []; simpl; try done. by rewrite Nat2Z.id. Qed.

Record mutex := Mutex { m_locked : bool; m_owner : option tid; m_lock : Z }.
Record semaphore := Semaphore { s_count : Z; s_lock : Z }.

(** [spins] are the flags of the spinlocks that are not part of a mutex or of a
    semaphore. *)

Record kst := Kst {
  k_nodes : store nid;
  tasks : gmap tid task;
  active : option tid;
  next_pid : Z;
  active_task : Z;
  preempt_count : Z;
  need_resched : bool;
  highest_ready_tracking : priority;
  ticks : Z;
  sie : bool;
  mutexes : gmap Z mutex;
  sems : gmap Z semaphore;
  spins : gmap Z Z;
}.

(** ** Field updates *)

Definition with_nodes (s : store nid) (k : kst) : kst :=
  Kst s (tasks k) (active k) (next_pid k) (active_task k) (preempt_count k) (need_resched k)
    (highest_ready_tracking k) (ticks k) (sie k) (mutexes k) (sems k) (spins k).
Definition with_tasks (v : gmap tid task) (k : kst) : kst :=
  Kst (k_nodes k) v (active k) (next_pid k) (active_task k) (preempt_count k) (need_resched k)
    (highest_ready_tracking k) (ticks k) (sie k) (mutexes k) (sems k) (spins k).
Definition with_active (v : option tid) (k : kst) : kst :=
  Kst (k_nodes k) (tasks k) v (next_pid k) (active_task k) (preempt_count k) (need_resched k)
    (highest_ready_tracking k) (ticks k) (sie k) (mutexes k) (sems k) (spins k).
Definition with_next_pid (v : Z) (k : kst) : kst :=
  Kst (k_nodes k) (tasks k) (active k) v (active_task k) (preempt_count k) (need_resched k)
    (highest_ready_tracking k) (ticks k) (sie k) (mutexes k) (sems k) (spins k).
Definition with_active_task (v : Z) (k : kst) : kst :=
  Kst (k_nodes k) (tasks k) (active k) (next_pid k) v (preempt_count k) (need_resched k)
    (highest_ready_tracking k) (ticks k) (sie k) (mutexes k) (sems k) (spins k).
Definition with_preempt_count (v : Z) (k : kst) : kst :=
  Kst (k_nodes k) (tasks k) (active k) (next_pid k) (active_task k) v (need_resched k)
    (highest_ready_tracking k) (ticks k) (sie k) (mutexes k) (sems k) (spins k).
Definition with_need_resched (v : bool) (k : kst) : kst :=
  Kst (k_nodes k) (tasks k) (active k) (next_pid k) (active_task k) (preempt_count k) v
    (highest_ready_tracking k) (ticks k) (sie k) (mutexes k) (sems k) (spins k).
Definition with_highest (v : priority) (k : kst) : kst :=
  Kst (k_nodes k) (tasks k) (active k) (next_pid k) (active_task k) (preempt_count k)
    (need_resched k) v (ticks k) (sie k) (mutexes k) (sems k) (spins k).
Definition with_ticks (v : Z) (k : kst) : kst :=
  Kst (k_nodes k) (tasks k) (active k) (next_pid k) (active_task k) (preempt_count k)
    (need_resched k) (highest_ready_tracking k) v (sie k) (mutexes k) (sems k) (spins k).
Definition with_sie (v : bool) (k : kst) : kst :=
  Kst (k_nodes k) (tasks k) (active k) (next_pid k) (active_task k) (preempt_count k)
    (need_resched k) (highest_ready_tracking k) (ticks k) v (mutexes k) (sems k) (spins k).
Definition with_mutexes (v : gmap Z mutex) (k : kst) : kst :=
  Kst (k_nodes k) (tasks k) (active k) (next_pid k) (active_task k) (preempt_count k)
    (need_resched k) (highest_ready_tracking k) (ticks k) (sie k) v (sems k) (spins k).
Definition with_sems (v : gmap Z semaphore) (k : kst) : kst :=
  Kst (k_nodes k) (tasks k) (active k) (next_pid k) (active_task k) (preempt_count k)
    (need_resched k) (highest_ready_tracking k) (ticks k) (sie k) (mutexes k) v (spins k).

Definition with_spins (v : gmap Z Z) (k : kst) : kst :=
  Kst (k_nodes k) (tasks k) (active k) (next_pid k) (active_task k) (preempt_count k)
    (need_resched k) (highest_ready_tracking k) (ticks k) (sie k) (mutexes k) (sems k) v.

Definition with_state (v : tstate) (t : task) : task :=
  Task (pid t) (tgid t) (name t) v (root_ptable t) (user t) (tframe_pa t) (tframe_va t)
    (wake_up_time t) (parent t) (exit_code t) (prio t) (fdtable t).
Definition with_wake_up_time (v : Z) (t : task) : task :=
  Task (pid t) (tgid t) (name t) (state t) (root_ptable t) (user t) (tframe_pa t) (tframe_va t)
    v (parent t) (exit_code t) (prio t) (fdtable t).
Definition with_exit_code (v : Z) (t : task) : task :=
  Task (pid t) (tgid t) (name t) (state t) (root_ptable t) (user t) (tframe_pa t) (tframe_va t)
    (wake_up_time t) (parent t) v (prio t) (fdtable t).

#[export] Program Instance kst_has_nodes : HasNodes nid kst :=
  {| nodes := k_nodes; set_nodes := with_nodes |}.
Next Obligation. done. Qed.
Next Obligation. by intros []. Qed.
Next Obligation. done. Qed.

Definition get_task (t : tid) : M kst task := k ← get; of_opt (tasks k !! t).
Definition upd_task (t : tid) (f : task → task) : M kst unit :=
  v ← get_task t; modify (λ k, with_tasks (<[t := f v]> (tasks k)) k).

(** The task a node is embedded in; any other node has no owner. *)
Definition of_ready (n : nid) : option tid := if n is NReady t then Some t else None.
Definition of_wait (n : nid) : option tid := if n is NWait t then Some t else None.
Definition of_sleep (n : nid) : option tid := if n is NSleep t then Some t else None.
Definition of_task_node (n : nid) : option tid := if n is NTask t then Some t else None.

(** ** waitqueue.c *)

Definition pop_front (h : nid) : M kst (option nid) :=
  r ← read_nodes (clist_pop_front h);
  modify (with_nodes (snd r));; mret (fst r).

Definition wq_init (wq : nid) : M kst unit := on_nodes (λ s, Some (clist_init_node wq s)).
Definition wq_peek_head (wq : nid) : M kst (option nid) := read_nodes (clist_first wq).
Definition wq_enqueue (wq node : nid) : M kst unit := on_nodes (clist_push_back wq node).
Definition wq_remove (node : nid) : M kst unit := on_nodes (clist_remove (Some node)).
Definition wq_pop_head (wq : nid) : M kst (option nid) := pop_front wq.
Definition wq_is_empty (wq : nid) : M kst bool := read_nodes (clist_empty wq).
Definition wq_for_each (wq : nid) (func : nid → M kst Z) : M kst (option nid) :=
  clist_for_each wq func.
Definition wq_for_each_and_del (wq : nid) (func : nid → M kst Z) : M kst (option nid) :=
  clist_for_each_and_del wq func.

(** ** Interrupts and time *)

Definition irq_save : M kst bool :=
  flags ← gets sie; (if flags : bool then modify (with_sie false) else mret tt);; mret flags.
Definition irq_restore (flags : bool) : M kst unit :=
  if flags then modify (with_sie true) else mret tt.

Definition ITFREQ : Z := 20.
Definition time_seconds : M kst Z := gets (λ k, ticks k / ITFREQ).

(** ** task.c: what the scheduler uses of it *)

Definition task_active : M kst (option tid) := gets active.

(** [if (clist_is_in_list(n)) clist_remove(n)] *)
Definition unlink (n : nid) : M kst unit :=
  b ← read_nodes (clist_is_in_list n);
  if b : bool then on_nodes (clist_remove (Some n)) else mret tt.

Definition remove_from_blocking_queues (t : tid) : M kst unit :=
  unlink (NSleep t);; unlink (NWait t).
Definition remove_from_sched_queues (t : tid) : M kst unit :=
  unlink (NReady t);; remove_from_blocking_queues t.
Definition remove_from_all_queues (t : tid) : M kst unit :=
  unlink (NTask t);; remove_from_sched_queues t.

Definition task_switch_active (next : tid) : M kst unit :=
  a ← task_active;
  a ← of_opt a;
  ta ← get_task a;
  (if decide (state ta = RUNNING) then upd_task a (with_state READY) else mret tt);;
  upd_task next (with_state RUNNING);;
  modify (with_active (Some next)).

Definition priority_higher (prior other : priority) : bool := (prior <? other)%nat.

Definition task_sleep (t : tid) (delay : Z) : M kst unit :=
  upd_task t (with_state SLEEPING);;
  now ← time_seconds;
  upd_task t (with_wake_up_time (u32 (delay + now))).

Definition task_block (t : tid) : M kst unit := upd_task t (with_state BLOCKED).

Definition task_wake (t : tid) : M kst unit :=
  flags ← irq_save;
  v ← get_task t;
  (if decide (state v = SLEEPING ∨ state v = BLOCKED) then
     remove_from_blocking_queues t;; upd_task t (with_state RUNNING)
   else mret tt);;
  irq_restore flags.

(** ** scheduler.c *)

Definition preempt_disabled : M kst bool := gets (λ k, 0 <? preempt_count k).
Definition delay_schedule : M kst unit := modify (with_need_resched true).

Definition init_ready_queues : M kst unit :=
  modify (λ k, with_nodes (foldl (λ s p, clist_init_node (NReadyQ p) s) (k_nodes k)
    (seq 0 PRIORITY_COUNT)) k);;
  modify (with_highest IDLE).
Definition init_sleep_queue : M kst unit :=
  modify (λ k, with_nodes (clist_init_node NSleepHead (k_nodes k)) k).

Definition ready_queue_enqueue (t : tid) : M kst unit :=
  v ← get_task t; on_nodes (clist_push_back (NReadyQ (prio v)) (NReady t)).

Definition ready_queue_remove (t : tid) : M kst unit := unlink (NReady t).

(** [None] is [container_of] of a null pointer. *)
Definition container_of_ready (n : option nid) : option tid := n ≫= of_ready.

Definition rotate_ready_queue (rq : nid) : M kst (option tid) :=
  e ← read_nodes (clist_empty rq);
  one ← read_nodes (λ s, c ← s !! rq; c2 ← s !! next c; Some (bool_decide (next c2 = rq)));
  if (e : bool) || (one : bool) then
    n ← read_nodes (clist_first rq); mret (container_of_ready n)
  else
    first ← pop_front rq;
    first ← of_opt first;
    on_nodes (clist_push_back rq first);;
    n ← read_nodes (clist_first rq); mret (container_of_ready n).

Definition pick_highest : M kst nid := gets (λ k, NReadyQ (highest_ready_tracking k)).

Fixpoint refresh_scan (ps : list priority) : M kst unit :=
  match ps with
  | [] => mret tt
  | p :: ps =>
    e ← read_nodes (clist_empty (NReadyQ p));
    if negb e then modify (with_highest p) else refresh_scan ps
  end.

Definition refresh_highest_prio : M kst unit :=
  p ← gets highest_ready_tracking;
  e ← read_nodes (clist_empty (NReadyQ p));
  if negb e then mret tt else
  refresh_scan (seq (S p) (PRIORITY_COUNT - S p)).

Definition update_highest (t : tid) : M kst unit :=
  v ← get_task t;
  h ← gets highest_ready_tracking;
  if priority_higher (prio v) h then modify (with_highest (prio v)) else mret tt.

Definition do_ctx_switch (next : option tid) : M kst unit :=
  a ← task_active;
  a ← of_opt a;
  next ← of_opt next;
  task_switch_active next;;
  yield.

Definition check_and_preempt (t : tid) : M kst unit :=
  current ← task_active;
  match current with
  | None => mret tt
  | Some current =>
    v ← get_task t;
    c ← get_task current;
    if priority_higher (prio v) (prio c) then
      d ← preempt_disabled;
      if d : bool then delay_schedule else do_ctx_switch (Some t)
    else mret tt
  end.

Definition switch_out_active : M kst unit :=
  flags ← irq_save;
  refresh_highest_prio;;
  q ← pick_highest;
  next_node ← read_nodes (clist_first q);
  do_ctx_switch (container_of_ready next_node);;
  irq_restore flags.

Definition sleep_key (k : kst) (n : nid) : Z :=
  default 0 (t ← of_sleep n; v ← tasks k !! t; Some (wake_up_time v)).
Definition wake_up_cmp (k : kst) (current other : nid) : Z :=
  if decide (sleep_key k other < sleep_key k current) then 1 else 0.

Definition insert_sleep (t : tid) : M kst unit :=
  k ← get; on_nodes (clist_insert_sorted NSleepHead (NSleep t) (wake_up_cmp k)).

Definition scheduler_ready_task (t : tid) : M kst unit :=
  flags ← irq_save;
  task_wake t;;
  update_highest t;;
  ready_queue_enqueue t;;
  check_and_preempt t;;
  irq_restore flags.

Definition wake_up_sleeping_cb (now : Z) (node : nid) : M kst Z :=
  t ← of_opt (of_sleep node);
  v ← get_task t;
  if decide (now < wake_up_time v) then mret 0 else
  on_nodes (clist_remove (Some node));;
  scheduler_ready_task t;;
  mret 0.

Definition move_to_wq (t : tid) (wq : nid) : M kst unit :=
  ready_queue_remove t;;
  task_block t;;
  wq_enqueue wq (NWait t).

Definition wake_up_waiting_cb (current : nid) : M kst Z :=
  t ← of_opt (of_wait current);
  scheduler_ready_task t;;
  mret 0.

Definition scheduler_admit (t : tid) : M kst unit :=
  flags ← irq_save;
  ready_queue_enqueue t;;
  update_highest t;;
  check_and_preempt t;;
  irq_restore flags.

Definition scheduler_disable_preempt : M kst unit :=
  modify (λ k, with_preempt_count (u32 (preempt_count k + 1)) k).

Definition scheduler_rotate : M kst unit :=
  c ← gets preempt_count;
  if decide (0 < c) then mret tt else
  flags ← irq_save;
  q ← pick_highest;
  next ← rotate_ready_queue q;
  a ← task_active;
  (if decide (next = a) then mret tt else do_ctx_switch next);;
  irq_restore flags.

Definition scheduler_enable_preempt : M kst unit :=
  modify (λ k, with_preempt_count (u32 (preempt_count k - 1)) k);;
  c ← gets preempt_count;
  r ← gets need_resched;
  if (c =? 0) && r then
    modify (with_need_resched false);; scheduler_rotate
  else mret tt.

Definition scheduler_sleep (nbr_secs : Z) : M kst unit :=
  flags ← irq_save;
  t ← task_active;
  t ← of_opt t;
  ready_queue_remove t;;
  task_sleep t nbr_secs;;
  insert_sleep t;;
  switch_out_active;;
  irq_restore flags.

Definition scheduler_wake_sleeping : M kst unit :=
  flags ← irq_save;
  now ← time_seconds;
  clist_for_each NSleepHead (wake_up_sleeping_cb now);;
  irq_restore flags.

Definition scheduler_block_on (wq : nid) : M kst unit :=
  flags ← irq_save;
  t ← task_active;
  t ← of_opt t;
  move_to_wq t wq;;
  switch_out_active;;
  irq_restore flags.

Definition scheduler_block_on_with_timeout (wq : nid) (timeout_secs : Z) : M kst unit :=
  flags ← irq_save;
  t ← task_active;
  t ← of_opt t;
  move_to_wq t wq;;
  (if decide (0 < timeout_secs) then task_sleep t timeout_secs;; insert_sleep t else mret tt);;
  switch_out_active;;
  irq_restore flags.

Definition scheduler_wake_waiting_queue (wq : nid) : M kst unit :=
  flags ← irq_save;
  wq_for_each_and_del wq wake_up_waiting_cb;;
  irq_restore flags.

Definition scheduler_init : M kst unit := init_ready_queues;; init_sleep_queue.
