(* ===== verification/SchedInv.v ===== *)
(** * The scheduler's invariant, and what each operation of Sched.v does

    [Inv] says that every living task is in the queue of its state and in no
    other, [Top] that the running task is the head of the highest non-empty
    ready queue unless a reschedule is pending. *)

From Stdlib Require Import Sorted.
From S2P Require Import Prelude Clist Sched.

(** ** The invariant *)

Definition runnable (s : tstate) : bool := match s with READY | RUNNING => true | _ => false end.
Definition waiting (s : tstate) : bool := match s with SLEEPING | BLOCKED => true | _ => false end.

Definition owner (n : nid) : option tid :=
  match n with NTask t | NReady t | NWait t | NSleep t => Some t | _ => None end.
Definition is_head (n : nid) : bool := if owner n is Some _ then false else true.
Definition is_wq (h : nid) : bool :=
  match h with NZombieWq _ | NMutexWq _ | NSemWq _ => true | _ => false end.

(** The tasks a list may hold, by the sentinel of the list. *)
Definition belongs (ts : gmap tid task) (h n : nid) : Prop :=
  match h, n with
  | NReadyQ p, NReady t => ∃ v, ts !! t = Some v ∧ prio v = p ∧ runnable (state v) = true
  | NSleepHead, NSleep t => ∃ v, ts !! t = Some v ∧ state v = SLEEPING
  | NMutexWq _, NWait t | NSemWq _, NWait t | NZombieWq _, NWait t =>
      ∃ v, ts !! t = Some v ∧ waiting (state v) = true
  | NZombies _, NWait t => ∃ v, ts !! t = Some v ∧ state v = ZOMBIE
  | NTable, NTask t => is_Some (ts !! t)
  | _, _ => False
  end.

(** The list a task must be in, by its state. *)
Definition placed (L : gmap nid (list nid)) (t : tid) (v : task) : Prop :=
  (runnable (state v) = true → ∃ l, L !! NReadyQ (prio v) = Some l ∧ NReady t ∈ l) ∧
  (state v = SLEEPING → ∃ l, L !! NSleepHead = Some l ∧ NSleep t ∈ l) ∧
  (state v = BLOCKED → ∃ h l, is_wq h = true ∧ L !! h = Some l ∧ NWait t ∈ l).

(** [X] is the task in transit between two queues, if any. *)
Record Inv (X : option tid) (k : kst) (L : gmap nid (list nid)) : Prop := {
  inv_rep : Rep (k_nodes k) L;
  inv_heads : ∀ h l, L !! h = Some l → is_head h = true;
  inv_belongs : ∀ h l n, L !! h = Some l → n ∈ l → belongs (tasks k) h n;
  inv_placed : ∀ t v, tasks k !! t = Some v → X ≠ Some t → placed L t v;
  inv_nodes : ∀ t v n, tasks k !! t = Some v → owner n = Some t → n ∈ dom (k_nodes k);
  inv_own : ∀ t v, tasks k !! t = Some v → is_Some (L !! NZombies t) ∧ is_Some (L !! NZombieWq t);
  inv_prio : ∀ t v, tasks k !! t = Some v → (prio v < PRIORITY_COUNT)%nat;
  inv_rq : ∀ p, (p < PRIORITY_COUNT)%nat → is_Some (L !! NReadyQ p);
  inv_sl : is_Some (L !! NSleepHead);
  inv_sorted : ∀ l, L !! NSleepHead = Some l →
    StronglySorted (λ a b, sleep_key k a ≤ sleep_key k b) l;
}.

Definition rqs (L : gmap nid (list nid)) (p : priority) : list nid := default [] (L !! NReadyQ p).

(** The priority tracking of the scheduler, when a task may have left the
    queues. *)
Record Track (k : kst) (L : gmap nid (list nid)) : Prop := {
  tr_bound : (highest_ready_tracking k < PRIORITY_COUNT)%nat;
  tr_above : ∀ p, (p < highest_ready_tracking k)%nat → rqs L p = [];
  tr_idle : rqs L IDLE ≠ [];
}.

Record Top (k : kst) (L : gmap nid (list nid)) (a : tid) (va : task) : Prop := {
  top_track : Track k L;
  top_active : active k = Some a;
  top_task : tasks k !! a = Some va;
  top_running : state va = RUNNING;
  top_head : head (rqs L (prio va)) = Some (NReady a);
  top_highest : rqs L (highest_ready_tracking k) ≠ [];
  top_pending : need_resched k = true →
    0 < preempt_count k ∧ (highest_ready_tracking k < prio va)%nat;
  top_first : need_resched k = true ∨ ∀ p, (p < prio va)%nat → rqs L p = [];
}.

(** The scheduler's invariant: task [a] runs. *)
Definition sched_inv (a : tid) (k : kst) : Prop := ∃ L va, Inv None k L ∧ Top k L a va.

(** What holds when a task switches to another one, and when it is resumed. *)
Definition switch_ok (k : kst) : Prop :=
  preempt_count k = 0 ∧ ∃ a, sched_inv a k.
Definition resumed (me : tid) (_ k : kst) : Prop :=
  preempt_count k = 0 ∧ sched_inv me k.

(** Everything but the tasks, the lists and the interrupt flag. *)
Definition rest (k : kst) :=
  (active k, next_pid k, active_task k, preempt_count k, need_resched k,
   highest_ready_tracking k, ticks k, mutexes k, sems k).

(** Taking a node off whatever list it is in. *)
Definition unlinked (n : nid) (L : gmap nid (list nid)) : gmap nid (list nid) :=
  filter (λ x, x ≠ n) <$> L.

(** ** Queues *)

Lemma unlinked_lookup n L h l :
  unlinked n L !! h = Some l ↔ ∃ l0, L !! h = Some l0 ∧ l = filter (λ x, x ≠ n) l0.
Proof.
  unfold unlinked. rewrite lookup_fmap, fmap_Some. naive_solver.
Qed.

Lemma unlinked_elem n L h l x :
  unlinked n L !! h = Some l → x ∈ l → x ≠ n ∧ ∃ l0, L !! h = Some l0 ∧ x ∈ l0.
Proof. rewrite unlinked_lookup. intros (l0 & ? & ->) [? ?]%list_elem_of_filter. eauto. Qed.

Lemma unlinked_keep n L h l x :
  L !! h = Some l → x ∈ l → x ≠ n → ∃ l', unlinked n L !! h = Some l' ∧ x ∈ l'.
Proof.
  intros Hh Hx Hne. eexists. rewrite unlinked_lookup. split; [eauto|].
  by apply list_elem_of_filter.
Qed.

Lemma unlinked_is_Some n L h : is_Some (L !! h) → is_Some (unlinked n L !! h).
Proof. intros [l Hl]. eexists. rewrite unlinked_lookup. eauto. Qed.

Lemma unlinked_rqs n L p : rqs (unlinked n L) p = filter (λ x, x ≠ n) (rqs L p).
Proof. unfold rqs, unlinked. rewrite lookup_fmap. by destruct (L !! NReadyQ p). Qed.

Lemma unlinked_absent n L : (∀ h l, L !! h = Some l → n ∉ l) → unlinked n L = L.
Proof.
  intros Hno. apply map_eq. intros h. unfold unlinked. rewrite lookup_fmap.
  destruct (L !! h) as [l|] eqn:Hh; [|done]. simpl. f_equal. apply filter_not_elem. eauto.
Qed.

Lemma remove_unlinked s L n :
  Rep s L → n ∈ dom s → L !! n = None →
  ∃ s', clist_remove (Some n) s = Some s' ∧ Rep s' (unlinked n L) ∧ dom s' = dom s.
Proof.
  intros HR Hd Hn. destruct (decide (n ∈ concat ((map_to_list L).*2))) as [Hin|Hin];
    rewrite elem_of_lists in Hin.
  - destruct Hin as (h & l & Hh & Hl). apply list_elem_of_split in Hl as (l1 & l2 & ->).
    destruct (remove_rep None s L h l1 l2 n HR Hh) as (s' & Hs' & HR' & Hd').
    exists s'. split_and!; [done| |done]. unfold unlinked. by rewrite (remove_fmap s L h l1 l2).
  - assert (∀ h l, L !! h = Some l → n ∉ l) as Hno by (intros h l ??; apply Hin; eauto).
    exists s. rewrite unlinked_absent by done.
    split_and!; [apply remove_noop; by eapply unused_inl|done|done].
Qed.

(** A queue node is in no list but the ones [belongs] allows. *)
Lemma belongs_owner ts h n : belongs ts h n → ∃ t, owner n = Some t ∧ is_Some (ts !! t).
Proof.
  destruct h, n; simpl; try done; intros H; eexists; (split; [done|]); try done;
    destruct H as (v & Hv & _); eauto.
Qed.

Lemma placed_mono L L' t v :
  placed L t v →
  (∀ h l n, L !! h = Some l → n ∈ l → owner n = Some t → ∃ l', L' !! h = Some l' ∧ n ∈ l') →
  placed L' t v.
Proof.
  intros (Hr & Hs & Hb) Hk. split_and!.
  - intros (l & Hl & Hn)%Hr. by eapply Hk.
  - intros (l & Hl & Hn)%Hs. by eapply Hk.
  - intros (h & l & Hh & Hl & Hn)%Hb. destruct (Hk _ _ _ Hl Hn) as (l' & ? & ?); [done|]. eauto.
Qed.

Lemma inv_not_head X k L n t : Inv X k L → owner n = Some t → L !! n = None.
Proof.
  intros HI Hn. destruct (L !! n) as [l|] eqn:Hl; [|done].
  apply (inv_heads _ _ _ HI) in Hl. unfold is_head in Hl. by rewrite Hn in Hl.
Qed.

Lemma sorted_filter {A} (R : A → A → Prop) (P : A → Prop) `{∀ x, Decision (P x)} l :
  StronglySorted R l → StronglySorted R (filter P l).
Proof.
  induction 1 as [|x l Hs IH Hf]; [constructor|]. rewrite filter_cons. case_decide; [|done].
  constructor; [done|]. rewrite Forall_forall in *. intros y [_ Hy]%list_elem_of_filter. auto.
Qed.

Lemma sorted_ext {A} (f g : A → Z) l :
  (∀ x, x ∈ l → g x = f x) → StronglySorted (λ a b, f a ≤ f b) l → StronglySorted (λ a b, g a ≤ g b) l.
Proof.
  intros Hfg Hs. induction Hs as [|x l Hs IH Hf]; constructor.
  - apply IH. intros y Hy. apply Hfg. by right.
  - rewrite Forall_forall in *. intros y Hy. rewrite !Hfg; [by apply Hf|by right|left].
Qed.

(** Unlinking a node of [t] puts [t] in transit. *)
Lemma inv_unlink X k L s' n t :
  Inv X k L → owner n = Some t → (X = None ∨ X = Some t) →
  Rep s' (unlinked n L) → dom s' = dom (k_nodes k) →
  Inv (Some t) (with_nodes s' k) (unlinked n L).
Proof.
  intros [HR Hh Hb Hp Hn Ho Hpr Hrq Hsl Hso] Hown HX HR' Hd. split; simpl; auto.
  - intros h l (l0 & Hl0 & ->)%unlinked_lookup. eauto.
  - intros h l x Hl Hx. destruct (unlinked_elem _ _ _ _ _ Hl Hx) as (_ & l0 & ? & ?). eauto.
  - intros t' v Ht' Hne. eapply placed_mono; [apply (Hp t' v Ht'); naive_solver|].
    intros h l x Hl Hx Hxo. eapply unlinked_keep; [done|done|congruence].
  - intros. rewrite Hd. eauto.
  - intros t' v Ht'. destruct (Ho t' v Ht'). split; by apply unlinked_is_Some.
  - intros. by apply unlinked_is_Some, Hrq.
  - by apply unlinked_is_Some.
  - intros l (l0 & Hl0 & ->)%unlinked_lookup. by apply sorted_filter, Hso.
Qed.

(** Linking a node where it belongs. *)
Lemma inv_link X k L s' h l1 l2 n :
  Inv X k L → L !! h = Some (l1 ++ l2) → belongs (tasks k) h n →
  Rep s' (<[h := l1 ++ n :: l2]> L) → dom s' = dom (k_nodes k) →
  (h = NSleepHead → StronglySorted (λ a b, sleep_key k a ≤ sleep_key k b) (l1 ++ n :: l2)) →
  Inv X (with_nodes s' k) (<[h := l1 ++ n :: l2]> L).
Proof.
  intros [HR Hh Hb Hp Hn Ho Hpr Hrq Hsl Hso] Hl Hbn HR' Hd Hsort.
  assert (∀ g, is_Some (L !! g) → is_Some (<[h := l1 ++ n :: l2]> L !! g)) as Hsome.
  { intros g Hg. rewrite lookup_insert. by case_decide. }
  split; simpl; auto.
  - intros g l. rewrite lookup_insert. case_decide; subst; eauto.
  - intros g l x. rewrite lookup_insert. case_decide as Hg; subst; [|eauto].
    intros [= <-]. rewrite elem_of_app, elem_of_cons. intros [?|[->|?]]; [|done|];
      eapply Hb; [done|apply elem_of_app; auto|done|apply elem_of_app; auto].
  - intros t v Ht HX. eapply placed_mono; [by apply (Hp t v)|].
    intros g l x Hg Hx _. rewrite lookup_insert. case_decide; subst; [|eauto].
    eexists. split; [done|]. simplify_eq. rewrite elem_of_app, elem_of_cons in *. tauto.
  - intros. rewrite Hd. eauto.
  - intros t v Ht. destruct (Ho t v Ht). auto.
  - intros l. rewrite lookup_insert. case_decide as Hg; [|by apply Hso].
    intros [= <-]. by apply Hsort.
Qed.

(** Changing a task whose nodes stay where they are. *)
Lemma inv_task X k L t v v' :
  Inv X k L → tasks k !! t = Some v → prio v' = prio v →
  (∀ h l n, L !! h = Some l → n ∈ l → owner n = Some t → belongs (<[t := v']> (tasks k)) h n) →
  (wake_up_time v' = wake_up_time v ∨ ∀ h l, L !! h = Some l → NSleep t ∉ l) →
  (X = Some t ∨ placed L t v') →
  Inv X (with_tasks (<[t := v']> (tasks k)) k) L.
Proof.
  intros [HR Hh Hb Hp Hn Ho Hpr Hrq Hsl Hso] Ht Hprio Hbel Hwake Hpl.
  assert (∀ t' v0, <[t := v']> (tasks k) !! t' = Some v0 →
    ∃ v1, tasks k !! t' = Some v1 ∧ prio v0 = prio v1) as Hold.
  { intros t' v0. rewrite lookup_insert. case_decide; subst; [intros [= <-]|]; eauto. }
  split; simpl; auto.
  - intros h l n Hl Hx. destruct (decide (owner n = Some t)) as [?|Hne]; [eauto|].
    specialize (Hb h l n Hl Hx). destruct h, n; simpl in *; try done;
      rewrite lookup_insert_ne by congruence; done.
  - intros t' v0 Ht' HX. rewrite lookup_insert in Ht'. case_decide; subst; [|eauto].
    simplify_eq. by destruct Hpl.
  - intros t' v0 n Ht' Hn'. destruct (Hold _ _ Ht') as (v1 & ? & _). eauto.
  - intros t' v0 Ht'. destruct (Hold _ _ Ht') as (v1 & ? & _). eauto.
  - intros t' v0 Ht'. destruct (Hold _ _ Ht') as (v1 & ? & ->). eauto.
  - intros l Hl. assert (∀ n, n ∈ l → sleep_key (with_tasks (<[t:=v']> (tasks k)) k) n = sleep_key k n)
      as Hkey.
    { intros n Hx. unfold sleep_key. destruct n as [| | |t'| | | | | | |]; try done. simpl.
      rewrite lookup_insert. case_decide; subst; [|done]. rewrite Ht. simpl.
      destruct Hwake as [->|Hno]; [done|]. by destruct (Hno _ _ Hl). }
    by apply (sorted_ext (sleep_key k)); [|apply Hso].
Qed.

(** A task in transit that is back in the queue of its state. *)
Lemma inv_settle k L t v :
  Inv (Some t) k L → tasks k !! t = Some v → placed L t v → Inv None k L.
Proof.
  intros [HR Hh Hb Hp Hn Ho Hpr Hrq Hsl Hso] Ht Hpl. split; auto.
  intros t' v' Ht' _. destruct (decide (t' = t)) as [->|]; [by simplify_eq|].
  apply Hp; congruence.
Qed.

(** The invariant reads only the lists and the tasks. *)
Lemma inv_ext X k k' L :
  Inv X k L → k_nodes k' = k_nodes k → tasks k' = tasks k → Inv X k' L.
Proof.
  intros [HR Hh Hb Hp Hn Ho Hpr Hrq Hsl Hso] En Et.
  split; unfold sleep_key; rewrite ?En, ?Et; auto.
Qed.

(** ** Runs of the operations that do not switch context *)

Lemma irq_save_run k : irq_save k = Done (sie k) (with_sie false k).
Proof. destruct k as [? ? ? ? ? ? ? ? ? [] ? ? ?]; done. Qed.

Lemma irq_restore_run b k : irq_restore b k = Done tt (with_sie (b || sie k) k).
Proof. destruct b; [done|]. by destruct k. Qed.

Lemma get_task_run k t v : tasks k !! t = Some v → get_task t k = Done v k.
Proof. intros Ht. unfold get_task, of_opt. unfold mbind, M_bind. simpl. by rewrite Ht. Qed.

Lemma upd_task_run k t v f :
  tasks k !! t = Some v → upd_task t f k = Done tt (with_tasks (<[t := f v]> (tasks k)) k).
Proof. intros Ht. unfold upd_task. by mstep (get_task_run k t v Ht). Qed.

Lemma on_nodes_run k (f : store nid → option (store nid)) s :
  f (k_nodes k) = Some s → on_nodes f k = Done tt (with_nodes s k).
Proof. intros Hf. unfold on_nodes. simpl. by rewrite Hf. Qed.

Lemma read_nodes_run {A} k (f : store nid → option A) a :
  f (k_nodes k) = Some a → read_nodes f k = Done a k.
Proof. intros Hf. unfold read_nodes. simpl. by rewrite Hf. Qed.

(** Run one step of a monadic term by a lemma on its first effect. *)
Ltac run_with tac := erewrite bind_Done; [|tac]; cbn beta iota.
Tactic Notation "run" uconstr(H) := run_with ltac:(eapply H; try eassumption; try reflexivity).

Lemma unlink_run X k L n t v :
  Inv X k L → owner n = Some t → tasks k !! t = Some v → (X = None ∨ X = Some t) →
  ∃ s', unlink n k = Done tt (with_nodes s' k) ∧
    Inv (Some t) (with_nodes s' k) (unlinked n L).
Proof.
  intros HI Hn Ht HX. pose proof (inv_nodes _ _ _ HI t v n Ht Hn) as Hd.
  destruct (remove_unlinked _ L n (inv_rep _ _ _ HI) Hd) as (s' & Hs' & HR' & Hd').
  { by eapply inv_not_head. }
  exists s'. split; [|by eapply inv_unlink].
  apply elem_of_dom in Hd as [c Hc]. unfold unlink.
  erewrite bind_Done; [|apply read_nodes_run; unfold clist_is_in_list; by rewrite Hc].
  cbn beta. destruct (in_list c) eqn:Hc'; [by apply on_nodes_run|].
  rewrite remove_noop in Hs'; [|unfold inl; rewrite Hc; simpl; by rewrite Hc'].
  simplify_eq. by destruct k.
Qed.

Lemma remove_blocking_run X k L t v :
  Inv X k L → tasks k !! t = Some v → (X = None ∨ X = Some t) →
  ∃ s', remove_from_blocking_queues t k = Done tt (with_nodes s' k) ∧
    Inv (Some t) (with_nodes s' k) (unlinked (NWait t) (unlinked (NSleep t) L)).
Proof.
  intros HI Ht HX. destruct (unlink_run X k L (NSleep t) t v) as (s1 & H1 & HI1); [done..|].
  destruct (unlink_run (Some t) _ _ (NWait t) t v HI1) as (s2 & H2 & HI2); [done|done|by right|].
  exists s2. split; [|exact HI2]. unfold remove_from_blocking_queues. mstep H1. exact H2.
Qed.

Lemma unlinked_no n L h l : unlinked n L !! h = Some l → n ∉ l.
Proof. intros Hl Hn. by destruct (unlinked_elem _ _ _ _ _ Hl Hn). Qed.

(** A ready queue only links ready nodes. *)
Lemma rqs_elem X k L p n :
  Inv X k L → n ∈ rqs L p → ∃ t v, n = NReady t ∧ tasks k !! t = Some v ∧ prio v = p ∧
    runnable (state v) = true.
Proof.
  intros HI Hn. unfold rqs in Hn. destruct (L !! NReadyQ p) as [l|] eqn:Hl; [|by apply elem_of_nil in Hn].
  pose proof (inv_belongs _ _ _ HI _ _ _ Hl Hn) as Hb. destruct n; simpl in Hb; naive_solver.
Qed.

Lemma unlinked_rqs_other X k L p n :
  Inv X k L → (if n is NReady _ then False else True) → rqs (unlinked n L) p = rqs L p.
Proof.
  intros HI Hn. rewrite unlinked_rqs. apply filter_not_elem. intros Hx.
  destruct (rqs_elem _ _ _ _ _ HI Hx) as (t & v & -> & _). done.
Qed.

Lemma task_wake_run X k L t v :
  Inv X k L → tasks k !! t = Some v → (X = None ∨ X = Some t) → waiting (state v) = true →
  ∃ k' L', task_wake t k = Done tt k' ∧ Inv (Some t) k' L' ∧
    tasks k' = <[t := with_state RUNNING v]> (tasks k) ∧ rest k' = rest k ∧ sie k' = sie k ∧
    L' = unlinked (NWait t) (unlinked (NSleep t) L).
Proof.
  intros HI Ht HX Hw. set (k0 := with_sie false k).
  assert (Inv X k0 L) as HI0 by (by eapply inv_ext).
  destruct (remove_blocking_run X k0 L t v HI0) as (s' & Hs' & HI'); [done..|].
  eexists _, _. split_and!; [| | | | |done].
  - unfold task_wake. run irq_save_run. run (get_task_run k0 t v).
    rewrite decide_True by (destruct (state v); naive_solver). erewrite bind_Done.
    2:{ mstep Hs'. by apply upd_task_run. }
    cbn beta. by apply irq_restore_run.
  - eapply (inv_ext _ (with_tasks (<[t := with_state RUNNING v]> (tasks k)) (with_nodes s' k0))); [|done..].
    eapply (inv_task _ (with_nodes s' k0)); [done|exact Ht|done| |by left|by left].
    intros h l n Hl Hn Hown. pose proof (inv_belongs _ _ _ HI' _ _ _ Hl Hn) as Hb.
    assert (n ≠ NWait t) by (intros ->; by eapply unlinked_no).
    assert (n ≠ NSleep t).
    { intros ->. destruct (unlinked_elem _ _ _ _ _ Hl Hn) as (_ & l0 & Hl0 & Hn0).
      by eapply unlinked_no. }
    assert (n ≠ NReady t).
    { intros ->. destruct h; simpl in Hb; try done. destruct Hb as (v0 & Hv0 & _ & Hr).
      unfold k0 in Hv0. simpl in Hv0. simplify_eq. by destruct (state v). }
    destruct n; simpl in Hown; try done; simplify_eq; destruct h; simpl in *; try done.
    rewrite lookup_insert_eq. eauto.
  - done.
  - done.
  - simpl. by rewrite orb_false_r.
Qed.

Lemma unused_node X k L n t v :
  Inv X k L → owner n = Some t → tasks k !! t = Some v →
  (∀ h l, L !! h = Some l → n ∉ l) → unused (k_nodes k) L n.
Proof.
  intros HI Hn Ht Hno. split_and!; [by eapply inv_nodes|by eapply inv_not_head|done].
Qed.

Lemma rqs_insert L p p' l :
  rqs (<[NReadyQ p := l]> L) p' = if decide (p = p') then l else rqs L p'.
Proof.
  unfold rqs. rewrite lookup_insert. destruct (decide (p = p')) as [->|Hne].
  - by rewrite decide_True.
  - rewrite decide_False by congruence. done.
Qed.

Lemma rqs_insert_other L h p l :
  (if h is NReadyQ _ then False else True) → rqs (<[h := l]> L) p = rqs L p.
Proof. intros Hh. unfold rqs. rewrite lookup_insert_ne; [done|]. by intros ->. Qed.

Lemma enqueue_run k L t v :
  Inv (Some t) k L → tasks k !! t = Some v → runnable (state v) = true →
  (∀ h l, L !! h = Some l → NReady t ∉ l) →
  ∃ s', ready_queue_enqueue t k = Done tt (with_nodes s' k) ∧
    Inv None (with_nodes s' k) (<[NReadyQ (prio v) := rqs L (prio v) ++ [NReady t]]> L).
Proof.
  intros HI Ht Hr Hno. pose proof (inv_prio _ _ _ HI t v Ht) as Hp.
  destruct (inv_rq _ _ _ HI _ Hp) as [l Hl].
  destruct (push_back_rep None _ L (NReadyQ (prio v)) l (NReady t) (inv_rep _ _ _ HI)) as (s' & Hs' & HR' & Hd');
    [done|done|by eapply unused_node|].
  exists s'. unfold rqs. rewrite Hl. simpl. split.
  - unfold ready_queue_enqueue. run (get_task_run k t v). by apply on_nodes_run.
  - eapply inv_settle; [|exact Ht|].
    + apply (inv_link (Some t) k L s' (NReadyQ (prio v)) l [] (NReady t)); [done|by rewrite app_nil_r| |done..].
      simpl. eauto.
    + split_and!; [|by intros E; rewrite E in Hr..].
      intros _. eexists. rewrite lookup_insert_eq. split; [done|].
      apply elem_of_app. right. left.
Qed.

Lemma update_highest_run k t v :
  tasks k !! t = Some v →
  update_highest t k = Done tt (with_highest (Nat.min (prio v) (highest_ready_tracking k)) k).
Proof.
  intros Ht. unfold update_highest. run (get_task_run k t v).
  erewrite bind_Done by reflexivity. cbn beta. unfold priority_higher.
  destruct (Nat.ltb_spec (prio v) (highest_ready_tracking k)).
  - by rewrite Nat.min_l by lia.
  - rewrite Nat.min_r by lia. by destruct k.
Qed.

(** Switching to a ready task: the state left to it. *)
Definition switched (next : tid) (k : kst) : kst :=
  with_active (Some next) (with_tasks
    (let ts := match active k with
               | Some a => match tasks k !! a with
                           | Some va => if decide (state va = RUNNING)
                                        then <[a := with_state READY va]> (tasks k) else tasks k
                           | None => tasks k
                           end
               | None => tasks k
               end in
     match ts !! next with Some v => <[next := with_state RUNNING v]> ts | None => ts end) k).

Lemma task_switch_active_run k a va next v :
  active k = Some a → tasks k !! a = Some va → tasks k !! next = Some v →
  task_switch_active next k = Done tt (switched next k).
Proof.
  intros Ha Hva Hv. unfold task_switch_active, task_active.
  erewrite bind_Done by reflexivity. cbn beta. rewrite Ha. rewrite bind_ret || idtac.
  erewrite (bind_Done (of_opt _)) by reflexivity. cbn beta.
  run (get_task_run k a va). unfold switched. rewrite Ha, Hva.
  destruct (decide (state va = RUNNING)).
  - run (upd_task_run k a va). destruct (<[a:=with_state READY va]> (tasks k) !! next) as [v'|] eqn:Hn.
    + run (upd_task_run _ next v'). done.
    + rewrite lookup_insert in Hn. case_decide; simplify_eq.
  - erewrite bind_Done by reflexivity. cbn beta. rewrite Hv. run (upd_task_run _ next v). done.
Qed.

Lemma do_ctx_switch_run k a va next v :
  active k = Some a → tasks k !! a = Some va → tasks k !! next = Some v →
  do_ctx_switch (Some next) k = Switch (switched next k) (λ s, Done tt s).
Proof.
  intros Ha Hva Hv. unfold do_ctx_switch, task_active.
  erewrite bind_Done by reflexivity. cbn beta. rewrite Ha.
  erewrite (bind_Done (of_opt _)) by reflexivity. cbn beta.
  erewrite (bind_Done (of_opt _)) by reflexivity. cbn beta.
  by run (task_switch_active_run k a va next v).
Qed.

Lemma inv_rerun X k L t v st :
  Inv X k L → tasks k !! t = Some v → runnable (state v) = true → runnable st = true →
  Inv X (with_tasks (<[t := with_state st v]> (tasks k)) k) L.
Proof.
  intros HI Ht Hr Hst. eapply inv_task; [done|exact Ht|done| |by left|].
  - intros h l n Hl Hn Hown. pose proof (inv_belongs _ _ _ HI _ _ _ Hl Hn) as Hb.
    destruct n; simpl in Hown; try done; simplify_eq; destruct h; simpl in *; try done;
      rewrite lookup_insert_eq; eauto; destruct Hb as (v0 & Hv0 & Hb); simplify_eq;
      try (destruct (state v); done).
    destruct Hb as [Hp _]. eauto.
  - destruct (decide (X = Some t)) as [|HX]; [by left|right].
    destruct (inv_placed _ _ _ HI t v Ht HX) as (Hq & _ & _).
    split_and!; simpl; [auto|by intros ->..].
Qed.

Lemma switched_tasks k a va next v :
  active k = Some a → tasks k !! a = Some va → tasks k !! next = Some v →
  tasks (switched next k) !! next = Some (with_state RUNNING v).
Proof.
  intros Ha Hva Hv. unfold switched. simpl. rewrite Ha, Hva.
  destruct (decide (state va = RUNNING)); [|by rewrite Hv, lookup_insert_eq].
  rewrite lookup_insert. case_decide; simplify_eq; [by rewrite lookup_insert_eq|].
  by rewrite Hv, lookup_insert_eq.
Qed.

Lemma switched_inv k L a va next v :
  Inv None k L → active k = Some a → tasks k !! a = Some va → tasks k !! next = Some v →
  runnable (state v) = true → Inv None (switched next k) L.
Proof.
  intros HI Ha Hva Hv Hr. unfold switched. rewrite Ha, Hva.
  destruct (decide (state va = RUNNING)) as [Hrun|].
  - assert (Inv None (with_tasks (<[a:=with_state READY va]> (tasks k)) k) L) as HI1.
    { apply inv_rerun; [done|done|by rewrite Hrun|done]. }
    destruct (<[a:=with_state READY va]> (tasks k) !! next) as [v'|] eqn:Hn.
    + assert (runnable (state v') = true) as Hr'.
      { rewrite lookup_insert in Hn. case_decide; by simplify_eq. }
      by apply (inv_ext _ _ _ _ (inv_rerun None _ L next v' RUNNING HI1 Hn Hr' eq_refl)).
    + rewrite lookup_insert in Hn. case_decide; simplify_eq.
  - rewrite Hv. by apply (inv_ext _ _ _ _ (inv_rerun None k L next v RUNNING HI Hv Hr eq_refl)).
Qed.

Lemma switched_top k L a va next v :
  Inv None k L → active k = Some a → tasks k !! a = Some va → tasks k !! next = Some v →
  Track k L → rqs L (highest_ready_tracking k) ≠ [] →
  need_resched k = false → head (rqs L (prio v)) = Some (NReady next) →
  (∀ p, (p < prio v)%nat → rqs L p = []) →
  Inv None (switched next k) L ∧ Top (switched next k) L next (with_state RUNNING v).
Proof.
  intros HI Ha Hva Hv Htr Hne Hnr Hhd Hab. split.
  - eapply switched_inv; [done..|].
    destruct (rqs_elem _ _ _ (prio v) (NReady next) HI) as (t & v' & [= <-] & ? & _ & ?); [|by simplify_eq].
    destruct (rqs L (prio v)); simplify_eq/=. left.
  - split; simpl; try done.
    + by destruct Htr.
    + by eapply switched_tasks.
    + by rewrite Hnr.
    + by right.
Qed.

Lemma switched_ok k L a va next v :
  Inv None k L → active k = Some a → tasks k !! a = Some va → tasks k !! next = Some v →
  Track k L → rqs L (highest_ready_tracking k) ≠ [] →
  need_resched k = false → head (rqs L (prio v)) = Some (NReady next) →
  (∀ p, (p < prio v)%nat → rqs L p = []) →
  sched_inv next (switched next k).
Proof. intros. exists L, (with_state RUNNING v). by eapply switched_top. Qed.

(** The running task is at the highest ready priority when no reschedule is
    pending. *)
Lemma top_prio k L a va :
  Top k L a va → need_resched k = false → highest_ready_tracking k = prio va.
Proof.
  intros [[Hb Hab Hid] Ha Hva Hr Hhd Hne Hpe Hfi] Hnr.
  destruct Hfi as [?|Hfi]; [congruence|].
  destruct (Nat.lt_trichotomy (highest_ready_tracking k) (prio va)) as [Hlt|[?|Hlt]]; [|done|].
  - by rewrite (Hfi _ Hlt) in Hne.
  - by rewrite (Hab _ Hlt) in Hhd.
Qed.

(** ** Readying a task *)

(** The state in which a task [t] of priority [prio v] has just been queued. *)
Record Queued (k : kst) (L : gmap nid (list nid)) (a : tid) (va : task) (t : tid) (v : task)
    (L0 : gmap nid (list nid)) : Prop := {
  qd_inv : Inv None k L;
  qd_active : active k = Some a;
  qd_task : tasks k !! a = Some va;
  qd_running : state va = RUNNING;
  qd_queued : tasks k !! t = Some v;
  qd_lists : L = <[NReadyQ (prio v) := rqs L0 (prio v) ++ [NReady t]]> L0;
  qd_top : ∃ h, highest_ready_tracking k = Nat.min (prio v) h ∧ ∃ k0, Top k0 L0 a va ∧
    highest_ready_tracking k0 = h ∧ need_resched k0 = need_resched k ∧ preempt_count k0 = preempt_count k;
  qd_bound : (prio v < PRIORITY_COUNT)%nat;
}.

Lemma queued_track k L a va t v L0 :
  Queued k L a va t v L0 → Track k L ∧ rqs L (highest_ready_tracking k) ≠ [].
Proof.
  intros [HI Ha Hva Hr Hv -> (h & Hh & k0 & HT & Hk0 & _ & _) Hb].
  destruct HT as [[Hb0 Hab Hid] _ _ _ _ Hne _ _]. rewrite Hk0 in *. split; [split|].
  - rewrite Hh. lia.
  - intros p Hp. rewrite rqs_insert. rewrite decide_False by lia. apply Hab. lia.
  - rewrite rqs_insert. destruct (decide _); [|done]. by intros []%app_eq_nil.
  - rewrite rqs_insert. destruct (decide _) as [|Hn]; [by intros []%app_eq_nil|].
    replace (highest_ready_tracking k) with h by lia. done.
Qed.

Definition delayed (k : kst) (higher : bool) : kst := if higher then with_need_resched true k else k.

Lemma preempt_later k L a va t v L0 :
  Queued k L a va t v L0 → 0 < preempt_count k ∨ (prio va ≤ prio v)%nat →
  check_and_preempt t k = Done tt (delayed k (priority_higher (prio v) (prio va))) ∧
  Inv None (delayed k (priority_higher (prio v) (prio va))) L ∧
  Top (delayed k (priority_higher (prio v) (prio va))) L a va.
Proof.
  intros HQ Hc. pose proof HQ as [HI Ha Hva Hr Hv HL (h & Hh & k0 & HT & Hk0 & Hnr & Hpc) Hb].
  destruct (queued_track _ _ _ _ _ _ _ HQ) as [Htr Hne].
  destruct HT as [[Hb0 Hab Hid] _ _ _ Hhd _ Hpe Hfi]. rewrite Hk0 in *.
  assert (head (rqs L (prio va)) = Some (NReady a)) as Hhd'.
  { rewrite HL, rqs_insert. destruct (decide _) as [->|]; [|done].
    by destruct (rqs L0 (prio va)). }
  unfold check_and_preempt, task_active. split.
  - erewrite bind_Done by reflexivity. cbn beta. rewrite Ha.
    run (get_task_run k t v). run (get_task_run k a va).
    destruct (priority_higher (prio v) (prio va)) eqn:Hhi; [|done].
    apply Nat.ltb_lt in Hhi. unfold preempt_disabled. erewrite bind_Done by reflexivity. cbn beta.
    destruct (Z.ltb_spec 0 (preempt_count k)); [done|lia].
  - destruct (priority_higher (prio v) (prio va)) eqn:Hhi; simpl.
    + apply Nat.ltb_lt in Hhi. split; [by eapply inv_ext|]. split; simpl; try done.
      * by destruct Htr.
      * intros _. split; [lia|]. lia.
      * by left.
    + apply Nat.ltb_ge in Hhi. split; [done|]. split; try done.
      * rewrite <-Hnr, <-Hpc. intros H. destruct (Hpe H). split; [done|]. lia.
      * rewrite <-Hnr. destruct Hfi as [|Hfi]; [by left|right]. intros p Hp.
        rewrite HL, rqs_insert. rewrite decide_False by lia. auto.
Qed.

Lemma preempt_now k L a va t v L0 :
  Queued k L a va t v L0 → preempt_count k = 0 → (prio v < prio va)%nat →
  check_and_preempt t k = Switch (switched t k) (λ s, Done tt s) ∧
  sched_inv t (switched t k).
Proof.
  intros HQ Hc Hlt. pose proof HQ as [HI Ha Hva Hr Hv HL (h & Hh & k0 & HT & Hk0 & Hnr & Hpc) Hb].
  destruct (queued_track _ _ _ _ _ _ _ HQ) as [Htr Hne].
  destruct HT as [_ _ _ _ Hhd _ Hpe Hfi].
  assert (need_resched k = false) as Hnr'.
  { destruct (need_resched k); [|done]. destruct Hpe; [done|]. lia. }
  destruct Hfi as [?|Hfi]; [congruence|]. split.
  - unfold check_and_preempt, task_active. erewrite bind_Done by reflexivity. cbn beta. rewrite Ha.
    run (get_task_run k t v). run (get_task_run k a va).
    unfold priority_higher. rewrite (proj2 (Nat.ltb_lt _ _) Hlt).
    unfold preempt_disabled. erewrite bind_Done by reflexivity. cbn beta. rewrite Hc. simpl.
    by eapply do_ctx_switch_run.
  - eapply switched_ok; [done..| |].
    + rewrite HL, rqs_insert, decide_True by done. by rewrite Hfi.
    + intros p Hp. rewrite HL, rqs_insert, decide_False by lia. apply Hfi. lia.
Qed.

Lemma top_rqs k L L' a va :
  Top k L a va → (∀ p, rqs L' p = rqs L p) → Top k L' a va.
Proof.
  intros [[Hb Hab Hid] Ha Hva Hr Hhd Hne Hpe Hfi] Hq.
  split; rewrite ?Hq; try done; [split|]; try done; [|by rewrite Hq|].
  - intros p ?. rewrite Hq. auto.
  - destruct Hfi as [|Hfi]; [by left|right]. intros p ?. rewrite Hq. auto.
Qed.

(** The lists once a waiting task has been readied. *)
Definition woken (t : tid) (p : priority) (L : gmap nid (list nid)) : gmap nid (list nid) :=
  <[NReadyQ p := rqs L p ++ [NReady t]]> (unlinked (NWait t) (unlinked (NSleep t) L)).

Lemma not_runnable_unqueued X k L t v :
  Inv X k L → tasks k !! t = Some v → runnable (state v) = false →
  ∀ h l, L !! h = Some l → NReady t ∉ l.
Proof.
  intros HI Ht Hr h l Hl Hn. pose proof (inv_belongs _ _ _ HI _ _ _ Hl Hn) as Hb.
  destruct h; simpl in Hb; try done. destruct Hb as (v' & ? & _ & ?). simplify_eq. congruence.
Qed.

(** Up to the check for preemption: the task is in its ready queue, and the
    highest priority takes it into account. *)
Lemma ready_front X k L t v :
  Inv X k L → (X = None ∨ X = Some t) → tasks k !! t = Some v → waiting (state v) = true →
  ∃ k' L0, scheduler_ready_task t k = (check_and_preempt t;; irq_restore (sie k)) k' ∧
    Inv None k' (woken t (prio v) L) ∧ (∀ p, rqs L0 p = rqs L p) ∧
    woken t (prio v) L = <[NReadyQ (prio v) := rqs L0 (prio v) ++ [NReady t]]> L0 ∧
    highest_ready_tracking k' = Nat.min (prio v) (highest_ready_tracking k) ∧
    tasks k' = <[t := with_state RUNNING v]> (tasks k) ∧ sie k' = false ∧
    rest k' = rest (with_highest (highest_ready_tracking k') k).
Proof.
  intros HI HX Ht Hw.
  assert (Inv X (with_sie false k) L) as HI0 by by eapply inv_ext.
  destruct (task_wake_run X _ L t v HI0) as (k1 & L1 & Hwk & HI1 & Hts & Hrest & Hsie & HL1); [done..|].
  assert (∀ p, rqs L1 p = rqs L p) as Hrq.
  { intros p. rewrite HL1. unfold rqs, unlinked. rewrite !lookup_fmap.
    destruct (L !! NReadyQ p) as [l|] eqn:Hl; [|done]. simpl.
    rewrite !filter_not_elem; [done|..]; intros Hx; [|apply list_elem_of_filter in Hx as [_ Hx]];
      by apply (inv_belongs _ _ _ HI _ _ _ Hl) in Hx. }
  assert (tasks k1 !! t = Some (with_state RUNNING v)) as Ht1 by (by rewrite Hts, lookup_insert_eq).
  set (k2 := with_highest (Nat.min (prio v) (highest_ready_tracking k1)) k1).
  assert (Inv (Some t) k2 L1) as HI2 by by eapply inv_ext.
  destruct (enqueue_run k2 L1 t (with_state RUNNING v) HI2) as (s' & Henq & HI3); [done|done| |].
  { intros h l Hl Hn. rewrite HL1 in Hl. destruct (unlinked_elem _ _ _ _ _ Hl Hn) as (_ & l1 & Hl1 & Hn1).
    destruct (unlinked_elem _ _ _ _ _ Hl1 Hn1) as (_ & l2 & Hl2 & Hn2).
    eapply (not_runnable_unqueued X k L t v); [done|done| |done|done]. by destruct (state v). }
  simpl in Henq, HI3. injection Hrest as Ha Hnp Hat Hpc Hnr Hhi Htk Hmu Hse.
  assert (woken t (prio v) L = <[NReadyQ (prio v) := rqs L1 (prio v) ++ [NReady t]]> L1) as HW.
  { unfold woken. by rewrite Hrq, HL1. }
  exists (with_nodes s' k2), L1. rewrite HW. split_and!; [|done|done|done|simpl; by rewrite Hhi|done|done|unfold rest; simpl; congruence].
  unfold scheduler_ready_task. run irq_save_run. mstep Hwk.
  run (update_highest_run k1 t (with_state RUNNING v)). simpl prio. fold k2. mstep Henq. done.
Qed.

Lemma ready_task_queues X k L a va t v :
  Inv X k L → (X = None ∨ X = Some t) → Top k L a va → t ≠ a →
  tasks k !! t = Some v → waiting (state v) = true →
  ∃ k' L0, scheduler_ready_task t k = (check_and_preempt t;; irq_restore (sie k)) k' ∧
    Queued k' (woken t (prio v) L) a va t (with_state RUNNING v) L0 ∧
    tasks k' = <[t := with_state RUNNING v]> (tasks k) ∧ sie k' = false ∧
    rest k' = rest (with_highest (highest_ready_tracking k') k).
Proof.
  intros HI HX HT Hne Ht Hw. pose proof (inv_prio _ _ _ HI t v Ht) as Hpb.
  destruct (ready_front X k L t v HI HX Ht Hw) as (k' & L0 & E & HI' & Hrq & HW & Hh & Hts & Hsie & Hrest).
  exists k', L0. split_and!; [done| |done..]. pose proof Hrest as Hr. injection Hr as Ha Hnp Hat Hpc Hnr Htk Hmu Hse.
  rewrite HW. rewrite HW in HI'. split; try done.
  - rewrite Ha. apply HT.
  - rewrite Hts, lookup_insert_ne; [apply HT|done].
  - apply HT.
  - by rewrite Hts, lookup_insert_eq.
  - exists (highest_ready_tracking k). split; [done|]. exists k. split_and!; [|done..]. eapply top_rqs; done.
Qed.

Lemma ready_task_later X k L a va t v :
  Inv X k L → (X = None ∨ X = Some t) → Top k L a va → t ≠ a →
  tasks k !! t = Some v → waiting (state v) = true →
  0 < preempt_count k ∨ (prio va ≤ prio v)%nat →
  ∃ k', scheduler_ready_task t k = Done tt k' ∧ Inv None k' (woken t (prio v) L) ∧
    Top k' (woken t (prio v) L) a va ∧
    tasks k' = <[t := with_state RUNNING v]> (tasks k) ∧ sie k' = sie k ∧
    rest k' = rest (with_need_resched (need_resched k || priority_higher (prio v) (prio va))
                (with_highest (highest_ready_tracking k') k)).
Proof.
  intros HI HX HT Hne Ht Hw Hc.
  destruct (ready_task_queues X k L a va t v) as (k1 & L0 & Hrun & HQ & Hts & Hsie & Hrest); [done..|].
  injection Hrest as Ha Hnp Hat Hpc Hnr Htk Hmu Hse.
  destruct (preempt_later _ _ _ _ _ _ _ HQ) as (Hcp & HI' & HT'); [simpl; by rewrite Hpc|].
  simpl prio in *. set (b := priority_higher (prio v) (prio va)) in *.
  exists (with_sie (sie k || sie (delayed k1 b)) (delayed k1 b)). split_and!.
  - rewrite Hrun. mstep Hcp. apply irq_restore_run.
  - by eapply inv_ext.
  - destruct HT' as [[] ? ? ? ? ? ? ?]. by do 2 (split; try done).
  - by destruct b.
  - simpl. destruct b; simpl; by rewrite Hsie, orb_false_r.
  - unfold rest. destruct b; simpl; rewrite ?orb_true_r, ?orb_false_r; congruence.
Qed.

Lemma ready_task_now X k L a va t v :
  Inv X k L → (X = None ∨ X = Some t) → Top k L a va → t ≠ a →
  tasks k !! t = Some v → waiting (state v) = true →
  preempt_count k = 0 → (prio v < prio va)%nat →
  ∃ k', scheduler_ready_task t k = Switch k' (λ s, irq_restore (sie k) s) ∧
    sched_inv t k' ∧ preempt_count k' = 0 ∧ mutexes k' = mutexes k ∧ sems k' = sems k.
Proof.
  intros HI HX HT Hne Ht Hw Hc Hlt.
  destruct (ready_task_queues X k L a va t v) as (k1 & L0 & Hrun & HQ & Hts & Hsie & Hrest); [done..|].
  injection Hrest as Ha Hnp Hat Hpc Hnr Htk Hmu Hse.
  destruct (preempt_now _ _ _ _ _ _ _ HQ) as (Hcp & HI'); [congruence|done|].
  exists (switched t k1). split_and!; [|done|simpl; congruence..].
  rewrite Hrun. unfold mbind, M_bind. by rewrite Hcp.
Qed.

Lemma irq_restore_inv b a k Y R :
  sched_inv a k → wpr Y R (irq_restore b k) (λ _ k', sched_inv a k').
Proof.
  intros (L & va & HI & HT). rewrite irq_restore_run. simpl. exists L, va.
  split; [by eapply inv_ext|]. destruct HT as [[] ? ? ? ? ? ? ?]. by do 2 (split; try done).
Qed.

Lemma ready_task_wpr X k L a va t v :
  Inv X k L → (X = None ∨ X = Some t) → Top k L a va → t ≠ a →
  tasks k !! t = Some v → waiting (state v) = true → 0 ≤ preempt_count k →
  wpr switch_ok (resumed a) (scheduler_ready_task t k) (λ _ k', sched_inv a k').
Proof.
  intros HI HX HT Hne Ht Hw Hpc.
  destruct (decide (0 < preempt_count k ∨ (prio va ≤ prio v)%nat)) as [Hc|Hc].
  - destruct (ready_task_later X k L a va t v) as (k' & -> & HI' & HT' & _); [done..|].
    simpl. by exists (woken t (prio v) L), va.
  - destruct (ready_task_now X k L a va t v) as (k' & -> & Hs & Hp & _); [done..|lia|lia|].
    simpl. split; [split; eauto|]. intros s' [_ Hs']. by apply irq_restore_inv.
Qed.

(** ** Leaving the processor *)

Lemma empty_run X k L p :
  Inv X k L → (p < PRIORITY_COUNT)%nat →
  clist_empty (NReadyQ p) (k_nodes k) = Some (bool_decide (rqs L p = [])).
Proof.
  intros HI Hp. destruct (inv_rq _ _ _ HI p Hp) as [l Hl].
  rewrite (empty_rep None _ L _ l (inv_rep _ _ _ HI) Hl). unfold rqs. by rewrite Hl.
Qed.

Lemma refresh_scan_run X k L q n :
  Inv X k L → (q + n <= PRIORITY_COUNT)%nat →
  (∃ p, (q <= p < q + n)%nat ∧ rqs L p ≠ []) →
  ∃ h, refresh_scan (seq q n) k = Done tt (with_highest h k) ∧ (q <= h < q + n)%nat ∧
    rqs L h ≠ [] ∧ ∀ p, (q <= p < h)%nat → rqs L p = [].
Proof.
  intros HI. revert q. induction n as [|n IH]; intros q Hb (p & Hp & Hne); [lia|]. simpl.
  erewrite bind_Done; [|apply read_nodes_run; apply (empty_run X k L q HI); lia]. cbn beta.
  destruct (decide (rqs L q = [])) as [Hq|Hq].
  - rewrite bool_decide_true by done. simpl.
    destruct (IH (S q)) as (h & Hr & Hh & Hhne & Hab); [lia| |].
    { exists p. split; [|done]. assert (p ≠ q) by congruence. lia. }
    exists h. split_and!; [done|lia|lia|done|]. intros p' Hp'.
    destruct (decide (p' = q)) as [->|]; [done|]. apply Hab. lia.
  - rewrite bool_decide_false by done. simpl. exists q.
    split_and!; [done|lia|lia|done|]. intros. lia.
Qed.

Lemma refresh_run X k L :
  Inv X k L → Track k L →
  ∃ h, refresh_highest_prio k = Done tt (with_highest h k) ∧ (h < PRIORITY_COUNT)%nat ∧
    rqs L h ≠ [] ∧ ∀ p, (p < h)%nat → rqs L p = [].
Proof.
  intros HI [Hb Hab Hid]. unfold refresh_highest_prio. erewrite bind_Done by reflexivity. cbn beta.
  set (h0 := highest_ready_tracking k) in *.
  erewrite bind_Done; [|apply read_nodes_run; by apply (empty_run X k L h0 HI)]. cbn beta.
  destruct (decide (rqs L h0 = [])) as [Hq|Hq].
  - rewrite bool_decide_true by done.
    destruct (refresh_scan_run X k L (S h0) (PRIORITY_COUNT - S h0) HI) as (h & Hr & Hh & Hne & Hab'); [lia| |].
    { exists IDLE. split; [|done]. assert (h0 ≠ IDLE) by congruence. unfold PRIORITY_COUNT, IDLE in *. lia. }
    exists h. split_and!; [exact Hr|lia|done|]. intros p Hp.
    destruct (decide (p < h0)%nat); [by apply Hab|]. destruct (decide (p = h0)) as [->|]; [done|].
    apply Hab'. lia.
  - rewrite bool_decide_false by done. exists h0. split_and!; [by destruct k|done|done|done].
Qed.

Lemma first_run X k L p :
  Inv X k L → (p < PRIORITY_COUNT)%nat →
  clist_first (NReadyQ p) (k_nodes k) = Some (head (rqs L p)).
Proof.
  intros HI Hp. destruct (inv_rq _ _ _ HI p Hp) as [l Hl].
  rewrite (first_rep None _ L _ l (inv_rep _ _ _ HI) Hl). unfold rqs. by rewrite Hl.
Qed.

Lemma switch_out_run k L a va :
  Inv None k L → Track k L → active k = Some a → tasks k !! a = Some va →
  need_resched k = false →
  ∃ next v h, switch_out_active k =
      Switch (switched next (with_highest h (with_sie false k))) (λ s, irq_restore (sie k) s) ∧
    sched_inv next (switched next (with_highest h (with_sie false k))) ∧
    tasks k !! next = Some v ∧ prio v = h ∧ head (rqs L h) = Some (NReady next) ∧
    ∀ p, (p < h)%nat → rqs L p = [].
Proof.
  intros HI Htr Ha Hva Hnr.
  assert (Inv None (with_sie false k) L) as HI0 by by eapply inv_ext.
  assert (Track (with_sie false k) L) as Htr0 by by destruct Htr.
  destruct (refresh_run None _ L HI0 Htr0) as (h & Hr & Hh & Hne & Hab).
  set (k1 := with_highest h (with_sie false k)) in *.
  assert (Inv None k1 L) as HI1 by by eapply inv_ext.
  destruct (rqs L h) as [|n q] eqn:Hq; [done|].
  destruct (rqs_elem None k L h n) as (next & v & -> & Hv & Hp & Hrun); [done|rewrite Hq; left|].
  exists next, v, h. split_and!; [| |done|done|by rewrite Hq|done].
  - unfold switch_out_active. run irq_save_run. mstep Hr. unfold pick_highest.
    erewrite bind_Done by reflexivity. cbn beta.
    erewrite bind_Done; [|apply read_nodes_run; by apply (first_run None k1 L h)]. cbn beta.
    rewrite Hq. simpl head. unfold container_of_ready. simpl.
    unfold mbind, M_bind. by rewrite (do_ctx_switch_run k1 a va next v).
  - eapply (switched_ok k1 L a va next v); try done; rewrite ?Hp; try done.
    + destruct Htr. by split.
    + simpl. by rewrite Hq.
    + by rewrite Hq.
Qed.

Lemma resumed_irq b me k Y R k0 :
  resumed me k0 k → wpr Y R (irq_restore b k) (λ _ k', resumed me k0 k').
Proof.
  intros [Hp Hs]. rewrite irq_restore_run. simpl. split; [done|].
  pose proof (irq_restore_inv b me k (λ _, True) (λ _ _, True) Hs) as H.
  by rewrite irq_restore_run in H.
Qed.

Lemma switch_out_wpr k L a va :
  Inv None k L → Track k L → active k = Some a → tasks k !! a = Some va →
  need_resched k = false → preempt_count k = 0 →
  wpr switch_ok (resumed a) (switch_out_active k) (λ _ k', resumed a k k').
Proof.
  intros HI Htr Ha Hva Hnr Hpc.
  destruct (switch_out_run k L a va) as (next & v & h & -> & Hs & _); [done..|].
  simpl. split; [split; eauto|]. intros s' Hs'. by apply resumed_irq.
Qed.

(** The lists a running task leaves behind. *)
Lemma track_leave k L a va L' :
  Top k L a va → prio va ≠ IDLE → Inv None k L →
  (∀ p, rqs L' p = filter (λ x, x ≠ NReady a) (rqs L p)) → Track k L'.
Proof.
  intros HT Hid HI Hq. destruct (top_track _ _ _ _ HT) as [Hb Hab Hidl]. split; [done| |].
  - intros p Hp. rewrite Hq. by rewrite Hab.
  - rewrite Hq, filter_not_elem; [done|]. intros Hx.
    destruct (rqs_elem _ _ _ _ _ HI Hx) as (t & v & [= <-] & Hv & Hp & _).
    rewrite (top_task _ _ _ _ HT) in Hv. by simplify_eq.
Qed.

Lemma running_unqueued X k L a va :
  Inv X k L → tasks k !! a = Some va → state va = RUNNING →
  ∀ h l, L !! h = Some l → (NWait a ∉ l) ∧ NSleep a ∉ l.
Proof.
  intros HI Hva Hr h l Hl. split; intros Hn; pose proof (inv_belongs _ _ _ HI _ _ _ Hl Hn) as Hb;
    destruct h; simpl in Hb; try done; destruct Hb as (v' & Hv' & Hs); simplify_eq;
    rewrite Hr in Hs; done.
Qed.

Definition blocked_on (wq : nid) (t : tid) (l : list nid) (L : gmap nid (list nid)) : gmap nid (list nid) :=
  <[wq := l ++ [NWait t]]> (unlinked (NReady t) L).

(** Putting the state of a task in transit to one its remaining nodes allow. *)
Lemma inv_transit k L t v st :
  Inv (Some t) k L → tasks k !! t = Some v →
  (∀ h l, L !! h = Some l → NReady t ∉ l) → (∀ h l, L !! h = Some l → NSleep t ∉ l) →
  (∀ h l, L !! h = Some l → NWait t ∈ l → is_wq h = true) →
  (waiting st = true ∨ ∀ h l, L !! h = Some l → NWait t ∉ l) →
  ∀ w, Inv (Some t) (with_tasks (<[t := with_wake_up_time w (with_state st v)]> (tasks k)) k) L.
Proof.
  intros HI Ht Hr Hs Hw Hst w. eapply inv_task; [done|exact Ht|done| |by right|by left].
  intros h l n Hl Hn Hown. pose proof (inv_belongs _ _ _ HI _ _ _ Hl Hn) as Hb.
  destruct n; simpl in Hown; try done; simplify_eq.
  - destruct h; simpl in *; try done. rewrite lookup_insert_eq. eauto.
  - by destruct (Hr _ _ Hl).
  - specialize (Hw _ _ Hl Hn). destruct Hst as [Hst|Hno]; [|by destruct (Hno _ _ Hl)].
    destruct h; simpl in *; try done; rewrite lookup_insert_eq; eauto.
  - by destruct (Hs _ _ Hl).
Qed.

Lemma move_to_wq_run k L a va wq l :
  Inv None k L → Top k L a va → is_wq wq = true → L !! wq = Some l →
  ∃ s', let k' := with_nodes s' (with_tasks (<[a := with_state BLOCKED va]> (tasks k)) k) in
    move_to_wq a wq k = Done tt k' ∧ Inv None k' (blocked_on wq a l L).
Proof.
  intros HI HT Hwq Hl. pose proof (top_task _ _ _ _ HT) as Hva.
  pose proof (running_unqueued _ _ _ _ _ HI Hva (top_running _ _ _ _ HT)) as Hun.
  destruct (unlink_run None k L (NReady a) a va) as (s1 & H1 & HI1); [done..|by left|].
  assert (∀ h l n, unlinked (NReady a) L !! h = Some l → n ∈ l → ∃ l0, L !! h = Some l0 ∧ n ∈ l0) as Hsub.
  { intros h l' n Hl' Hn. destruct (unlinked_elem _ _ _ _ _ Hl' Hn) as (_ & ?). done. }
  assert (∀ h l, unlinked (NReady a) L !! h = Some l → NWait a ∉ l) as HnoW.
  { intros h l' Hl' Hn. destruct (Hsub _ _ _ Hl' Hn) as (l0 & Hl0 & Hn0). by destruct (Hun _ _ Hl0). }
  assert (Inv (Some a) (with_tasks (<[a := with_state BLOCKED va]> (tasks k)) (with_nodes s1 k))
    (unlinked (NReady a) L)) as HI2.
  { apply (λ H1 H2 H3 H4, inv_transit (with_nodes s1 k) _ a va BLOCKED HI1 Hva H1 H2 H3 H4 (wake_up_time va)).
    - intros. by eapply unlinked_no.
    - intros h l' Hl' Hn. destruct (Hsub _ _ _ Hl' Hn) as (l0 & Hl0 & Hn0). by destruct (Hun _ _ Hl0).
    - intros h l' Hl' Hn. by destruct (HnoW _ _ Hl').
    - by left. }
  assert (unlinked (NReady a) L !! wq = Some l) as Hl1.
  { apply unlinked_lookup. exists l. split; [done|]. symmetry. apply filter_not_elem. intros Hn.
    pose proof (inv_belongs _ _ _ HI _ _ _ Hl Hn). by destruct wq. }
  destruct (push_back_rep None _ _ wq l (NWait a) (inv_rep _ _ _ HI2)) as (s2 & Hs2 & HR2 & Hd2); [done|done| |].
  { eapply (unused_node _ _ _ _ a); [done|done|simpl; by rewrite lookup_insert_eq|done]. }
  exists s2. split.
  - unfold move_to_wq, ready_queue_remove. mstep H1. unfold task_block.
    run (upd_task_run (with_nodes s1 k) a va). exact (on_nodes_run _ _ s2 Hs2).
  - eapply inv_settle; [|simpl; by rewrite lookup_insert_eq|].
    + apply (inv_link (Some a) _ _ s2 wq l [] (NWait a) HI2); [by rewrite app_nil_r| |done..|by intros ->].
      destruct wq; simpl in *; try done; rewrite lookup_insert_eq; eauto.
    + split_and!; [done|done|]. intros _. exists wq. eexists. unfold blocked_on.
      rewrite lookup_insert_eq. split_and!; [done|done|]. apply elem_of_app. right. left.
Qed.

Lemma wake_up_cmp_le k x y : (wake_up_cmp k x y <=? 0) = bool_decide (sleep_key k x ≤ sleep_key k y).
Proof.
  unfold wake_up_cmp. destruct (decide _); simpl.
  - rewrite bool_decide_false by lia. done.
  - rewrite bool_decide_true by lia. done.
Qed.

Lemma sleep_insert_sorted k n l :
  StronglySorted (λ a b, sleep_key k a ≤ sleep_key k b) l →
  StronglySorted (λ a b, sleep_key k a ≤ sleep_key k b)
    (sorted_prefix (wake_up_cmp k) n l ++ n :: sorted_suffix (wake_up_cmp k) n l).
Proof.
  induction 1 as [|x l Hs IH Hf]; simpl; [by repeat constructor|].
  rewrite wake_up_cmp_le. destruct (decide (sleep_key k x ≤ sleep_key k n)).
  - rewrite bool_decide_true by done. simpl. constructor; [done|].
    rewrite Forall_app, Forall_cons. rewrite <-(sorted_prefix_suffix (wake_up_cmp k) n l), Forall_app in Hf.
    tauto.
  - rewrite bool_decide_false by done. simpl. constructor; [by constructor|].
    constructor; [lia|]. eapply Forall_impl; [done|]. intros y ?. simpl in *. lia.
Qed.

(** Going to sleep, from a state where the task has no ready node left. *)
Lemma sleep_run k L t v delay :
  Inv (Some t) k L → tasks k !! t = Some v →
  (∀ h l, L !! h = Some l → (NReady t ∉ l) ∧ NSleep t ∉ l) →
  (∀ h l, L !! h = Some l → NWait t ∈ l → is_wq h = true) →
  let v' := with_wake_up_time (u32 (delay + ticks k / ITFREQ)) (with_state SLEEPING v) in
  ∃ s' l1 l2, L !! NSleepHead = Some (l1 ++ l2) ∧
    let k' := with_nodes s' (with_tasks (<[t := v']> (tasks k)) k) in
    task_sleep t delay k = Done tt (with_tasks (<[t := v']> (tasks k)) k) ∧
    insert_sleep t (with_tasks (<[t := v']> (tasks k)) k) = Done tt k' ∧
    Inv None k' (<[NSleepHead := l1 ++ NSleep t :: l2]> L).
Proof.
  intros HI Ht Hno Hw v'. set (k1 := with_tasks (<[t := v']> (tasks k)) k).
  assert (Inv (Some t) k1 L) as HI1.
  { apply (inv_transit k L t v SLEEPING HI Ht); [apply Hno..|done|by left]. }
  destruct (inv_sl _ _ _ HI1) as [l Hl].
  assert (tasks k1 !! t = Some v') as Ht1 by (simpl; by rewrite lookup_insert_eq).
  destruct (insert_sorted_rep None _ L NSleepHead l (NSleep t) (wake_up_cmp k1) (inv_rep _ _ _ HI1))
    as (s' & Hs' & HR' & Hd'); [done|done|eapply unused_node; [done|done|done|apply Hno]|].
  exists s', (sorted_prefix (wake_up_cmp k1) (NSleep t) l), (sorted_suffix (wake_up_cmp k1) (NSleep t) l).
  rewrite sorted_prefix_suffix. split; [done|]. cbv zeta. fold k1. split_and!.
  - unfold task_sleep. run (upd_task_run k t v). erewrite bind_Done by reflexivity. cbn beta.
    erewrite upd_task_run by (simpl; by rewrite lookup_insert_eq).
    unfold k1, v', with_tasks. simpl. by rewrite insert_insert_eq.
  - unfold insert_sleep. erewrite bind_Done by reflexivity. cbn beta.
    exact (on_nodes_run k1 _ s' Hs').
  - eapply inv_settle; [|exact Ht1|].
    + apply (inv_link (Some t) k1 L s'); [done|by rewrite sorted_prefix_suffix|simpl; eauto|done|done|].
      intros _. apply sleep_insert_sorted. by eapply inv_sorted.
    + split_and!; [done| |done]. intros _. eexists. rewrite lookup_insert_eq. split; [done|].
      apply elem_of_app. right. left.
Qed.

(** What a blocking call needs: a task that is not the idle one, and that does
    not hold a lock. *)
Definition may_block (a : tid) (k : kst) : Prop :=
  preempt_count k = 0 ∧ ∀ va, tasks k !! a = Some va → prio va ≠ IDLE.

Lemma may_block_resched a k L va :
  may_block a k → Top k L a va → need_resched k = false.
Proof.
  intros [Hp _] HT. destruct (need_resched k) eqn:Hn; [|done].
  destruct (top_pending _ _ _ _ HT Hn). lia.
Qed.

(** Masking the interrupts changes nothing else. *)
Lemma masked k L a va :
  Inv None k L → Top k L a va → Inv None (with_sie false k) L ∧ Top (with_sie false k) L a va.
Proof.
  intros HI HT. split; [by eapply inv_ext|].
  destruct HT as [[] ? ? ? ? ? ? ?]. by do 2 (split; try done).
Qed.

Lemma bind_active {A} (f : tid → M kst A) k a :
  active k = Some a → (t ← task_active; t ← of_opt t; f t) k = f a k.
Proof. intros Ha. unfold task_active. erewrite bind_Done by reflexivity. cbn beta. by rewrite Ha. Qed.

Lemma inv_weaken k L t : Inv None k L → Inv (Some t) k L.
Proof. intros []. split; auto. Qed.

Lemma blocked_track k L a va wq l :
  Inv None k L → Top k L a va → prio va ≠ IDLE → is_wq wq = true →
  Track k (blocked_on wq a l L).
Proof.
  intros HI HT Hid Hwq. eapply track_leave; [done..|]. intros p. unfold blocked_on.
  rewrite rqs_insert_other by by destruct wq. apply unlinked_rqs.
Qed.

(** The end of every blocking call: the task is queued, another one runs, and
    this one returns when it is resumed. *)
Lemma leave_wpr k0 k L a va b :
  Inv None k L → Track k L → active k = Some a → tasks k !! a = Some va →
  need_resched k = false → preempt_count k = 0 →
  wpr switch_ok (resumed a) ((switch_out_active;; irq_restore b) k) (λ _ k', resumed a k0 k').
Proof.
  intros. apply wpr_bind. eapply wpr_mono; [by eapply switch_out_wpr|].
  intros [] k' Hk'. by apply resumed_irq.
Qed.

Lemma block_on_wpr k L a va wq l :
  Inv None k L → Top k L a va → may_block a k → is_wq wq = true → L !! wq = Some l →
  wpr switch_ok (resumed a) (scheduler_block_on wq k) (λ _ k', resumed a k k').
Proof.
  intros HI HT Hmb Hwq Hl. pose proof (may_block_resched _ _ _ _ Hmb HT) as Hnr. destruct Hmb as [Hpc Hid].
  destruct (masked _ _ _ _ HI HT) as [HI0 HT0]. pose proof HT0 as [_ Ha Hva _ _ _ _ _].
  destruct (move_to_wq_run _ L a va wq l HI0 HT0 Hwq Hl) as (s' & Hm & HI').
  unfold scheduler_block_on. run irq_save_run. rewrite (bind_active _ _ a Ha). mstep Hm.
  eapply leave_wpr; [exact HI'| |exact Ha|simpl; by rewrite lookup_insert_eq|done|done].
  by destruct (blocked_track _ _ _ _ wq l HI0 HT0 (Hid _ Hva) Hwq).
Qed.

(** The nodes of a task that has just blocked. *)
Lemma blocked_nodes k L a va wq l :
  Inv None k L → Top k L a va → is_wq wq = true → L !! wq = Some l →
  (∀ h l', blocked_on wq a l L !! h = Some l' → (NReady a ∉ l') ∧ NSleep a ∉ l') ∧
  (∀ h l', blocked_on wq a l L !! h = Some l' → NWait a ∈ l' → is_wq h = true).
Proof.
  intros HI HT Hwq Hl.
  pose proof (running_unqueued _ _ _ _ _ HI (top_task _ _ _ _ HT) (top_running _ _ _ _ HT)) as Hun.
  assert (NReady a ∉ l) as Hnr.
  { intros Hn. pose proof (inv_belongs _ _ _ HI _ _ _ Hl Hn). by destruct wq. }
  unfold blocked_on. split; intros h l'; rewrite lookup_insert; case_decide as Hh; subst; try done.
  - intros [= <-]. rewrite !elem_of_app, !list_elem_of_singleton. destruct (Hun _ _ Hl).
    split; intros [?|?]; done.
  - intros Hl'. split; [by eapply unlinked_no|]. intros Hn.
    destruct (unlinked_elem _ _ _ _ _ Hl' Hn) as (_ & l0 & Hl0 & Hn0). by destruct (Hun _ _ Hl0).
  - intros Hl' Hn. destruct (unlinked_elem _ _ _ _ _ Hl' Hn) as (_ & l0 & Hl0 & Hn0).
    by destruct (Hun _ _ Hl0).
Qed.

Lemma track_sleep k k' L l :
  Track k L → highest_ready_tracking k' = highest_ready_tracking k → Track k' (<[NSleepHead := l]> L).
Proof.
  intros [] E. split; rewrite ?E; try done; [intros p Hp|]; rewrite rqs_insert_other by done; auto.
Qed.

Lemma block_on_timeout_wpr k L a va wq l delay :
  Inv None k L → Top k L a va → may_block a k → is_wq wq = true → L !! wq = Some l →
  wpr switch_ok (resumed a) (scheduler_block_on_with_timeout wq delay k) (λ _ k', resumed a k k').
Proof.
  intros HI HT Hmb Hwq Hl. pose proof (may_block_resched _ _ _ _ Hmb HT) as Hnr. destruct Hmb as [Hpc Hid].
  destruct (masked _ _ _ _ HI HT) as [HI0 HT0]. pose proof HT0 as [_ Ha Hva _ _ _ _ _].
  destruct (move_to_wq_run _ L a va wq l HI0 HT0 Hwq Hl) as (s' & Hm & HI').
  pose proof (blocked_track _ _ _ _ wq l HI0 HT0 (Hid _ Hva) Hwq) as Htr.
  destruct (blocked_nodes _ _ _ _ wq l HI0 HT0 Hwq Hl) as [Hno Hw].
  set (k1 := with_nodes s' _) in Hm, HI'.
  assert (tasks k1 !! a = Some (with_state BLOCKED va)) as Hva1 by (simpl; by rewrite lookup_insert_eq).
  unfold scheduler_block_on_with_timeout. run irq_save_run. rewrite (bind_active _ _ a Ha). mstep Hm.
  destruct (decide (0 < delay)) as [Hd|Hd].
  - destruct (sleep_run k1 _ a _ delay (inv_weaken _ _ a HI') Hva1 Hno Hw)
      as (s2 & l1 & l2 & Hsl & Hs1 & Hs2 & HI2).
    erewrite bind_Done; [|mstep Hs1; exact Hs2]. cbn beta.
    eapply leave_wpr; [exact HI2| |exact Ha|simpl; by rewrite lookup_insert_eq|done|done].
    by eapply track_sleep.
  - erewrite bind_Done by reflexivity. cbn beta.
    eapply leave_wpr; [exact HI'| |exact Ha|done|done|done]. by destruct Htr.
Qed.

Lemma scheduler_sleep_wpr k L a va delay :
  Inv None k L → Top k L a va → may_block a k →
  wpr switch_ok (resumed a) (scheduler_sleep delay k) (λ _ k', resumed a k k').
Proof.
  intros HI HT Hmb. pose proof (may_block_resched _ _ _ _ Hmb HT) as Hnr. destruct Hmb as [Hpc Hid].
  destruct (masked _ _ _ _ HI HT) as [HI0 HT0]. pose proof HT0 as [_ Ha Hva Hrun _ _ _ _].
  pose proof (running_unqueued _ _ _ _ _ HI0 Hva Hrun) as Hun.
  destruct (unlink_run None _ L (NReady a) a va HI0) as (s1 & H1 & HI1); [done|done|by left|].
  assert (∀ h l n, unlinked (NReady a) L !! h = Some l → n ∈ l → ∃ l0, L !! h = Some l0 ∧ n ∈ l0) as Hsub.
  { intros h l' n Hl' Hn. destruct (unlinked_elem _ _ _ _ _ Hl' Hn) as (_ & ?). done. }
  destruct (sleep_run (with_nodes s1 (with_sie false k)) _ a va delay HI1 Hva)
    as (s2 & l1 & l2 & Hsl & Hs1 & Hs2 & HI2).
  { intros h l Hl. split; [by eapply unlinked_no|]. intros Hn.
    destruct (Hsub _ _ _ Hl Hn) as (l0 & Hl0 & Hn0). by destruct (Hun _ _ Hl0). }
  { intros h l Hl Hn. destruct (Hsub _ _ _ Hl Hn) as (l0 & Hl0 & Hn0). by destruct (Hun _ _ Hl0). }
  unfold scheduler_sleep. run irq_save_run. rewrite (bind_active _ _ a Ha).
  unfold ready_queue_remove. mstep H1. mstep Hs1. mstep Hs2.
  eapply leave_wpr; [exact HI2| |exact Ha|simpl; by rewrite lookup_insert_eq|done|done].
  eapply (track_sleep (with_sie false k)); [|done]. eapply track_leave; [exact HT0|by apply Hid|done|].
  intros p. apply unlinked_rqs.
Qed.

(** ** Time slices and preemption *)

(** The order of a ready queue after a time slice. *)
Definition rotated (q : list nid) : list nid := match q with x :: y :: q' => (y :: q') ++ [x] | _ => q end.

Lemma inv_reorder X k L s' h l l' :
  Inv X k L → L !! h = Some l → l ≡ₚ l' → h ≠ NSleepHead →
  Rep s' (<[h := l']> L) → dom s' = dom (k_nodes k) →
  Inv X (with_nodes s' k) (<[h := l']> L).
Proof.
  intros [HR Hh Hb Hpl Hn Ho Hpr Hrq Hsl Hso] Hl Hperm Hns HR' Hd.
  assert (∀ g, is_Some (L !! g) → is_Some (<[h := l']> L !! g)) as Hsome.
  { intros g Hg. rewrite lookup_insert. by case_decide. }
  split; simpl; auto.
  - intros g l0. rewrite lookup_insert. case_decide; subst; eauto.
  - intros g l0 n. rewrite lookup_insert. case_decide; subst; [|eauto]. intros [= <-] Hn'.
    eapply Hb; [exact Hl|]. by rewrite Hperm.
  - intros t v Ht HX. eapply placed_mono; [by apply (Hpl t v)|].
    intros g l0 n Hg Hn' _. rewrite lookup_insert. case_decide; subst; [|eauto].
    eexists. split; [done|]. simplify_eq. by rewrite <-Hperm.
  - intros t v n Ht Hown. rewrite Hd. eauto.
  - intros t v Ht. destruct (Ho t v Ht). auto.
  - intros l0. rewrite lookup_insert_ne by done. by apply Hso.
Qed.

Lemma rotate_queue_run k L p :
  Inv None k L → (p < PRIORITY_COUNT)%nat → rqs L p ≠ [] →
  ∃ s', rotate_ready_queue (NReadyQ p) k =
      Done (container_of_ready (head (rotated (rqs L p)))) (with_nodes s' k) ∧
    Inv None (with_nodes s' k) (<[NReadyQ p := rotated (rqs L p)]> L).
Proof.
  intros HI Hp Hne. destruct (inv_rq _ _ _ HI p Hp) as [l Hl].
  assert (rqs L p = l) as Hq by (unfold rqs; by rewrite Hl). rewrite Hq in *.
  pose proof (inv_rep _ _ _ HI) as HR. pose proof (rep_nodup _ _ _ _ _ HR Hl) as Hnd.
  destruct l as [|x l]; [done|].
  destruct (rep_next_head None _ _ _ _ HR Hl) as [(c & Hc & Hn1)%nxt_Some _]. simpl in Hn1.
  destruct (rep_next_in None _ _ _ [] x l HR Hl) as [(c2 & Hc2 & Hn2)%nxt_Some _].
  unfold rotate_ready_queue.
  erewrite bind_Done; [|apply read_nodes_run; by apply (empty_rep None _ L _ _ HR Hl)]. cbn beta.
  rewrite bool_decide_false by done.
  erewrite bind_Done; [|apply read_nodes_run; rewrite Hc; simpl; by rewrite Hn1, Hc2]. cbn beta.
  destruct l as [|y l].
  - simpl in Hn2. rewrite bool_decide_true by done. cbn [orb].
    erewrite bind_Done; [|apply read_nodes_run; by apply (first_rep None _ L _ _ HR Hl)].
    exists (k_nodes k). simpl rotated. rewrite insert_id by done. by destruct k.
  - assert (next c2 ≠ NReadyQ p) as Hne2.
    { simpl in Hn2. rewrite Hn2. intros ->. assert (NReadyQ p ∈ x :: NReadyQ p :: l) as Hin by (right; left).
      by apply (inv_belongs _ _ _ HI _ _ _ Hl) in Hin. }
    rewrite bool_decide_false by done. cbn [orb].
    destruct (pop_front_rep None _ L _ _ HR Hl) as (s1 & Hs1 & HR1 & Hd1). simpl in Hs1, HR1.
    assert (x ∉ y :: l) as Hx by by apply NoDup_cons in Hnd as [? _].
    assert (belongs (tasks k) (NReadyQ p) x) as Hbx by (eapply (inv_belongs _ _ _ HI); [exact Hl|left]).
    destruct (push_back_rep None s1 _ (NReadyQ p) (y :: l) x HR1) as (s2 & Hs2 & HR2 & Hd2);
      [done|by rewrite lookup_insert_eq| |].
    { destruct (belongs_owner _ _ _ Hbx) as (t & Hown & [v Hv]). split_and!.
      - rewrite Hd1. by eapply inv_nodes.
      - rewrite lookup_insert_ne; [by eapply inv_not_head|]. by intros <-.
      - intros h l'. rewrite lookup_insert. case_decide as Hh; [by intros [= <-]|].
        intros Hl' Hin. apply Hh. eapply (rep_disj None _ L HR (NReadyQ p) h _ _ x Hl Hl'); [by right; left|by right]. }
    rewrite insert_insert_eq in HR2.
    exists s2. split.
    + erewrite bind_Done.
      2:{ unfold pop_front. erewrite bind_Done; [|apply read_nodes_run; exact Hs1]. cbn beta.
          erewrite bind_Done by reflexivity. reflexivity. }
      cbn beta. simpl fst. simpl snd. erewrite (bind_Done (of_opt _)) by reflexivity. cbn beta.
      erewrite bind_Done; [|apply on_nodes_run; exact Hs2]. cbn beta.
      erewrite bind_Done; [|apply read_nodes_run; apply (first_rep None _ _ (NReadyQ p) ((y :: l) ++ [x]) HR2);
        by rewrite lookup_insert_eq]. done.
    + eapply inv_reorder; [done|exact Hl| |done|done|congruence].
      simpl. by rewrite app_comm_cons, Permutation_app_comm.
Qed.

Lemma rotated_nil q : rotated q = [] ↔ q = [].
Proof. destruct q as [|x [|y q]]; done. Qed.
Lemma rotated_perm q : rotated q ≡ₚ q.
Proof. destruct q as [|x [|y q]]; [done..|]. simpl. by rewrite app_comm_cons, Permutation_app_comm. Qed.

Lemma rotate_run k L a va :
  Inv None k L → Track k L → active k = Some a → tasks k !! a = Some va →
  rqs L (highest_ready_tracking k) ≠ [] → need_resched k = false → preempt_count k = 0 →
  let h := highest_ready_tracking k in
  let L1 := <[NReadyQ h := rotated (rqs L h)]> L in
  ∃ s' next v, let k1 := with_nodes s' (with_sie false k) in
    scheduler_rotate k = (if decide (Some next = Some a) then irq_restore (sie k) k1
                          else Switch (switched next k1) (λ s, irq_restore (sie k) s)) ∧
    head (rotated (rqs L h)) = Some (NReady next) ∧ tasks k !! next = Some v ∧ prio v = h ∧
    Inv None k1 L1 ∧ Track k1 L1 ∧ sched_inv next (switched next k1).
Proof.
  intros HI Htr Ha Hva Hne Hnr Hpc h L1.
  assert (Inv None (with_sie false k) L) as HI0 by by eapply inv_ext.
  destruct (rotate_queue_run _ L h HI0) as (s' & Hr & HI1); [apply Htr|done|].
  assert (∃ n q', rotated (rqs L h) = n :: q') as (n & q' & Hq').
  { destruct (rotated (rqs L h)) as [|n q'] eqn:E; [by destruct Hne; apply rotated_nil|eauto]. }
  assert (n ∈ rqs L h) as Hn by (rewrite <-rotated_perm, Hq'; left).
  destruct (rqs_elem _ _ _ _ _ HI Hn) as (next & v & -> & Hv & Hp & _).
  set (k1 := with_nodes s' (with_sie false k)) in *.
  assert (Track k1 L1) as Htr1.
  { destruct Htr as [Hb Hab Hid]. split; [done| |]; unfold L1.
    - intros p Hlt. change (p < h)%nat in Hlt. rewrite rqs_insert, decide_False by lia. by apply Hab.
    - rewrite rqs_insert. destruct (decide _) as [E|]; [|done]. by rewrite rotated_nil. }
  exists s', next, v. cbv zeta. fold k1. split_and!; [|by rewrite Hq'|done|done|done|done|].
  - unfold scheduler_rotate. erewrite bind_Done by reflexivity. cbn beta.
    rewrite decide_False by lia. run irq_save_run. unfold pick_highest.
    erewrite bind_Done by reflexivity. cbn beta. mstep Hr. rewrite Hq'. change (container_of_ready _) with (Some next).
    unfold task_active. erewrite bind_Done by reflexivity. cbn beta.
    change (active _) with (active k). rewrite Ha. destruct (decide _); [done|].
    unfold mbind at 1, M_bind. by rewrite (do_ctx_switch_run k1 a va next v).
  - eapply (switched_ok k1 L1 a va next v); try done; unfold L1.
    + rewrite rqs_insert, decide_True by done. by rewrite Hq'.
    + rewrite rqs_insert, decide_True by done. by rewrite Hq'.
    + intros p Hlt. rewrite rqs_insert, decide_False by lia. apply Htr. fold h. lia.
Qed.

(** A task rotated back onto itself. *)
Lemma rotate_same k L a va s' :
  Top k L a va → need_resched k = false →
  let h := highest_ready_tracking k in let k1 := with_nodes s' (with_sie false k) in
  let L1 := <[NReadyQ h := rotated (rqs L h)]> L in
  head (rotated (rqs L h)) = Some (NReady a) → Track k1 L1 → Top k1 L1 a va.
Proof.
  intros HT Hnr h k1 L1 Hhd Htr. pose proof (top_prio _ _ _ _ HT Hnr) as Hh. fold h in Hh.
  destruct HT as [_ Ha Hva Hr _ Hne Hpe Hfi]. split; try done; unfold L1.
  - by rewrite rqs_insert, decide_True.
  - rewrite rqs_insert. simpl. fold h. rewrite decide_True by done. by rewrite rotated_nil.
  - destruct Hfi as [|Hfi]; [by left|right]. intros p Hlt. rewrite rqs_insert, decide_False by lia. auto.
Qed.

Lemma rotate_wpr k L a va :
  Inv None k L → Top k L a va → preempt_count k = 0 →
  wpr switch_ok (resumed a) (scheduler_rotate k) (λ _ k', resumed a k k').
Proof.
  intros HI HT Hpc. pose proof HT as [Htr Ha Hva _ _ Hne Hpe _].
  assert (need_resched k = false) as Hnr.
  { destruct (need_resched k); [|done]. destruct (Hpe eq_refl). lia. }
  destruct (rotate_run k L a va) as (s' & next & v & Hrun & Hhd & Hv & Hp & HI1 & Htr1 & Hs); [done..|].
  rewrite Hrun. destruct (decide _) as [[= ->]|].
  - apply resumed_irq. split; [done|]. eexists _, va. split; [exact HI1|].
    by eapply rotate_same.
  - simpl. split; [split; eauto|]. intros s'' Hs''. by apply resumed_irq.
Qed.

Lemma enable_preempt_wpr k L a va :
  Inv None k L → Top k L a va → 0 < preempt_count k < 2 ^ 32 →
  wpr switch_ok (resumed a) (scheduler_enable_preempt k)
    (λ _ k', sched_inv a k' ∧ preempt_count k' = preempt_count k - 1).
Proof.
  intros HI HT Hpc. unfold scheduler_enable_preempt.
  erewrite bind_Done by reflexivity. cbn beta. set (k1 := with_preempt_count _ k).
  assert (preempt_count k1 = preempt_count k - 1) as Hp1 by (simpl; apply wrap_small; lia).
  erewrite bind_Done by reflexivity. cbn beta. erewrite bind_Done by reflexivity. cbn beta. rewrite Hp1.
  assert (∀ k2, k_nodes k2 = k_nodes k → tasks k2 = tasks k → Inv None k2 L) as HIk by (intros; by eapply inv_ext).
  destruct (Z.eqb_spec (preempt_count k - 1) 0) as [Hz|Hz]; cbn [andb].
  - destruct (need_resched k1) eqn:Hnr; cbn iota.
    + erewrite bind_Done by reflexivity. cbn beta.
      set (k2 := with_need_resched false k1). pose proof HT as [Htr Ha Hva _ _ Hne Hpe _].
      destruct (Hpe Hnr) as [_ Hlt]. assert (Track k2 L) as Htr2 by by destruct Htr.
      assert (preempt_count k2 = 0) as Hp2 by (unfold k2; simpl; simpl in Hp1; lia).
      destruct (rotate_run k2 L a va) as (s' & next & v & Hrun & Hhd & Hv & Hp & HI1 & _ & Hs);
        [by apply HIk|done|done|done|done|done|done|].
      rewrite Hrun. rewrite decide_False by (intros [= ->]; simpl in Hv, Hp; simplify_eq; lia).
      simpl. split; [split; eauto|]. intros s'' Hs''.
      eapply wpr_mono; [by apply (resumed_irq _ a s'' _ _ k)|]. intros _ k' [Hp' Hk']. split; [done|]. lia.
    + simpl. split; [|done]. exists L, va. split; [by apply HIk|].
      destruct HT as [[] ? ? ? ? ? ? ?]. split; try done. intros Hx. unfold k1 in Hnr. simpl in Hnr, Hx. congruence.
  - simpl. split; [|done]. exists L, va. split; [by apply HIk|].
    destruct HT as [[] ? ? ? ? ? Hpe ?]. split; try done. intros Hx.
    destruct (Hpe Hx). rewrite Hp1. split; [lia|done].
Qed.

(** ** New tasks *)

Lemma admit_queues k L a va t v :
  Inv (Some t) k L → Top k L a va → tasks k !! t = Some v → runnable (state v) = true →
  (∀ h l, L !! h = Some l → NReady t ∉ l) →
  ∃ k', scheduler_admit t k = (check_and_preempt t;; irq_restore (sie k)) k' ∧
    Queued k' (<[NReadyQ (prio v) := rqs L (prio v) ++ [NReady t]]> L) a va t v L ∧
    tasks k' = tasks k ∧ sie k' = false ∧
    rest k' = rest (with_highest (highest_ready_tracking k') k).
Proof.
  intros HI HT Ht Hr Hno. pose proof (inv_prio _ _ _ HI t v Ht) as Hpb.
  assert (Inv (Some t) (with_sie false k) L) as HI0 by by eapply inv_ext.
  destruct (enqueue_run _ L t v HI0 Ht Hr Hno) as (s' & Henq & HI1).
  set (k1 := with_nodes s' (with_sie false k)) in *.
  exists (with_highest (Nat.min (prio v) (highest_ready_tracking k1)) k1). split_and!.
  - unfold scheduler_admit. run irq_save_run. mstep Henq. by run (update_highest_run k1 t v).
  - split; try done.
    + by eapply inv_ext.
    + apply HT.
    + apply HT.
    + apply HT.
    + exists (highest_ready_tracking k). split; [done|]. by exists k.
  - done.
  - done.
  - done.
Qed.

Lemma admit_wpr k L a va t v :
  Inv (Some t) k L → Top k L a va → tasks k !! t = Some v → runnable (state v) = true →
  (∀ h l, L !! h = Some l → NReady t ∉ l) → 0 ≤ preempt_count k →
  wpr switch_ok (resumed a) (scheduler_admit t k) (λ _ k', sched_inv a k').
Proof.
  intros HI HT Ht Hr Hno Hpc.
  destruct (admit_queues k L a va t v) as (k1 & -> & HQ & Hts & Hsie & Hrest); [done..|].
  injection Hrest as Ha Hnp Hat Hpc1 Hnr Htk Hmu Hse. simpl in Hpc1. apply wpr_bind.
  destruct (decide (0 < preempt_count k1 ∨ (prio va ≤ prio v)%nat)) as [Hc|Hc].
  - destruct (preempt_later _ _ _ _ _ _ _ HQ Hc) as (-> & HI' & HT'). simpl.
    apply irq_restore_inv. eexists _, _. eauto.
  - destruct (preempt_now _ _ _ _ _ _ _ HQ) as (-> & Hs); [lia|lia|]. simpl.
    split; [split; [simpl; lia|eauto]|]. intros s' [_ Hs']. by apply irq_restore_inv.
Qed.

(** ** Waking the sleepers *)

Lemma woken_keeps t p L h l :
  L !! h = Some l → (if h is NReadyQ _ then False else True) → (NWait t ∉ l) → (NSleep t ∉ l) →
  woken t p L !! h = Some l.
Proof.
  intros Hl Hh Hw Hs. unfold woken. rewrite lookup_insert_ne by by intros <-.
  unfold unlinked. rewrite !lookup_fmap, Hl. simpl. by rewrite (filter_not_elem l (NSleep t)), (filter_not_elem l (NWait t)).
Qed.

Section WakeSleeping.
Variables (k0 : kst) (a : tid) (va : task) (now : Z).

Definition due (v : task) : bool := bool_decide (wake_up_time v ≤ now).

(** The scheduler after the callback has run on the nodes of [log]. *)
Record Woke (log : list (nid * Z)) (L : gmap nid (list nid)) (k : kst) : Prop := {
  wk_inv : Inv None k L;
  wk_top : Top k L a va;
  wk_zero : Forall (λ e, e.2 = 0) log;
  wk_count : preempt_count k = preempt_count k0;
  wk_tasks : ∀ t v, tasks k0 !! t = Some v →
    (tasks k !! t = Some v ∧ (NSleep t ∈ log.*1 → due v = false)) ∨
    (tasks k !! t = Some (with_state RUNNING v) ∧ state v = SLEEPING ∧ due v = true);
  wk_dom : dom (tasks k) = dom (tasks k0);
  wk_rest : ticks k = ticks k0 ∧ mutexes k = mutexes k0 ∧ sems k = sems k0;
}.

Lemma filter_middle (pre rest : list nid) x :
  NoDup (pre ++ x :: rest) → filter (λ y, y ≠ x) (pre ++ x :: rest) = pre ++ rest.
Proof.
  intros [Hn Hnd]%NoDup_middle. rewrite not_elem_of_app in Hn.
  rewrite filter_app, filter_cons_False by tauto. by rewrite !filter_not_elem by tauto.
Qed.

Hypothesis no_preempt : 0 < preempt_count k0 ∨ prio va = HIGH.

Lemma wake_cb_spec log pre x rest L k :
  Woke log L k → Rep (nodes k) L → L !! NSleepHead = Some (pre ++ x :: rest) →
  wp (wake_up_sleeping_cb now x k) (λ r k', ∃ L' pre', Woke (log ++ [(x, r)]) L' k' ∧
    Rep (nodes k') L' ∧ L' !! NSleepHead = Some (pre' ++ rest)).
Proof.
  intros [HI HT Hz Hc Hts Hd (Htk & Hmu & Hse)] HR Hl.
  assert (∃ t v, x = NSleep t ∧ tasks k !! t = Some v ∧ state v = SLEEPING) as (t & v & -> & Hv & Hst).
  { assert (belongs (tasks k) NSleepHead x) as Hb.
    { eapply inv_belongs; [exact HI|exact Hl|]. apply elem_of_app. right. left. }
    destruct x; simpl in Hb; try done. destruct Hb as (v & ? & ?). eauto. }
  pose proof (rep_nodup _ _ _ _ _ HR Hl) as Hnd.
  assert (∃ v0, tasks k0 !! t = Some v0) as [v0 Hv0].
  { apply elem_of_dom. rewrite <-Hd. by eapply elem_of_dom_2. }
  destruct (Hts t v0 Hv0) as [[Hv' _]|(Hv' & _)]; rewrite Hv in Hv'; injection Hv' as ->; [|done].
  unfold wake_up_sleeping_cb. apply wp_bind. simpl. apply wp_bind.
  rewrite (get_task_run k t v0 Hv). simpl.
  destruct (decide (now < wake_up_time v0)) as [Hlt|Hlt].
  - apply wp_ret. exists L, (pre ++ [NSleep t]). rewrite <-app_assoc. split_and!; [|done|done].
    split; try done; [by apply Forall_app; split; [|by constructor]|].
    intros t' v' Ht'. destruct (Hts t' v' Ht') as [[Ht1 Hlog]|?]; [left; split; [done|]|by right].
    rewrite fmap_app, elem_of_app. simpl. rewrite list_elem_of_singleton. intros [?|[= ->]]; [by auto|].
    simplify_eq. unfold due. by rewrite bool_decide_false by lia.
  - destruct (remove_unlinked _ L (NSleep t) (inv_rep _ _ _ HI)) as (s1 & Hs1 & HR1 & Hd1);
      [by eapply inv_nodes|by eapply inv_not_head|].
    assert (Inv (Some t) (with_nodes s1 k) (unlinked (NSleep t) L)) as HI1.
    { eapply inv_unlink; [exact HI|done|by left|done|done]. }
    assert (Top (with_nodes s1 k) (unlinked (NSleep t) L) a va) as HT1.
    { destruct (top_rqs _ _ (unlinked (NSleep t) L) _ _ HT) as [[] ? ? ? ? ? ? ?];
        [intros; by eapply unlinked_rqs_other|]. by do 2 (split; try done). }
    assert (t ≠ a) as Hta.
    { intros ->. rewrite (top_task _ _ _ _ HT) in Hv. simplify_eq. by rewrite (top_running _ _ _ _ HT) in Hst. }
    destruct (ready_task_later (Some t) _ _ a va t v0 HI1) as (k' & Hrt & HI' & HT' & Hts' & Hsie' & Hrest');
      [by right|done|done|done|by rewrite Hst| |].
    { simpl. rewrite Hc. destruct no_preempt as [?| ->]; [by left|right; unfold HIGH; lia]. }
    injection Hrest' as ?? ?? ??? ?.
    apply wp_bind. eapply wp_on_nodes; [exact Hs1|]. apply wp_bind.
    change (set_nodes s1 k) with (with_nodes s1 k). rewrite Hrt. simpl.
    exists (woken t (prio v0) (unlinked (NSleep t) L)), pre. split_and!.
    + split; try done.
      * by apply Forall_app; split; [|by constructor].
      * simpl in *. congruence.
      * intros t' v' Ht'. rewrite Hts', lookup_insert. destruct (decide (t = t')) as [<-|Hne].
        -- simplify_eq. right. split_and!; [done|done|]. unfold due. by rewrite bool_decide_true by lia.
        -- destruct (Hts t' v' Ht') as [[Ht1 Hlog]|?]; [left; split; [done|]|by right].
           rewrite fmap_app, elem_of_app. simpl. rewrite list_elem_of_singleton. intros [?|[= ->]]; by auto.
      * rewrite Hts'. simpl. rewrite dom_insert_L, Hd. apply elem_of_dom_2 in Hv0. set_solver.
      * split_and!; simpl in *; congruence.
    + apply (inv_rep _ _ _ HI').
    + assert (unlinked (NSleep t) L !! NSleepHead = Some (pre ++ rest)) as Hl1.
      { apply unlinked_lookup. exists (pre ++ NSleep t :: rest). split; [done|]. by rewrite filter_middle. }
      apply woken_keeps; [done|done| |by eapply unlinked_no].
      intros Hw. pose proof (inv_belongs _ _ _ HI1 _ _ _ Hl1 Hw). done.
Qed.
Lemma wake_sleeping_loop k L l :
  Inv None k L → Top k L a va → L !! NSleepHead = Some l → k0 = k →
  wp (clist_for_each NSleepHead (wake_up_sleeping_cb now) k) (λ _ k', ∃ log L', Woke log L' k' ∧
    log.*1 = l).
Proof.
  intros HI HT Hl E. eapply wp_mono.
  - eapply (for_each_wp NSleepHead (wake_up_sleeping_cb now) Woke).
    + intros. by eapply wake_cb_spec.
    + split; rewrite ?E; try done. intros t v Ht. left. split; [done|]. by intros ?%elem_of_nil.
    + apply (inv_rep _ _ _ HI).
    + exact Hl.
  - intros r k' (log & L' & pre' & l' & HW & HR & -> & Hr & Hl' & ->). exists log, L'. split; [done|].
    rewrite Hr, app_nil_r; [done|]. pose proof (wk_zero _ _ _ HW) as Hz. clear -Hz.
    induction Hz as [|[x r] log Hx Hz IH]; simpl in *; [done|]. by rewrite Hx.
Qed.
End WakeSleeping.

Lemma wake_sleeping_run k L a va :
  Inv None k L → Top k L a va → 0 < preempt_count k ∨ prio va = HIGH →
  ∃ k' L', scheduler_wake_sleeping k = Done tt k' ∧ Inv None k' L' ∧ Top k' L' a va ∧
    preempt_count k' = preempt_count k ∧
    ∀ t v, tasks k !! t = Some v → tasks k' !! t =
      Some (if decide (state v = SLEEPING ∧ wake_up_time v ≤ ticks k / ITFREQ)
            then with_state RUNNING v else v).
Proof.
  intros HI HT Hnp. destruct (masked _ _ _ _ HI HT) as [HI0 HT0].
  destruct (inv_sl _ _ _ HI) as [l Hl]. set (now := ticks k / ITFREQ).
  pose proof (wake_sleeping_loop (with_sie false k) a va now Hnp _ L l HI0 HT0 Hl eq_refl) as Hw.
  apply wp_Done in Hw as (r & k1 & Hrun & log & L1 & HW & Hlog).
  exists (with_sie (sie k || sie k1) k1), L1. split_and!.
  - unfold scheduler_wake_sleeping. run irq_save_run. unfold time_seconds.
    erewrite bind_Done by reflexivity. cbn beta. mstep Hrun. apply irq_restore_run.
  - eapply inv_ext; [apply HW|done..].
  - destruct (wk_top _ _ _ _ _ _ _ HW) as [[] ? ? ? ? ? ? ?]. by do 2 (split; try done).
  - apply HW.
  - intros t v Ht. simpl. destruct (wk_tasks _ _ _ _ _ _ _ HW t v Ht) as [[-> Hnd]|(-> & Hs & Hd)].
    + rewrite decide_False; [done|]. intros [Hs Hd].
      destruct (inv_placed _ _ _ HI t v Ht) as (_ & Hq & _); [done|].
      destruct (Hq Hs) as (l0 & Hl0 & Hin). simplify_eq. specialize (Hnd Hin).
      unfold due in Hnd. by rewrite bool_decide_true in Hnd.
    + rewrite decide_True; [done|]. split; [done|]. unfold due in Hd. by apply bool_decide_eq_true in Hd.
Qed.

(** ** Properties of the scheduler *)

(** The operations the kernel calls on the scheduler. *)
Inductive sop :=
| OReady (t : tid)
| ORotate
| ODisable
| OEnable
| OSleep (nbr_secs : Z)
| OWakeSleeping
| OBlock (wq : nid)
| OBlockTimeout (wq : nid) (timeout_secs : Z).

Definition sop_run (o : sop) : M kst unit :=
  match o with
  | OReady t => scheduler_ready_task t
  | ORotate => scheduler_rotate
  | ODisable => scheduler_disable_preempt
  | OEnable => scheduler_enable_preempt
  | OSleep n => scheduler_sleep n
  | OWakeSleeping => scheduler_wake_sleeping
  | OBlock wq => scheduler_block_on wq
  | OBlockTimeout wq n => scheduler_block_on_with_timeout wq n
  end.

(** What each call requires: a waiting task to ready, a live wait queue to
    block on, a caller that may block, preemption calls that are paired, and
    sleepers woken by a task they cannot preempt (the tick daemon). *)
Definition sop_pre (o : sop) (k : kst) (L : gmap nid (list nid)) (a : tid) (va : task) : Prop :=
  match o with
  | OReady t => ∃ v, tasks k !! t = Some v ∧ waiting (state v) = true
  | ORotate => True
  | ODisable => preempt_count k < UINT32_MAX
  | OEnable => 0 < preempt_count k
  | OSleep _ => may_block a k
  | OWakeSleeping => 0 < preempt_count k ∨ prio va = HIGH
  | OBlock wq | OBlockTimeout wq _ => may_block a k ∧ is_wq wq = true ∧ is_Some (L !! wq)
  end.


(** C17: a task that blocks is appended to the wait queue it blocks on, and the
    processor goes to the first task of the highest non-empty ready queue: no
    runnable task has a higher priority than the one that runs next. *)
Theorem block_on_hands_over k L a va wq l :
  Inv None k L → Top k L a va → may_block a k → is_wq wq = true → L !! wq = Some l →
  ∃ k' rest_of_call L' next v, scheduler_block_on wq k = Switch k' rest_of_call ∧
    Inv None k' L' ∧ L' !! wq = Some (l ++ [NWait a]) ∧
    active k' = Some next ∧ tasks k' !! next = Some v ∧ state v = RUNNING ∧
    head (rqs L' (prio v)) = Some (NReady next) ∧
    (∀ t v', tasks k' !! t = Some v' → runnable (state v') = true → (prio v ≤ prio v')%nat).
Proof.
  intros HI HT Hmb Hwq Hl. pose proof (may_block_resched _ _ _ _ Hmb HT) as Hnr. destruct Hmb as [Hpc Hid].
  destruct (masked _ _ _ _ HI HT) as [HI0 HT0]. pose proof HT0 as [_ Ha Hva _ _ _ _ _].
  destruct (move_to_wq_run _ L a va wq l HI0 HT0 Hwq Hl) as (s' & Hm & HI').
  set (k1 := with_nodes s' _) in Hm, HI'.
  assert (Track k1 (blocked_on wq a l L)) as Htr.
  { by destruct (blocked_track _ _ _ _ wq l HI0 HT0 (Hid _ Hva) Hwq). }
  assert (tasks k1 !! a = Some (with_state BLOCKED va)) as Hva1 by (simpl; by rewrite lookup_insert_eq).
  destruct (switch_out_run k1 (blocked_on wq a l L) a _ HI' Htr Ha Hva1 Hnr)
    as (next & v & h & Hrun & _ & Hv & Hp & Hhd & Hab).
  set (k2 := with_highest h (with_sie false k1)) in *.
  exists (switched next k2). eexists. exists (blocked_on wq a l L), next, (with_state RUNNING v).
  assert (Inv None (switched next k2) (blocked_on wq a l L)) as HI2.
  { eapply (switched_inv k2 _ a _ next v); [by eapply inv_ext|exact Ha|exact Hva1|exact Hv|].
    destruct (rqs_elem _ _ _ h (NReady next) HI') as (t & v' & [= <-] & ? & _ & ?); [|by simplify_eq].
    by apply head_Some_elem_of. }
  split_and!; [| |by unfold blocked_on; rewrite lookup_insert_eq|done|by eapply (switched_tasks k2 a)|done| |].
  - unfold scheduler_block_on. run irq_save_run. rewrite (bind_active _ _ a Ha). mstep Hm.
    unfold mbind at 1, M_bind. rewrite Hrun. reflexivity.
  - done.
  - simpl. by rewrite Hp.
  - simpl. intros t v' Ht Hr. rewrite Hp.
    destruct (inv_placed _ _ _ HI2 t v' Ht) as (Hq & _); [done|]. destruct (Hq Hr) as (q & Hq' & Hin).
    destruct (decide (h ≤ prio v')%nat) as [|Hn]; [done|]. exfalso.
    assert (rqs (blocked_on wq a l L) (prio v') = []) as He by (apply Hab; lia).
    unfold rqs in He. rewrite Hq' in He. simpl in He. subst. by apply elem_of_nil in Hin.
Qed.

(** C18: the time slices are round robin: at the end of one, with preemption
    enabled, the running task goes to the back of its queue and the next task
    of the queue runs; a task alone in its queue keeps the processor. *)
Theorem rotate_round_robin k L a va q :
  Inv None k L → Top k L a va → preempt_count k = 0 →
  rqs L (prio va) = NReady a :: q →
  match q with
  | [] => ∃ k', scheduler_rotate k = Done tt k' ∧ active k' = Some a ∧ tasks k' = tasks k ∧ Inv None k' L
  | n :: q' => ∃ k' rest_of_call b, n = NReady b ∧ scheduler_rotate k = Switch k' rest_of_call ∧
      active k' = Some b ∧ Inv None k' (<[NReadyQ (prio va) := n :: q' ++ [NReady a]]> L)
  end.
Proof.
  intros HI HT Hpc Hq. pose proof HT as [Htr Ha Hva _ _ Hne Hpe _].
  assert (need_resched k = false) as Hnr.
  { destruct (need_resched k); [|done]. destruct (Hpe eq_refl). lia. }
  pose proof (top_prio _ _ _ _ HT Hnr) as Hh.
  destruct (rotate_run k L a va) as (s' & next & v & Hrun & Hhd & Hv & Hp & HI1 & _ & _); [done..|].
  rewrite Hh, Hq in *. rewrite Hrun. destruct q as [|n q]; simpl in *.
  - injection Hhd as <-. rewrite decide_True by done. rewrite irq_restore_run. eexists.
    split_and!; [done|done|done|].
    replace L with (<[NReadyQ (prio va):=[NReady a]]> L); [by eapply inv_ext|].
    apply insert_id. destruct (inv_rq _ _ _ HI (prio va)) as [l Hl]; [by eapply inv_prio|].
    unfold rqs in Hq. rewrite Hl in *. simpl in Hq. by subst.
  - injection Hhd as ->. assert (next ≠ a) as Hna.
    { intros ->. destruct (inv_rq _ _ _ HI (prio va)) as [l Hl]; [by eapply inv_prio|].
      pose proof (rep_nodup _ _ _ _ _ (inv_rep _ _ _ HI) Hl) as Hnd.
      unfold rqs in Hq. rewrite Hl in Hq. simpl in Hq. subst l.
      apply NoDup_cons in Hnd as [Hnd _]. apply Hnd. left. }
    rewrite decide_False by congruence. eexists _, _, next. split_and!; [done|done|done|].
    eapply switched_inv; [exact HI1|exact Ha|exact Hva|exact Hv|].
    destruct (rqs_elem _ _ _ (prio va) (NReady next) HI) as (t & v' & [= <-] & ? & _ & ?); [|by simplify_eq].
    rewrite Hq. right. left.
Qed.

(** C19: on a tick, [scheduler_wake_sleeping] makes runnable exactly the
    sleeping tasks whose wake-up date has passed, and changes no other task. *)
Theorem wake_sleeping_exact k L a va :
  Inv None k L → Top k L a va → 0 < preempt_count k ∨ prio va = HIGH →
  ∃ k', scheduler_wake_sleeping k = Done tt k' ∧ sched_inv a k' ∧
    ∀ t v, tasks k !! t = Some v → tasks k' !! t =
      Some (if decide (state v = SLEEPING ∧ wake_up_time v ≤ ticks k / ITFREQ)
            then with_state RUNNING v else v).
Proof.
  intros HI HT Hnp.
  destruct (wake_sleeping_run k L a va) as (k' & L' & ? & ? & ? & _ & ?); [done..|].
  exists k'. split_and!; [done|by exists L', va|done].
Qed.

(** ** Checking a concrete state *)

Definition belongsb (ts : gmap tid task) (h n : nid) : bool :=
  match h, n with
  | NReadyQ p, NReady t => if ts !! t is Some v then (prio v =? p)%nat && runnable (state v) else false
  | NSleepHead, NSleep t => if ts !! t is Some v then bool_decide (state v = SLEEPING) else false
  | NMutexWq _, NWait t | NSemWq _, NWait t | NZombieWq _, NWait t =>
      if ts !! t is Some v then waiting (state v) else false
  | NZombies _, NWait t => if ts !! t is Some v then bool_decide (state v = ZOMBIE) else false
  | NTable, NTask t => if ts !! t is Some v then true else false
  | _, _ => false
  end.

Definition memb (n : nid) (l : option (list nid)) : bool :=
  if l is Some l then bool_decide (n ∈ l) else false.
Definition placedb (L : gmap nid (list nid)) (t : tid) (v : task) : bool :=
  match state v with
  | READY | RUNNING => memb (NReady t) (L !! NReadyQ (prio v))
  | SLEEPING => memb (NSleep t) (L !! NSleepHead)
  | BLOCKED => existsb (λ p, is_wq p.1 && bool_decide (NWait t ∈ p.2)) (map_to_list L)
  | _ => true
  end.

Fixpoint sortedb (key : nid → Z) (l : list nid) : bool :=
  match l with [] => true | x :: l => forallb (λ y, key x <=? key y) l && sortedb key l end.

Definition has_list (L : gmap nid (list nid)) (h : nid) : bool := if L !! h is Some _ then true else false.
Definition invb (k : kst) (L : gmap nid (list nid)) : bool :=
  repb (k_nodes k) L &&
  bool_decide (map_Forall (λ h l, is_head h && forallb (belongsb (tasks k) h) l) L) &&
  bool_decide (map_Forall (λ t v, placedb L t v &&
    forallb (λ n, bool_decide (is_Some (k_nodes k !! n))) [NTask t; NReady t; NWait t; NSleep t] &&
    has_list L (NZombies t) && has_list L (NZombieWq t) && (prio v <? PRIORITY_COUNT)%nat) (tasks k)) &&
  forallb (λ p, has_list L (NReadyQ p)) (seq 0 PRIORITY_COUNT) &&
  has_list L NSleepHead && sortedb (sleep_key k) (default [] (L !! NSleepHead)).

Lemma has_list_Some L h : has_list L h = true → is_Some (L !! h).
Proof. unfold has_list. destruct (L !! h); [eauto|done]. Qed.

Lemma memb_Some n o : memb n o = true → ∃ l, o = Some l ∧ n ∈ l.
Proof. destruct o as [l|]; [|done]. intros ?%bool_decide_eq_true. eauto. Qed.

Lemma sortedb_sorted key l : sortedb key l = true → StronglySorted (λ a b, key a ≤ key b) l.
Proof.
  induction l as [|x l IH]; simpl; [constructor|]. intros [Hf Hs]%andb_prop. constructor; [auto|].
  rewrite forallb_forall in Hf. apply Forall_forall. intros y Hy%list_elem_of_In%Hf. lia.
Qed.

Lemma belongsb_belongs ts h n : belongsb ts h n = true → belongs ts h n.
Proof.
  destruct h, n; simpl; try done; destruct (ts !! _) as [v|]; try done; intros H; try by eexists;
    try (apply bool_decide_eq_true in H); eauto.
  apply andb_prop in H as [?%Nat.eqb_eq ?]. eauto.
Qed.

Lemma placedb_placed L t v : placedb L t v = true → placed L t v.
Proof.
  unfold placedb, placed. destruct (state v); simpl; intros Hb; split_and!; try done; intros _;
    try by apply memb_Some.
  apply existsb_exists in Hb as ([h l] & Hin & [? Hn%bool_decide_eq_true]%andb_prop).
  exists h, l. split_and!; [done| |done]. by apply elem_of_map_to_list, list_elem_of_In.
Qed.

Lemma invb_inv k L : invb k L = true → Inv None k L.
Proof.
  unfold invb. rewrite !andb_true_iff, !bool_decide_eq_true, !forallb_forall.
  intros (((((HR & HL) & HT) & Hrq) & Hsl) & Hso).
  assert (∀ h l, L !! h = Some l → is_head h = true ∧ ∀ n, n ∈ l → belongs (tasks k) h n) as HL'.
  { intros h l Hl. specialize (HL h l Hl). apply Is_true_true, andb_prop in HL as [? Hb].
    rewrite forallb_forall in Hb. split; [done|]. intros n Hn%list_elem_of_In%Hb. by apply belongsb_belongs. }
  assert (∀ t v, tasks k !! t = Some v → placed L t v ∧ (∀ n, owner n = Some t → n ∈ dom (k_nodes k)) ∧
    (is_Some (L !! NZombies t) ∧ is_Some (L !! NZombieWq t)) ∧ (prio v < PRIORITY_COUNT)%nat) as HT'.
  { intros t v Ht. specialize (HT t v Ht). apply Is_true_true in HT.
    rewrite !andb_true_iff, forallb_forall in HT. destruct HT as ((((Hp & Hn) & Hz) & Hw) & Hb).
    split_and!; [by apply placedb_placed| |by apply has_list_Some..|by apply Nat.ltb_lt].
    intros n Hown. apply elem_of_dom. eapply bool_decide_eq_true_1, Hn.
    destruct n; simpl in Hown; try done; injection Hown as ->; simpl; tauto. }
  split.
  - by apply repb_rep.
  - intros h l Hl. by apply (HL' h l).
  - intros h l n Hl. by apply (HL' h l).
  - intros t v Ht _. by destruct (HT' t v Ht).
  - intros t v n Ht. by destruct (HT' t v Ht) as (_ & ? & _); auto.
  - intros t v Ht. by destruct (HT' t v Ht) as (_ & _ & ? & _).
  - intros t v Ht. by destruct (HT' t v Ht) as (_ & _ & _ & ?).
  - intros p Hp. apply has_list_Some, Hrq. apply in_seq. lia.
  - by apply has_list_Some.
  - intros l Hl. rewrite Hl in Hso. by apply sortedb_sorted.
Qed.

Definition topb (k : kst) (L : gmap nid (list nid)) (a : tid) (va : task) : bool :=
  (highest_ready_tracking k <? PRIORITY_COUNT)%nat &&
  forallb (λ p, bool_decide (rqs L p = [])) (seq 0 (highest_ready_tracking k)) &&
  bool_decide (rqs L IDLE ≠ []) && bool_decide (active k = Some a) &&
  bool_decide (state va = RUNNING) &&
  bool_decide (head (rqs L (prio va)) = Some (NReady a)) &&
  bool_decide (rqs L (highest_ready_tracking k) ≠ []) && negb (need_resched k) &&
  forallb (λ p, bool_decide (rqs L p = [])) (seq 0 (prio va)).

Lemma topb_top k L a va : topb k L a va = true → tasks k !! a = Some va → Top k L a va.
Proof.
  unfold topb. rewrite !andb_true_iff, !bool_decide_eq_true, !forallb_forall, negb_true_iff.
  intros ((((((((Hb & Hab) & Hid) & Ha) & Hr) & Hhd) & Hne) & Hnr) & Hfi) Ht.
  assert (∀ n p, (∀ q, In q (seq 0 n) → bool_decide (rqs L q = []) = true) → (p < n)%nat → rqs L p = []) as Hs.
  { intros n p Hq Hp. eapply bool_decide_eq_true_1, Hq, in_seq. lia. }
  split; try done.
  - split; [by apply Nat.ltb_lt| |done]. intros p Hp. by apply (Hs (highest_ready_tracking k)).
  - by rewrite Hnr.
  - right. intros p Hp. by apply (Hs (prio va)).
Qed.

(** A kernel with the idle task (1), two tasks of normal priority (2, running,
    and 3), a daemon asleep until second 5 (4) and a task blocked on mutex 7
    (5). *)
Definition demo_task (p : Z) (st : tstate) (pr : priority) (wake : Z) : task :=
  Task p p [] st 0 false 0 0 wake (Some 1) 0 pr (replicate 16 0).
Definition demo_tasks : gmap tid task :=
  {[1 := demo_task 0 READY IDLE 0; 2 := demo_task 1 RUNNING NORMAL 0; 3 := demo_task 2 READY NORMAL 0;
    4 := demo_task 3 SLEEPING HIGH 5; 5 := demo_task 4 BLOCKED NORMAL 0]}.
Definition demo_ids : list nid :=
  [NTable; NReadyQ 0%nat; NReadyQ 1%nat; NReadyQ 2%nat; NReadyQ 3%nat; NSleepHead; NMutexWq 7; NSemWq 8] ++
  concat ((λ t, [NTask t; NReady t; NWait t; NSleep t; NZombies t; NZombieWq t]) <$> [1; 2; 3; 4; 5]).
Definition demo_nodes : store nid :=
  default ∅ (snd <$> lops_run ([PushBack (NReadyQ 3%nat) (NReady 1); PushBack (NReadyQ 1%nat) (NReady 2);
      PushBack (NReadyQ 1%nat) (NReady 3); PushBack NSleepHead (NSleep 4);
      PushBack (NMutexWq 7) (NWait 5)] ++ ((λ t, PushBack NTable (NTask t)) <$> [1; 2; 3; 4; 5]))
    (foldr clist_init_node ∅ demo_ids)).
Definition demo_k (ticks : Z) : kst :=
  Kst demo_nodes demo_tasks (Some 2) 5 5 0 false NORMAL ticks true
    {[7 := Mutex true (Some 3) 0]} {[8 := Semaphore 1 0]} ∅.
Definition demo_L : gmap nid (list nid) :=
  <[NTable := NTask <$> [1; 2; 3; 4; 5]]> (<[NReadyQ 3%nat := [NReady 1]]>
  (<[NReadyQ 1%nat := [NReady 2; NReady 3]]> (<[NSleepHead := [NSleep 4]]>
  (<[NMutexWq 7 := [NWait 5]]> (list_to_map ((λ h, (h, [])) <$> filter (λ h, is_head h = true) demo_ids)))))).
Definition demo_running : task := demo_task 1 RUNNING NORMAL 0.

Lemma demo_inv ticks : Inv None (demo_k ticks) demo_L.
Proof. apply (inv_ext None (demo_k 0)); [|done..]. apply invb_inv. by vm_compute. Qed.
Lemma demo_top ticks : Top (demo_k ticks) demo_L 2 demo_running.
Proof. apply topb_top; by vm_compute. Qed.


Lemma block_on_hands_over_witness :
  ∃ k' rest_of_call L' next v, scheduler_block_on (NSemWq 8) (demo_k 120) = Switch k' rest_of_call ∧
    Inv None k' L' ∧ L' !! NSemWq 8 = Some ([] ++ [NWait 2]) ∧
    active k' = Some next ∧ tasks k' !! next = Some v ∧ state v = RUNNING ∧
    head (rqs L' (prio v)) = Some (NReady next) ∧
    (∀ t v', tasks k' !! t = Some v' → runnable (state v') = true → (prio v ≤ prio v')%nat).
Proof.
  apply (block_on_hands_over (demo_k 120) demo_L 2 demo_running (NSemWq 8) []).
  - apply demo_inv.
  - apply demo_top.
  - split; [done|]. intros va Hva. vm_compute in Hva. by injection Hva as <-.
  - done.
  - by vm_compute.
Defined.

Lemma rotate_round_robin_witness :
  ∃ k' rest_of_call b, NReady 3 = NReady b ∧ scheduler_rotate (demo_k 120) = Switch k' rest_of_call ∧
    active k' = Some b ∧ Inv None k' (<[NReadyQ NORMAL := [NReady 3] ++ [NReady 2]]> demo_L).
Proof.
  apply (rotate_round_robin (demo_k 120) demo_L 2 demo_running [NReady 3]).
  - apply demo_inv.
  - apply demo_top.
  - done.
  - by vm_compute.
Defined.

(** With preemption disabled the daemon is readied and the switch delayed. *)
Lemma wake_sleeping_exact_witness :
  ∃ k', scheduler_wake_sleeping (with_preempt_count 1 (demo_k 120)) = Done tt k' ∧ sched_inv 2 k' ∧
    (state <$> tasks k' !! 4) = Some RUNNING.
Proof.
  destruct (wake_sleeping_exact (with_preempt_count 1 (demo_k 120)) demo_L 2 demo_running)
    as (k' & Hr & Hs & Hts).
  - apply (inv_ext None (demo_k 120)); [apply demo_inv|done..].
  - destruct (demo_top 120) as [[] ? ? ? ? ? ? ?]. by do 2 (split; try done).
  - by left.
  - exists k'. split_and!; [done|done|]. rewrite (Hts 4 (demo_task 3 SLEEPING HIGH 5)) by by vm_compute.
    by rewrite decide_True by (split; [done|by vm_compute]).
Defined.
