(* ===== verification/Sync.v ===== *)
(** * Spinlocks, mutexes, semaphores and the timer (kernel/core/sync/*.c,
      kernel/core/time/time.c)

    The locks live in the scheduler's state, their wait queues in the list
    store.  One hart runs the kernel. *)

From S2P Require Import Prelude Clist Sched SchedInv.

(** ** spinlock.c *)

(** The spinlock of a mutex, of a semaphore, or on its own. *)
Inductive spin := SpinM (m : Z) | SpinS (m : Z) | SpinL (m : Z).

Definition get_mutex (m : Z) : M kst mutex := k ← get; of_opt (mutexes k !! m).
Definition set_mutex (m : Z) (v : mutex) : M kst unit :=
  modify (λ k, with_mutexes (<[m := v]> (mutexes k)) k).
Definition get_sem (m : Z) : M kst semaphore := k ← get; of_opt (sems k !! m).
Definition set_sem (m : Z) (v : semaphore) : M kst unit :=
  modify (λ k, with_sems (<[m := v]> (sems k)) k).

Definition get_flag (s : spin) : M kst Z :=
  match s with
  | SpinM m => v ← get_mutex m; mret (m_lock v)
  | SpinS m => v ← get_sem m; mret (s_lock v)
  | SpinL m => k ← get; of_opt (spins k !! m)
  end.
Definition set_flag (s : spin) (f : Z) : M kst unit :=
  match s with
  | SpinM m => v ← get_mutex m; set_mutex m (Mutex (m_locked v) (m_owner v) f)
  | SpinS m => v ← get_sem m; set_sem m (Semaphore (s_count v) f)
  | SpinL m => modify (λ k, with_spins (<[m := f]> (spins k)) k)
  end.

Definition spinlock_init (s : spin) : M kst unit := set_flag s 0.

(** The loop leaves the flag set.  Nothing else runs while it spins, so when
    the first exchange finds the lock taken it never ends. *)
Definition spinlock_lock (s : spin) : M kst unit :=
  scheduler_disable_preempt;;
  old ← get_flag s;
  set_flag s 1;;
  if old =? 0 then mret tt else nofuel.

Definition spinlock_unlock (s : spin) : M kst unit :=
  set_flag s 0;; scheduler_enable_preempt.

Definition spinlock_lock_irq_save (s : spin) : M kst bool :=
  flags ← irq_save; spinlock_lock s;; mret flags.
Definition spinlock_unlock_irq_restore (s : spin) (flags : bool) : M kst unit :=
  spinlock_unlock s;; irq_restore flags.

(** scheduler.c: block and release a spinlock at once. *)
Definition scheduler_block_on_locked (wq : nid) (s : spin) : M kst unit :=
  flags ← irq_save;
  t ← task_active;
  t ← of_opt t;
  move_to_wq t wq;;
  spinlock_unlock s;;
  switch_out_active;;
  irq_restore flags.

(** ** mutex.c *)

Definition mutex_init (m : Z) : M kst unit :=
  set_mutex m (Mutex false None 0);; wq_init (NMutexWq m).
Definition mutex_is_lock (m : Z) : M kst bool := v ← get_mutex m; mret (m_locked v).
Definition mutex_owner (m : Z) : M kst (option tid) := v ← get_mutex m; mret (m_owner v).

Definition mutex_trylock_unlocked (m : Z) : M kst Z :=
  v ← get_mutex m;
  if m_locked v then mret (- EBUSY) else
  a ← task_active;
  set_mutex m (Mutex true a (m_lock v));;
  mret 0.

Definition mutex_trylock (m : Z) : M kst Z :=
  spinlock_lock (SpinM m);;
  res ← mutex_trylock_unlocked m;
  spinlock_unlock (SpinM m);;
  mret res.

Definition mutex_lock (m : Z) : M kst unit :=
  spinlock_lock (SpinM m);;
  r ← mutex_trylock_unlocked m;
  if r <? 0 then scheduler_block_on_locked (NMutexWq m) (SpinM m)
  else spinlock_unlock (SpinM m).

Definition mutex_unlock (m : Z) : M kst unit :=
  spinlock_lock (SpinM m);;
  current ← task_active;
  v ← get_mutex m;
  (if negb (m_locked v) || bool_decide (m_owner v ≠ current) then mret tt else
   e ← wq_is_empty (NMutexWq m);
   if negb e then
     node ← wq_pop_head (NMutexWq m);
     t ← of_opt (node ≫= of_wait);
     set_mutex m (Mutex (m_locked v) (Some t) (m_lock v));;
     scheduler_ready_task t
   else set_mutex m (Mutex false None (m_lock v)));;
  spinlock_unlock (SpinM m).

(** ** semaphore.c *)

Definition sem_init (m : Z) (val : Z) : M kst unit :=
  set_sem m (Semaphore val 0);; wq_init (NSemWq m).

Definition sem_try_take_unlocked (m : Z) : M kst Z :=
  v ← get_sem m;
  if s_count v <=? 0 then mret (- EAGAIN) else
  set_sem m (Semaphore (s_count v - 1) (s_lock v));; mret 0.

Definition sem_try_take (m : Z) : M kst Z :=
  flags ← spinlock_lock_irq_save (SpinS m);
  res ← sem_try_take_unlocked m;
  spinlock_unlock_irq_restore (SpinS m) flags;;
  mret res.

Definition sem_wait (m : Z) : M kst unit :=
  flags ← spinlock_lock_irq_save (SpinS m);
  r ← sem_try_take_unlocked m;
  if r <? 0 then
    scheduler_block_on_locked (NSemWq m) (SpinS m);; irq_restore flags
  else spinlock_unlock_irq_restore (SpinS m) flags.

Definition sem_post (m : Z) : M kst unit :=
  flags ← spinlock_lock_irq_save (SpinS m);
  e ← wq_is_empty (NSemWq m);
  (if negb e then
     node ← wq_pop_head (NSemWq m);
     t ← of_opt (node ≫= of_wait);
     scheduler_ready_task t
   else
     v ← get_sem m; set_sem m (Semaphore (s32 (s_count v + 1)) (s_lock v)));;
  spinlock_unlock_irq_restore (SpinS m) flags.

(** ** time.c: the timer interrupt and the daemon it wakes *)

(** The addresses of the two semaphores of time.c. *)
Definition clock : Z := 1.
Definition tick : Z := 2.

Definition time_init : M kst unit := modify (with_ticks 0).

Definition time_irq_handler : M kst unit :=
  modify (λ k, with_ticks (u32 (ticks k + 1)) k);;
  t ← gets ticks;
  (if t `mod` ITFREQ =? 0 then sem_post clock else mret tt);;
  sem_post tick.

(** One turn of the loop of [tick_daemon]. *)
Definition tick_daemon_turn : M kst unit :=
  sem_wait tick;; scheduler_wake_sleeping;; scheduler_rotate.

(** ** Spinlocks and the state *)

Definition flag_of (s : spin) (k : kst) : option Z :=
  match s with
  | SpinM m => m_lock <$> mutexes k !! m
  | SpinS m => s_lock <$> sems k !! m
  | SpinL m => spins k !! m
  end.
Definition flagged (s : spin) (f : Z) (k : kst) : kst :=
  match s with
  | SpinM m => with_mutexes (alter (λ v, Mutex (m_locked v) (m_owner v) f) m (mutexes k)) k
  | SpinS m => with_sems (alter (λ v, Semaphore (s_count v) f) m (sems k)) k
  | SpinL m => with_spins (<[m := f]> (spins k)) k
  end.

Lemma get_mutex_run k m v : mutexes k !! m = Some v → get_mutex m k = Done v k.
Proof. intros Hm. unfold get_mutex, mbind, M_bind. simpl. by rewrite Hm. Qed.
Lemma get_sem_run k m v : sems k !! m = Some v → get_sem m k = Done v k.
Proof. intros Hm. unfold get_sem, mbind, M_bind. simpl. by rewrite Hm. Qed.

Lemma alter_is_insert {A} (f : A → A) (m : gmap Z A) i v : m !! i = Some v → alter f i m = <[i := f v]> m.
Proof.
  intros Hi. apply map_eq. intros j. rewrite lookup_insert. case_decide; subst.
  - by rewrite lookup_alter_eq, Hi.
  - by rewrite lookup_alter_ne.
Qed.

Lemma get_flag_run s k f : flag_of s k = Some f → get_flag s k = Done f k.
Proof.
  destruct s as [m|m|m]; simpl; [intros (v & Hv & ->)%fmap_Some..|intros Hf].
  - by run (get_mutex_run k m v).
  - by run (get_sem_run k m v).
  - unfold mbind, M_bind. simpl. by rewrite Hf.
Qed.
Lemma set_flag_run s k f f' : flag_of s k = Some f → set_flag s f' k = Done tt (flagged s f' k).
Proof.
  destruct s as [m|m|m]; simpl; [intros (v & Hv & ->)%fmap_Some..|done].
  - run (get_mutex_run k m v). unfold set_mutex, modify. by rewrite (alter_is_insert _ _ _ v).
  - run (get_sem_run k m v). unfold set_sem, modify. by rewrite (alter_is_insert _ _ _ v).
Qed.

Lemma flagged_core s f k :
  k_nodes (flagged s f k) = k_nodes k ∧ tasks (flagged s f k) = tasks k ∧
  active (flagged s f k) = active k ∧ preempt_count (flagged s f k) = preempt_count k ∧
  need_resched (flagged s f k) = need_resched k ∧ sie (flagged s f k) = sie k ∧
  highest_ready_tracking (flagged s f k) = highest_ready_tracking k.
Proof. by destruct s. Qed.

(** The state with a spinlock taken. *)
Definition locked (s : spin) (k : kst) : kst :=
  flagged s 1 (with_preempt_count (u32 (preempt_count k + 1)) k).

Lemma spinlock_lock_run s k : flag_of s k = Some 0 → spinlock_lock s k = Done tt (locked s k).
Proof.
  intros Hf. unfold spinlock_lock, scheduler_disable_preempt.
  erewrite bind_Done by reflexivity. cbn beta. set (k1 := with_preempt_count _ k).
  assert (flag_of s k1 = Some 0) as Hf1 by (by destruct s).
  run (get_flag_run s k1 0). by run (set_flag_run s k1 0 1).
Qed.

Lemma top_ext k k' L a va :
  Top k L a va → highest_ready_tracking k' = highest_ready_tracking k → active k' = active k →
  tasks k' = tasks k → need_resched k' = need_resched k → preempt_count k ≤ preempt_count k' →
  Top k' L a va.
Proof.
  intros [[] ? ? ? ? ? Hpe ?] Eh Ea Et En Ep.
  split; [split|..]; rewrite ?Eh, ?Ea, ?Et, ?En; try done.
  intros Hx. destruct (Hpe Hx). split; [lia|done].
Qed.

Lemma locked_inv s k L X : Inv X k L → Inv X (locked s k) L.
Proof. intros HI. by destruct s; eapply inv_ext. Qed.

Lemma locked_top s k L a va :
  Top k L a va → preempt_count k = 0 → Top (locked s k) L a va ∧ preempt_count (locked s k) = 1.
Proof.
  intros HT Hpc. assert (preempt_count (locked s k) = 1) as Hp.
  { unfold locked. destruct (flagged_core s 1 (with_preempt_count (u32 (preempt_count k + 1)) k))
      as (_ & _ & _ & -> & _). simpl. by rewrite Hpc. }
  split; [|done]. eapply top_ext; [exact HT|by destruct s..|lia].
Qed.

(** ** Leaving a critical section *)

(** Lists that differ in their ready queues only. *)
Definition same_waits (L L' : gmap nid (list nid)) : Prop :=
  ∀ h, (if h is NReadyQ _ then False else True) → L' !! h = L !! h.

Lemma enable_preempt_land k L a va :
  Inv None k L → Top k L a va → preempt_count k = 1 →
  ∃ k' L', landing (scheduler_enable_preempt k) = Some k' ∧ Inv None k' L' ∧ switch_ok k' ∧
    same_waits L L' ∧ mutexes k' = mutexes k ∧ sems k' = sems k ∧
    (∀ r k'', scheduler_enable_preempt k = Done r k'' → need_resched k = false).
Proof.
  intros HI HT Hpc. unfold scheduler_enable_preempt.
  erewrite bind_Done by reflexivity. cbn beta. set (k1 := with_preempt_count _ k).
  assert (preempt_count k1 = 0) as Hp1 by (simpl; by rewrite Hpc).
  erewrite bind_Done by reflexivity. cbn beta. erewrite bind_Done by reflexivity. cbn beta. rewrite Hp1.
  assert (Inv None k1 L) as HI1 by by eapply inv_ext. cbn [Z.eqb andb].
  pose proof HT as [Htr Ha Hva _ _ Hne Hpe _].
  destruct (need_resched k1) eqn:Hnr; cbn iota.
  - erewrite bind_Done by reflexivity. cbn beta.
    set (k2 := with_need_resched false k1). destruct (Hpe Hnr) as [_ Hlt].
    assert (Inv None k2 L) as HI2 by by eapply inv_ext.
    assert (Track k2 L) as Htr2 by by destruct Htr.
    destruct (rotate_run k2 L a va) as (s' & next & v & Hrun & Hhd & Hv & Hp & HI3 & _ & Hs); [done..|].
    rewrite Hrun. rewrite decide_False by (intros [= ->]; simpl in Hv, Hp; simplify_eq; lia).
    eexists _, _. split_and!; [done| |split; [done|eauto]| |done|done|done].
    + eapply switched_inv; [exact HI3|exact Ha|exact Hva|exact Hv|].
      destruct (rqs_elem _ _ _ (highest_ready_tracking k2) (NReady next) HI2)
        as (t & v' & [= <-] & ? & _ & ?); [|by simplify_eq].
      rewrite <-rotated_perm. by apply head_Some_elem_of.
    + intros h Hh. by rewrite lookup_insert_ne by by intros <-.
  - exists k1, L. split_and!; [done|done| |done|done|done|done].
    split; [done|]. exists a, L, va. split; [done|].
    destruct HT as [[] ? ? ? ? ? ? ?]. split; try done. by rewrite Hnr.
Qed.

Lemma spinlock_unlock_land s k L a va :
  Inv None k L → Top k L a va → preempt_count k = 1 → is_Some (flag_of s k) →
  ∃ k' L', landing (spinlock_unlock s k) = Some k' ∧ Inv None k' L' ∧ switch_ok k' ∧
    same_waits L L' ∧ mutexes k' = mutexes (flagged s 0 k) ∧ sems k' = sems (flagged s 0 k).
Proof.
  intros HI HT Hpc [f Hf]. destruct (flagged_core s 0 k) as (En & Et & Ea & Ep & Er & Es & Eh).
  assert (Inv None (flagged s 0 k) L) as HI1 by by eapply inv_ext.
  assert (Top (flagged s 0 k) L a va) as HT1 by (eapply top_ext; [exact HT|done..|lia]).
  destruct (enable_preempt_land _ L a va HI1 HT1) as (k' & L' & Hl & ? & ? & ? & ? & ? & _); [congruence|].
  exists k', L'. split_and!; try done. unfold spinlock_unlock. by run (set_flag_run s k f 0).
Qed.

(** Restoring the interrupts after a landing. *)
Lemma landing_irq (m : M kst unit) b k k' :
  landing (m k) = Some k' → ∃ b', landing ((m;; irq_restore b) k) = Some (with_sie b' k').
Proof.
  unfold mbind, M_bind. destruct (m k) as [[] k''| | | |k'' c]; simpl; try done; intros [= ->].
  - rewrite irq_restore_run. by eexists.
  - exists (sie k'). by destruct k'.
Qed.

Lemma switch_ok_sie b k : switch_ok k → switch_ok (with_sie b k).
Proof.
  intros (Hp & a & L & va & HI & HT). split; [done|]. exists a, L, va. split; [by eapply inv_ext|].
  by eapply top_ext.
Qed.

(** The first waiter, taken off its queue. *)
Lemma pop_wq_run k L wq w l :
  Inv None k L → L !! wq = Some (NWait w :: l) → is_wq wq = true →
  ∃ s' v, pop_front wq k = Done (Some (NWait w)) (with_nodes s' k) ∧
    tasks k !! w = Some v ∧ waiting (state v) = true ∧
    Inv (Some w) (with_nodes s' k) (unlinked (NWait w) L) ∧ unlinked (NWait w) L !! wq = Some l.
Proof.
  intros HI Hl Hwq. pose proof (inv_rep _ _ _ HI) as HR.
  destruct (pop_front_rep None _ L _ _ HR Hl) as (s' & Hs' & HR' & Hd'). simpl in Hs', HR'.
  assert (belongs (tasks k) wq (NWait w)) as Hb by (eapply inv_belongs; [done|exact Hl|left]).
  assert (∃ v, tasks k !! w = Some v ∧ waiting (state v) = true) as (v & Hv & Hw) by (by destruct wq).
  pose proof (remove_fmap _ L wq [] l (NWait w) HR Hl) as Hrm. simpl in Hrm.
  exists s', v. split_and!; [|done|done| |].
  - unfold pop_front. erewrite bind_Done; [|apply read_nodes_run; exact Hs']. done.
  - eapply inv_unlink; [done|done|by left| |done]. unfold unlinked. by rewrite Hrm.
  - unfold unlinked. by rewrite Hrm, lookup_insert_eq.
Qed.


Lemma enable_preempt_quiet k :
  need_resched k = false → preempt_count k = 1 →
  scheduler_enable_preempt k = Done tt (with_preempt_count 0 k).
Proof.
  intros Hn Hp. unfold scheduler_enable_preempt. erewrite bind_Done by reflexivity. cbn beta.
  erewrite bind_Done by reflexivity. cbn beta. erewrite bind_Done by reflexivity. cbn beta.
  simpl. rewrite Hn, Hp. done.
Qed.

Lemma block_on_locked_land s k L a va wq l :
  Inv None k L → Top k L a va → preempt_count k = 1 → need_resched k = false →
  prio va ≠ IDLE → is_wq wq = true → L !! wq = Some l → is_Some (flag_of s k) →
  ∃ k', scheduler_block_on_locked wq s k =
      Switch k' (λ s', (irq_restore false;; irq_restore (sie k)) s') ∧
    Inv None k' (blocked_on wq a l L) ∧ switch_ok k' ∧
    mutexes k' = mutexes (flagged s 0 k) ∧ sems k' = sems (flagged s 0 k).
Proof.
  intros HI HT Hpc Hnr Hid Hwq Hl Hf. destruct (masked _ _ _ _ HI HT) as [HI0 HT0].
  pose proof HT0 as [_ Ha Hva _ _ _ _ _].
  destruct (move_to_wq_run _ L a va wq l HI0 HT0 Hwq Hl) as (s' & Hm & HI').
  set (k1 := with_nodes s' _) in Hm, HI'.
  destruct Hf as [f Hf]. assert (flag_of s k1 = Some f) as Hf1 by (by destruct s).
  set (k2 := with_preempt_count 0 (flagged s 0 k1)).
  assert (spinlock_unlock s k1 = Done tt k2) as Hun.
  { unfold spinlock_unlock. run (set_flag_run s k1 f 0). apply enable_preempt_quiet; by destruct s. }
  assert (Inv None k2 (blocked_on wq a l L)) as HI2 by (destruct s; by eapply inv_ext).
  assert (Track k2 (blocked_on wq a l L)) as Htr.
  { destruct (blocked_track _ _ _ _ wq l HI0 HT0 Hid Hwq). by destruct s. }
  assert (active k2 = Some a ∧ tasks k2 !! a = Some (with_state BLOCKED va) ∧ need_resched k2 = false ∧
    sie k2 = false) as (Ha2 & Hva2 & Hn2 & Hs2).
  { destruct s; simpl; rewrite lookup_insert_eq; done. }
  destruct (switch_out_run k2 _ a _ HI2 Htr Ha2 Hva2 Hn2) as (next & v & h & Hrun & Hs & Hv & Hp & Hhd & _).
  eexists. split_and!.
  - unfold scheduler_block_on_locked. run irq_save_run. rewrite (bind_active _ _ a Ha). mstep Hm. mstep Hun.
    unfold mbind at 1, M_bind. rewrite Hrun, Hs2. reflexivity.
  - eapply (switched_inv (with_highest h (with_sie false k2)) _ a _ next v);
      [by eapply inv_ext|exact Ha2|exact Hva2|exact Hv|].
    destruct (rqs_elem _ _ _ h (NReady next) HI2) as (t & v' & [= <-] & ? & _ & ?); [|by simplify_eq].
    by apply head_Some_elem_of.
  - split; [done|eauto].
  - by destruct s.
  - by destruct s.
Qed.

(** Handing over to the first waiter, with a spinlock held. *)
Lemma hand_over_run X k L a va w v :
  Inv X k L → X = Some w → Top k L a va → preempt_count k = 1 → tasks k !! w = Some v → waiting (state v) = true →
  ∃ k' p, scheduler_ready_task w k = Done tt k' ∧ Inv None k' (woken w p L) ∧ Top k' (woken w p L) a va ∧
    preempt_count k' = 1 ∧ mutexes k' = mutexes k ∧ sems k' = sems k ∧ sie k' = sie k.
Proof.
  intros HI -> HT Hpc Hw Hwt.
  destruct (ready_task_later (Some w) k L a va w v HI) as (k' & Hr & HI' & HT' & Hts & Hsie & Hrest);
    [by right|done| |done|done|left; lia|].
  { intros ->. rewrite (top_task _ _ _ _ HT) in Hw. simplify_eq. by rewrite (top_running _ _ _ _ HT) in Hwt. }
  injection Hrest as ?????? ??. exists k', (prio v). split_and!; try done; congruence.
Qed.

Lemma woken_wq X k L w p h l :
  Inv X k L → L !! h = Some l → is_wq h = true → (NWait w ∉ l) → woken w p L !! h = Some l.
Proof.
  intros HI Hl Hh Hn. apply woken_keeps; [done|by destruct h|done|].
  intros Hs. pose proof (inv_belongs _ _ _ HI _ _ _ Hl Hs). by destruct h.
Qed.

(** ** What a mutex promises *)

Inductive mop := Lock | TryLock | Unlock.
Definition mop_run (o : mop) (m : Z) : M kst Z :=
  match o with
  | Lock => mutex_lock m;; mret 0
  | TryLock => mutex_trylock m
  | Unlock => mutex_unlock m;; mret 0
  end.

(** The owner and the waiters, in the order they will get the mutex. *)
Definition mspec (o : mop) (a : tid) (st : option tid * list nid) : option tid * list nid :=
  match o, st with
  | Lock, (None, ws) => (Some a, ws)
  | Lock, (Some o, ws) => (Some o, ws ++ [NWait a])
  | TryLock, (None, ws) => (Some a, ws)
  | TryLock, (Some o, ws) => (Some o, ws)
  | Unlock, (Some o, ws) =>
      if decide (o = a) then
        match ws with
        | NWait w :: ws' => (Some w, ws')
        | _ => (None, [])
        end
      else (Some o, ws)
  | Unlock, (None, ws) => (None, ws)
  end.

Definition mres (o : mop) (st : option tid) : Z :=
  match o, st with TryLock, Some _ => - EBUSY | _, _ => 0 end.

(** Free exactly when it has no owner, and its spinlock is free. *)
Definition mutex_ok (v : mutex) : Prop :=
  m_locked v = bool_decide (is_Some (m_owner v)) ∧ m_lock v = 0.

Lemma landing_ret {A B} (m : M kst A) (b : B) k : landing ((m;; mret b) k) = landing (m k).
Proof. unfold mbind, M_bind. by destruct (m k). Qed.

(** The mutex [m] of [k] after a call: its owner and its waiters are [st]. *)
Definition mutex_lands {A} (o : outcome kst A) (k : kst) (m : Z) (st : option tid * list nid) : Prop :=
  ∃ k' L' v', landing o = Some k' ∧ Inv None k' L' ∧ switch_ok k' ∧
    mutexes k' = <[m := v']> (mutexes k) ∧ sems k' = sems k ∧ mutex_ok v' ∧
    m_owner v' = fst st ∧ L' !! NMutexWq m = Some (snd st).

Lemma mutex_release_lands k k1 L a va m lk ow ws :
  Inv None k1 L → Top k1 L a va → preempt_count k1 = 1 →
  mutexes k1 = <[m := Mutex lk ow 1]> (mutexes k) → sems k1 = sems k →
  lk = bool_decide (is_Some ow) → L !! NMutexWq m = Some ws →
  mutex_lands (spinlock_unlock (SpinM m) k1) k m (ow, ws).
Proof.
  intros HI HT Hpc Hm Hs Hlk Hws.
  destruct (spinlock_unlock_land (SpinM m) k1 L a va HI HT Hpc) as (k' & L' & Hl & HI' & Hok & Hsame & Hm' & Hs').
  { simpl. rewrite Hm, lookup_insert_eq. by eexists. }
  exists k', L', (Mutex lk ow 0). split_and!; try done.
  - rewrite Hm'. simpl. rewrite Hm. erewrite alter_is_insert by apply lookup_insert_eq.
    by rewrite insert_insert_eq.
  - by rewrite Hs'.
  - by rewrite Hsame.
Qed.

Section MutexContract.
Variables (k : kst) (L : gmap nid (list nid)) (a : tid) (va : task) (m : Z) (v : mutex) (ws : list nid).
Hypotheses (HI : Inv None k L) (HT : Top k L a va) (Hmb : may_block a k)
  (Hm : mutexes k !! m = Some v) (Hok : mutex_ok v) (Hws : L !! NMutexWq m = Some ws).

Let k1 : kst := locked (SpinM m) k.

Lemma mutex_lock_taken :
  spinlock_lock (SpinM m) k = Done tt k1 ∧ Inv None k1 L ∧ Top k1 L a va ∧ preempt_count k1 = 1 ∧
  mutexes k1 = <[m := Mutex (m_locked v) (m_owner v) 1]> (mutexes k) ∧ sems k1 = sems k ∧
  get_mutex m k1 = Done (Mutex (m_locked v) (m_owner v) 1) k1.
Proof.
  destruct Hok as [_ Hfl]. destruct Hmb as [Hpc _].
  assert (mutexes k1 = <[m := Mutex (m_locked v) (m_owner v) 1]> (mutexes k)) as Hmk.
  { unfold k1, locked. simpl. by erewrite alter_is_insert by exact Hm. }
  destruct (locked_top (SpinM m) k L a va HT Hpc).
  split_and!; try done.
  - apply spinlock_lock_run. simpl. rewrite Hm. simpl. by rewrite Hfl.
  - by apply locked_inv.
  - apply get_mutex_run. by rewrite Hmk, lookup_insert_eq.
Qed.

Lemma trylock_run :
  mutex_trylock_unlocked m k1 =
    if m_owner v is Some _ then Done (- EBUSY) k1
    else Done 0 (with_mutexes (<[m := Mutex true (Some a) 1]> (mutexes k)) k1).
Proof.
  destruct mutex_lock_taken as (_ & _ & HT1 & _ & Hm1 & _ & Hg). destruct Hok as [Hlk _].
  unfold mutex_trylock_unlocked. mstep Hg. cbn [m_locked m_owner m_lock]. rewrite Hlk.
  destruct (m_owner v) as [o|].
  - rewrite bool_decide_true by by eexists. done.
  - rewrite bool_decide_false by by intros []. cbn iota.
    unfold task_active. erewrite bind_Done by reflexivity. cbn beta. rewrite (top_active _ _ _ _ HT1).
    erewrite bind_Done by reflexivity. cbn beta. rewrite Hm1, insert_insert_eq. done.
Qed.

Lemma acquired :
  let k2 := with_mutexes (<[m := Mutex true (Some a) 1]> (mutexes k)) k1 in
  mutex_lands (spinlock_unlock (SpinM m) k2) k m (Some a, ws).
Proof.
  destruct mutex_lock_taken as (_ & HI1 & HT1 & Hp1 & Hm1 & Hs1 & _).
  eapply mutex_release_lands; [by eapply inv_ext|by eapply top_ext|done|done|done|done|done].
Qed.

Lemma not_acquired :
  is_Some (m_owner v) → mutex_lands (spinlock_unlock (SpinM m) k1) k m (m_owner v, ws).
Proof.
  intros Ho. destruct mutex_lock_taken as (_ & HI1 & HT1 & Hp1 & Hm1 & Hs1 & _). destruct Hok as [Hlk _].
  by eapply mutex_release_lands.
Qed.

Lemma mutex_lock_lands : mutex_lands (mutex_lock m k) k m (mspec Lock a (m_owner v, ws)).
Proof.
  destruct mutex_lock_taken as (Hl & HI1 & HT1 & Hp1 & Hm1 & Hs1 & _).
  unfold mutex_lock. mstep Hl. pose proof trylock_run as Htr. destruct (m_owner v) as [o|] eqn:Ho.
  - mstep Htr. rewrite (proj2 (Z.ltb_lt _ _)) by done. destruct Hmb as [Hpc Hid].
    assert (need_resched k1 = false) as Hnr.
    { change (need_resched k = false). by eapply may_block_resched. }
    destruct (block_on_locked_land (SpinM m) k1 L a va (NMutexWq m) ws) as (k' & -> & HI' & Hsw & Hm' & Hs');
      [done..|by apply Hid; destruct HT|done|done| |].
    { simpl. erewrite alter_is_insert by exact Hm. rewrite lookup_insert_eq. by eexists. }
    destruct Hok as [Hlk _]. rewrite Ho in Hlk.
    exists k', (blocked_on (NMutexWq m) a ws L), (Mutex (m_locked v) (Some o) 0). split_and!; try done.
    + rewrite Hm'. change (mutexes (flagged (SpinM m) 0 k1)) with
        (alter (λ v, Mutex (m_locked v) (m_owner v) 0) m (mutexes k1)).
      rewrite Hm1. erewrite alter_is_insert by apply lookup_insert_eq. by rewrite insert_insert_eq.
    + unfold blocked_on. by rewrite lookup_insert_eq.
  - mstep Htr. apply acquired.
Qed.

Lemma mutex_trylock_lands : mutex_lands (mutex_trylock m k) k m (mspec TryLock a (m_owner v, ws)).
Proof.
  destruct mutex_lock_taken as (Hl & _). unfold mutex_trylock. mstep Hl.
  pose proof trylock_run as Htr. unfold mutex_lands. pose proof not_acquired as Hna. pose proof acquired as Hac.
  destruct (m_owner v) as [o|] eqn:Ho; mstep Htr; rewrite landing_ret; [by apply Hna; eexists|exact Hac].
Qed.

Lemma mutex_unlock_lands : mutex_lands (mutex_unlock m k) k m (mspec Unlock a (m_owner v, ws)).
Proof.
  destruct mutex_lock_taken as (Hl & HI1 & HT1 & Hp1 & Hm1 & Hs1 & Hg). destruct Hok as [Hlk _].
  unfold mutex_unlock. mstep Hl. unfold task_active. erewrite bind_Done by reflexivity. cbn beta.
  mstep Hg. rewrite (top_active _ _ _ _ HT1). cbn [m_locked m_owner m_lock]. rewrite Hlk.
  destruct (m_owner v) as [o|] eqn:Ho.
  2:{ rewrite bool_decide_false by by intros []. simpl negb. erewrite bind_Done by reflexivity. cbn beta.
      by eapply mutex_release_lands. }
  rewrite bool_decide_true by by eexists. cbn [negb orb mspec]. destruct (decide (o = a)) as [->|Hne].
  2:{ rewrite bool_decide_true by congruence. erewrite bind_Done by reflexivity. cbn beta.
      by eapply mutex_release_lands. }
  rewrite bool_decide_false by by intros [].
  destruct ws as [|n ws'] eqn:Ew.
  - erewrite bind_Done.
    2:{ unfold wq_is_empty. erewrite bind_Done; [|apply read_nodes_run; by apply (empty_rep None _ L _ [] (inv_rep _ _ _ HI1))].
        reflexivity. }
    cbn beta. eapply mutex_release_lands; [by eapply inv_ext|by eapply top_ext|done| |done|done|done].
    transitivity (<[m := Mutex false None 1]> (mutexes k1)); [done|]. by rewrite Hm1, insert_insert_eq.
  - assert (∃ w, n = NWait w) as [w ->].
    { assert (belongs (tasks k) (NMutexWq m) n) as Hb by (eapply inv_belongs; [exact HI|exact Hws|left]).
      destruct n; simpl in Hb; try done. eauto. }
    destruct (pop_wq_run k1 L (NMutexWq m) w ws' HI1 Hws) as (s' & vw & Hpop & Hw & Hwt & HI2 & Hl2); [done|].
    set (k3 := with_mutexes (<[m := Mutex true (Some w) 1]> (mutexes k)) (with_nodes s' k1)).
    assert (Top k3 (unlinked (NWait w) L) a va) as HT3.
    { eapply (top_ext k1); [|done..]. eapply top_rqs; [exact HT1|]. intros p. by eapply unlinked_rqs_other. }
    destruct (hand_over_run (Some w) k3 (unlinked (NWait w) L) a va w vw) as (k4 & p & Hrt & HI4 & HT4 & Hp4 & Hm4 & Hs4 & _);
      [by eapply inv_ext|done|done|done|done|done|].
    erewrite bind_Done.
    2:{ unfold wq_is_empty. erewrite bind_Done; [|apply read_nodes_run; by apply (empty_rep None _ L _ (NWait w :: ws') (inv_rep _ _ _ HI1))].
        cbn beta. rewrite bool_decide_false by done. cbn [negb]. unfold wq_pop_head. mstep Hpop.
        erewrite (bind_Done (of_opt _)) by reflexivity. cbn beta. erewrite bind_Done by reflexivity. cbn beta.
        change (mutexes (with_nodes s' k1)) with (mutexes k1). rewrite Hm1, insert_insert_eq. exact Hrt. }
    cbn beta. eapply mutex_release_lands; [exact HI4|exact HT4|done|by rewrite Hm4|by rewrite Hs4|done|].
    eapply woken_wq; [exact HI2|done|done|by eapply unlinked_no].
Qed.
End MutexContract.

(** ** What a semaphore promises *)

Inductive semop := Wait | TryTake | Post.
Definition semop_run (o : semop) (m : Z) : M kst Z :=
  match o with
  | Wait => sem_wait m;; mret 0
  | TryTake => sem_try_take m
  | Post => sem_post m;; mret 0
  end.

(** The number of resources and the waiters, in the order they are served. *)
Definition semspec (o : semop) (a : tid) (st : Z * list nid) : Z * list nid :=
  let (count, ws) := st in
  match o with
  | Wait => if 0 <? count then (count - 1, ws) else (count, ws ++ [NWait a])
  | TryTake => if 0 <? count then (count - 1, ws) else st
  | Post => match ws with [] => (count + 1, []) | _ :: ws' => (count, ws') end
  end.
Definition semres (o : semop) (count : Z) : Z :=
  match o with TryTake => if 0 <? count then 0 else - EAGAIN | _ => 0 end.

Definition sem_lands {A} (o : outcome kst A) (k : kst) (m : Z) (st : Z * list nid) : Prop :=
  ∃ k' L', landing o = Some k' ∧ Inv None k' L' ∧ switch_ok k' ∧
    sems k' = <[m := Semaphore (fst st) 0]> (sems k) ∧ mutexes k' = mutexes k ∧
    L' !! NSemWq m = Some (snd st).

Lemma sem_release_lands k k1 L a va m c ws b :
  Inv None k1 L → Top k1 L a va → preempt_count k1 = 1 →
  sems k1 = <[m := Semaphore c 1]> (sems k) → mutexes k1 = mutexes k → L !! NSemWq m = Some ws →
  sem_lands (spinlock_unlock_irq_restore (SpinS m) b k1) k m (c, ws).
Proof.
  intros HI HT Hpc Hs Hm Hws.
  destruct (spinlock_unlock_land (SpinS m) k1 L a va HI HT Hpc) as (k' & L' & Hl & HI' & Hok & Hsame & Hm' & Hs').
  { simpl. rewrite Hs, lookup_insert_eq. by eexists. }
  destruct (landing_irq (spinlock_unlock (SpinS m)) b k1 k' Hl) as [b' Hb'].
  exists (with_sie b' k'), L'. split_and!; try done.
  - by eapply inv_ext.
  - by apply switch_ok_sie.
  - simpl. rewrite Hs'. simpl. rewrite Hs. erewrite alter_is_insert by apply lookup_insert_eq.
    by rewrite insert_insert_eq.
  - simpl. by rewrite Hm'.
  - by rewrite Hsame.
Qed.

Section SemContract.
Variables (k : kst) (L : gmap nid (list nid)) (a : tid) (va : task) (m : Z) (c : Z) (ws : list nid).
Hypotheses (HI : Inv None k L) (HT : Top k L a va) (Hmb : may_block a k)
  (Hm : sems k !! m = Some (Semaphore c 0)) (Hws : L !! NSemWq m = Some ws).

Let k1 : kst := locked (SpinS m) (with_sie false k).

Lemma sem_lock_taken :
  spinlock_lock_irq_save (SpinS m) k = Done (sie k) k1 ∧ Inv None k1 L ∧ Top k1 L a va ∧
  preempt_count k1 = 1 ∧ sems k1 = <[m := Semaphore c 1]> (sems k) ∧ mutexes k1 = mutexes k ∧
  get_sem m k1 = Done (Semaphore c 1) k1.
Proof.
  destruct Hmb as [Hpc _]. destruct (masked _ _ _ _ HI HT) as [HI0 HT0].
  assert (sems k1 = <[m := Semaphore c 1]> (sems k)) as Hsk.
  { unfold k1, locked. simpl. by erewrite alter_is_insert by exact Hm. }
  destruct (locked_top (SpinS m) _ L a va HT0 Hpc).
  split_and!; try done.
  - unfold spinlock_lock_irq_save. run irq_save_run.
    erewrite bind_Done; [reflexivity|]. apply spinlock_lock_run. simpl. by rewrite Hm.
  - by apply locked_inv.
  - apply get_sem_run. by rewrite Hsk, lookup_insert_eq.
Qed.

Lemma try_take_run :
  sem_try_take_unlocked m k1 =
    if 0 <? c then Done 0 (with_sems (<[m := Semaphore (c - 1) 1]> (sems k)) k1)
    else Done (- EAGAIN) k1.
Proof.
  destruct sem_lock_taken as (_ & _ & _ & _ & Hs1 & _ & Hg).
  unfold sem_try_take_unlocked. mstep Hg. cbn [s_count s_lock].
  destruct (Z.leb_spec c 0), (Z.ltb_spec 0 c); try lia; [done|].
  erewrite bind_Done by reflexivity. cbn beta. rewrite Hs1, insert_insert_eq. done.
Qed.

Lemma taken_lands b :
  sem_lands (spinlock_unlock_irq_restore (SpinS m) b
    (with_sems (<[m := Semaphore (c - 1) 1]> (sems k)) k1)) k m (c - 1, ws).
Proof.
  destruct sem_lock_taken as (_ & HI1 & HT1 & Hp1 & Hs1 & Hm1 & _).
  eapply sem_release_lands; [by eapply inv_ext|by eapply top_ext|done..].
Qed.

Lemma sem_wait_lands : sem_lands (sem_wait m k) k m (semspec Wait a (c, ws)).
Proof.
  destruct sem_lock_taken as (Hl & HI1 & HT1 & Hp1 & Hs1 & Hm1 & _).
  unfold sem_wait. mstep Hl. pose proof try_take_run as Htr. simpl.
  destruct (0 <? c) eqn:Hc; mstep Htr; [apply taken_lands|].
  destruct Hmb as [Hpc Hid]. assert (need_resched k1 = false) as Hnr.
  { change (need_resched k = false). by eapply may_block_resched. }
  destruct (block_on_locked_land (SpinS m) k1 L a va (NSemWq m) ws) as (k' & Hb & HI' & Hsw & Hm' & Hs');
    [done..|by apply Hid; destruct HT|done|done| |].
  { simpl. erewrite alter_is_insert by exact Hm. rewrite lookup_insert_eq. by eexists. }
  exists k', (blocked_on (NSemWq m) a ws L).
  change (- EAGAIN <? 0) with true. cbn iota. unfold mbind, M_bind. rewrite Hb. split_and!; try done.
  - rewrite Hs'. change (sems (flagged (SpinS m) 0 k1)) with
      (alter (λ v, Semaphore (s_count v) 0) m (sems k1)).
    rewrite Hs1. erewrite alter_is_insert by apply lookup_insert_eq. by rewrite insert_insert_eq.
  - unfold blocked_on. by rewrite lookup_insert_eq.
Qed.

Lemma sem_try_take_lands : sem_lands (sem_try_take m k) k m (semspec TryTake a (c, ws)).
Proof.
  destruct sem_lock_taken as (Hl & HI1 & HT1 & Hp1 & Hs1 & Hm1 & _). unfold sem_try_take. mstep Hl.
  pose proof try_take_run as Htr. pose proof (taken_lands (sie k)) as Ht. unfold sem_lands. simpl.
  destruct (0 <? c) eqn:Hc; mstep Htr; rewrite landing_ret; [exact Ht|].
  by eapply sem_release_lands.
Qed.

Lemma sem_post_lands : c < 2 ^ 31 - 1 → - 2 ^ 31 ≤ c → sem_lands (sem_post m k) k m (semspec Post a (c, ws)).
Proof.
  intros Hub Hlb. destruct sem_lock_taken as (Hl & HI1 & HT1 & Hp1 & Hs1 & Hm1 & Hg).
  unfold sem_post. mstep Hl. unfold wq_is_empty.
  erewrite bind_Done; [|apply read_nodes_run; by apply (empty_rep None _ L _ ws (inv_rep _ _ _ HI1))].
  cbn beta. destruct ws as [|n ws'] eqn:Ew; simpl semspec.
  - rewrite bool_decide_true by done. cbn [negb]. erewrite bind_Done by (mstep Hg; reflexivity). cbn beta.
    eapply sem_release_lands; [by eapply inv_ext|by eapply top_ext|done| |done|done].
    transitivity (<[m := Semaphore (s32 (c + 1)) 1]> (sems k1)); [done|].
    rewrite Hs1, insert_insert_eq. by rewrite (sext_id 32) by lia.
  - rewrite bool_decide_false by done. cbn [negb].
    assert (∃ w, n = NWait w) as [w ->].
    { assert (belongs (tasks k) (NSemWq m) n) as Hb by (eapply inv_belongs; [exact HI|exact Hws|left]).
      destruct n; simpl in Hb; try done. eauto. }
    destruct (pop_wq_run k1 L (NSemWq m) w ws' HI1 Hws) as (s' & vw & Hpop & Hw & Hwt & HI2 & Hl2); [done|].
    assert (Top (with_nodes s' k1) (unlinked (NWait w) L) a va) as HT3.
    { eapply (top_ext k1); [|done..]. eapply top_rqs; [exact HT1|]. intros p. by eapply unlinked_rqs_other. }
    destruct (hand_over_run (Some w) (with_nodes s' k1) (unlinked (NWait w) L) a va w vw)
      as (k4 & p & Hrt & HI4 & HT4 & Hp4 & Hm4 & Hs4 & _); [done..|].
    erewrite bind_Done.
    2:{ unfold wq_pop_head. mstep Hpop. erewrite (bind_Done (of_opt _)) by reflexivity. exact Hrt. }
    cbn beta. eapply sem_release_lands; [exact HI4|exact HT4|done|by rewrite Hs4|by rewrite Hm4|].
    eapply woken_wq; [exact HI2|done|done|by eapply unlinked_no].
Qed.
End SemContract.

Lemma done_ret {A B} (m : M kst A) (b r : B) k k' : (m;; mret b) k = Done r k' → r = b.
Proof. unfold mbind, M_bind, mret, M_ret. destruct (m k); simpl; congruence. Qed.

(** ** Properties *)

(** C2: [mutex_lock], [mutex_trylock] and [mutex_unlock] implement a mutex with
    a FIFO queue: a free mutex is taken by the caller, a taken one makes
    [mutex_lock] join the back of the queue and [mutex_trylock] return -EBUSY
    at once; an unlock by the owner hands the mutex to the first waiter
    without releasing it in between, or frees it when nobody waits; an unlock
    by any other task changes nothing.  The scheduler's invariant holds when
    the call returns or hands the processor over, the mutex's spinlock is free
    and no other mutex changes. *)
Theorem mutex_refines_fifo o k L a va m v ws :
  Inv None k L → Top k L a va → may_block a k →
  mutexes k !! m = Some v → mutex_ok v → L !! NMutexWq m = Some ws →
  mutex_lands (mop_run o m k) k m (mspec o a (m_owner v, ws)) ∧
  (∀ r k', mop_run o m k = Done r k' → r = mres o (m_owner v)).
Proof.
  intros HI HT Hmb Hm Hok Hws. destruct o; simpl mop_run.
  - split; [|intros r k' ->%done_ret; by destruct (m_owner v)].
    unfold mutex_lands. rewrite landing_ret. by eapply mutex_lock_lands.
  - split; [by eapply mutex_trylock_lands|]. intros r k'.
    destruct (mutex_lock_taken k L a va m v HI HT Hmb Hm Hok) as (Hl & _).
    pose proof (trylock_run k L a va m v HI HT Hmb Hm Hok) as Htr.
    unfold mutex_trylock. mstep Hl. destruct (m_owner v) as [o|]; mstep Htr; by intros ->%done_ret.
  - split; [|intros r k' ->%done_ret; by destruct (m_owner v)].
    unfold mutex_lands. rewrite landing_ret. by eapply mutex_unlock_lands.
Qed.

(** C16: [sem_wait], [sem_try_take] and [sem_post] implement a counting
    semaphore with a FIFO queue: a resource is taken when there is one, a
    caller of [sem_wait] joins the back of the queue when there is none, and
    [sem_post] gives the resource to the first waiter without counting it, or
    counts it when nobody waits. *)
Theorem semaphore_refines_fifo o k L a va m c ws :
  Inv None k L → Top k L a va → may_block a k →
  sems k !! m = Some (Semaphore c 0) → - 2 ^ 31 ≤ c < 2 ^ 31 - 1 → L !! NSemWq m = Some ws →
  sem_lands (semop_run o m k) k m (semspec o a (c, ws)) ∧
  (∀ r k', semop_run o m k = Done r k' → r = semres o c).
Proof.
  intros HI HT Hmb Hm Hc Hws. destruct o; simpl semop_run.
  - split; [|by intros r k' ->%done_ret].
    unfold sem_lands. rewrite landing_ret. by eapply sem_wait_lands.
  - split; [by eapply sem_try_take_lands|]. intros r k'.
    destruct (sem_lock_taken k L a va m c HI HT Hmb Hm) as (Hl & _).
    pose proof (try_take_run k L a va m c HI HT Hmb Hm) as Htr.
    unfold sem_try_take. mstep Hl. simpl. destruct (0 <? c); mstep Htr; by intros ->%done_ret.
  - split; [|by intros r k' ->%done_ret].
    unfold sem_lands. rewrite landing_ret. eapply sem_post_lands; [done..|lia|lia].
Qed.

(** ** Witnesses *)

(** Task 2 owns mutex 7, which task 5 waits for; semaphore 8 has a resource. *)
Definition demo_sync : kst :=
  with_mutexes {[7 := Mutex true (Some 2) 0]} (demo_k 120).

Lemma demo_sync_inv : Inv None demo_sync demo_L.
Proof. by apply (inv_ext None (demo_k 120)); [apply demo_inv|..]. Qed.
Lemma demo_sync_top : Top demo_sync demo_L 2 demo_running.
Proof. by apply (top_ext (demo_k 120)); [apply demo_top|..]. Qed.
Lemma demo_sync_block : may_block 2 demo_sync.
Proof. split; [done|]. intros va Hva. vm_compute in Hva. by injection Hva as <-. Qed.

Lemma mutex_refines_fifo_witness :
  mutex_lands (mop_run Unlock 7 demo_sync) demo_sync 7 (Some 5, []) ∧
  (∀ r k', mop_run TryLock 7 demo_sync = Done r k' → r = - EBUSY).
Proof.
  assert (demo_L !! NMutexWq 7 = Some [NWait 5]) as HL by by vm_compute.
  split.
  - apply (mutex_refines_fifo Unlock demo_sync demo_L 2 demo_running 7 (Mutex true (Some 2) 0) [NWait 5]
      demo_sync_inv demo_sync_top demo_sync_block eq_refl (conj eq_refl eq_refl) HL).
  - apply (mutex_refines_fifo TryLock demo_sync demo_L 2 demo_running 7 (Mutex true (Some 2) 0) [NWait 5]
      demo_sync_inv demo_sync_top demo_sync_block eq_refl (conj eq_refl eq_refl) HL).
Defined.

Lemma semaphore_refines_fifo_witness :
  sem_lands (semop_run Wait 8 demo_sync) demo_sync 8 (0, []) ∧
  sem_lands (semop_run Post 8 demo_sync) demo_sync 8 (2, []).
Proof.
  assert (demo_L !! NSemWq 8 = Some []) as HL by by vm_compute.
  split.
  - apply (semaphore_refines_fifo Wait demo_sync demo_L 2 demo_running 8 1 []
      demo_sync_inv demo_sync_top demo_sync_block eq_refl ltac:(lia) HL).
  - apply (semaphore_refines_fifo Post demo_sync demo_L 2 demo_running 8 1 []
      demo_sync_inv demo_sync_top demo_sync_block eq_refl ltac:(lia) HL).
Defined.
