(* ===== verification/Pages.v ===== *)
(** * Physical pages (kernel/core/memory/pages.c)

    The state is the free list, threaded through the free pages, the reference
    counter of every page of the ram, and the contents of the allocated pages
    as 64-bit words.  A page the allocator owns holds its list node: its words
    are not part of the contents, and reading them faults. *)

From S2P Require Import Prelude Clist.

(** ** Layout (kernel.ld, arch/asm_defs.h) *)

Definition PAGE_SHIFT : Z := 12.
Definition PAGE_SIZE : Z := 4096.
Definition RAM_SIZE : Z := 128 * 1024 * 1024.
Definition ram_start : Z := 0x80000000.
Definition ram_end : Z := ram_start + RAM_SIZE.
Definition NULL : Z := 0.

(** ** State *)

(** [None] is the sentinel [free_pages], [Some p] the node at the start of the
    page [p]. *)
Record pmem := Pmem {
  pm_nodes : store (option Z);
  pm_rc : gmap Z Z;
  pm_pages : gmap Z (gmap Z Z);
}.

Definition with_pnodes (s : store (option Z)) (m : pmem) : pmem := Pmem s (pm_rc m) (pm_pages m).
Definition with_rc (r : gmap Z Z) (m : pmem) : pmem := Pmem (pm_nodes m) r (pm_pages m).
Definition with_pages (p : gmap Z (gmap Z Z)) (m : pmem) : pmem := Pmem (pm_nodes m) (pm_rc m) p.

#[export] Program Instance pmem_has_nodes : HasNodes (option Z) pmem :=
  {| nodes := pm_nodes; set_nodes := with_pnodes |}.
Next Obligation. done. Qed.
Next Obligation. by intros []. Qed.
Next Obligation. done. Qed.

(** ** Words and bytes of the allocated pages *)

Definition page_of (a : Z) : Z := a - a mod PAGE_SIZE.
Definition load64 (a : Z) : M pmem Z :=
  m ← get; c ← of_opt (pm_pages m !! page_of a);
  mret (default 0 (c !! ((a mod PAGE_SIZE) / 8))).
Definition store64 (a v : Z) : M pmem unit :=
  m ← get; c ← of_opt (pm_pages m !! page_of a);
  modify (λ m, with_pages (<[page_of a := <[(a mod PAGE_SIZE) / 8 := v]> c]> (pm_pages m)) m).

(** Byte [i] of a little-endian word, and the word with that byte replaced. *)
Definition byte_of (w i : Z) : Z := (w / 2 ^ (8 * i)) mod 256.
Definition set_byte (w i b : Z) : Z := w + (b - byte_of w i) * 2 ^ (8 * i).
Definition load8 (a : Z) : M pmem Z := w ← load64 a; mret (byte_of w (a mod 8)).
Definition store8 (a b : Z) : M pmem unit := w ← load64 a; store64 a (set_byte w (a mod 8) b).

(** [memcpy] from and to the pages, the other side being a kernel buffer. *)
Fixpoint load_bytes (a : Z) (n : nat) : M pmem (list Z) :=
  match n with
  | O => mret []
  | S n => b ← load8 a; bs ← load_bytes (a + 1) n; mret (b :: bs)
  end.
Fixpoint store_bytes (a : Z) (bs : list Z) : M pmem unit :=
  match bs with
  | [] => mret tt
  | b :: bs => store8 a b;; store_bytes (a + 1) bs
  end.

(** ** pages.c

    [irq_save] and [irq_restore] bracket the operations that change the state;
    they have no effect on it. *)

Definition page_get_num (addr : Z) : Z := Z.shiftr addr PAGE_SHIFT.

Definition push_free (page : Z) : M pmem unit :=
  modify (λ m, with_pnodes (clist_init_node (Some page) (pm_nodes m)) m);;
  modify (λ m, with_pages (delete page (pm_pages m)) m);;
  on_nodes (clist_push_front None (Some page)).

Definition page_idx (page : Z) : Z := Z.shiftr (u64 (page - ram_start)) PAGE_SHIFT.

(** The counters of [page_rc], zero until set; an index out of the array is an
    invalid access. *)
Definition rc_of (m : pmem) (page : Z) : Z := default 0 (pm_rc m !! page_idx page).
Definition set_rc (page v : Z) : M pmem unit :=
  modify (λ m, with_rc (<[page_idx page := v]> (pm_rc m)) m).

Definition page_get_ref_count (page : Z) : M pmem Z :=
  if decide (page_idx page < RAM_SIZE / PAGE_SIZE) then gets (λ m, rc_of m page) else fault.

Definition page_get (page : Z) : M pmem Z :=
  c ← page_get_ref_count page;
  set_rc page (u8 (c + 1));;
  mret page.

Fixpoint page_init_loop (fuel : nat) (p page_end : Z) : M pmem unit :=
  match fuel with
  | O => nofuel
  | S fuel =>
    if decide (p < page_end) then push_free p;; page_init_loop fuel (p + PAGE_SIZE) page_end
    else mret tt
  end.

(** [_page_start] is the end of the kernel image, a link-time constant. *)
Definition page_init (page_start : Z) : M pmem unit :=
  if decide (ram_end - ram_start ≠ RAM_SIZE)
  then panic "pages.c RAM_SIZE out of sync with kernel.ld" else
  modify (λ m, with_pnodes (clist_init_node None (pm_nodes m)) m);;
  page_init_loop (S (Z.to_nat (RAM_SIZE / PAGE_SIZE))) page_start ram_end.

Definition page_alloc : M pmem Z :=
  r ← read_nodes (clist_pop_front None);
  modify (with_pnodes (snd r));;
  match fst r with
  | Some (Some addr) =>
    modify (λ m, with_pages (<[addr := ∅]> (pm_pages m)) m);;
    page_get addr;;
    mret addr
  | _ => mret NULL
  end.

Definition page_put (page : Z) : M pmem unit :=
  c ← page_get_ref_count page;
  if c =? 0 then panic "page_put() on a page nobody holds: double free" else
  set_rc page (u8 (c - 1));;
  if u8 (c - 1) =? 0 then push_free page else mret tt.

Definition page_copy (dst src : Z) : M pmem unit :=
  m ← get;
  c ← of_opt (pm_pages m !! src);
  _ ← of_opt (pm_pages m !! dst);
  modify (λ m, with_pages (<[dst := c]> (pm_pages m)) m).

(** ** The allocator's invariant *)

Section Allocator.
(** The first page the allocator manages. *)
Variable page_start : Z.

Definition aligned (p : Z) : Prop := p mod PAGE_SIZE = 0.
Definition managed (p : Z) : Prop := aligned p ∧ page_start ≤ p < ram_end.

(** Each managed page is on the free list and unreferenced, or allocated,
    referenced and holding contents. *)
Record PInv (m : pmem) (free : list Z) : Prop := {
  pi_rep : Rep (pm_nodes m) {[None := Some <$> free]};
  pi_managed : ∀ p, p ∈ free ∨ is_Some (pm_pages m !! p) → managed p;
  pi_free : ∀ p, managed p → p ∈ free ↔ rc_of m p = 0;
  pi_used : ∀ p, managed p → is_Some (pm_pages m !! p) ↔ rc_of m p ≠ 0;
  pi_range : ∀ i c, pm_rc m !! i = Some c → 0 ≤ c < 256;
}.
Hypothesis start_ok : aligned page_start ∧ ram_start ≤ page_start.

Lemma page_idx_managed p : managed p → page_idx p = (p - ram_start) / PAGE_SIZE ∧
  0 ≤ page_idx p < RAM_SIZE / PAGE_SIZE.
Proof.
  intros (_ & Hp). change (RAM_SIZE / PAGE_SIZE) with 32768. unfold page_idx, aligned in *.
  destruct start_ok as [_ ?].
  unfold ram_end, ram_start, RAM_SIZE, PAGE_SIZE, PAGE_SHIFT in *.
  rewrite wrap_small by lia. rewrite Z.shiftr_div_pow2 by lia. change (2 ^ 12) with 4096.
  split; [done|]. split; [apply Z.div_pos; lia|]. apply Z.div_lt_upper_bound; lia.
Qed.

Lemma page_idx_inj p q : managed p → managed q → page_idx p = page_idx q → p = q.
Proof.
  intros Hp Hq. destruct (page_idx_managed p Hp) as [-> _], (page_idx_managed q Hq) as [-> _].
  destruct Hp as [Ap _], Hq as [Aq _]. unfold aligned, PAGE_SIZE, ram_start in *. intros E.
  pose proof (Z.div_mod p 4096) as Dp. pose proof (Z.div_mod q 4096) as Dq.
  replace (p - 2147483648) with (p + (-524288) * 4096) in E by lia.
  replace (q - 2147483648) with (q + (-524288) * 4096) in E by lia.
  rewrite !Z.div_add in E by lia. lia.
Qed.

Lemma rc_set m p q c :
  managed p → managed q →
  rc_of (with_rc (<[page_idx p := c]> (pm_rc m)) m) q = if decide (p = q) then c else rc_of m q.
Proof.
  intros Hp Hq. unfold rc_of. simpl. rewrite lookup_insert.
  destruct (decide (p = q)) as [->|Hne]; [by rewrite decide_True|].
  rewrite decide_False; [done|]. intros E. by apply Hne, page_idx_inj.
Qed.

Lemma ref_count_run m p : managed p → page_get_ref_count p m = Done (rc_of m p) m.
Proof.
  intros Hp. unfold page_get_ref_count. destruct (page_idx_managed p Hp) as [_ ?].
  by rewrite decide_True by lia.
Qed.

(** ** The operations *)

Lemma page_get_run m free p :
  PInv m free → managed p → rc_of m p ≠ 0 → rc_of m p < 255 →
  ∃ m', page_get p m = Done p m' ∧ PInv m' free ∧ pm_pages m' = pm_pages m ∧
    ∀ q, managed q → rc_of m' q = if decide (p = q) then rc_of m p + 1 else rc_of m q.
Proof.
  intros [HR Hm Hf Hu Hr] Hp Hz Hlt.
  assert (0 ≤ rc_of m p) as Hge.
  { unfold rc_of in *. destruct (pm_rc m !! _) as [c|] eqn:E; [apply Hr in E|]; simpl in *; lia. }
  eexists. split_and!.
  - unfold page_get. erewrite bind_Done by by apply ref_count_run. cbn beta.
    erewrite bind_Done by reflexivity. reflexivity.
  - rewrite wrap_small by lia. split; simpl; try done.
    + intros q Hq. rewrite rc_set by done. destruct (decide (p = q)) as [<-|]; [|by apply Hf].
      rewrite Hf by done. lia.
    + intros q Hq. rewrite rc_set by done. destruct (decide (p = q)) as [<-|]; [|by apply Hu].
      rewrite Hu by done. lia.
    + intros i c. rewrite lookup_insert. case_decide; [intros [= <-]; lia|apply Hr].
  - done.
  - intros q Hq. rewrite rc_set by done. by rewrite wrap_small by lia.
Qed.

Lemma PInv_nodup m free : PInv m free → NoDup free.
Proof.
  intros [HR _ _ _ _]. pose proof (rep_nodup _ _ _ None (Some <$> free) HR) as Hnd.
  apply (NoDup_fmap_1 Some), Hnd. apply lookup_singleton_eq.
Qed.

Lemma alloc_run m free :
  PInv m free →
  match free with
  | [] => ∃ m', page_alloc m = Done NULL m' ∧ PInv m' [] ∧ pm_pages m' = pm_pages m ∧ pm_rc m' = pm_rc m
  | p :: free' => ∃ m', page_alloc m = Done p m' ∧ PInv m' free' ∧ managed p ∧
      pm_pages m !! p = None ∧ pm_pages m' = <[p := ∅]> (pm_pages m) ∧
      ∀ q, managed q → rc_of m' q = if decide (p = q) then 1 else rc_of m q
  end.
Proof.
  intros HP. pose proof (PInv_nodup _ _ HP) as Hnd. destruct HP as [HR Hm Hf Hu Hr].
  destruct (pop_front_rep None _ _ None (Some <$> free) HR) as (s' & Hs' & HR' & Hd').
  { apply lookup_singleton_eq. }
  unfold page_alloc. rewrite insert_singleton_eq in HR'. destruct free as [|p free]; simpl in *.
  - exists (with_pnodes s' m). split_and!; [|by split|done|done].
    erewrite bind_Done; [|unfold read_nodes; simpl; by rewrite Hs'].
    cbn beta. erewrite bind_Done by reflexivity. done.
  - assert (managed p) as Hp by (apply Hm; left; left). apply NoDup_cons in Hnd as [Hpf Hnd].
    assert (rc_of m p = 0) as Hz by (apply Hf; [done|left]).
    assert (pm_pages m !! p = None) as Hpn.
    { destruct (pm_pages m !! p) as [c|] eqn:E; [|done]. destruct (proj1 (Hu p Hp)); [by eexists|done]. }
    set (m1 := with_pages (<[p := ∅]> (pm_pages m)) (with_pnodes s' m)).
    assert (rc_of m1 p = 0) as Hz1 by exact Hz.
    exists (with_rc (<[page_idx p := 1]> (pm_rc m1)) m1). split_and!.
    + erewrite bind_Done; [|unfold read_nodes; simpl; by rewrite Hs'].
      cbn beta. erewrite bind_Done by reflexivity. cbn [fst snd].
      erewrite bind_Done by reflexivity. cbn beta. fold m1. erewrite bind_Done; [reflexivity|].
      unfold page_get. erewrite bind_Done by by apply ref_count_run. cbn beta.
      change (with_pages _ _) with m1. by rewrite Hz1.
    + split; simpl.
      * done.
      * intros q [Hq|Hq]; apply Hm; [left; by right|]. destruct (decide (p = q)) as [<-|]; [by left; left|].
        rewrite lookup_insert_ne in Hq by done. by right.
      * intros q Hq. change (rc_of _ q) with (rc_of (with_rc (<[page_idx p := 1]> (pm_rc m)) m) q).
        rewrite rc_set by done. destruct (decide (p = q)) as [<-|Hne]; [split; [done|lia]|].
        rewrite <-Hf by done. rewrite elem_of_cons. naive_solver.
      * intros q Hq. change (rc_of _ q) with (rc_of (with_rc (<[page_idx p := 1]> (pm_rc m)) m) q).
        rewrite rc_set by done. rewrite lookup_insert. destruct (decide (p = q)) as [<-|Hne]; [|by apply Hu].
        split; [lia|by eexists].
      * intros i c. rewrite lookup_insert. case_decide; [intros [= <-]; lia|apply Hr].
    + done.
    + done.
    + done.
    + intros q Hq. by rewrite <-(rc_set m p q 1).
Qed.

Lemma push_free_run m p free :
  Rep (pm_nodes m) {[None := Some <$> free]} → p ∉ free →
  ∃ s', push_free p m = Done tt (with_pages (delete p (pm_pages m)) (with_pnodes s' m)) ∧
    Rep s' {[None := Some <$> (p :: free)]}.
Proof.
  intros HR Hp.
  assert (∀ h l, ({[None := Some <$> free]} : gmap (option Z) _) !! h = Some l → Some p ∉ h :: l) as Hno.
  { intros h l [<- <-]%lookup_singleton_Some. rewrite not_elem_of_cons. split; [done|].
    intros (q & [= <-] & ?)%list_elem_of_fmap. done. }
  pose proof (init_rep None _ _ (Some p) HR Hno) as HR1.
  destruct (push_front_rep None _ _ None (Some <$> free) (Some p) HR1) as (s' & Hs' & HR' & _).
  { done. }
  { apply lookup_singleton_eq. }
  { split_and!.
    - unfold clist_init_node. rewrite dom_insert_L. set_solver.
    - by apply lookup_singleton_ne.
    - intros h l Hl. specialize (Hno h l Hl). rewrite not_elem_of_cons in Hno. tauto. }
  exists s'. rewrite insert_singleton_eq in HR'. split; [|done].
  unfold push_free. erewrite bind_Done by reflexivity. cbn beta. erewrite bind_Done by reflexivity. cbn beta.
  unfold on_nodes. simpl. by rewrite Hs'.
Qed.

Lemma put_run m free p :
  PInv m free → managed p → rc_of m p ≠ 0 →
  ∃ m' free', page_put p m = Done tt m' ∧ PInv m' free' ∧
    (∀ q, managed q → rc_of m' q = if decide (p = q) then rc_of m p - 1 else rc_of m q) ∧
    (if decide (rc_of m p = 1) then free' = p :: free ∧ pm_pages m' = delete p (pm_pages m)
     else free' = free ∧ pm_pages m' = pm_pages m).
Proof.
  intros HP Hp Hz. pose proof HP as [HR Hm Hf Hu Hr].
  assert (0 < rc_of m p < 256) as Hge.
  { unfold rc_of in *. destruct (pm_rc m !! _) as [c|] eqn:E; [apply Hr in E|]; simpl in *; lia. }
  set (m1 := with_rc (<[page_idx p := rc_of m p - 1]> (pm_rc m)) m).
  assert (page_put p m = (if rc_of m p - 1 =? 0 then push_free p m1 else Done tt m1)) as Hrun.
  { unfold page_put. erewrite bind_Done by by apply ref_count_run. cbn beta.
    rewrite (proj2 (Z.eqb_neq _ _)) by done. erewrite bind_Done by reflexivity. cbn beta.
    rewrite wrap_small by lia. by destruct (_ =? 0). }
  assert (∀ q, managed q → rc_of m1 q = if decide (p = q) then rc_of m p - 1 else rc_of m q) as Hrc.
  { intros. by apply rc_set. }
  assert (∀ i c, pm_rc m1 !! i = Some c → 0 ≤ c < 256) as Hr1.
  { intros i c. simpl. rewrite lookup_insert. case_decide; [intros [= <-]; lia|apply Hr]. }
  destruct (decide (rc_of m p = 1)) as [E|E].
  - rewrite (proj2 (Z.eqb_eq _ _)) in Hrun by lia.
    assert (p ∉ free) as Hpf by (rewrite Hf by done; lia).
    destruct (push_free_run m1 p free HR Hpf) as (s' & Hpf' & HR').
    eexists _, (p :: free). split_and!; [by rewrite Hrun|split|exact Hrc|done|done].
    + done.
    + intros q [Hq|Hq]; [apply elem_of_cons in Hq as [->|Hq]; [done|apply Hm; by left]|].
      simpl in Hq. apply Hm. right. rewrite lookup_delete in Hq. case_decide; [by destruct Hq|done].
    + intros q Hq. change (rc_of _ q) with (rc_of m1 q). rewrite Hrc by done. rewrite elem_of_cons.
      destruct (decide (p = q)) as [<-|]; [split; [lia|auto]|]. rewrite <-Hf by done. naive_solver.
    + intros q Hq. change (rc_of _ q) with (rc_of m1 q). rewrite Hrc by done. simpl. rewrite lookup_delete.
      destruct (decide (p = q)) as [<-|]; [split; [by intros []|lia]|]. by apply Hu.
    + exact Hr1.
  - rewrite (proj2 (Z.eqb_neq _ _)) in Hrun by lia.
    exists m1, free. split_and!; [done|split|exact Hrc|done|done].
    + done.
    + exact Hm.
    + intros q Hq. rewrite Hrc by done. destruct (decide (p = q)) as [<-|]; [|by apply Hf].
      rewrite Hf by done. lia.
    + intros q Hq. rewrite Hrc by done. destruct (decide (p = q)) as [<-|]; [|by apply Hu].
      simpl. rewrite Hu by done. lia.
    + exact Hr1.
Qed.

(** Pushing the pages from [p] up to the end of the ram. *)
Lemma init_loop_run fuel p m free :
  aligned p → page_start ≤ p → (Z.to_nat ((ram_end - p) / PAGE_SIZE) < fuel)%nat →
  Rep (pm_nodes m) {[None := Some <$> free]} → pm_rc m = ∅ → pm_pages m = ∅ →
  (∀ q, q ∈ free ↔ aligned q ∧ page_start ≤ q < p ∧ q < ram_end) →
  ∃ m' free', page_init_loop fuel p ram_end m = Done tt m' ∧
    Rep (pm_nodes m') {[None := Some <$> free']} ∧ pm_rc m' = ∅ ∧ pm_pages m' = ∅ ∧
    (∀ q, q ∈ free' ↔ managed q).
Proof.
  revert p m free. induction fuel as [|fuel IH]; intros p m free Ap Hp Hfuel HR Hrc Hpg Hfree; [lia|].
  simpl. destruct (decide (p < ram_end)) as [Hlt|Hge].
  - assert (p ∉ free) as Hpf by (rewrite Hfree; lia).
    destruct (push_free_run m p free HR Hpf) as (s' & Hpush & HR').
    rewrite (bind_Done _ _ _ _ _ Hpush). apply (IH _ _ (p :: free)); try done.
    + unfold aligned, PAGE_SIZE in *. rewrite <-Zplus_mod_idemp_l, Ap. done.
    + unfold PAGE_SIZE. lia.
    + unfold PAGE_SIZE in *. replace (ram_end - (p + 4096)) with ((ram_end - p) + (-1) * 4096) by lia.
      rewrite Z.div_add by lia. assert (0 < (ram_end - p) / 4096); [|lia].
      apply Z.div_str_pos. unfold aligned, ram_end, ram_start, RAM_SIZE, PAGE_SIZE in *.
      pose proof (Z.div_mod p 4096). lia.
    + simpl. by rewrite Hpg, delete_empty.
    + intros q. rewrite elem_of_cons, Hfree. unfold PAGE_SIZE. split; [intros [->|(?&?&?)]; split_and!; done || lia|].
      intros (Aq & Hq & Hq'). destruct (decide (q = p)) as [->|Hne]; [by left|right].
      split_and!; try lia; [done|]. unfold aligned, PAGE_SIZE in *.
      pose proof (Z.div_mod p 4096). pose proof (Z.div_mod q 4096). lia.
  - exists m, free. split_and!; try done. intros q. rewrite Hfree. unfold managed. intuition lia.
Qed.

Lemma page_init_run :
  ∃ m free, page_init page_start (Pmem ∅ ∅ ∅) = Done tt m ∧ PInv m free ∧ ∀ p, p ∈ free ↔ managed p.
Proof.
  destruct start_ok as [Ap Hp]. set (m0 := with_pnodes (clist_init_node None ∅) (Pmem ∅ ∅ ∅)).
  destruct (init_loop_run (S (Z.to_nat (RAM_SIZE / PAGE_SIZE))) page_start m0 [])
    as (m & free & Hrun & HR & Hrc & Hpg & Hfree); try done.
  - pose proof (Z.div_le_mono (ram_end - page_start) RAM_SIZE PAGE_SIZE).
    unfold ram_end, PAGE_SIZE in *. lia.
  - simpl. by apply repb_rep; vm_compute.
  - intros q. split; [by intros ?%elem_of_nil|lia].
  - exists m, free. split_and!; [|split|done].
    + unfold page_init. rewrite decide_False by (unfold ram_end; lia). by erewrite bind_Done by reflexivity.
    + done.
    + intros p [?|[c Hc]]; [by apply Hfree|]. by rewrite Hpg in Hc.
    + intros p Hm. unfold rc_of. rewrite Hrc. split; [done|]. intros _. by apply Hfree.
    + intros p Hm. unfold rc_of. rewrite Hrc, Hpg. split; [by intros []|done].
    + intros i c. by rewrite Hrc.
Qed.

(** ** Properties *)

(** [page_init] terminates with every page from the end of the kernel
    image to the end of the ram on the free list, unreferenced. *)
Theorem page_init_all_free :
  ∃ m free, page_init page_start (Pmem ∅ ∅ ∅) = Done tt m ∧ PInv m free ∧ ∀ p, p ∈ free ↔ managed p.
Proof. apply page_init_run. Qed.

(** C22: [page_alloc] fails, returning NULL, exactly when no page is free; else
    it takes a page nobody references off the free list, zeroes it and gives
    it one reference; it changes neither the contents nor the references of
    any other page. *)
Theorem page_alloc_fresh m free :
  PInv m free →
  match free with
  | [] => ∃ m', page_alloc m = Done NULL m' ∧ PInv m' [] ∧ pm_pages m' = pm_pages m ∧ pm_rc m' = pm_rc m
  | p :: free' => ∃ m', page_alloc m = Done p m' ∧ PInv m' free' ∧ rc_of m p = 0 ∧
      pm_pages m' = <[p := ∅]> (pm_pages m) ∧
      ∀ q, managed q → rc_of m' q = if decide (p = q) then 1 else rc_of m q
  end.
Proof.
  intros HP. pose proof (alloc_run m free HP) as Hr. destruct free as [|p free]; [done|].
  destruct Hr as (m' & ? & ? & Hm & _ & ? & ?). exists m'. split_and!; try done.
  apply (pi_free _ _ HP); [done|left].
Qed.

(** C23: [page_put] drops one reference; the page goes back to the head of the
    free list, its contents lost, exactly when that was the last one, and a
    put on a page nobody references panics. *)
Theorem page_put_last m free p :
  PInv m free → managed p →
  if decide (rc_of m p = 0)
  then page_put p m = Panic "page_put() on a page nobody holds: double free"
  else ∃ m' free', page_put p m = Done tt m' ∧ PInv m' free' ∧
    (∀ q, managed q → rc_of m' q = if decide (p = q) then rc_of m p - 1 else rc_of m q) ∧
    (if decide (rc_of m p = 1) then free' = p :: free ∧ pm_pages m' = delete p (pm_pages m)
     else free' = free ∧ pm_pages m' = pm_pages m).
Proof.
  intros HP Hp. destruct (decide _) as [E|E]; [|by apply put_run].
  unfold page_put. erewrite bind_Done by by apply ref_count_run. cbn beta. by rewrite E.
Qed.
End Allocator.

(** ** Checking a concrete state *)

(** The last [n] pages of the ram. *)
Definition start_of (n : nat) : Z := ram_end - PAGE_SIZE * Z.of_nat n.
Definition managed_list (n : nat) : list Z := (λ i, start_of n + PAGE_SIZE * Z.of_nat i) <$> seq 0 n.

Lemma start_of_ok n : Z.of_nat n ≤ RAM_SIZE / PAGE_SIZE → aligned (start_of n) ∧ ram_start ≤ start_of n.
Proof.
  intros Hn. change (RAM_SIZE / PAGE_SIZE) with 32768 in Hn.
  unfold aligned, start_of, ram_end, ram_start, RAM_SIZE, PAGE_SIZE. split; [|lia].
  rewrite <-Zminus_mod_idemp_r. rewrite (Z.mul_comm 4096), Z_mod_mult. done.
Qed.

Lemma managed_list_elem n p : managed (start_of n) p ↔ p ∈ managed_list n.
Proof.
  unfold managed, aligned, managed_list, start_of. rewrite list_elem_of_fmap. split.
  - intros [A B]. exists (Z.to_nat ((p - (ram_end - PAGE_SIZE * Z.of_nat n)) / PAGE_SIZE)).
    unfold ram_end, ram_start, RAM_SIZE, PAGE_SIZE in *. set (s := 2147483648 + 128 * 1024 * 1024 - 4096 * Z.of_nat n) in *.
    assert ((p - s) mod 4096 = 0) as Hd.
    { replace (p - s) with ((p / 4096 - 557056 + Z.of_nat n) * 4096); [apply Z_mod_mult|].
      pose proof (Z.div_mod p 4096). unfold s. lia. }
    pose proof (Z.div_mod (p - s) 4096). assert (0 ≤ (p - s) / 4096) by (apply Z.div_pos; lia).
    split; [lia|]. apply elem_of_seq. lia.
  - intros (i & -> & Hi%elem_of_seq). unfold ram_end, ram_start, RAM_SIZE, PAGE_SIZE. split; [|lia].
    replace (2147483648 + 128 * 1024 * 1024 - 4096 * Z.of_nat n + 4096 * Z.of_nat i)
      with ((557056 - Z.of_nat n + Z.of_nat i) * 4096) by lia. apply Z_mod_mult.
Qed.

Definition pinvb (n : nat) (m : pmem) (free : list Z) : bool :=
  repb (pm_nodes m) {[None := Some <$> free]} &&
  forallb (λ p, bool_decide (p ∈ managed_list n)) free &&
  bool_decide (map_Forall (λ p _, bool_decide (p ∈ managed_list n)) (pm_pages m)) &&
  forallb (λ p, eqb (bool_decide (p ∈ free)) (rc_of m p =? 0) &&
    eqb (bool_decide (is_Some (pm_pages m !! p))) (negb (rc_of m p =? 0))) (managed_list n) &&
  bool_decide (map_Forall (λ _ c, (0 <=? c) && (c <? 256)) (pm_rc m)).

Lemma pinvb_pinv n m free : pinvb n m free = true → PInv (start_of n) m free.
Proof.
  unfold pinvb. rewrite !andb_true_iff, !bool_decide_eq_true, !forallb_forall.
  intros ((((HR & Hf) & Hp) & Hm) & Hr). split.
  - by apply repb_rep.
  - intros p [Hin|[c Hc]]; rewrite managed_list_elem.
    + eapply bool_decide_eq_true_1, Hf. by apply list_elem_of_In.
    + specialize (Hp p c Hc). by apply bool_decide_unpack in Hp.
  - intros p Hx%managed_list_elem%list_elem_of_In%Hm. apply andb_prop in Hx as [Hx _].
    apply eqb_prop in Hx. destruct (bool_decide_reflect (p ∈ free)), (Z.eqb_spec (rc_of m p) 0); done || tauto.
  - intros p Hx%managed_list_elem%list_elem_of_In%Hm. apply andb_prop in Hx as [_ Hx].
    apply eqb_prop in Hx. destruct (bool_decide_reflect (is_Some (pm_pages m !! p))), (Z.eqb_spec (rc_of m p) 0);
      done || tauto.
  - intros i c Hc. specialize (Hr i c Hc). apply Is_true_true, andb_prop in Hr. lia.
Qed.

(** ** Witnesses *)

(** A ram with two managed pages, its last ones. *)
Definition demo_start : Z := start_of 2.
Definition demo_pmem : pmem :=
  match page_init demo_start (Pmem ∅ ∅ ∅) with Done _ m => m | _ => Pmem ∅ ∅ ∅ end.
Lemma demo_start_ok : aligned demo_start ∧ ram_start ≤ demo_start.
Proof. by apply start_of_ok. Qed.
Lemma demo_pinv : PInv demo_start demo_pmem [ram_end - PAGE_SIZE; demo_start].
Proof. apply (pinvb_pinv 2). by vm_compute. Qed.

Lemma page_init_all_free_witness :
  ∃ m free, page_init demo_start (Pmem ∅ ∅ ∅) = Done tt m ∧ PInv demo_start m free ∧
    ∀ p, p ∈ free ↔ managed demo_start p.
Proof. apply (page_init_all_free demo_start). apply demo_start_ok. Defined.

Lemma page_alloc_fresh_witness :
  ∃ m', page_alloc demo_pmem = Done (ram_end - PAGE_SIZE) m' ∧ PInv demo_start m' [demo_start] ∧
    rc_of m' (ram_end - PAGE_SIZE) = 1.
Proof.
  destruct (page_alloc_fresh demo_start demo_start_ok demo_pmem [ram_end - PAGE_SIZE; demo_start] demo_pinv)
    as (m' & Hr & HP & _ & _ & Hrc).
  exists m'. split_and!; [done|done|]. rewrite Hrc; [by rewrite decide_True|]. apply (managed_list_elem 2). by right; left.
Defined.

Lemma page_put_last_witness :
  page_put demo_start demo_pmem = Panic "page_put() on a page nobody holds: double free".
Proof.
  pose proof (page_put_last demo_start demo_start_ok demo_pmem _ demo_start demo_pinv) as H.
  rewrite decide_True in H by by vm_compute. apply H. apply (managed_list_elem 2). left.
Defined.
