(* ===== verification/Vpages.v ===== *)
(** * Sv39 page tables (kernel/core/memory/vpages.c)

    A table is an allocated page of 512 entries; the entries are read and
    written through the physical memory of Pages.v, so that aliasing between
    tables is what it is in the code.  A kernel buffer is a list of bytes. *)

From S2P Require Import Prelude Clist Pages.

(** ** Layout *)

Definition LEVELS : Z := 3.
Definition OFFSET_MASK : Z := 0xfff.
Definition VA_VPN_BITS : Z := 9.
Definition VA_VPN_MASK : Z := 0x1ff.
Definition PTE_PPN_SHIFT : Z := 10.
Definition PTE_ENTRY_PER_TABLE : Z := 512.

Definition PTE_V : Z := 1.
Definition PTE_R : Z := 2.
Definition PTE_W : Z := 4.
Definition PTE_X : Z := 8.
Definition PTE_U : Z := 16.
Definition PTE_G : Z := 32.
Definition PTE_A : Z := 64.
Definition PTE_D : Z := 128.
Definition PTE_COW : Z := 256.
Definition PTE_FLAGS_MASK : Z := 1023.

Definition MAX_VA : Z := 2 ^ 38.
Definition TRAMPOLINE : Z := MAX_VA - PAGE_SIZE.
Definition TRAPFRAME : Z := MAX_VA - 2 * PAGE_SIZE.
Definition USTACK_TOP : Z := MAX_VA - 3 * PAGE_SIZE.
Definition USTACK : Z := MAX_VA - 2 * PAGE_SIZE.

(** ** Walks *)

Definition get_va_vpn (va lvl : Z) : Z :=
  Z.land (Z.shiftr va (PAGE_SHIFT + VA_VPN_BITS * lvl)) VA_VPN_MASK.
Definition get_pte (table va lvl : Z) : Z := table + 8 * get_va_vpn va lvl.
Definition get_next_lvl_pte (pte : Z) : Z :=
  u64 (Z.shiftl (Z.shiftr pte PTE_PPN_SHIFT) PAGE_SHIFT).
Definition is_a_next_lvl_ptr (pte : Z) : bool :=
  negb (has pte PTE_X) && negb (has pte PTE_W) && negb (has pte PTE_R).
Definition get_flags (pte : Z) : Z := Z.land pte PTE_FLAGS_MASK.

(** The descent of [vpage_map] ends at the table of the last level, or with
    the tables it allocated before it ran out of pages.  [lvls] are the levels
    left, [allocs] the tables allocated so far. *)
Inductive descent := Reached (table : Z) | OutOfPages (allocs : list Z).

Fixpoint map_descend (lvls : list Z) (table va : Z) (allocs : list Z)
    : M pmem descent :=
  match lvls with
  | [] => mret (Reached table)
  | lvl :: lvls =>
    let pte := get_pte table va lvl in
    v ← load64 pte;
    if has v PTE_V then map_descend lvls (get_next_lvl_pte v) va allocs
    else
      next ← page_alloc;
      if next =? NULL then mret (OutOfPages allocs) else
      let v := Z.lor (Z.shiftl (page_get_num next) PTE_PPN_SHIFT) PTE_V in
      store64 pte v;;
      map_descend lvls (get_next_lvl_pte v) va (allocs ++ [next])
  end.

Fixpoint put_all (ps : list Z) : M pmem unit :=
  match ps with [] => mret tt | p :: ps => page_put p;; put_all ps end.

Definition vpage_map (root va pa flags : Z) : M pmem Z :=
  r ← map_descend [2; 1] root va [];
  match r with
  | Reached table =>
    let pte_flags := Z.lor (Z.lor flags PTE_V) PTE_A in
    let pte_flags := if has flags PTE_W then Z.lor pte_flags PTE_D else pte_flags in
    store64 (get_pte table va 0) (Z.lor (Z.shiftl (page_get_num pa) PTE_PPN_SHIFT) pte_flags);;
    mret 0
  | OutOfPages allocs => put_all allocs;; mret (- ENOMEM)
  end.

Definition vpage_map_user (root va pa flags : Z) : M pmem Z :=
  vpage_map root va pa (Z.lor PTE_U flags).

Fixpoint map_range_loop (fuel : nat) (root va pa size flags off : Z) : M pmem Z :=
  match fuel with
  | O => nofuel
  | S fuel =>
    if decide (off < size) then
      res ← vpage_map root (va + off) (pa + off) flags;
      if res <? 0 then mret res else
      map_range_loop fuel root va pa size flags (off + PAGE_SIZE)
    else mret 0
  end.

(** One turn of the loop per page of the range. *)
Definition vpage_map_range (root va pa size flags : Z) : M pmem Z :=
  map_range_loop (S (Z.to_nat ((size + PAGE_SIZE - 1) / PAGE_SIZE))) root va pa size flags 0.

Definition vpage_map_user_range (root va pa size flags : Z) : M pmem Z :=
  vpage_map_range root va pa size (Z.lor PTE_U flags).

Fixpoint walk_loop (lvls : list Z) (table va : Z) : M pmem Z :=
  match lvls with
  | [] => mret NULL
  | l :: lvls =>
    let pte := get_pte table va l in
    v ← load64 pte;
    if negb (has v PTE_V) then mret NULL
    else if negb (is_a_next_lvl_ptr v) then mret pte
    else walk_loop lvls (get_next_lvl_pte v) va
  end.
Definition walk_leaf (root va : Z) : M pmem Z := walk_loop [2; 1; 0] root va.

(** ** Freeing a tree *)

(** [walk_free] at each level; [entries] are the indices left in the table. *)
Fixpoint free_entries (sub : Z → M pmem unit) (table : Z) (lvl_pos : bool) (entries : list Z)
    : M pmem unit :=
  match entries with
  | [] => mret tt
  | i :: entries =>
    pte ← load64 (table + 8 * i);
    (if has pte PTE_V then
       if lvl_pos && is_a_next_lvl_ptr pte then sub (get_next_lvl_pte pte)
       else
         (if negb (has pte PTE_G) && negb (is_a_next_lvl_ptr pte)
          then page_put (get_next_lvl_pte pte) else mret tt);;
         store64 (table + 8 * i) 0
     else mret tt);;
    free_entries sub table lvl_pos entries
  end.

Definition entries : list Z := Z.of_nat <$> seq 0 512.
Fixpoint walk_free (lvl : nat) (table : Z) : M pmem unit :=
  free_entries (match lvl with O => λ _, mret tt | S l => walk_free l end)
    table (match lvl with O => false | _ => true end) entries;;
  page_put table.

Definition vpage_tree_free (root : Z) : M pmem unit :=
  if root =? NULL then mret tt else walk_free 2 root.

Definition vpage_unmmap (root va : Z) : M pmem Z :=
  leaf ← walk_leaf root va;
  if leaf =? NULL then mret (- EINVAL) else
  v ← load64 leaf;
  page_put (get_next_lvl_pte v);;
  store64 leaf 0;;
  mret 0.

(** ** Copy on write *)

Definition vpage_handle_cow (root va : Z) : M pmem Z :=
  leaf ← walk_leaf root va;
  if leaf =? NULL then mret (- EFAULT) else
  v ← load64 leaf;
  if negb (has v PTE_COW) then mret (- EFAULT) else
  let page := get_next_lvl_pte v in
  c ← page_get_ref_count page;
  if c =? 1 then
    store64 leaf (Z.lor (Z.ldiff v PTE_COW) PTE_W);; mret 0
  else
    new_page ← page_alloc;
    if new_page =? NULL then mret (- ENOMEM) else
    page_copy new_page page;;
    store64 leaf (Z.lor (Z.lor (Z.shiftl (page_get_num new_page) PTE_PPN_SHIFT)
      (Z.ldiff (get_flags v) PTE_COW)) PTE_W);;
    page_put page;;
    mret 0.

(** ** Copies between the kernel and a user space *)

Definition get_pa_from_va (root va needed_flags : Z) : M pmem Z :=
  leaf ← walk_leaf root va;
  if leaf =? NULL then mret NULL else
  v ← load64 leaf;
  r ← (if has needed_flags PTE_W && has v PTE_COW then vpage_handle_cow root va else mret 0);
  if negb (r =? 0) then mret NULL else
  v ← load64 leaf;
  if negb (Z.land v needed_flags =? needed_flags) then mret NULL else
  mret (get_next_lvl_pte v + Z.land va OFFSET_MASK).

(** The bytes copied, or the error. *)
Definition vpage_copyin (root va count : Z) : M pmem (Z * list Z) :=
  pa ← get_pa_from_va root va (Z.lor (Z.lor PTE_V PTE_U) PTE_R);
  if pa =? NULL then mret (- EFAULT, []) else
  bs ← load_bytes pa (Z.to_nat count);
  mret (0, bs).

Fixpoint strnlen_mem (a : Z) (n : nat) : M pmem Z :=
  match n with
  | O => mret 0
  | S n => b ← load8 a; if b =? 0 then mret 0 else l ← strnlen_mem (a + 1) n; mret (1 + l)
  end.

Definition vpage_copyinstr (root va max : Z) : M pmem (Z * list Z) :=
  pa ← get_pa_from_va root va (Z.lor (Z.lor PTE_V PTE_U) PTE_R);
  if pa =? NULL then mret (- EFAULT, []) else
  let n := PAGE_SIZE - Z.land va OFFSET_MASK in
  let n := if max <? n then max else n in
  size ← strnlen_mem pa (Z.to_nat n);
  if size =? n then mret (- ENAMETOOLONG, []) else
  bs ← load_bytes pa (Z.to_nat (size + 1));
  mret (size + 1, bs).

Definition vpage_copyout (root va : Z) (src : list Z) : M pmem Z :=
  pa ← get_pa_from_va root va (Z.lor (Z.lor PTE_V PTE_U) PTE_W);
  if pa =? NULL then mret (- EFAULT) else
  store_bytes pa src;;
  mret 0.

Fixpoint strnlen_buf (src : list Z) (n : nat) : Z :=
  match n, src with
  | S n, b :: src => if b =? 0 then 0 else 1 + strnlen_buf src n
  | _, _ => 0
  end.

Definition vpage_copyoutstr (root va : Z) (src : list Z) (max : Z) : M pmem Z :=
  pa ← get_pa_from_va root va (Z.lor (Z.lor PTE_V PTE_U) PTE_W);
  if pa =? NULL then mret (- EFAULT) else
  let size := strnlen_buf src (Z.to_nat max) in
  if size =? max then mret (- ENAMETOOLONG) else
  store_bytes pa (take (Z.to_nat (size + 1)) src);;
  mret (size + 1).

(** ** Copying a tree for fork *)

Fixpoint copy_entries (sub : Z → Z → M pmem Z) (dst src lvl va : Z) (entries : list Z) : M pmem Z :=
  match entries with
  | [] => mret 0
  | i :: entries =>
    pte ← load64 (src + 8 * i);
    if negb (has pte PTE_V) then copy_entries sub dst src lvl va entries else
    let child_va := Z.lor va (Z.shiftl i (PAGE_SHIFT + VA_VPN_BITS * lvl)) in
    res ← (if is_a_next_lvl_ptr pte then sub (get_next_lvl_pte pte) child_va
           else if child_va =? TRAPFRAME then mret 0
           else
             let page := get_next_lvl_pte pte in
             (if has pte PTE_W
              then store64 (src + 8 * i) (Z.lor (Z.ldiff pte PTE_W) PTE_COW) else mret tt);;
             page_get page;;
             v ← load64 (src + 8 * i);
             res ← vpage_map dst child_va page (get_flags v);
             if res <? 0 then page_put page;; mret res else mret 0);
    if res <? 0 then mret res else copy_entries sub dst src lvl va entries
  end.

(** A pointer entry in a table of the last level sends the code below level 0,
    where the shift amount is negative: undefined. *)
Fixpoint copy_level (lvl : nat) (dst src va : Z) : M pmem Z :=
  copy_entries (match lvl with O => λ _ _, fault | S l => λ t va, copy_level l dst t va end)
    dst src (Z.of_nat lvl) va entries.

Definition vpage_tree_copy (dst src : Z) : M pmem Z :=
  if (dst =? NULL) || (src =? NULL) then mret (- EINVAL) else
  res ← copy_level 2 dst src 0;
  if res <? 0 then mret res else mret 0.
