(* ===== verification/VpagesInv.v ===== *)
(** * What the page tables translate, and what the operations of Vpages.v do
      to it *)

From S2P Require Import Prelude Clist Pages Vpages.

(** ** Entries *)

Definition cont (m : pmem) (t : Z) : gmap Z Z := default ∅ (pm_pages m !! t).
Definition ent (m : pmem) (t i : Z) : Z := default 0 (cont m t !! i).
Definition put_ent (t i v : Z) (m : pmem) : pmem :=
  with_pages (<[t := <[i := v]> (cont m t)]> (pm_pages m)) m.

(** The entry that maps a page with given flags. *)
Definition mk_pte (pa flags : Z) : Z := Z.lor (Z.shiftl (page_get_num pa) PTE_PPN_SHIFT) flags.

Definition index (i : Z) : Prop := 0 ≤ i < 512.

(** The table at the end of a path of indices from a table. *)
Fixpoint tabp (m : pmem) (t : Z) (p : list Z) : option Z :=
  match p with
  | [] => Some t
  | i :: p => if has (ent m t i) PTE_V then tabp m (get_next_lvl_pte (ent m t i)) p else None
  end.

(** The leaf entry a virtual address, as its three indices, goes through. *)
Definition translate (m : pmem) (root : Z) (p : list Z) : option Z :=
  match p with
  | [i2; i1; i0] =>
    t ← tabp m root [i2; i1];
    if has (ent m t i0) PTE_V && negb (is_a_next_lvl_ptr (ent m t i0)) then Some (ent m t i0) else None
  | _ => None
  end.
Definition vpns (va : Z) : list Z := [get_va_vpn va 2; get_va_vpn va 1; get_va_vpn va 0].

(** A tree whose tables are allocated pages, no table being reached by two
    paths, with pointers only above the last level. *)
Record Tree (m : pmem) (root : Z) : Prop := {
  tree_table : ∀ p t, (length p ≤ 2)%nat → Forall index p → tabp m root p = Some t →
    aligned t ∧ is_Some (pm_pages m !! t);
  tree_inj : ∀ p q t, (length p ≤ 2)%nat → (length q ≤ 2)%nat → Forall index p → Forall index q →
    tabp m root p = Some t → tabp m root q = Some t → p = q;
  tree_ptr : ∀ p t i, (length p ≤ 1)%nat → Forall index p → index i → tabp m root p = Some t →
    has (ent m t i) PTE_V = true → is_a_next_lvl_ptr (ent m t i) = true;
}.

(** ** Bits *)

Lemma has_testbit x k : 0 ≤ k → has x (2 ^ k) = Z.testbit x k.
Proof.
  intros Hk. unfold has. destruct (Z.testbit x k) eqn:E.
  - apply negb_true_iff, Z.eqb_neq. intros H0.
    assert (Z.testbit (Z.land x (2 ^ k)) k = true) as Ht.
    { rewrite Z.land_spec, E, Z.pow2_bits_true by lia. done. }
    rewrite H0, Z.bits_0 in Ht. done.
  - apply negb_false_iff, Z.eqb_eq, Z.bits_inj'. intros n Hn. rewrite Z.land_spec, Z.bits_0.
    destruct (decide (n = k)) as [->|]; [by rewrite E|]. by rewrite Z.pow2_bits_false, andb_false_r by lia.
Qed.

Lemma land_low_0 a f k : 0 ≤ k → 0 ≤ f < 2 ^ k → Z.land (Z.shiftl a k) f = 0.
Proof.
  intros Hk Hf. apply Z.bits_inj'. intros n Hn. rewrite Z.land_spec, Z.bits_0.
  destruct (decide (n < k)).
  - by rewrite Z.shiftl_spec_low.
  - assert (Z.testbit f n = false) as ->; [|by rewrite andb_false_r].
    rewrite <-(Z.mod_small f (2 ^ k)) by lia. apply Z.mod_pow2_bits_high. lia.
Qed.

Lemma lor_split a f k : 0 ≤ k → 0 ≤ f < 2 ^ k → Z.lor (Z.shiftl a k) f = a * 2 ^ k + f.
Proof.
  intros Hk Hf. pose proof (Z.add_lor_land (Z.shiftl a k) f) as E.
  rewrite land_low_0, Z.add_0_r in E by done. rewrite E. by rewrite Z.shiftl_mul_pow2 by lia.
Qed.

Section Pte.
Variables (pa flags : Z).
Hypotheses (Hal : aligned pa) (Hpa : 0 ≤ pa < 2 ^ 64) (Hfl : 0 ≤ flags < 1024).

Lemma mk_pte_sum : mk_pte pa flags = pa / 4096 * 1024 + flags.
Proof.
  unfold mk_pte, page_get_num, PTE_PPN_SHIFT, PAGE_SHIFT.
  rewrite lor_split by (change (2 ^ 10) with 1024; lia). by rewrite Z.shiftr_div_pow2 by lia.
Qed.

Lemma mk_pte_next : get_next_lvl_pte (mk_pte pa flags) = pa.
Proof.
  unfold get_next_lvl_pte. rewrite mk_pte_sum. unfold PTE_PPN_SHIFT, PAGE_SHIFT.
  rewrite Z.shiftr_div_pow2, Z.shiftl_mul_pow2 by lia. change (2 ^ 10) with 1024. change (2 ^ 12) with 4096.
  rewrite Z.div_add_l, (Z.div_small flags), Z.add_0_r by lia.
  unfold aligned, PAGE_SIZE in Hal. pose proof (Z.div_mod pa 4096). rewrite wrap_small by lia. lia.
Qed.

Lemma mk_pte_flags : get_flags (mk_pte pa flags) = flags.
Proof.
  unfold get_flags, PTE_FLAGS_MASK. rewrite mk_pte_sum. change 1023 with (Z.ones 10).
  rewrite Z.land_ones by lia. change (2 ^ 10) with 1024.
  rewrite Z.add_comm, Z_mod_plus_full. apply Z.mod_small. lia.
Qed.
End Pte.

Lemma flags_has v k : 0 ≤ k < 10 → has v (2 ^ k) = has (get_flags v) (2 ^ k).
Proof.
  intros Hk. rewrite !has_testbit by lia. unfold get_flags, PTE_FLAGS_MASK. change 1023 with (Z.ones 10).
  rewrite Z.land_ones by lia. by rewrite Z.mod_pow2_bits_low by lia.
Qed.

(** The flag tests read the low bits only. *)
Lemma has_flags_V v : has v PTE_V = has (get_flags v) PTE_V.
Proof. apply (flags_has v 0). lia. Qed.
Lemma ptr_flags v : is_a_next_lvl_ptr v = is_a_next_lvl_ptr (get_flags v).
Proof.
  unfold is_a_next_lvl_ptr. change PTE_R with (2 ^ 1). change PTE_W with (2 ^ 2). change PTE_X with (2 ^ 3).
  by rewrite (flags_has v 1), (flags_has v 2), (flags_has v 3) by lia.
Qed.

Lemma vpn_index va lvl : index (get_va_vpn va lvl).
Proof.
  unfold index, get_va_vpn, VA_VPN_MASK. change 0x1ff with (Z.ones 9). rewrite Z.land_ones by lia.
  apply Z.mod_pos_bound. lia.
Qed.

(** ** Reading and writing entries *)

Lemma ent_addr t i : aligned t → index i →
  page_of (t + 8 * i) = t ∧ ((t + 8 * i) mod PAGE_SIZE) / 8 = i.
Proof.
  unfold aligned, index, page_of, PAGE_SIZE. intros At Hi.
  assert ((t + 8 * i) mod 4096 = 8 * i) as ->.
  { rewrite <-Zplus_mod_idemp_l, At. apply Z.mod_small. lia. }
  split; [lia|]. rewrite Z.mul_comm. apply Z.div_mul. lia.
Qed.

Section Entries.
Variables (m : pmem) (t i : Z).
Hypotheses (At : aligned t) (Hi : index i) (Ht : is_Some (pm_pages m !! t)).

Lemma load_ent : load64 (t + 8 * i) m = Done (ent m t i) m.
Proof.
  destruct (ent_addr t i At Hi) as [Hp Hx]. destruct Ht as [c Hc]. unfold load64, ent, cont.
  erewrite bind_Done by reflexivity. cbn beta. rewrite Hp, Hx, Hc. done.
Qed.

Lemma store_ent v : store64 (t + 8 * i) v m = Done tt (put_ent t i v m).
Proof.
  destruct (ent_addr t i At Hi) as [Hp Hx]. destruct Ht as [c Hc]. unfold store64, put_ent, cont.
  erewrite bind_Done by reflexivity. cbn beta. rewrite Hp, Hx, Hc. done.
Qed.
End Entries.

Lemma ent_put m t i v t' i' :
  ent (put_ent t i v m) t' i' = if decide (t = t' ∧ i = i') then v else ent m t' i'.
Proof.
  unfold ent, put_ent, cont. simpl. rewrite lookup_insert. destruct (decide (t = t')) as [<-|Hne].
  - simpl. rewrite lookup_insert. destruct (decide (i = i')) as [<-|Hne].
    + by rewrite decide_True.
    + by rewrite decide_False by tauto.
  - by rewrite decide_False by tauto.
Qed.

Lemma put_ent_pages m t i v t' :
  is_Some (pm_pages m !! t) → is_Some (pm_pages (put_ent t i v m) !! t') ↔ is_Some (pm_pages m !! t').
Proof.
  intros Ht. simpl. rewrite lookup_insert. destruct (decide (t = t')) as [<-|]; [|done].
  split; [done|by eexists].
Qed.

Lemma put_ent_inv page_start m t i v free :
  PInv page_start m free → is_Some (pm_pages m !! t) → PInv page_start (put_ent t i v m) free.
Proof.
  intros [HR Hm Hf Hu Hr] Ht. split; try done.
  - intros p [Hp|Hp]; apply Hm; [by left|right]. by rewrite put_ent_pages in Hp.
  - intros p Hp. rewrite put_ent_pages by done. by apply Hu.
Qed.

(** ** Paths *)

Lemma tabp_app m t p q : tabp m t (p ++ q) = t' ← tabp m t p; tabp m t' q.
Proof.
  revert t. induction p as [|i p IH]; intros t; simpl; [done|].
  destruct (has _ _); [apply IH|done].
Qed.

Lemma tabp_same m m' t q :
  (∀ p j r t', q = p ++ j :: r → tabp m t p = Some t' → ent m' t' j = ent m t' j) →
  tabp m' t q = tabp m t q.
Proof.
  revert t. induction q as [|i q IH]; intros t H; simpl; [done|].
  rewrite (H [] i q t eq_refl eq_refl). destruct (has (ent m t i) PTE_V) eqn:E; [|done].
  apply IH. intros p j r t' -> Hp. apply (H (i :: p) j r); [done|]. simpl. by rewrite E.
Qed.

(** Paths that do not go through the entry that is written. *)
Lemma tabp_put m root p t i v q :
  Tree m root → (length p ≤ 2)%nat → Forall index p → tabp m root p = Some t →
  (length q ≤ 3)%nat → Forall index q → ¬ (p ++ [i]) `prefix_of` q →
  tabp (put_ent t i v m) root q = tabp m root q.
Proof.
  intros HT Hp Fp Ht Hq Fq Hpre. apply tabp_same. intros p' j r t' -> Ht'.
  rewrite ent_put. rewrite decide_False; [done|]. intros [<- <-]. apply Hpre.
  rewrite length_app in Hq. simpl in Hq. apply Forall_app in Fq as [Fp' _].
  assert (p = p') as <- by (eapply (tree_inj _ _ HT); [done|lia|done|done|done|done]).
  exists r. by rewrite <-app_assoc.
Qed.

(** The tables of a tree, and that nothing but their contents matters to it. *)
Definition Own (m : pmem) (root x : Z) : Prop := ∃ p, (length p ≤ 2)%nat ∧ Forall index p ∧ tabp m root p = Some x.

Section Contents.
Variables (m m' : pmem) (root : Z).
Hypotheses (HT : Tree m root) (Hc : ∀ t, Own m root t → cont m' t = cont m t).

Lemma tabp_own q : (length q ≤ 3)%nat → Forall index q → tabp m' root q = tabp m root q.
Proof using HT Hc.
  intros Hq Fq. apply tabp_same. intros p j r t' -> Ht'. unfold ent.
  rewrite length_app in Hq. simpl in Hq. apply Forall_app in Fq as [Fp _].
  rewrite Hc; [done|]. exists p. split_and!; [lia|done|done].
Qed.

Lemma tree_own : (∀ t, Own m root t → is_Some (pm_pages m' !! t)) → Tree m' root.
Proof using HT Hc.
  intros Hd. split.
  - intros p t Hp Fp Ht. rewrite tabp_own in Ht by (done || lia).
    destruct (tree_table _ _ HT p t Hp Fp Ht). split; [done|]. apply Hd. by exists p.
  - intros p q t Hp Hq Fp Fq Ht1 Ht2. rewrite tabp_own in Ht1, Ht2 by (done || lia).
    by eapply (tree_inj _ _ HT).
  - intros p t i Hp Fp Fi Ht. rewrite tabp_own in Ht by (done || lia).
    unfold ent. rewrite Hc by (exists p; split_and!; [lia|done|done]). by apply (tree_ptr _ _ HT p t i).
Qed.

Lemma translate_own q : Forall index q → translate m' root q = translate m root q.
Proof using HT Hc.
  intros Fq. destruct q as [|i2 [|i1 [|i0 [|]]]]; try done. unfold translate.
  rewrite !Forall_cons in Fq. assert (Forall index [i2; i1]) as F2 by (rewrite !Forall_cons; naive_solver).
  rewrite tabp_own by (done || simpl; lia).
  destruct (tabp m root [i2; i1]) as [t|] eqn:E; [|done]. simpl.
  unfold ent. rewrite Hc; [done|]. exists [i2; i1]. split_and!; [simpl; lia|done|done].
Qed.
End Contents.

Lemma own_pages m root t : Tree m root → Own m root t → aligned t ∧ is_Some (pm_pages m !! t).
Proof. intros HT (p & Hp & Fp & Ht). by apply (tree_table _ _ HT p). Qed.

(** Pages outside the tree do not matter to it. *)
Lemma tabp_pages m m' root q :
  Tree m root → (length q ≤ 3)%nat → Forall index q →
  (∀ t, is_Some (pm_pages m !! t) → cont m' t = cont m t) →
  tabp m' root q = tabp m root q.
Proof. intros HT Hq Fq Hc. apply tabp_own; try done. intros t Ho. by apply Hc, (own_pages m root). Qed.
Lemma tree_pages m m' root :
  Tree m root → (∀ t, is_Some (pm_pages m !! t) → cont m' t = cont m t) →
  (∀ t, is_Some (pm_pages m !! t) → is_Some (pm_pages m' !! t)) →
  Tree m' root.
Proof. intros HT Hc Hd. apply (tree_own m); [done|..]; intros t Ho; [apply Hc|apply Hd]; by apply (own_pages m root). Qed.
Lemma translate_pages m m' root q :
  Tree m root → Forall index q → (∀ t, is_Some (pm_pages m !! t) → cont m' t = cont m t) →
  translate m' root q = translate m root q.
Proof. intros HT Fq Hc. apply translate_own; try done. intros t Ho. by apply Hc, (own_pages m root). Qed.

(** ** Adding a table *)

Section Grow.
Variables (m : pmem) (root : Z) (p : list Z) (t i n : Z).
Hypotheses (HT : Tree m root) (Hp : (length p ≤ 1)%nat) (Fp : Forall index p) (Hi : index i)
  (Ht : tabp m root p = Some t) (Hinv : has (ent m t i) PTE_V = false)
  (Hn : is_Some (pm_pages m !! n)) (An : aligned n) (Rn : 0 ≤ n < 2 ^ 64) (Zn : cont m n = ∅)
  (Fresh : ∀ q, (length q ≤ 2)%nat → Forall index q → tabp m root q ≠ Some n).

Let m' : pmem := put_ent t i (mk_pte n PTE_V) m.

Lemma grow_pte : get_next_lvl_pte (mk_pte n PTE_V) = n ∧ has (mk_pte n PTE_V) PTE_V = true ∧
  is_a_next_lvl_ptr (mk_pte n PTE_V) = true.
Proof.
  rewrite has_flags_V, ptr_flags, mk_pte_next, mk_pte_flags by (done || unfold PTE_V; lia). done.
Qed.

Lemma grow_tabp q : (length q ≤ 3)%nat → Forall index q →
  tabp m' root q = if decide (q = p ++ [i]) then Some n else tabp m root q.
Proof.
  intros Hq Fq. destruct grow_pte as (En & Ev & _).
  destruct (decide (prefix (p ++ [i]) q)) as [[r ->]|Hpre].
  - assert (t ≠ n) as Htn by (intros ->; by eapply (Fresh p); [lia| |]).
    assert (tabp m' root (p ++ [i]) = Some n) as Hpi.
    { rewrite tabp_app. unfold m'. rewrite (tabp_put m root p t i); try done; [|lia|lia|].
      - rewrite Ht. simpl. rewrite ent_put, decide_True, Ev by done. by rewrite En.
      - intros [r' E]. apply (f_equal length) in E. rewrite !length_app in E. simpl in E. lia. }
    rewrite tabp_app, Hpi. rewrite (tabp_app m), (tabp_app m root p), Ht. simpl. rewrite Hinv. simpl.
    destruct r as [|j r].
    + rewrite app_nil_r. by rewrite decide_True.
    + rewrite decide_False.
      2:{ intros E. apply (f_equal length) in E. rewrite !length_app in E. simpl in E. lia. }
      simpl. unfold m'. rewrite ent_put, decide_False by tauto. unfold ent. by rewrite Zn.
  - rewrite decide_False by (intros ->; by apply Hpre). unfold m'. apply (tabp_put m root p t i); done || lia.
Qed.

Lemma grow_ent t' j : (t' = t → j ≠ i) → ent m' t' j = ent m t' j.
Proof. intros H. unfold m'. rewrite ent_put, decide_False; [done|]. intros [<- <-]. by apply H. Qed.

Lemma grow_tree : Tree m' root.
Proof.
  assert (is_Some (pm_pages m !! t)) as Htt by (eapply (tree_table _ _ HT p); [lia|done|done]).
  split.
  - intros q t' Hq Fq. rewrite grow_tabp by (done || lia). unfold m'. rewrite put_ent_pages by done.
    destruct (decide _) as [->|]; [by intros [= <-]|]. by apply (tree_table _ _ HT).
  - intros q1 q2 t' H1 H2 F1 F2. rewrite !grow_tabp by (done || lia).
    destruct (decide (q1 = _)) as [->|], (decide (q2 = _)) as [->|]; try done.
    + intros [= <-] Hq2. by destruct (Fresh q2).
    + intros Hq1 [= <-]. by destruct (Fresh q1).
    + by apply (tree_inj _ _ HT).
  - intros q t' j Hq Fq Fj. rewrite grow_tabp by (done || lia). destruct (decide _) as [->|Hne].
    + intros [= <-]. assert (n ≠ t) by (intros ->; by eapply (Fresh p); [lia| |]).
      rewrite grow_ent by done. unfold ent. by rewrite Zn.
    + intros Hq'. destruct (decide (t' = t ∧ j = i)) as [[-> ->]|Hn'].
      * intros _. unfold m'. rewrite ent_put, decide_True by done. apply grow_pte.
      * rewrite grow_ent by tauto. by apply (tree_ptr _ _ HT q).
Qed.

Lemma grow_translate q : Forall index q → translate m' root q = translate m root q.
Proof.
  intros Fq. destruct q as [|i2 [|i1 [|i0 [|]]]]; try done. unfold translate.
  rewrite !Forall_cons in Fq. assert (Forall index [i2; i1]) as F2 by (rewrite !Forall_cons; naive_solver).
  rewrite grow_tabp by (done || simpl; lia). destruct (decide _) as [E|Hne].
  - cbn [mbind option_bind]. assert (n ≠ t) by (intros ->; by eapply (Fresh p); [lia| |]).
    rewrite grow_ent by done. rewrite E, tabp_app, Ht. simpl. rewrite Hinv. unfold ent. by rewrite Zn.
  - destruct (tabp m root [i2; i1]) as [t'|] eqn:E; [|done]. cbn [mbind option_bind].
    rewrite grow_ent; [done|]. intros ->.
    assert (p = [i2; i1]) as Hx by (eapply (tree_inj _ _ HT); [lia|simpl; lia|done|done|done|done]).
    rewrite Hx in Hp. simpl in Hp. lia.
Qed.
End Grow.

(** ** The descent of [vpage_map] *)

Section Descent.
Variable page_start : Z.
Hypothesis start_ok : aligned page_start ∧ ram_start ≤ page_start.

(** What the operations on a tree leave alone: the pages that are not its
    tables, and the references to every page in use. *)
Record Frame (m m' : pmem) (root : Z) : Prop := {
  fr_pages : ∀ x, is_Some (pm_pages m !! x) →
    (∀ q, (length q ≤ 2)%nat → Forall index q → tabp m root q ≠ Some x) → pm_pages m' !! x = pm_pages m !! x;
  fr_alloc : ∀ x, is_Some (pm_pages m !! x) → is_Some (pm_pages m' !! x);
  fr_rc : ∀ x, managed page_start x → rc_of m x ≠ 0 → rc_of m' x = rc_of m x;
  fr_tables : ∀ q x, (length q ≤ 2)%nat → Forall index q → tabp m' root q = Some x →
    tabp m root q = Some x ∨ pm_pages m !! x = None;
}.

Lemma managed_range x : managed page_start x → 0 < x < 2 ^ 64 ∧ aligned x.
Proof.
  intros [Ax Hx]. destruct start_ok. unfold ram_end, ram_start, RAM_SIZE in *. split; [lia|done].
Qed.

Definition grown (m m' : pmem) (root : Z) : Prop :=
  Tree m' root ∧ (∀ q, Forall index q → translate m' root q = translate m root q).

Lemma descend_step m free root p t va lvl lvls allocs :
  Tree m root → PInv page_start m free → (length p ≤ 1)%nat → Forall index p →
  tabp m root p = Some t →
  let i := get_va_vpn va lvl in
  if has (ent m t i) PTE_V then
    map_descend (lvl :: lvls) t va allocs m = map_descend lvls (get_next_lvl_pte (ent m t i)) va allocs m ∧
    tabp m root (p ++ [i]) = Some (get_next_lvl_pte (ent m t i))
  else match free with
  | [] => ∃ m', map_descend (lvl :: lvls) t va allocs m = Done (OutOfPages allocs) m' ∧ PInv page_start m' [] ∧
      pm_pages m' = pm_pages m ∧ pm_rc m' = pm_rc m
  | n :: free' => ∃ m', map_descend (lvl :: lvls) t va allocs m = map_descend lvls n va (allocs ++ [n]) m' ∧
      PInv page_start m' free' ∧ grown m m' root ∧ Frame m m' root ∧ tabp m' root (p ++ [i]) = Some n ∧
      rc_of m' n = 1 ∧ rc_of m n = 0 ∧ managed page_start n ∧ cont m' n = ∅
  end.
Proof.
  intros HT HP Hp Fp Ht i. pose proof (vpn_index va lvl) as Hi. fold i in Hi.
  destruct (tree_table _ _ HT p t ltac:(lia) Fp Ht) as [At Htt].
  assert (load64 (get_pte t va lvl) m = Done (ent m t i) m) as Hld by by apply load_ent.
  cbn [map_descend]. destruct (has (ent m t i) PTE_V) eqn:Hv.
  - split; [rewrite (bind_Done _ _ _ _ _ Hld); cbn beta; by rewrite Hv|].
    rewrite tabp_app, Ht. simpl. by rewrite Hv.
  - pose proof (alloc_run page_start start_ok m free HP) as Hal. destruct free as [|n free].
    + destruct Hal as (m' & Hal & HP' & Hpg & Hrc). exists m'. split_and!; try done.
      rewrite (bind_Done _ _ _ _ _ Hld). cbn beta. rewrite Hv. by rewrite (bind_Done _ _ _ _ _ Hal).
    + destruct Hal as (m1 & Hal & HP1 & Hm & Hnone & Hpg & Hrc).
      destruct (managed_range n Hm) as [Rn An]. assert (0 ≤ n < 2 ^ 64) as Rn' by lia.
      assert (∀ x, is_Some (pm_pages m !! x) → cont m1 x = cont m x ∧ is_Some (pm_pages m1 !! x)) as Hsame.
      { intros x [c Hc]. unfold cont. rewrite Hpg, lookup_insert_ne by congruence. rewrite Hc. split; [done|by eexists]. }
      assert (Tree m1 root) as HT1 by (eapply tree_pages; [done|apply Hsame..]).
      assert (tabp m1 root p = Some t) as Ht1 by (rewrite (tabp_pages m m1); [done|done|lia|done|apply Hsame]).
      assert (has (ent m1 t i) PTE_V = false) as Hv1 by (unfold ent; by rewrite (proj1 (Hsame t Htt))).
      assert (is_Some (pm_pages m1 !! n)) as Hn1 by (rewrite Hpg, lookup_insert_eq; by eexists).
      assert (cont m1 n = ∅) as Zn by (unfold cont; by rewrite Hpg, lookup_insert_eq).
      assert (∀ q, (length q ≤ 2)%nat → Forall index q → tabp m1 root q ≠ Some n) as Hfresh.
      { intros q Hq Fq. rewrite (tabp_pages m m1) by (done || lia || apply Hsame). intros Hx.
        destruct (tree_table _ _ HT q n Hq Fq Hx) as [_ [c Hc]]. congruence. }
      assert (is_Some (pm_pages m1 !! t)) as Htt1 by by apply Hsame.
      exists (put_ent t i (mk_pte n PTE_V) m1). split_and!.
      * rewrite (bind_Done _ _ _ _ _ Hld). cbn beta. rewrite Hv. rewrite (bind_Done _ _ _ _ _ Hal). cbn beta.
        rewrite (proj2 (Z.eqb_neq n NULL)) by (unfold NULL; lia). fold (mk_pte n PTE_V).
        rewrite (bind_Done _ _ _ _ _ (store_ent m1 t i At Hi Htt1 (mk_pte n PTE_V))). cbn beta.
        rewrite mk_pte_next by (done || unfold PTE_V; lia). done.
      * by apply put_ent_inv.
      * split; [by eapply grow_tree|]. intros q Fq. rewrite (grow_translate m1 root p) by done.
        apply translate_pages; [done|done|apply Hsame].
      * split.
        -- intros x Hx Hnt. simpl. rewrite lookup_insert_ne by (intros ->; by eapply (Hnt p); [lia| |]).
           rewrite Hpg. rewrite lookup_insert_ne; [done|]. intros ->. rewrite Hnone in Hx. by destruct Hx.
        -- intros x Hx. rewrite put_ent_pages by done. by apply Hsame.
        -- intros x Hmx Hx. change (rc_of (put_ent _ _ _ m1) x) with (rc_of m1 x). rewrite Hrc by done.
           rewrite decide_False; [done|]. intros <-. apply Hx. apply (pi_free _ _ _ HP); [done|left].
        -- intros q x Hq Fq. rewrite (grow_tabp m1 root p t i n) by (done || lia).
           destruct (decide _); [intros [= <-]; by right|left].
           by rewrite <-(tabp_pages m m1) by (done || lia || apply Hsame).
      * rewrite (grow_tabp m1 root p t i n); try done; [by rewrite decide_True| |].
        -- rewrite length_app. simpl. lia.
        -- by apply Forall_app; split; [|by constructor].
      * change (rc_of (put_ent _ _ _ m1) n) with (rc_of m1 n). rewrite Hrc by done. by rewrite decide_True.
      * apply (pi_free _ _ _ HP); [done|left].
      * done.
      * unfold cont, put_ent. simpl. rewrite lookup_insert_ne; [exact Zn|].
        intros ->. rewrite Hnone in Htt. by destruct Htt.
Qed.
End Descent.

(** ** Writing a leaf *)

Definition leaf_val (v : Z) : option Z :=
  if has v PTE_V && negb (is_a_next_lvl_ptr v) then Some v else None.

Section Leaf.
Variables (m : pmem) (root i2 i1 i0 t v : Z).
Hypotheses (HT : Tree m root) (F : Forall index [i2; i1; i0]) (Ht : tabp m root [i2; i1] = Some t).

Let m' : pmem := put_ent t i0 v m.

Lemma leaf_path : Forall index [i2; i1] ∧ aligned t ∧ is_Some (pm_pages m !! t) ∧ index i0.
Proof.
  rewrite !Forall_cons in F. assert (Forall index [i2; i1]) as F2 by (rewrite !Forall_cons; naive_solver).
  destruct (tree_table _ _ HT [i2; i1] t ltac:(simpl; lia) F2 Ht). naive_solver.
Qed.

Lemma leaf_tabp q : (length q ≤ 2)%nat → Forall index q → tabp m' root q = tabp m root q.
Proof.
  intros Hq Fq. destruct leaf_path as (F2 & _). apply (tabp_put m root [i2; i1] t i0); try done; try (simpl; lia).
  intros [r E]. apply (f_equal length) in E. rewrite !length_app in E. simpl in E. lia.
Qed.

Lemma leaf_ent_above p t' j : (length p ≤ 1)%nat → Forall index p → tabp m root p = Some t' →
  ent m' t' j = ent m t' j.
Proof.
  intros Hp Fp Ht'. destruct leaf_path as (F2 & _). unfold m'. rewrite ent_put, decide_False; [done|].
  intros [-> _]. assert ([i2; i1] = p) as <-; [|simpl in Hp; lia].
  eapply (tree_inj _ _ HT); [simpl; lia|lia|done|done|done|done].
Qed.

Lemma leaf_tree : Tree m' root.
Proof.
  destruct leaf_path as (F2 & At & Htt & _). split.
  - intros p t' Hp Fp. rewrite leaf_tabp by done. unfold m'. rewrite put_ent_pages by done.
    by apply (tree_table _ _ HT).
  - intros p q t' Hp Hq Fp Fq. rewrite !leaf_tabp by done. by apply (tree_inj _ _ HT).
  - intros p t' j Hp Fp Fj Ht'. rewrite leaf_tabp in Ht' by (done || lia).
    rewrite (leaf_ent_above p) by done. by apply (tree_ptr _ _ HT p).
Qed.

Lemma leaf_translate q : Forall index q →
  translate m' root q = if decide (q = [i2; i1; i0]) then leaf_val v else translate m root q.
Proof.
  intros Fq. destruct leaf_path as (F2 & At & Htt & _).
  destruct q as [|j2 [|j1 [|j0 [|]]]]; try (by rewrite decide_False by done). unfold translate.
  rewrite !Forall_cons in Fq. assert (Forall index [j2; j1]) as G2 by (rewrite !Forall_cons; naive_solver).
  rewrite leaf_tabp by (done || simpl; lia). destruct (tabp m root [j2; j1]) as [t'|] eqn:E; cbn [mbind option_bind].
  - unfold m'. rewrite ent_put. destruct (decide (t = t' ∧ i0 = j0)) as [[<- <-]|Hne].
    + assert ([i2; i1] = [j2; j1]) as [= <- <-].
      { eapply (tree_inj _ _ HT); [simpl; lia|simpl; lia|done|done|done|done]. }
      by rewrite decide_True.
    + rewrite decide_False; [done|]. intros [= -> -> ->]. rewrite Ht in E. naive_solver.
  - rewrite decide_False; [done|]. intros [= -> -> ->]. by rewrite Ht in E.
Qed.

Lemma leaf_frame page_start : Frame page_start m m' root.
Proof.
  destruct leaf_path as (F2 & At & Htt & _). split.
  - intros x Hx Hnt. simpl. rewrite lookup_insert_ne; [done|]. intros ->. by eapply (Hnt [i2; i1]); [simpl; lia| |].
  - intros x Hx. unfold m'. by rewrite put_ent_pages.
  - done.
  - intros q x Hq Fq. rewrite leaf_tabp by done. by left.
Qed.
End Leaf.

Section Map.
Variable page_start : Z.
Hypothesis start_ok : aligned page_start ∧ ram_start ≤ page_start.

Lemma frame_refl m root : Frame page_start m m root.
Proof. split; auto. Qed.

Lemma frame_trans m1 m2 m3 root :
  Frame page_start m1 m2 root → Frame page_start m2 m3 root → Frame page_start m1 m3 root.
Proof.
  intros [P1 A1 R1 T1] [P2 A2 R2 T2]. split.
  - intros x Hx Hn. rewrite P2, P1; [done|done|done|auto|].
    intros q Hq Fq Ht. destruct (T1 q x Hq Fq Ht) as [?|E]; [by eapply Hn|]. rewrite E in Hx. by destruct Hx.
  - auto.
  - intros x Hm Hx. rewrite R2, R1; [done|done|done|done|]. by rewrite R1.
  - intros q x Hq Fq Ht. destruct (T2 q x Hq Fq Ht) as [?|E]; [auto|right].
    destruct (pm_pages m1 !! x) as [c|] eqn:Ec; [|done]. destruct (A1 x) as [c' Hc']; [by eexists|]. congruence.
Qed.

(** One level of the descent, whichever way it goes. *)
Lemma descend_level m free root p t va lvl lvls allocs :
  Tree m root → PInv page_start m free → (length p ≤ 1)%nat → Forall index p →
  tabp m root p = Some t → free ≠ [] →
  ∃ t' allocs' m' free', map_descend (lvl :: lvls) t va allocs m = map_descend lvls t' va allocs' m' ∧
    PInv page_start m' free' ∧ (length free ≤ S (length free'))%nat ∧ grown m m' root ∧
    Frame page_start m m' root ∧ tabp m' root (p ++ [get_va_vpn va lvl]) = Some t'.
Proof.
  intros HT HP Hp Fp Ht Hne.
  pose proof (descend_step page_start start_ok m free root p t va lvl lvls allocs HT HP Hp Fp Ht) as Hs.
  cbv zeta in Hs. destruct (has _ _).
  - destruct Hs as [Hs Ht']. eexists _, _, m, free.
    split_and!; [exact Hs|done|lia|by split|apply frame_refl|done].
  - destruct free as [|n free']; [done|]. destruct Hs as (m' & Hs & HP' & Hg & HF & Ht' & _).
    eexists _, _, m', free'. split_and!; [exact Hs|done|simpl; lia|done|done|done].
Qed.

Lemma descend_reaches m free root va :
  Tree m root → PInv page_start m free → (2 ≤ length free)%nat →
  ∃ t0 m' free', map_descend [2; 1] root va [] m = Done (Reached t0) m' ∧
    PInv page_start m' free' ∧ (length free ≤ 2 + length free')%nat ∧ grown m m' root ∧ Frame page_start m m' root ∧
    tabp m' root [get_va_vpn va 2; get_va_vpn va 1] = Some t0.
Proof.
  intros HT HP Hfree.
  destruct (descend_level m free root [] root va 2 [1] []) as (t1 & al1 & m1 & f1 & H1 & HP1 & Hl1 & [HT1 Htr1] & HF1 & Ht1);
    [done..|simpl; lia|constructor|done|by intros ->; simpl in Hfree; lia|].
  destruct (descend_level m1 f1 root [get_va_vpn va 2] t1 va 1 [] al1) as (t0 & al0 & m0 & f0 & H0 & HP0 & Hl0 & [HT0 Htr0] & HF0 & Ht0);
    [done..|simpl; lia|by repeat constructor; apply vpn_index|done|by intros ->; simpl in Hl1; lia|].
  exists t0, m0, f0. rewrite H1, H0. split_and!; [done|done|lia| |by eapply frame_trans|done].
  split; [done|]. intros q Fq. by rewrite Htr0, Htr1.
Qed.

(** The entry [vpage_map] writes. *)
Definition mapped (pa flags : Z) : Z :=
  mk_pte pa (let f := Z.lor (Z.lor flags PTE_V) PTE_A in if has flags PTE_W then Z.lor f PTE_D else f).

Lemma lor_range a b k : 0 ≤ k → 0 ≤ a < 2 ^ k → 0 ≤ b < 2 ^ k → 0 ≤ Z.lor a b < 2 ^ k.
Proof.
  intros Hk Ha Hb. assert (0 ≤ Z.lor a b) by (apply Z.lor_nonneg; lia). split; [done|].
  destruct (decide (Z.lor a b = 0)) as [->|Hne]; [lia|]. apply Z.log2_lt_pow2; [lia|].
  assert (k ≠ 0). { intros ->. apply Hne. replace a with 0 by lia. by replace b with 0 by lia. }
  rewrite Z.log2_lor by lia. apply Z.max_lub_lt.
  - destruct (decide (a = 0)) as [->|]; [simpl; lia|]. apply Z.log2_lt_pow2; lia.
  - destruct (decide (b = 0)) as [->|]; [simpl; lia|]. apply Z.log2_lt_pow2; lia.
Qed.

Lemma map_run m free root va pa flags :
  Tree m root → PInv page_start m free → (2 ≤ length free)%nat →
  ∃ m' free', vpage_map root va pa flags m = Done 0 m' ∧ PInv page_start m' free' ∧ (length free ≤ 2 + length free')%nat ∧
    Tree m' root ∧ Frame page_start m m' root ∧
    ∀ q, Forall index q → translate m' root q =
      if decide (q = vpns va) then leaf_val (mapped pa flags) else translate m root q.
Proof.
  intros HT HP Hfree.
  destruct (descend_reaches m free root va HT HP Hfree) as (t0 & m1 & f1 & Hd & HP1 & Hlen & [HT1 Htr] & HF & Ht0).
  set (i2 := get_va_vpn va 2) in *. set (i1 := get_va_vpn va 1) in *. set (i0 := get_va_vpn va 0).
  assert (Forall index [i2; i1; i0]) as F by (repeat constructor; apply vpn_index).
  destruct (leaf_path m1 root i2 i1 i0 t0 HT1 F Ht0) as (_ & At & Htt & Hi0).
  exists (put_ent t0 i0 (mapped pa flags) m1), f1. split_and!.
  - unfold vpage_map. mstep Hd. fold (mk_pte pa (if has flags PTE_W then Z.lor (Z.lor (Z.lor flags PTE_V) PTE_A) PTE_D else Z.lor (Z.lor flags PTE_V) PTE_A)).
    change (mk_pte pa _) with (mapped pa flags).
    by rewrite (bind_Done _ _ _ _ _ (store_ent m1 t0 i0 At Hi0 Htt (mapped pa flags))).
  - by apply put_ent_inv.
  - done.
  - by eapply leaf_tree.
  - eapply frame_trans; [exact HF|]. by eapply leaf_frame.
  - intros q Fq. rewrite (leaf_translate m1 root i2 i1 i0) by done. by rewrite Htr.
Qed.
End Map.

(** ** Walks *)

Lemma walk_run m root va :
  Tree m root → (∀ t, is_Some (pm_pages m !! t) → 0 < t) →
  ∃ leaf, walk_leaf root va m = Done leaf m ∧
    match translate m root (vpns va) with
    | None => leaf = NULL
    | Some e => leaf ≠ NULL ∧ ∃ t, tabp m root [get_va_vpn va 2; get_va_vpn va 1] = Some t ∧
        leaf = t + 8 * get_va_vpn va 0 ∧ ent m t (get_va_vpn va 0) = e ∧ has e PTE_V = true ∧
        is_a_next_lvl_ptr e = false
    end.
Proof.
  intros HT Hpos. unfold walk_leaf, translate, vpns.
  set (i2 := get_va_vpn va 2). set (i1 := get_va_vpn va 1). set (i0 := get_va_vpn va 0).
  assert (index i2 ∧ index i1 ∧ index i0) as (F2 & F1 & F0) by (split_and!; apply vpn_index).
  destruct (tree_table _ _ HT [] root ltac:(simpl; lia) ltac:(constructor) eq_refl) as [A2 S2].
  pose proof (tree_ptr _ _ HT [] root i2 ltac:(simpl; lia) ltac:(constructor) F2 eq_refl) as P2.
  cbn [walk_loop tabp]. erewrite bind_Done by (by apply (load_ent m root i2)). cbn beta.
  destruct (has (ent m root i2) PTE_V) eqn:V2; cbn [negb]; [|by eexists].
  rewrite P2 by done. cbn [negb]. set (t1 := get_next_lvl_pte (ent m root i2)).
  assert (tabp m root [i2] = Some t1) as T1 by (simpl; by rewrite V2).
  destruct (tree_table _ _ HT [i2] t1 ltac:(simpl; lia) ltac:(by repeat constructor; apply F2) T1) as [A1 S1].
  pose proof (tree_ptr _ _ HT [i2] t1 i1 ltac:(simpl; lia) ltac:(by repeat constructor; apply F2) F1 T1) as P1.
  erewrite bind_Done by (by apply (load_ent m t1 i1)). cbn beta.
  destruct (has (ent m t1 i1) PTE_V) eqn:V1; cbn [negb]; [|by eexists].
  rewrite P1 by done. cbn [negb]. set (t0 := get_next_lvl_pte (ent m t1 i1)).
  assert (tabp m root [i2; i1] = Some t0) as T0 by (simpl; fold t1; by rewrite V2, V1).
  destruct (tree_table _ _ HT [i2; i1] t0 ltac:(simpl; lia)
    ltac:(repeat constructor; (apply F2 || apply F1)) T0) as [A0 S0].
  erewrite bind_Done by (by apply (load_ent m t0 i0)). cbn [mbind option_bind].
  destruct (has (ent m t0 i0) PTE_V) eqn:V0; cbn [negb andb]; [|by eexists].
  destruct (is_a_next_lvl_ptr (ent m t0 i0)) eqn:P0; cbn [negb]; [by eexists|].
  eexists. split; [done|]. split.
  - unfold get_pte, NULL. pose proof (Hpos t0 S0). unfold index in F0. fold i0. lia.
  - exists t0. by split_and!.
Qed.

(** ** Copy on write *)

Lemma next_lvl_low e a b :
  0 ≤ a < 1024 → 0 ≤ b < 1024 → get_next_lvl_pte (Z.lor (Z.ldiff e a) b) = get_next_lvl_pte e.
Proof.
  intros Ha Hb. unfold get_next_lvl_pte, PTE_PPN_SHIFT. rewrite Z.shiftr_lor, Z.shiftr_ldiff.
  rewrite (Z.shiftr_div_pow2 a), (Z.shiftr_div_pow2 b) by lia. change (2 ^ 10) with 1024.
  rewrite (Z.div_small a), (Z.div_small b) by lia. by rewrite Z.ldiff_0_r, Z.lor_0_r.
Qed.

Lemma has_lor x y k : 0 ≤ k → has (Z.lor x y) (2 ^ k) = has x (2 ^ k) || has y (2 ^ k).
Proof. intros Hk. by rewrite !has_testbit, Z.lor_spec by lia. Qed.
Lemma has_ldiff x y k : 0 ≤ k → has (Z.ldiff x y) (2 ^ k) = has x (2 ^ k) && negb (has y (2 ^ k)).
Proof. intros Hk. by rewrite !has_testbit, Z.ldiff_spec by lia. Qed.

(** The flags of a page once it is private: those of the shared one, without
    the mark and writable. *)
Definition cow_flags (e : Z) : Z := Z.lor (Z.ldiff (get_flags e) PTE_COW) PTE_W.

Lemma cow_flags_range e : 0 ≤ cow_flags e < 1024.
Proof.
  assert (0 ≤ get_flags e < 2 ^ 10) as Hf.
  { unfold get_flags, PTE_FLAGS_MASK. change 1023 with (Z.ones 10). rewrite Z.land_ones by lia.
    apply Z.mod_pos_bound. lia. }
  apply (lor_range _ _ 10); [lia| |unfold PTE_W; lia].
  assert (0 ≤ Z.ldiff (get_flags e) PTE_COW) by (apply Z.ldiff_nonneg; lia).
  assert (Z.ldiff (get_flags e) PTE_COW ≤ get_flags e); [|lia].
  apply Z.ldiff_le; [lia|]. rewrite Z.ldiff_ldiff_l, Z.lor_comm, <-Z.ldiff_ldiff_l, Z.ldiff_diag.
  apply Z.ldiff_0_l.
Qed.

Lemma get_flags_cow e : get_flags (Z.lor (Z.ldiff e PTE_COW) PTE_W) = cow_flags e.
Proof.
  unfold cow_flags, get_flags, PTE_FLAGS_MASK. change 1023 with (Z.ones 10). apply Z.bits_inj'. intros k Hk.
  rewrite Z.land_spec, !Z.lor_spec, !Z.ldiff_spec, Z.land_spec.
  rewrite Z.testbit_ones_nonneg by lia. destruct (Z.ltb_spec k 10) as [?|Hge].
  - by rewrite !andb_true_r.
  - rewrite !andb_false_r. simpl. symmetry. unfold PTE_W. apply (Z.pow2_bits_false 2 k). lia.
Qed.

Lemma cow_flags_bits e :
  has (cow_flags e) PTE_W = true ∧ has (cow_flags e) PTE_COW = false ∧
  (∀ k, 0 ≤ k < 10 → k ≠ 2 → k ≠ 8 → has (cow_flags e) (2 ^ k) = has e (2 ^ k)).
Proof.
  unfold cow_flags. change PTE_W with (2 ^ 2). change PTE_COW with (2 ^ 8).
  split_and!.
  - rewrite has_lor by lia. by rewrite orb_true_r.
  - rewrite has_lor, has_ldiff by lia. by rewrite andb_false_r.
  - intros k Hk H2 H8. rewrite has_lor, has_ldiff by lia. rewrite <-(flags_has e k) by lia.
    rewrite !has_testbit, !Z.pow2_bits_false by lia. by rewrite orb_false_r, andb_true_r.
Qed.

Section Cow.
Variable page_start : Z.
Hypothesis start_ok : aligned page_start ∧ ram_start ≤ page_start.

Lemma pinv_pos m free t : PInv page_start m free → is_Some (pm_pages m !! t) → 0 < t.
Proof.
  intros HP Ht. destruct (managed_range page_start start_ok t) as [? _]; [|lia].
  apply (pi_managed _ _ _ HP). by right.
Qed.

(** The page behind a translation, and what it holds. *)
Definition page_at (m : pmem) (root : Z) (q : list Z) : option Z := get_next_lvl_pte <$> translate m root q.

Variables (m : pmem) (free : list Z) (root va e p : Z).
Hypotheses (HT : Tree m root) (HP : PInv page_start m free)
  (He : translate m root (vpns va) = Some e) (Hcow : has e PTE_COW = true)
  (Hpe : get_next_lvl_pte e = p) (Hp : is_Some (pm_pages m !! p))
  (Hnt : ∀ q, (length q ≤ 2)%nat → Forall index q → tabp m root q ≠ Some p).

(** What a resolved fault leaves: the address translates to a writable page
    only this entry references, holding what the shared page held, and no
    other translation changes. *)
Definition cow_done (m' : pmem) : Prop :=
  Tree m' root ∧ (∃ free', PInv page_start m' free') ∧
  (∃ e' p', translate m' root (vpns va) = Some e' ∧ get_next_lvl_pte e' = p' ∧
    get_flags e' = cow_flags e ∧ rc_of m' p' = 1 ∧ pm_pages m' !! p' = pm_pages m !! p) ∧
  (∀ q, Forall index q → q ≠ vpns va → translate m' root q = translate m root q).

Lemma cow_leaf :
  ∃ t, walk_leaf root va m = Done (t + 8 * get_va_vpn va 0) m ∧ t + 8 * get_va_vpn va 0 ≠ NULL ∧
    tabp m root [get_va_vpn va 2; get_va_vpn va 1] = Some t ∧ ent m t (get_va_vpn va 0) = e ∧
    has e PTE_V = true ∧ is_a_next_lvl_ptr e = false ∧ aligned t ∧ is_Some (pm_pages m !! t) ∧ t ≠ p.
Proof.
  destruct (walk_run m root va HT) as (leaf & Hw & Hl); [intros; by eapply pinv_pos|].
  rewrite He in Hl. destruct Hl as (Hnz & t & Ht & -> & Hent & HV & Hptr).
  assert (Forall index [get_va_vpn va 2; get_va_vpn va 1]) as F by (repeat constructor; apply vpn_index).
  destruct (tree_table _ _ HT [get_va_vpn va 2; get_va_vpn va 1] t ltac:(simpl; lia) F Ht) as [At Htt].
  exists t. split_and!; try done. intros ->. by eapply (Hnt [_; _]); [simpl; lia| |].
Qed.

Lemma leaf_val_cow v : get_flags v = cow_flags e → leaf_val v = Some v.
Proof.
  intros Hf. unfold leaf_val. rewrite has_flags_V, ptr_flags, Hf.
  destruct (cow_flags_bits e) as (HW & _ & Hk). unfold is_a_next_lvl_ptr. rewrite HW.
  destruct cow_leaf as (t & _ & _ & _ & _ & HV & _). change PTE_V with (2 ^ 0) in *.
  rewrite (Hk 0), HV by lia. by rewrite andb_false_r.
Qed.

Lemma cow_settle m1 free1 t v p' :
  Tree m1 root → PInv page_start m1 free1 → tabp m1 root [get_va_vpn va 2; get_va_vpn va 1] = Some t →
  get_flags v = cow_flags e → get_next_lvl_pte v = p' → p' ≠ t → rc_of m1 p' = 1 →
  pm_pages m1 !! p' = pm_pages m !! p →
  (∀ q, Forall index q → translate m1 root q = translate m root q) →
  cow_done (put_ent t (get_va_vpn va 0) v m1).
Proof.
  intros HT1 HP1 Ht Hf Hn Hne Hrc Hpg Htr.
  assert (Forall index (vpns va)) as F by (repeat constructor; apply vpn_index).
  destruct (leaf_path m1 root _ _ _ t HT1 F Ht) as (_ & At & Htt & _).
  split_and!.
  - by eapply (leaf_tree m1 root _ _ _ t v HT1 F).
  - exists free1. by apply put_ent_inv.
  - exists v, p'. split_and!; try done.
    + rewrite (leaf_translate m1 root _ _ _ t v HT1 F Ht _ F), decide_True by done. by apply leaf_val_cow.
    + simpl. by rewrite lookup_insert_ne.
  - intros q Fq Hq. rewrite (leaf_translate m1 root _ _ _ t v HT1 F Ht _ Fq), decide_False by done. auto.
Qed.

Lemma cow_run :
  rc_of m p = 1 ∨ free ≠ [] →
  ∃ m', vpage_handle_cow root va m = Done 0 m' ∧ cow_done m' ∧
    (rc_of m p ≠ 1 → rc_of m' p = rc_of m p - 1 ∧ pm_pages m' !! p = pm_pages m !! p).
Proof.
  intros Hres. destruct cow_leaf as (t & Hw & Hnz & Ht & Hent & HV & Hptr & At & Htt & Htp).
  assert (managed page_start p) as Hmp by (apply (pi_managed _ _ _ HP); by right).
  assert (rc_of m p ≠ 0) as Hrc0 by (apply (pi_used _ _ _ HP); done).
  pose proof (vpn_index va 0) as F0.
  assert (∀ X (f : Z → M pmem X), (v ← load64 (t + 8 * get_va_vpn va 0); f v) m = f e m) as Hld.
  { intros X f. rewrite (bind_Done _ _ _ _ _ (load_ent m t _ At F0 Htt)). by rewrite Hent. }
  unfold vpage_handle_cow. mstep Hw. rewrite (proj2 (Z.eqb_neq _ _)) by done.
  rewrite Hld, Hcow. cbn [negb]. rewrite Hpe.
  erewrite bind_Done by (by apply (ref_count_run page_start)). cbn beta.
  destruct (Z.eqb_spec (rc_of m p) 1) as [E|E].
  - rewrite (bind_Done _ _ _ _ _ (store_ent m t _ At F0 Htt _)). cbn beta.
    eexists. split_and!; [done| |done].
    eapply (cow_settle m free t _ p); try done.
    + by rewrite get_flags_cow.
    + by rewrite next_lvl_low by (unfold PTE_COW, PTE_W; lia).
  - destruct Hres as [?|Hfree]; [done|].
    assert (∃ n free', free = n :: free') as (n & free' & Ef) by (destruct free; [done|eauto]).
    pose proof (alloc_run page_start start_ok m free HP) as Hall. rewrite Ef in Hall.
    destruct Hall as (m1 & Hal & HP1 & Hmn & Hnone & Hpg & Hrc).
    destruct (managed_range page_start start_ok n Hmn) as [Rn An].
    mstep Hal. rewrite (proj2 (Z.eqb_neq n NULL)) by (unfold NULL; lia).
    assert (∃ c, pm_pages m !! p = Some c) as [c Hc] by exact Hp. assert (n ≠ p) as Hnp by congruence.
    set (m2 := with_pages (<[n := c]> (pm_pages m1)) m1).
    assert (page_copy n p m1 = Done tt m2) as Hcp.
    { unfold page_copy. erewrite bind_Done by reflexivity. cbn beta.
      rewrite Hpg, (lookup_insert_ne _ n p), Hc by done. erewrite (bind_Done (of_opt _)) by reflexivity. cbn beta.
      rewrite lookup_insert_eq. erewrite (bind_Done (of_opt _)) by reflexivity. done. }
    mstep Hcp.
    assert (∀ x, is_Some (pm_pages m !! x) → pm_pages m2 !! x = pm_pages m !! x) as Hsame.
    { intros x Hx. unfold m2. simpl. rewrite Hpg.
      assert (n ≠ x) by (intros ->; rewrite Hnone in Hx; by destruct Hx). by rewrite !lookup_insert_ne. }
    assert (∀ x, is_Some (pm_pages m !! x) → cont m2 x = cont m x) as Hcont.
    { intros x Hx. unfold cont. by rewrite Hsame. }
    assert (PInv page_start m2 free') as HP2.
    { destruct HP1 as [HR Hm Hf Hu Hr]. assert (∀ x, is_Some (pm_pages m2 !! x) ↔ is_Some (pm_pages m1 !! x)) as Hd.
      { intros x. unfold m2. simpl. rewrite lookup_insert. case_decide; subst; [|done].
        rewrite Hpg, lookup_insert_eq. split; by eexists. }
      split; try done; intros x; rewrite Hd; [apply Hm|apply Hu]. }
    assert (Tree m2 root) as HT2.
    { eapply tree_pages; [exact HT|done|]. intros x Hx. by rewrite Hsame. }
    assert (tabp m2 root [get_va_vpn va 2; get_va_vpn va 1] = Some t) as Ht2.
    { rewrite (tabp_pages m m2); [done|done|simpl; lia|repeat constructor; apply vpn_index|done]. }
    assert (is_Some (pm_pages m2 !! t)) as Htt2 by by rewrite Hsame.
    rewrite (bind_Done _ _ _ _ _ (store_ent m2 t _ At F0 Htt2 _)). cbn beta.
    rewrite <-Z.lor_assoc. fold (cow_flags e). fold (mk_pte n (cow_flags e)).
    set (m3 := put_ent t (get_va_vpn va 0) (mk_pte n (cow_flags e)) m2).
    assert (rc_of m3 p = rc_of m p) as Hrc3.
    { change (rc_of m3 p) with (rc_of m1 p). rewrite Hrc by done. by rewrite decide_False. }
    assert (PInv page_start m3 free') as HP3 by by apply put_ent_inv.
    destruct (put_run page_start start_ok m3 free' p HP3 Hmp) as (m4 & free4 & Hput & HP4 & Hrc4 & Hpg4); [congruence|].
    rewrite Hrc3, decide_False in Hpg4 by done. destruct Hpg4 as [-> Hpg4].
    mstep Hput. exists m4. split_and!; [done| |].
    + assert (cow_done m3) as (HT3 & _ & (e' & p' & He' & Hp' & Hfl' & Hrc' & Hpg') & Htr').
      { eapply (cow_settle m2 free' t _ n); try done.
        - apply mk_pte_flags; first [done|lia|apply cow_flags_range].
        - apply mk_pte_next; first [done|lia|apply cow_flags_range].
        - intros ->. rewrite Hnone in Htt. by destruct Htt.
        - change (rc_of m2 n) with (rc_of m1 n). rewrite Hrc by done. by rewrite decide_True.
        - unfold m2. simpl. by rewrite lookup_insert_eq, Hc.
        - intros q Fq. by apply translate_pages. }
      assert (∀ q, Forall index q → translate m4 root q = translate m3 root q) as Htr4.
      { intros q Fq. apply translate_pages; [done|done|]. intros x _. unfold cont. by rewrite Hpg4. }
      split_and!.
      * eapply tree_pages; [exact HT3|intros x _; unfold cont; by rewrite Hpg4|intros x; by rewrite Hpg4].
      * by exists free'.
      * exists e', p'. split_and!; try done; [|  |by rewrite Hpg4].
        -- rewrite Htr4; [done|repeat constructor; apply vpn_index].
        -- assert (p' = n) as ->.
           { rewrite <-Hp'. assert (e' = mk_pte n (cow_flags e)) as ->.
             { unfold m3 in He'. assert (Forall index (vpns va)) as F by (repeat constructor; apply vpn_index).
               rewrite (leaf_translate m2 root _ _ _ t _ HT2 F Ht2 _ F) in He'.
               rewrite decide_True in He' by done. rewrite leaf_val_cow in He'; [by simplify_eq|].
               apply mk_pte_flags; first [done|lia|apply cow_flags_range]. }
             apply mk_pte_next; first [done|lia|apply cow_flags_range]. }
           rewrite Hrc4 by done. by rewrite decide_False by done.
      * intros q Fq Hq. by rewrite Htr4, Htr'.
    + intros _. split.
      * rewrite Hrc4 by done. rewrite decide_True by done. by rewrite Hrc3.
      * rewrite Hpg4. unfold m3. simpl. rewrite lookup_insert_ne by done. apply Hsame. by rewrite Hc.
Qed.
End Cow.

(** ** Bytes *)

Lemma byte_set_same w i b : 0 ≤ i → 0 ≤ b < 256 → byte_of (set_byte w i b) i = b.
Proof.
  intros Hi Hb. unfold set_byte, byte_of. set (d := 2 ^ (8 * i)).
  assert (0 < d) by (apply Z.pow_pos_nonneg; lia). rewrite Z.div_add by lia.
  set (x := w / d). replace (x + (b - x mod 256)) with (b + (x / 256) * 256).
  - rewrite Z_mod_plus_full. apply Z.mod_small. lia.
  - pose proof (Z.div_mod x 256). lia.
Qed.

Lemma byte_set_other w i j b : 0 ≤ i → 0 ≤ j → i ≠ j → 0 ≤ b < 256 → byte_of (set_byte w i b) j = byte_of w j.
Proof.
  intros Hi Hj Hne Hb. unfold set_byte, byte_of. set (r := b - (w / 2 ^ (8 * i)) mod 256).
  destruct (decide (j < i)) as [Hlt|Hge].
  - replace (2 ^ (8 * i)) with (2 ^ (8 * (i - j - 1)) * 256 * 2 ^ (8 * j)).
    2:{ change 256 with (2 ^ 8). rewrite <-!Z.pow_add_r by lia. f_equal. lia. }
    rewrite !Z.mul_assoc, Z.div_add by (apply Z.pow_nonzero; lia). by rewrite Z_mod_plus_full.
  - set (d := 2 ^ (8 * i)). assert (0 < d) by (apply Z.pow_pos_nonneg; lia).
    replace (2 ^ (8 * j)) with (d * (256 * 2 ^ (8 * (j - i - 1)))).
    2:{ unfold d. change 256 with (2 ^ 8). rewrite <-!Z.pow_add_r by lia. f_equal. lia. }
    assert (0 < 2 ^ (8 * (j - i - 1))) by (apply Z.pow_pos_nonneg; lia).
    rewrite <-!Z.div_div by lia. rewrite Z.div_add by lia. unfold r. set (x := w / d).
    f_equal. f_equal. fold d. fold x. replace (x + (b - x mod 256)) with (b + (x / 256) * 256) by (pose proof (Z.div_mod x 256); lia).
    rewrite Z.div_add by lia. rewrite (Z.div_small b) by lia. lia.
Qed.

(** Byte [k] of an allocated page. *)
Definition byte (m : pmem) (p k : Z) : Z := byte_of (ent m p (k / 8)) (k mod 8).

Section Bytes.
Variables (m : pmem) (p k : Z).
Hypotheses (Ap : aligned p) (Hk : 0 ≤ k < 4096) (Hp : is_Some (pm_pages m !! p)).

Lemma byte_addr : page_of (p + k) = p ∧ ((p + k) mod PAGE_SIZE) / 8 = k / 8 ∧ (p + k) mod 8 = k mod 8.
Proof.
  unfold aligned, page_of, PAGE_SIZE in *.
  assert ((p + k) mod 4096 = k) as ->.
  { rewrite <-Zplus_mod_idemp_l, Ap. apply Z.mod_small. lia. }
  split_and!; [lia|done|]. pose proof (Z.div_mod p 4096).
  replace (p + k) with (k + (p / 4096 * 512) * 8) by lia. apply Z_mod_plus_full.
Qed.

Lemma load8_run : load8 (p + k) m = Done (byte m p k) m.
Proof.
  destruct byte_addr as (E1 & E2 & E3). destruct Hp as [c Hc]. unfold load8, load64.
  erewrite bind_Done.
  2:{ erewrite bind_Done by reflexivity. cbn beta. rewrite E1, E2, Hc.
      erewrite (bind_Done (of_opt _)) by reflexivity. reflexivity. }
  cbn beta. rewrite E3. unfold byte, ent, cont. by rewrite Hc.
Qed.

Lemma store8_run b : 0 ≤ b < 256 → ∃ m', store8 (p + k) b m = Done tt m' ∧
  pm_nodes m' = pm_nodes m ∧ pm_rc m' = pm_rc m ∧
  (∀ x, is_Some (pm_pages m' !! x) ↔ is_Some (pm_pages m !! x)) ∧
  (∀ x, x ≠ p → pm_pages m' !! x = pm_pages m !! x) ∧
  (∀ j, 0 ≤ j < 4096 → byte m' p j = if decide (j = k) then b else byte m p j).
Proof.
  intros Hb. destruct byte_addr as (E1 & E2 & E3). destruct Hp as [c Hc].
  exists (put_ent p (k / 8) (set_byte (ent m p (k / 8)) (k mod 8) b) m). split_and!; try done.
  - unfold store8, load64. erewrite bind_Done.
    2:{ erewrite bind_Done by reflexivity. cbn beta. rewrite E1, E2, Hc.
        erewrite (bind_Done (of_opt _)) by reflexivity. reflexivity. }
    cbn beta. unfold store64. erewrite bind_Done by reflexivity. cbn beta. rewrite E1, E2, E3, Hc.
    erewrite (bind_Done (of_opt _)) by reflexivity. cbn beta. unfold put_ent, ent, cont. by rewrite Hc.
  - intros x. apply put_ent_pages. by eexists.
  - intros x Hx. simpl. by rewrite lookup_insert_ne.
  - intros j Hj. unfold byte. rewrite ent_put.
    pose proof (Z.mod_pos_bound k 8). pose proof (Z.mod_pos_bound j 8).
    pose proof (Z.div_mod k 8). pose proof (Z.div_mod j 8).
    destruct (decide (j = k)) as [->|Hne].
    + rewrite decide_True by done. by rewrite byte_set_same by lia.
    + destruct (decide (p = p ∧ k / 8 = j / 8)) as [[_ E]|]; [|done]. rewrite E.
      rewrite byte_set_other; [done|lia|lia|lia|lia].
Qed.
End Bytes.

Lemma load_bytes_run m p k n :
  aligned p → 0 ≤ k → k + Z.of_nat n ≤ 4096 → is_Some (pm_pages m !! p) →
  load_bytes (p + k) n m = Done ((λ i, byte m p (k + Z.of_nat i)) <$> seq 0 n) m.
Proof.
  intros Ap Hk Hn Hp. revert k Hk Hn. induction n as [|n IH]; intros k Hk Hn; [done|]. simpl load_bytes.
  erewrite bind_Done by (apply load8_run; done || lia). cbn beta.
  replace (p + k + 1) with (p + (k + 1)) by lia. erewrite bind_Done by (apply IH; lia). cbn beta.
  simpl. rewrite Z.add_0_r. unfold mret, M_ret. do 2 f_equal. rewrite <-fmap_S_seq, <-list_fmap_compose.
  apply list_fmap_ext. intros i x _. simpl. f_equal. lia.
Qed.

Lemma store_bytes_run m p k bs :
  aligned p → 0 ≤ k → k + Z.of_nat (length bs) ≤ 4096 → is_Some (pm_pages m !! p) →
  Forall (λ b, 0 ≤ b < 256) bs →
  ∃ m', store_bytes (p + k) bs m = Done tt m' ∧ pm_nodes m' = pm_nodes m ∧ pm_rc m' = pm_rc m ∧
    (∀ x, is_Some (pm_pages m' !! x) ↔ is_Some (pm_pages m !! x)) ∧
    (∀ x, x ≠ p → pm_pages m' !! x = pm_pages m !! x) ∧
    (∀ i b, bs !! i = Some b → byte m' p (k + Z.of_nat i) = b) ∧
    (∀ j, 0 ≤ j < 4096 → j < k ∨ k + Z.of_nat (length bs) ≤ j → byte m' p j = byte m p j).
Proof.
  intros Ap Hk Hn Hp Fb. revert k m Hk Hn Hp. induction Fb as [|b bs Hb Fb IH]; intros k m Hk Hn Hp.
  { exists m. split_and!; try done. }
  simpl in Hn. destruct (store8_run m p k Ap ltac:(lia) Hp b Hb) as (m1 & H1 & En & Er & Ed & Eo & Eb).
  destruct (IH (k + 1) m1) as (m2 & H2 & En2 & Er2 & Ed2 & Eo2 & Eb2 & Ef2); [lia|lia|by apply Ed|].
  exists m2. split_and!.
  - simpl. mstep H1. by replace (p + k + 1) with (p + (k + 1)) by lia.
  - congruence.
  - congruence.
  - intros x. by rewrite Ed2, Ed.
  - intros x Hx. by rewrite Eo2, Eo.
  - intros [|i] b'; simpl.
    + intros [= <-]. rewrite Z.add_0_r. rewrite Ef2 by lia. rewrite Eb by lia. by rewrite decide_True.
    + intros Hi. replace (k + Z.of_nat (S i)) with (k + 1 + Z.of_nat i) by lia. by apply Eb2.
  - intros j Hj Hout. rewrite Ef2 by (simpl in Hout; lia). rewrite Eb by lia. rewrite decide_False; [done|]. simpl in Hout. lia.
Qed.

(** ** Copies *)

Section Copy.
Variable page_start : Z.
Hypothesis start_ok : aligned page_start ∧ ram_start ≤ page_start.

(** An address that translates with the rights asked for, to an allocated page
    that is not one of the tables. *)
Record Accessible (m : pmem) (root va needed p : Z) : Prop := {
  ac_entry : ∃ e, translate m root (vpns va) = Some e ∧ get_next_lvl_pte e = p ∧
    Z.land e needed = needed ∧ (has needed PTE_W && has e PTE_COW = false);
  ac_page : is_Some (pm_pages m !! p);
  ac_table : ∀ q, (length q ≤ 2)%nat → Forall index q → tabp m root q ≠ Some p;
}.

Lemma get_pa_run m free root va needed p :
  Tree m root → PInv page_start m free → Accessible m root va needed p →
  get_pa_from_va root va needed m = Done (p + Z.land va OFFSET_MASK) m ∧ aligned p ∧
  p + Z.land va OFFSET_MASK ≠ NULL ∧ 0 ≤ Z.land va OFFSET_MASK < 4096.
Proof.
  intros HT HP [(e & He & Hpe & Hneed & Hcow) Hp Hnt].
  assert (0 ≤ Z.land va OFFSET_MASK < 4096) as Hoff.
  { unfold OFFSET_MASK. change 0xfff with (Z.ones 12). rewrite Z.land_ones by lia. apply Z.mod_pos_bound. lia. }
  assert (managed page_start p) as Hm by (apply (pi_managed _ _ _ HP); by right).
  destruct (managed_range page_start start_ok p Hm) as [Rp Ap].
  split_and!; try done; try (unfold NULL; lia).
  destruct (walk_run m root va HT) as (leaf & Hw & Hl); [intros; by eapply pinv_pos|].
  rewrite He in Hl. destruct Hl as (Hnz & t & Ht & -> & Hent & HV & Hptr).
  assert (Forall index (vpns va)) as F by (repeat constructor; apply vpn_index).
  destruct (leaf_path m root _ _ _ t HT F Ht) as (_ & At & Htt & F0).
  assert (load64 (t + 8 * get_va_vpn va 0) m = Done e m) as Hld by (rewrite <-Hent; by apply load_ent).
  unfold get_pa_from_va. mstep Hw. rewrite (proj2 (Z.eqb_neq _ _)) by done. mstep Hld. rewrite Hcow.
  erewrite bind_Done by reflexivity. cbn beta. cbn [Z.eqb negb]. mstep Hld.
  rewrite Hneed, Z.eqb_refl. cbn [negb]. by rewrite Hpe.
Qed.

Definition U_READ : Z := Z.lor (Z.lor PTE_V PTE_U) PTE_R.
Definition U_WRITE : Z := Z.lor (Z.lor PTE_V PTE_U) PTE_W.

Lemma copyout_run m free root va p src :
  Tree m root → PInv page_start m free → Accessible m root va U_WRITE p →
  Forall (λ b, 0 ≤ b < 256) src → Z.land va OFFSET_MASK + Z.of_nat (length src) ≤ PAGE_SIZE →
  ∃ m', vpage_copyout root va src m = Done 0 m' ∧ PInv page_start m' free ∧ Tree m' root ∧
    (∀ q, Forall index q → translate m' root q = translate m root q) ∧
    (∀ q, (length q ≤ 2)%nat → Forall index q → tabp m' root q = tabp m root q) ∧
    (∀ x, x ≠ p → pm_pages m' !! x = pm_pages m !! x) ∧ is_Some (pm_pages m' !! p) ∧
    (∀ i b, src !! i = Some b → byte m' p (Z.land va OFFSET_MASK + Z.of_nat i) = b) ∧
    (∀ j, 0 ≤ j < 4096 → j < Z.land va OFFSET_MASK ∨
      Z.land va OFFSET_MASK + Z.of_nat (length src) ≤ j → byte m' p j = byte m p j).
Proof.
  intros HT HP HA Fb Hlen. pose proof HA as [_ Hp Hnt].
  destruct (get_pa_run m free root va _ p HT HP HA) as (Hpa & Ap & Hnz & Hoff).
  destruct (store_bytes_run m p (Z.land va OFFSET_MASK) src Ap ltac:(lia) Hlen Hp Fb)
    as (m' & Hst & En & Er & Ed & Eo & Eb & Ef).
  (* the tables are other pages *)
  assert (∀ q, (length q ≤ 3)%nat → Forall index q → tabp m' root q = tabp m root q) as Htab.
  { intros q Hq Fq. apply tabp_same. intros q' j r t -> Ht. unfold ent, cont. rewrite Eo; [done|].
    intros ->. rewrite length_app in Hq. simpl in Hq. apply Forall_app in Fq as [Fq' _].
    by apply (Hnt q'); [lia| |]. }
  assert (∀ q t i, (length q ≤ 2)%nat → Forall index q → tabp m root q = Some t → ent m' t i = ent m t i) as Hent.
  { intros q t i Hq Fq Ht. unfold ent, cont. rewrite Eo; [done|]. intros ->. by apply (Hnt q). }
  exists m'. split_and!; try done.
  - unfold vpage_copyout. change (Z.lor (Z.lor PTE_V PTE_U) PTE_W) with U_WRITE. mstep Hpa.
    rewrite (proj2 (Z.eqb_neq _ _)) by done. by mstep Hst.
  - destruct HP as [HR Hm Hf Hu Hr]. split; rewrite ?En, ?Er; try done; intros x; rewrite ?Ed; unfold rc_of;
      rewrite ?Er; [apply Hm|apply Hf|apply Hu].
  - split.
    + intros q t Hq Fq. rewrite Htab by (done || lia). rewrite Ed. by apply (tree_table _ _ HT).
    + intros q1 q2 t H1 H2 F1 F2. rewrite !Htab by (done || lia). by apply (tree_inj _ _ HT).
    + intros q t i Hq Fq Fi Ht. rewrite Htab in Ht by (done || lia). rewrite (Hent q) by (done || lia).
      by apply (tree_ptr _ _ HT q).
  - intros q Fq. destruct q as [|i2 [|i1 [|i0 [|]]]]; try done. unfold translate.
    rewrite !Forall_cons in Fq. assert (Forall index [i2; i1]) as F2 by (rewrite !Forall_cons; naive_solver).
    rewrite Htab by (done || simpl; lia). destruct (tabp m root [i2; i1]) as [t|] eqn:E; [|done].
    cbn [mbind option_bind]. by rewrite (Hent [i2; i1]) by (done || simpl; lia).
  - intros q Hq Fq. apply Htab; [lia|done].
  - by apply Ed.
Qed.

Lemma copyin_run m free root va p n :
  Tree m root → PInv page_start m free → Accessible m root va U_READ p →
  Z.land va OFFSET_MASK + Z.of_nat n ≤ PAGE_SIZE →
  vpage_copyin root va (Z.of_nat n) m =
    Done (0, (λ i, byte m p (Z.land va OFFSET_MASK + Z.of_nat i)) <$> seq 0 n) m.
Proof.
  intros HT HP HA Hlen. pose proof (ac_page _ _ _ _ _ HA) as Hp.
  destruct (get_pa_run m free root va _ p HT HP HA) as (Hpa & Ap & Hnz & Hoff).
  unfold vpage_copyin. change (Z.lor (Z.lor PTE_V PTE_U) PTE_R) with U_READ. mstep Hpa.
  rewrite (proj2 (Z.eqb_neq _ _)) by done. rewrite Nat2Z.id.
  by erewrite bind_Done by (apply load_bytes_run; done || lia).
Qed.

(** An empty table. *)
End Copy.

Lemma tree_empty m root :
  aligned root → pm_pages m !! root = Some ∅ → Tree m root.
Proof.
  intros Ar Hr. assert (∀ i, ent m root i = 0) as H0 by (intros i; unfold ent, cont; by rewrite Hr).
  assert (∀ q t, tabp m root q = Some t → q = [] ∧ t = root) as Hq.
  { intros [|i q] t; simpl; [naive_solver|]. by rewrite H0. }
  split.
  - intros p t _ _ [-> ->]%Hq. split; [done|by eexists].
  - by intros p q t _ _ _ _ [-> _]%Hq [-> _]%Hq.
  - intros p t i _ _ _ [-> ->]%Hq. by rewrite H0.
Qed.

(** ** Properties *)

Section Theorems.
Variable page_start : Z.
Hypothesis start_ok : aligned page_start ∧ ram_start ≤ page_start.

(** The flags of a new mapping. *)
Definition map_flags (flags : Z) : Z :=
  let f := Z.lor (Z.lor flags PTE_V) PTE_A in if has flags PTE_W then Z.lor f PTE_D else f.

Lemma mapped_leaf pa flags :
  aligned pa → 0 ≤ pa < 2 ^ 64 → 0 ≤ flags < 1024 → is_a_next_lvl_ptr flags = false →
  leaf_val (mapped pa flags) = Some (mapped pa flags) ∧ get_next_lvl_pte (mapped pa flags) = pa ∧
  get_flags (mapped pa flags) = map_flags flags.
Proof.
  intros Ap Rp Hf Hl. change (mapped pa flags) with (mk_pte pa (map_flags flags)).
  assert (0 ≤ map_flags flags < 1024) as Hr.
  { unfold map_flags, PTE_V, PTE_A, PTE_D. destruct (has flags PTE_W); repeat apply (lor_range _ _ 10); lia. }
  rewrite mk_pte_next, mk_pte_flags by done. split_and!; try done. unfold leaf_val.
  rewrite has_flags_V, ptr_flags, mk_pte_flags by done.
  assert (∀ k, 0 ≤ k → has flags (2 ^ k) = true → has (map_flags flags) (2 ^ k) = true) as Hk.
  { intros k Hk0 Hx. unfold map_flags. destruct (has flags PTE_W); by rewrite !has_lor, Hx by lia. }
  assert (has (map_flags flags) PTE_V = true) as ->.
  { unfold map_flags. change PTE_V with (2 ^ 0). destruct (has flags PTE_W); rewrite !has_lor by lia;
      by rewrite ?orb_true_r. }
  assert (is_a_next_lvl_ptr (map_flags flags) = false) as ->; [|done].
  unfold is_a_next_lvl_ptr in *. change PTE_R with (2 ^ 1) in *. change PTE_W with (2 ^ 2) in *.
  change PTE_X with (2 ^ 3) in *.
  destruct (has flags (2 ^ 3)) eqn:E3; [by rewrite (Hk 3)|].
  destruct (has flags (2 ^ 2)) eqn:E2; [by rewrite (Hk 2), andb_false_r|].
  destruct (has flags (2 ^ 1)) eqn:E1; [by rewrite (Hk 1), andb_false_r|]. done.
Qed.

(** C3: with two free pages left, [vpage_map] succeeds and the tree then
    translates the mapped page, and it alone, differently: to the physical
    page asked for, with the flags asked for, valid, accessed, and dirty when
    writable.  The tables stay a tree, the pages that are not its tables keep
    their contents and every page in use keeps its references. *)
Theorem vpage_map_translates m free root va pa flags :
  Tree m root → PInv page_start m free → (2 ≤ length free)%nat →
  aligned pa → 0 ≤ pa < 2 ^ 64 → 0 ≤ flags < 1024 → is_a_next_lvl_ptr flags = false →
  ∃ m' free' e, vpage_map root va pa flags m = Done 0 m' ∧ PInv page_start m' free' ∧ Tree m' root ∧
    Frame page_start m m' root ∧
    translate m' root (vpns va) = Some e ∧ get_next_lvl_pte e = pa ∧ get_flags e = map_flags flags ∧
    (∀ q, Forall index q → q ≠ vpns va → translate m' root q = translate m root q).
Proof.
  intros HT HP Hfree Ap Rp Hf Hl.
  destruct (map_run page_start start_ok m free root va pa flags HT HP Hfree)
    as (m' & free' & Hrun & HP' & _ & HT' & HF & Htr).
  destruct (mapped_leaf pa flags Ap Rp Hf Hl) as (Hlv & Hn & Hfl).
  exists m', free', (mapped pa flags). split_and!; try done.
  - rewrite Htr by (repeat constructor; apply vpn_index). by rewrite decide_True.
  - intros q Fq Hq. by rewrite Htr, decide_False.
Qed.

(** C6: when the pages run out between two levels, [vpage_map] returns -ENOMEM
    and gives back the table it had allocated, but leaves the entry that
    points to it valid: the tree then reaches a page of the free list. *)
Theorem vpage_map_oom_dangling m root va pa flags n :
  Tree m root → PInv page_start m [n] → has (ent m root (get_va_vpn va 2)) PTE_V = false →
  ∃ m', vpage_map root va pa flags m = Done (- ENOMEM) m' ∧ PInv page_start m' [n] ∧
    tabp m' root [get_va_vpn va 2] = Some n ∧ pm_pages m' !! n = None ∧ rc_of m' n = 0.
Proof.
  intros HT HP Hv. set (i2 := get_va_vpn va 2) in *.
  pose proof (descend_step page_start start_ok m [n] root [] root va 2 [1] [] HT HP) as Hs.
  specialize (Hs ltac:(simpl; lia) ltac:(constructor) eq_refl). cbv zeta in Hs. fold i2 in Hs. rewrite Hv in Hs.
  destruct Hs as (m1 & Hd1 & HP1 & [HT1 _] & _ & Ht1 & Hrc1 & _ & Hm & Hz). simpl in Ht1.
  pose proof (descend_step page_start start_ok m1 [] root [i2] n va 1 [] [n] HT1 HP1) as Hs.
  specialize (Hs ltac:(simpl; lia) ltac:(repeat constructor; apply vpn_index) Ht1). cbv zeta in Hs.
  replace (ent m1 n (get_va_vpn va 1)) with 0 in Hs by (unfold ent; by rewrite Hz).
  destruct Hs as (m2 & Hd2 & HP2 & Hpg & Hrc).
  assert (rc_of m2 n = 1) as Hrc2 by (unfold rc_of; by rewrite Hrc).
  destruct (put_run page_start start_ok m2 [] n HP2 Hm) as (m3 & f3 & Hput & HP3 & Hrc3 & Hpg3); [congruence|].
  rewrite Hrc2, decide_True in Hpg3 by done. destruct Hpg3 as [-> Hpg3].
  assert (root ≠ n) as Hrn.
  { intros ->. assert ([] = [i2]); [|done].
    eapply (tree_inj _ _ HT1 [] [i2] n); [simpl; lia|simpl; lia|constructor|repeat constructor; apply vpn_index|done|done]. }
  exists m3. split_and!; [|done| |by rewrite Hpg3, lookup_delete_eq|].
  - unfold vpage_map. rewrite (bind_Done _ _ _ _ _ (eq_trans Hd1 Hd2)). cbn beta iota. simpl put_all.
    erewrite bind_Done; [|mstep Hput; reflexivity]. done.
  - simpl. simpl in Ht1. assert (ent m3 root i2 = ent m1 root i2) as ->; [|done].
    unfold ent, cont. rewrite Hpg3, lookup_delete_ne by done. by rewrite Hpg.
  - rewrite Hrc3 by done. rewrite decide_True by done. lia.
Qed.

(** C4: a write fault on a copy-on-write page is resolved when the page has no
    other user or a page is free: the address then translates to a page only
    this entry references, with the contents of the shared page, writable and
    no longer marked; the shared page keeps its contents and loses one
    reference, and no other translation of the tree changes. *)
Theorem handle_cow_private m free root va e p :
  Tree m root → PInv page_start m free →
  translate m root (vpns va) = Some e → has e PTE_COW = true →
  get_next_lvl_pte e = p → is_Some (pm_pages m !! p) →
  (∀ q, (length q ≤ 2)%nat → Forall index q → tabp m root q ≠ Some p) →
  rc_of m p = 1 ∨ free ≠ [] →
  ∃ m' e', vpage_handle_cow root va m = Done 0 m' ∧ Tree m' root ∧ (∃ free', PInv page_start m' free') ∧
    translate m' root (vpns va) = Some e' ∧
    rc_of m' (get_next_lvl_pte e') = 1 ∧ pm_pages m' !! get_next_lvl_pte e' = pm_pages m !! p ∧
    has e' PTE_W = true ∧ has e' PTE_COW = false ∧
    (∀ q, Forall index q → q ≠ vpns va → translate m' root q = translate m root q) ∧
    (rc_of m p ≠ 1 → rc_of m' p = rc_of m p - 1 ∧ pm_pages m' !! p = pm_pages m !! p).
Proof.
  intros HT HP He Hcow Hpe Hp Hnt Hres.
  destruct (cow_run page_start start_ok m free root va e p HT HP He Hcow Hpe Hp Hnt Hres)
    as (m' & Hrun & (HT' & HP' & (e' & p' & He' & <- & Hf & Hrc & Hpg) & Htr) & Hold).
  destruct (cow_flags_bits e) as (HW & HC & _).
  exists m', e'. split_and!; try done.
  - change PTE_W with (2 ^ 2). by rewrite (flags_has e' 2), Hf by lia.
  - change PTE_COW with (2 ^ 8). by rewrite (flags_has e' 8), Hf by lia.
Qed.

End Theorems.

(** ** Witnesses *)

(** Six pages, of which one is the root table and one a user page. *)
Definition vdemo : nat := 6%nat.
Definition demo_root : Z := ram_end - PAGE_SIZE.
Definition demo_page : Z := ram_end - 2 * PAGE_SIZE.
Definition state_of {A} (o : outcome pmem A) : pmem := match o with Done _ m => m | _ => Pmem ∅ ∅ ∅ end.
Definition vm0 : pmem := state_of (page_init (start_of vdemo) (Pmem ∅ ∅ ∅)).
Definition vm1 : pmem := state_of ((page_alloc;; page_alloc) vm0).
Definition demo_va : Z := 0x10000.

Lemma vdemo_ok : aligned (start_of vdemo) ∧ ram_start ≤ start_of vdemo.
Proof. by apply start_of_ok. Qed.
Definition vfree (k : nat) : list Z := (λ i, ram_end - PAGE_SIZE * Z.of_nat i) <$> seq k (S vdemo - k).
Lemma vm1_inv : PInv (start_of vdemo) vm1 (vfree 3).
Proof. apply pinvb_pinv. by vm_compute. Qed.
Lemma vm1_tree : Tree vm1 demo_root.
Proof. apply tree_empty; by vm_compute. Qed.

Lemma vpage_map_translates_witness :
  ∃ m' free' e, vpage_map demo_root demo_va demo_page (Z.lor PTE_U (Z.lor PTE_R PTE_W)) vm1 = Done 0 m' ∧
    PInv (start_of vdemo) m' free' ∧ Tree m' demo_root ∧ Frame (start_of vdemo) vm1 m' demo_root ∧
    translate m' demo_root (vpns demo_va) = Some e ∧ get_next_lvl_pte e = demo_page ∧
    get_flags e = map_flags (Z.lor PTE_U (Z.lor PTE_R PTE_W)) ∧
    (∀ q, Forall index q → q ≠ vpns demo_va → translate m' demo_root q = translate vm1 demo_root q).
Proof.
  apply (vpage_map_translates (start_of vdemo) vdemo_ok vm1 (vfree 3) demo_root demo_va demo_page).
  - apply vm1_tree.
  - apply vm1_inv.
  - simpl. lia.
  - by vm_compute.
  - by vm_compute.
  - by vm_compute.
  - by vm_compute.
Defined.

(** One free page left: freeing the tree afterwards follows the dangling
    entry. *)
Definition vm_tight : pmem := state_of (page_alloc (state_of (page_init (start_of 2) (Pmem ∅ ∅ ∅)))).
Lemma vpage_map_oom_dangling_witness :
  ∃ m', vpage_map demo_root 0 0 (Z.lor PTE_R PTE_W) vm_tight = Done (- ENOMEM) m' ∧
    tabp m' demo_root [0] = Some demo_page ∧ rc_of m' demo_page = 0 ∧
    vpage_tree_free demo_root m' = Fault.
Proof.
  destruct (vpage_map_oom_dangling (start_of 2) (start_of_ok 2 ltac:(by vm_compute)) vm_tight demo_root 0 0
    (Z.lor PTE_R PTE_W) demo_page) as (m' & Hr & _ & Ht & _ & Hrc).
  - apply tree_empty; by vm_compute.
  - apply (pinvb_pinv 2). by vm_compute.
  - by vm_compute.
  - exists m'. split_and!; [done|done|done|].
    assert (m' = state_of (vpage_map demo_root 0 0 (Z.lor PTE_R PTE_W) vm_tight)) as -> by by rewrite Hr.
    by vm_compute.
Defined.

(** The page mapped copy-on-write, and shared. *)
Definition cow_setup : M pmem Z :=
  r ← vpage_map demo_root demo_va demo_page (Z.lor PTE_U (Z.lor PTE_R PTE_COW));
  page_get demo_page;; mret r.
Definition vm_cow : pmem := state_of (cow_setup vm1).
Definition rw_setup : M pmem Z := vpage_map demo_root demo_va demo_page (Z.lor PTE_U (Z.lor PTE_R PTE_W)).
Definition vm_rw : pmem := state_of (rw_setup vm1).

Definition demo_t1 : Z := ram_end - 3 * PAGE_SIZE.
Definition demo_t0 : Z := ram_end - 4 * PAGE_SIZE.

(** A page that the tree does not use as a table. *)
Lemma not_a_table m root p i2 i1 t1 t0 :
  root ≠ p → t1 ≠ p → t0 ≠ p →
  (∀ i, has (ent m root i) PTE_V = true → i = i2 ∧ get_next_lvl_pte (ent m root i) = t1) →
  (∀ i, has (ent m t1 i) PTE_V = true → i = i1 ∧ get_next_lvl_pte (ent m t1 i) = t0) →
  ∀ q, (length q ≤ 2)%nat → Forall index q → tabp m root q ≠ Some p.
Proof.
  intros Hr H1 H0 Hroot Ht1 q Hq _. destruct q as [|i [|j [|]]]; simpl in *; try lia.
  - congruence.
  - destruct (has (ent m root i) PTE_V) eqn:E; [|done]. destruct (Hroot i E) as [_ ->]. congruence.
  - destruct (has (ent m root i) PTE_V) eqn:E; [|done]. destruct (Hroot i E) as [_ ->].
    destruct (has (ent m t1 j) PTE_V) eqn:E'; [|done]. destruct (Ht1 j E') as [_ ->]. congruence.
Qed.

Lemma one_entry m t i v n : pm_pages m !! t = Some {[i := v]} → get_next_lvl_pte v = n →
  ∀ j, has (ent m t j) PTE_V = true → j = i ∧ get_next_lvl_pte (ent m t j) = n.
Proof.
  intros Hm <- j. unfold ent, cont. rewrite Hm. simpl. rewrite lookup_singleton.
  destruct (decide (i = j)) as [->|]; [done|]. by simpl.
Qed.

Lemma vm_rw_tree : Tree vm_rw demo_root ∧ PInv (start_of vdemo) vm_rw (vfree 5).
Proof.
  destruct (map_run (start_of vdemo) vdemo_ok vm1 (vfree 3) demo_root demo_va demo_page
    (Z.lor PTE_U (Z.lor PTE_R PTE_W)) vm1_tree vm1_inv ltac:(simpl; lia)) as (m' & f & Hr & _ & _ & HT & _).
  split; [|apply pinvb_pinv; by vm_compute].
  assert (vm_rw = m') as -> by (unfold vm_rw, rw_setup; by rewrite Hr). done.
Qed.

Lemma vm_cow_tree : Tree vm_cow demo_root ∧ PInv (start_of vdemo) vm_cow (vfree 5).
Proof.
  destruct (map_run (start_of vdemo) vdemo_ok vm1 (vfree 3) demo_root demo_va demo_page
    (Z.lor PTE_U (Z.lor PTE_R PTE_COW)) vm1_tree vm1_inv ltac:(simpl; lia)) as (m' & f & Hr & _ & _ & HT & _).
  split; [|apply pinvb_pinv; by vm_compute].
  assert (pm_pages vm_cow = pm_pages m') as E.
  { assert (m' = state_of (vpage_map demo_root demo_va demo_page (Z.lor PTE_U (Z.lor PTE_R PTE_COW)) vm1)) as ->
      by by rewrite Hr. by vm_compute. }
  eapply tree_pages; [exact HT|intros t _; unfold cont; by rewrite E|intros t; by rewrite E].
Qed.

Lemma vm_rw_tables q : (length q ≤ 2)%nat → Forall index q → tabp vm_rw demo_root q ≠ Some demo_page.
Proof.
  apply (not_a_table vm_rw demo_root demo_page 0 0 demo_t1 demo_t0 ltac:(done) ltac:(done) ltac:(done)).
  - apply (one_entry _ _ _ (mk_pte demo_t1 PTE_V)); by vm_compute.
  - apply (one_entry _ _ _ (mk_pte demo_t0 PTE_V)); by vm_compute.
Qed.
Lemma vm_cow_tables q : (length q ≤ 2)%nat → Forall index q → tabp vm_cow demo_root q ≠ Some demo_page.
Proof.
  apply (not_a_table vm_cow demo_root demo_page 0 0 demo_t1 demo_t0 ltac:(done) ltac:(done) ltac:(done)).
  - apply (one_entry _ _ _ (mk_pte demo_t1 PTE_V)); by vm_compute.
  - apply (one_entry _ _ _ (mk_pte demo_t0 PTE_V)); by vm_compute.
Qed.

Lemma vm_cow_page : pm_pages vm_cow !! demo_page = Some ∅.
Proof. by vm_compute. Qed.
Lemma vm_rw_page : pm_pages vm_rw !! demo_page = Some ∅.
Proof. by vm_compute. Qed.
Lemma vm_rw_accessible needed : needed = U_READ ∨ needed = U_WRITE →
  Accessible vm_rw demo_root (demo_va + 4090) needed demo_page.
Proof.
  intros H. split; [|eapply mk_is_Some; exact vm_rw_page|apply vm_rw_tables].
  exists (mapped demo_page (Z.lor PTE_U (Z.lor PTE_R PTE_W))).
  destruct H as [-> | ->]; split_and!; by vm_compute.
Qed.

Lemma handle_cow_private_witness :
  ∃ m' e', vpage_handle_cow demo_root demo_va vm_cow = Done 0 m' ∧
    translate m' demo_root (vpns demo_va) = Some e' ∧ has e' PTE_W = true ∧
    rc_of m' (get_next_lvl_pte e') = 1 ∧ rc_of m' demo_page = 1.
Proof.
  destruct vm_cow_tree as [HT HP].
  assert (∃ e, translate vm_cow demo_root (vpns demo_va) = Some e ∧ has e PTE_COW = true ∧
    get_next_lvl_pte e = demo_page) as (e & He & Hc & Hp)
    by (exists (mapped demo_page (Z.lor PTE_U (Z.lor PTE_R PTE_COW))); split_and!; by vm_compute).
  destruct (handle_cow_private (start_of vdemo) vdemo_ok vm_cow (vfree 5) demo_root demo_va e demo_page HT HP He Hc Hp)
    as (m' & e' & Hr & _ & _ & He' & Hrc & _ & HW & _ & _ & Hold).
  - eapply mk_is_Some. exact vm_cow_page.
  - apply vm_cow_tables.
  - right. by vm_compute.
  - assert (rc_of vm_cow demo_page = 2) as H2 by by vm_compute.
    exists m', e'. split; [exact Hr|]. split; [exact He'|]. split; [exact HW|]. split; [exact Hrc|].
    destruct Hold as [Hd _]; [rewrite H2; lia|]. by rewrite Hd, H2.
Defined.

