(* ===== verification/StdFct.v ===== *)
(** * lib/stdfct.c: software multiplication and division

    The helpers a compiler calls for integer arithmetic the processor does
    not have: shift-and-add multiplication and restoring division, on 64 and
    on 32 bits.  The two widths are the same code; the loops are written once
    for [w] bits, a [w]-bit word being a number below [2 ^ w]. *)

From S2P Require Import Prelude.

Section Width.
Context {S : Type} (w : Z).

(** [for (acc = 0; y; x <<= 1, y >>= 1) if (y & 1) acc += x;] *)
Fixpoint umul_loop (fuel : nat) (acc x y : Z) : M S Z :=
  match fuel with
  | O => nofuel
  | Datatypes.S fuel =>
    if y =? 0 then mret acc
    else umul_loop fuel (if has y 1 then wrap w (acc + x) else acc)
           (wrap w (Z.shiftl x 1)) (Z.shiftr y 1)
  end.

Definition umul (x y : Z) : M S Z :=
  let '(x, y) := if x <? y then (y, x) else (x, y) in
  umul_loop (Datatypes.S (Z.to_nat w)) 0 x y.

(** C leaves the opposite of the least integer undefined. *)
Definition opp (x : Z) : M S Z := if x =? - 2 ^ (w - 1) then fault else mret (- x).

Definition sign_split (x : Z) : M S (bool * Z) :=
  if x <? 0 then x ← opp x; mret (true, x) else mret (false, x).

Definition mul (x y : Z) : M S Z :=
  p ← sign_split x;
  q ← sign_split y;
  acc ← umul (wrap w p.2) (wrap w q.2);
  mret (sext w (if xorb p.1 q.1 then wrap w (- acc) else acc)).

(** [for (aux = 1; y < x && !(y & msb); aux <<= 1, y <<= 1);] *)
Fixpoint shift_loop (fuel : nat) (aux x y : Z) : M S (Z * Z) :=
  match fuel with
  | O => nofuel
  | Datatypes.S fuel =>
    if (y <? x) && negb (has y (2 ^ (w - 1))) then
      shift_loop fuel (wrap w (Z.shiftl aux 1)) x (wrap w (Z.shiftl y 1))
    else mret (aux, y)
  end.

(** [for (acc = 0; x && aux; aux >>= 1, y >>= 1) if (y <= x) x -= y, acc += aux;] *)
Fixpoint subtract_loop (fuel : nat) (acc x aux y : Z) : M S (Z * Z) :=
  match fuel with
  | O => nofuel
  | Datatypes.S fuel =>
    if negb (x =? 0) && negb (aux =? 0) then
      let '(x, acc) := if y <=? x then (wrap w (x - y), wrap w (acc + aux)) else (x, acc) in
      subtract_loop fuel acc x (Z.shiftr aux 1) (Z.shiftr y 1)
    else mret (acc, x)
  end.

Definition udiv_umod (x y : Z) (opt : bool) : M S Z :=
  if y =? 0 then mret 0 else
  a ← shift_loop (Datatypes.S (Z.to_nat w)) 1 x y;
  r ← subtract_loop (Datatypes.S (Datatypes.S (Z.to_nat w))) 0 x a.1 a.2;
  mret (if opt then r.1 else r.2).

Definition div_mod (x y : Z) (opt : bool) : M S Z :=
  if y =? 0 then mret 0 else
  p ← sign_split x;
  q ← sign_split y;
  acc ← udiv_umod (wrap w p.2) (wrap w q.2) opt;
  mret (sext w (if (if opt then xorb p.1 q.1 else p.1) then wrap w (- acc) else acc)).
End Width.

Definition __umuldi3 {S} (x y : Z) : M S Z := umul 64 x y.
Definition __muldi3 {S} (x y : Z) : M S Z := mul 64 x y.
Definition __udiv_umod_di3 {S} (x y : Z) (opt : bool) : M S Z := udiv_umod 64 x y opt.
Definition __udivdi3 {S} (x y : Z) : M S Z := r ← __udiv_umod_di3 (u64 x) (u64 y) true; mret (s64 r).
Definition __umoddi3 {S} (x y : Z) : M S Z := r ← __udiv_umod_di3 (u64 x) (u64 y) false; mret (s64 r).
Definition __div_mod_di3 {S} (x y : Z) (opt : bool) : M S Z := div_mod 64 x y opt.
Definition __divdi3 {S} (x y : Z) : M S Z := __div_mod_di3 x y true.
Definition __moddi3 {S} (x y : Z) : M S Z := __div_mod_di3 x y false.

Definition __umulsi3 {S} (x y : Z) : M S Z := umul 32 x y.
Definition __mulsi3 {S} (x y : Z) : M S Z := mul 32 x y.
Definition __udiv_umod_si3 {S} (x y : Z) (opt : bool) : M S Z := udiv_umod 32 x y opt.
Definition __udivsi3 {S} (x y : Z) : M S Z := r ← __udiv_umod_si3 (u32 x) (u32 y) true; mret (s32 r).
Definition __umodsi3 {S} (x y : Z) : M S Z := r ← __udiv_umod_si3 (u32 x) (u32 y) false; mret (s32 r).
Definition __div_mod_si3 {S} (x y : Z) (opt : bool) : M S Z := div_mod 32 x y opt.
Definition __divsi3 {S} (x y : Z) : M S Z := __div_mod_si3 x y true.
Definition __modsi3 {S} (x y : Z) : M S Z := __div_mod_si3 x y false.

(** ** The loops compute products and quotients *)

Section WidthLemmas.
Context {S : Type} (w : Z).
Hypothesis w_pos : 0 < w.

Lemma has_1 y : has y 1 = Z.odd y.
Proof.
  unfold has. change 1 with (Z.ones 1). rewrite Z.land_ones by lia. change (2 ^ 1) with 2.
  rewrite Zmod_odd. by destruct (Z.odd y).
Qed.

Lemma umul_loop_run (fuel : nat) acc x y (s : S) :
  0 ≤ acc < 2 ^ w → 0 ≤ y < 2 ^ (Z.of_nat fuel) →
  umul_loop w (Datatypes.S fuel) acc x y s = Done (wrap w (acc + x * y)) s.
Proof.
  revert acc x y. induction fuel as [|n IH]; intros acc x y Hacc Hy.
  - simpl in Hy. assert (y = 0) as -> by lia. simpl. rewrite Z.mul_0_r, Z.add_0_r.
    by rewrite wrap_small.
  - remember (Datatypes.S n) as k eqn:Ek. simpl. destruct (Z.eqb_spec y 0) as [->|Hy0].
    { rewrite Z.mul_0_r, Z.add_0_r. by rewrite wrap_small. }
    subst k. rewrite IH.
    + f_equal. rewrite has_1, Z.shiftl_mul_pow2, Z.shiftr_div_pow2, Z.pow_1_r by lia.
      pose proof (Zdiv2_odd_eqn y) as Ey. rewrite Z.div2_div in Ey. revert Ey.
      rewrite <-wrap_add_r, wrap_mul_l, wrap_add_r.
      replace (x * 2 * (y / 2)) with (x * (2 * (y / 2))) by lia.
      destruct (Z.odd y); intros Ey; rewrite ?wrap_add_l; f_equal; nia.
    + destruct (has y 1); [apply wrap_range; lia|done].
    + rewrite Z.shiftr_div_pow2, Z.pow_1_r by lia.
      rewrite Nat2Z.inj_succ, Z.pow_succ_r in Hy by lia.
      split; [apply Z.div_pos; lia|apply Z.div_lt_upper_bound; lia].
Qed.

Lemma umul_run x y (s : S) :
  0 ≤ x < 2 ^ w → 0 ≤ y < 2 ^ w → umul w x y s = Done (wrap w (x * y)) s.
Proof.
  intros Hx Hy. unfold umul. destruct (x <? y); rewrite umul_loop_run;
    rewrite ?Z2Nat.id by lia; try lia; do 2 f_equal; lia.
Qed.

Lemma sign_split_run x (s : S) :
  - 2 ^ (w - 1) < x < 2 ^ (w - 1) → sign_split w x s = Done (x <? 0, Z.abs x) s.
Proof.
  intros Hx. unfold sign_split, opp. destruct (Z.ltb_spec x 0).
  - destruct (Z.eqb_spec x (- 2 ^ (w - 1))); [lia|]. rewrite Z.abs_neq by lia. done.
  - rewrite Z.abs_eq by lia. done.
Qed.

Lemma pow_half : 2 ^ w = 2 * 2 ^ (w - 1).
Proof. rewrite <-Z.pow_succ_r by lia. f_equal. lia. Qed.

Lemma sext_wrap x : sext w (wrap w x) = sext w x.
Proof. unfold sext. by rewrite wrap_wrap by lia. Qed.

Lemma sext_neg x : sext w (wrap w (- wrap w x)) = sext w (- x).
Proof.
  rewrite sext_wrap. unfold sext. enough (wrap w (- wrap w x) = wrap w (- x)) as -> by done.
  replace (- wrap w x) with (wrap w x * - 1) by lia. rewrite wrap_mul_l. f_equal. lia.
Qed.

Lemma sext_sign (b : bool) a :
  0 ≤ a < 2 ^ (w - 1) → sext w (if b then wrap w (- a) else a) = if b then - a else a.
Proof.
  intros Ha. destruct b; [|apply sext_small; lia].
  rewrite sext_wrap. apply sext_id; lia.
Qed.

Lemma mul_run x y (s : S) :
  - 2 ^ (w - 1) < x < 2 ^ (w - 1) → - 2 ^ (w - 1) < y < 2 ^ (w - 1) →
  mul w x y s = Done (sext w (x * y)) s.
Proof.
  intros Hx Hy. pose proof pow_half. unfold mul.
  mstep (sign_split_run x s Hx). mstep (sign_split_run y s Hy). cbn [fst snd].
  rewrite (wrap_small w (Z.abs x)), (wrap_small w (Z.abs y)) by lia.
  mstep (umul_run (Z.abs x) (Z.abs y) s ltac:(lia) ltac:(lia)).
  unfold mret, M_ret. f_equal. rewrite <-Z.abs_mul.
  destruct (Z.ltb_spec x 0), (Z.ltb_spec y 0); cbn [xorb]; rewrite ?sext_neg, ?sext_wrap; f_equal; nia.
Qed.

(** The divisor is shifted until it passes the dividend or its top bit is
    set: either way the dividend is then below its double. *)
Lemma top_bit y : 0 ≤ y < 2 ^ w → has y (2 ^ (w - 1)) = (2 ^ (w - 1) <=? y).
Proof.
  intros Hy. pose proof pow_half as E.
  assert (has y (2 ^ (w - 1)) = Z.testbit y (w - 1)) as ->.
  { unfold has. destruct (Z.testbit y (w - 1)) eqn:Eb.
    - apply negb_true_iff, Z.eqb_neq. intros H0.
      assert (Z.testbit (Z.land y (2 ^ (w - 1))) (w - 1) = true) as Ht
        by (rewrite Z.land_spec, Eb, Z.pow2_bits_true by lia; done).
      by rewrite H0, Z.bits_0 in Ht.
    - apply negb_false_iff, Z.eqb_eq. apply Z.bits_inj'. intros n Hn.
      rewrite Z.land_spec, Z.bits_0, Z.pow2_bits_eqb by lia.
      destruct (Z.eqb_spec (w - 1) n) as [<-|]; [by rewrite Eb|by rewrite andb_false_r]. }
  rewrite Z.testbit_odd, Z.shiftr_div_pow2 by lia.
  assert (0 ≤ y / 2 ^ (w - 1) < 2) by (split; [apply Z.div_pos; lia|apply Z.div_lt_upper_bound; lia]).
  destruct (Z.leb_spec (2 ^ (w - 1)) y).
  - assert (y / 2 ^ (w - 1) = 1) as -> by (apply Z.le_antisymm; [lia|apply Z.div_le_lower_bound; lia]). done.
  - by rewrite Z.div_small by lia.
Qed.

Lemma shift_loop_run (fuel : nat) k x y0 (s : S) :
  0 < y0 → 0 ≤ k → y0 * 2 ^ k < 2 ^ w → 0 ≤ x < 2 ^ w → w ≤ k + Z.of_nat fuel →
  ∃ k', k ≤ k' ∧ k' < w ∧ y0 * 2 ^ k' < 2 ^ w ∧ x < 2 * (y0 * 2 ^ k') ∧
    shift_loop w (Datatypes.S fuel) (2 ^ k) x (y0 * 2 ^ k) s = Done (2 ^ k', y0 * 2 ^ k') s.
Proof.
  intros Hy0 Hk Hlt Hx. pose proof pow_half as E. revert k Hk Hlt. induction fuel as [|n IH]; intros k Hk Hlt Hf.
  all: assert (k < w) by (apply (Z.pow_lt_mono_r_iff 2); nia).
  { lia. }
  remember (Datatypes.S n) as f eqn:Ef. simpl. rewrite top_bit by (split; [nia|done]).
  destruct (Z.ltb_spec (y0 * 2 ^ k) x) as [Hyx|Hyx].
  - destruct (Z.leb_spec (2 ^ (w - 1)) (y0 * 2 ^ k)) as [Htop|Htop].
    + exists k. split_and!; (lia || done).
    + assert (2 ^ (k + 1) = 2 * 2 ^ k) as Ek by (rewrite Z.add_1_r, Z.pow_succ_r by lia; done).
      destruct (IH (k + 1)) as (k' & ? & ? & ? & ? & Hr); [lia|nia|lia|].
      exists k'. split_and!; try lia. subst f. rewrite <-Hr. cbn [andb negb].
      assert (2 ^ k ≤ y0 * 2 ^ k) by nia.
      rewrite !Z.shiftl_mul_pow2, Z.pow_1_r by lia. rewrite !wrap_small by nia.
      rewrite Ek. f_equal; nia.
  - exists k. split_and!; (lia || done).
Qed.

Lemma subtract_loop_run (n fuel : nat) acc x y0 (s : S) :
  let k := Z.of_nat n in
  0 < y0 → 0 ≤ x < 2 * (y0 * 2 ^ k) → y0 * 2 ^ k < 2 ^ w → x < 2 ^ w →
  0 ≤ acc → acc + x / y0 < 2 ^ w → (n < fuel)%nat →
  subtract_loop w (Datatypes.S fuel) acc x (2 ^ k) (y0 * 2 ^ k) s = Done (acc + x / y0, x mod y0) s.
Proof.
  intros k. subst k. revert fuel acc x. induction n as [|n IH]; intros fuel acc x Hy0 Hx Hy Hxw Hacc Hs Hf.
  all: destruct fuel as [|fuel]; [lia|]; remember (Datatypes.S fuel) as f eqn:Ef; simpl subtract_loop.
  all: destruct (Z.eqb_spec x 0) as [->|Hx0]; [by rewrite Z.div_0_l, Z.mod_0_l, Z.add_0_r by lia|].
  - change (2 ^ Z.of_nat 0) with 1 in *. rewrite Z.mul_1_r in *. subst f. cbn [Z.eqb negb andb].
    assert (∀ a x' y', subtract_loop w (Datatypes.S fuel) a x' 0 y' s = Done (a, x') s) as Hend.
    { intros a x' y'. simpl. by rewrite andb_false_r. }
    destruct (Z.leb_spec y0 x).
    + assert (x / y0 = 1) as E1 by (symmetry; apply (Z.div_unique x y0 1 (x - y0)); lia).
      assert (x mod y0 = x - y0) as E2 by (symmetry; apply (Z.mod_unique x y0 1 (x - y0)); lia).
      rewrite (wrap_small w (x - y0)), wrap_small by lia. change (Z.shiftr 1 1) with 0.
      rewrite Hend. by rewrite E1, E2.
    + change (Z.shiftr 1 1) with 0. rewrite Hend, Z.div_small, Z.mod_small by lia. by rewrite Z.add_0_r.
  - rewrite Nat2Z.inj_succ in *. unfold Z.succ in *.
    assert (2 ^ (Z.of_nat n + 1) = 2 * 2 ^ Z.of_nat n) as Ek by (rewrite Z.add_1_r, Z.pow_succ_r by lia; done).
    assert (0 < 2 ^ Z.of_nat n) by lia.
    destruct (Z.eqb_spec (2 ^ (Z.of_nat n + 1)) 0) as [|_]; [lia|]. cbn [negb andb]. subst f.
    rewrite !Z.shiftr_div_pow2, !Z.pow_1_r by lia.
    replace (2 ^ (Z.of_nat n + 1) / 2) with (2 ^ Z.of_nat n) by (rewrite Ek, Z.mul_comm, Z.div_mul; lia).
    replace (y0 * 2 ^ (Z.of_nat n + 1) / 2) with (y0 * 2 ^ Z.of_nat n)
      by (rewrite Ek; replace (y0 * (2 * 2 ^ Z.of_nat n)) with (y0 * 2 ^ Z.of_nat n * 2) by lia; rewrite Z.div_mul; lia).
    set (K := 2 ^ (Z.of_nat n + 1)) in *.
    destruct (Z.leb_spec (y0 * K) x).
    + assert ((x - y0 * K) / y0 = x / y0 - K) as E1.
      { replace (x - y0 * K) with (x + (- K) * y0) by lia. rewrite Z.div_add; lia. }
      assert ((x - y0 * K) mod y0 = x mod y0) as E2.
      { replace (x - y0 * K) with (x + (- K) * y0) by lia. apply Z_mod_plus_full. }
      assert (0 ≤ (x - y0 * K) / y0) by (apply Z.div_pos; lia).
      rewrite (wrap_small w (x - _)), (wrap_small w (acc + K)) by lia.
      rewrite IH; [f_equal; f_equal; lia|lia..].
    + apply IH; lia.
Qed.

Lemma udiv_umod_run x y opt (s : S) :
  0 ≤ x < 2 ^ w → 0 < y < 2 ^ w →
  udiv_umod w x y opt s = Done (if opt then x / y else x mod y) s.
Proof.
  intros Hx Hy. unfold udiv_umod. destruct (Z.eqb_spec y 0) as [|_]; [lia|].
  destruct (shift_loop_run (Z.to_nat w) 0 x y s) as (k & Hk0 & Hkw & Hyk & Hxk & Hr); try lia.
  rewrite Z.pow_0_r, Z.mul_1_r in Hr. mstep Hr. cbn [fst snd].
  assert (0 ≤ x / y ≤ x) by (split; [apply Z.div_pos; lia|apply Z.div_le_upper_bound; nia]).
  pose proof (subtract_loop_run (Z.to_nat k) (Datatypes.S (Z.to_nat w)) 0 x y s) as Hr2.
  cbv zeta in Hr2. rewrite Z2Nat.id in Hr2 by lia.
  mstep (Hr2 ltac:(lia) ltac:(lia) ltac:(lia) ltac:(lia) ltac:(lia) ltac:(lia) ltac:(lia)). by destruct opt.
Qed.

Lemma div_mod_run x y opt (s : S) :
  - 2 ^ (w - 1) < x < 2 ^ (w - 1) → - 2 ^ (w - 1) < y < 2 ^ (w - 1) → y ≠ 0 →
  div_mod w x y opt s = Done (if opt then Z.quot x y else Z.rem x y) s.
Proof.
  intros Hx Hy Hy0. pose proof pow_half. unfold div_mod. destruct (Z.eqb_spec y 0) as [|_]; [lia|].
  mstep (sign_split_run x s Hx). mstep (sign_split_run y s Hy). cbn [fst snd].
  rewrite (wrap_small w (Z.abs x)), (wrap_small w (Z.abs y)) by lia.
  mstep (udiv_umod_run (Z.abs x) (Z.abs y) opt s ltac:(lia) ltac:(lia)).
  assert (0 ≤ Z.abs x / Z.abs y ≤ Z.abs x)
    by (split; [apply Z.div_pos; lia|apply Z.div_le_upper_bound; nia]).
  assert (0 ≤ Z.abs x mod Z.abs y < Z.abs y) by (apply Z.mod_pos_bound; lia).
  assert (Z.abs x mod Z.abs y ≤ Z.abs x) by (apply Z.mod_le; lia).
  unfold mret, M_ret. f_equal. destruct opt; rewrite sext_sign by lia.
  - rewrite Z.quot_div by lia. destruct (Z.ltb_spec x 0), (Z.ltb_spec y 0); cbn [xorb];
      destruct (Z.eq_dec x 0) as [->|]; rewrite ?Z.abs_0, ?Z.div_0_l, ?Z.sgn_0 by lia; try lia;
      rewrite ?(Z.sgn_neg x), ?(Z.sgn_pos x), ?(Z.sgn_neg y), ?(Z.sgn_pos y) by lia; lia.
  - rewrite Z.rem_mod by lia. destruct (Z.ltb_spec x 0);
      destruct (Z.eq_dec x 0) as [->|]; rewrite ?Z.abs_0, ?Z.mod_0_l, ?Z.sgn_0 by lia; try lia;
      rewrite ?(Z.sgn_neg x), ?(Z.sgn_pos x) by lia; lia.
Qed.
End WidthLemmas.

(** ** Properties *)

Definition word (w x : Z) : Prop := 0 ≤ x < 2 ^ w.
Definition int (w x : Z) : Prop := - 2 ^ (w - 1) < x < 2 ^ (w - 1).

(** C39: the software multiplications return: on every pair of words the
    product modulo the word size, and on every pair of signed integers but
    the least one the product as C's conversion to the signed type gives
    it. *)
Theorem software_mul_correct {S : Type} (s : S) :
  (∀ x y, word 64 x → word 64 y → __umuldi3 x y s = Done (u64 (x * y)) s) ∧
  (∀ x y, int 64 x → int 64 y → __muldi3 x y s = Done (s64 (x * y)) s) ∧
  (∀ x y, word 32 x → word 32 y → __umulsi3 x y s = Done (u32 (x * y)) s) ∧
  (∀ x y, int 32 x → int 32 y → __mulsi3 x y s = Done (s32 (x * y)) s).
Proof.
  split_and!; intros x y Hx Hy; [apply umul_run|apply mul_run|apply umul_run|apply mul_run]; done.
Qed.


(** ** Witnesses *)

Lemma software_mul_correct_witness : __muldi3 (-7) 9 tt = Done (-63) tt ∧ __umulsi3 65537 65537 tt = Done 131073 tt.
Proof.
  destruct (software_mul_correct tt) as (_ & Hm & Hu & _). split.
  - rewrite Hm by (unfold int; lia). by vm_compute.
  - rewrite Hu by (unfold word; lia). by vm_compute.
Defined.

