(* ===== verification/Tinyalloc.v ===== *)
(** * lib/tinyalloc.c: the kernel heap

    The heap keeps its bookkeeping in a table of [Block] records at its base,
    each on one of three linked lists: free, used and fresh (records in no
    use).  [h_blocks] is that table, by the address of a record; a pointer is
    its address and 0 is NULL.  The memory handed out starts behind the table
    and ends at [heap_limit]; [h_mem] holds its bytes.  The build defines
    neither TA_DISABLE_COMPACT nor TA_DISABLE_SPLIT. *)

From S2P Require Import Prelude.

Record block := Block { b_addr : Z; b_next : Z; b_size : Z }.

Record theap := Heap {
  h_ptr : Z;            (* static Heap *heap *)
  h_free : Z;
  h_used : Z;
  h_fresh : Z;
  h_top : Z;
  h_blocks : gmap Z block;
  heap_limit : Z;
  heap_split_thresh : Z;
  heap_alignment : Z;
  heap_max_blocks : Z;
  h_mem : gmap Z Z
}.

Definition h_set_free (v : Z) (h : theap) : theap :=
  Heap (h_ptr h) v (h_used h) (h_fresh h) (h_top h) (h_blocks h) (heap_limit h) (heap_split_thresh h) (heap_alignment h) (heap_max_blocks h) (h_mem h).
Definition h_set_used (v : Z) (h : theap) : theap :=
  Heap (h_ptr h) (h_free h) v (h_fresh h) (h_top h) (h_blocks h) (heap_limit h) (heap_split_thresh h) (heap_alignment h) (heap_max_blocks h) (h_mem h).
Definition h_set_fresh (v : Z) (h : theap) : theap :=
  Heap (h_ptr h) (h_free h) (h_used h) v (h_top h) (h_blocks h) (heap_limit h) (heap_split_thresh h) (heap_alignment h) (heap_max_blocks h) (h_mem h).
Definition h_set_top (v : Z) (h : theap) : theap :=
  Heap (h_ptr h) (h_free h) (h_used h) (h_fresh h) v (h_blocks h) (heap_limit h) (heap_split_thresh h) (heap_alignment h) (heap_max_blocks h) (h_mem h).
Definition h_set_blocks (v : gmap Z block) (h : theap) : theap :=
  Heap (h_ptr h) (h_free h) (h_used h) (h_fresh h) (h_top h) v (heap_limit h) (heap_split_thresh h) (heap_alignment h) (heap_max_blocks h) (h_mem h).
Definition h_set_mem (v : gmap Z Z) (h : theap) : theap :=
  Heap (h_ptr h) (h_free h) (h_used h) (h_fresh h) (h_top h) (h_blocks h) (heap_limit h) (heap_split_thresh h) (heap_alignment h) (heap_max_blocks h) v.

Definition b_set_addr (v : Z) (b : block) : block := Block v (b_next b) (b_size b).
Definition b_set_next (v : Z) (b : block) : block := Block (b_addr b) v (b_size b).
Definition b_set_size (v : Z) (b : block) : block := Block (b_addr b) (b_next b) v.

(** [heap->...], [p->...] and the assignments to their fields. *)
Definition get_heap : M theap theap := h ← get; if h_ptr h =? 0 then fault else mret h.
Definition get_block (p : Z) : M theap block := h ← get; of_opt (h_blocks h !! p).
Definition upd_block (p : Z) (f : block → block) : M theap unit :=
  b ← get_block p; modify (λ h, h_set_blocks (<[p := f b]> (h_blocks h)) h).

(** A list of records is at most as long as the table. *)
Definition list_fuel (h : theap) : nat := S (size (h_blocks h)).

(** ** The free list *)

Fixpoint insert_find (fuel : nat) (addr ptr prev : Z) : M theap (Z * Z) :=
  match fuel with
  | O => nofuel
  | S fuel =>
    if ptr =? 0 then mret (ptr, prev) else
    b ← get_block ptr;
    if addr <=? b_addr b then mret (ptr, prev) else
    insert_find fuel addr (b_next b) ptr
  end.

Definition insert_block (p : Z) : M theap unit :=
  h ← get_heap;
  b ← get_block p;
  r ← insert_find (list_fuel h) (b_addr b) (h_free h) 0;
  let '(ptr, prev) := r in
  (if negb (prev =? 0) then upd_block prev (b_set_next p) else modify (h_set_free p));;
  upd_block p (b_set_next ptr).

Fixpoint release_loop (fuel : nat) (scan to : Z) : M theap unit :=
  match fuel with
  | O => nofuel
  | S fuel =>
    if scan =? to then mret tt else
    b ← get_block scan;
    h ← get_heap;
    upd_block scan (b_set_next (h_fresh h));;
    modify (h_set_fresh scan);;
    upd_block scan (b_set_addr 0);;
    upd_block scan (b_set_size 0);;
    release_loop fuel (b_next b) to
  end.

Definition release_blocks (scan to : Z) : M theap unit := h ← get; release_loop (list_fuel h) scan to.

(** The records behind [prev] that go on where the one before ends. *)
Fixpoint merge_scan (fuel : nat) (prev scan : Z) : M theap Z :=
  match fuel with
  | O => nofuel
  | S fuel =>
    if scan =? 0 then mret prev else
    p ← get_block prev;
    s ← get_block scan;
    if u64 (b_addr p + b_size p) =? b_addr s then merge_scan fuel scan (b_next s) else mret prev
  end.

Fixpoint compact_loop (fuel : nat) (ptr : Z) : M theap unit :=
  match fuel with
  | O => nofuel
  | S fuel =>
    if ptr =? 0 then mret tt else
    h ← get;
    b ← get_block ptr;
    prev ← merge_scan (list_fuel h) ptr (b_next b);
    (if negb (prev =? ptr) then
      p ← get_block prev;
      upd_block ptr (b_set_size (u64 (u64 (b_addr p - b_addr b) + b_size p)));;
      release_blocks (b_next b) (b_next p);;
      upd_block ptr (b_set_next (b_next p))
    else mret tt);;
    b ← get_block ptr;
    compact_loop fuel (b_next b)
  end.

Definition compact : M theap unit := h ← get_heap; compact_loop (list_fuel h) (h_free h).

(** ** The interface *)

Definition SIZEOF_HEAP : Z := 32.
Definition SIZEOF_BLOCK : Z := 24.

(** [while (i--) ...]: [n] steps. *)
Fixpoint fresh_loop (n : nat) (block : Z) : M theap Z :=
  match n with
  | O => mret block
  | S n => upd_block block (b_set_next (block + SIZEOF_BLOCK));; fresh_loop n (block + SIZEOF_BLOCK)
  end.

Definition ta_init (base limit heap_blocks split_thresh alignment : Z) : M theap bool :=
  let fresh := base + SIZEOF_HEAP in
  modify (λ h, Heap base 0 0 fresh (fresh + heap_blocks * SIZEOF_BLOCK) (h_blocks h) limit split_thresh alignment heap_blocks (h_mem h));;
  block ← fresh_loop (Z.to_nat (u64 (heap_blocks - 1))) fresh;
  upd_block block (b_set_next 0);;
  mret true.

Fixpoint free_loop (fuel : nat) (free block prev : Z) : M theap bool :=
  match fuel with
  | O => nofuel
  | S fuel =>
    if block =? 0 then mret false else
    b ← get_block block;
    if free =? b_addr b then
      (if negb (prev =? 0) then upd_block prev (b_set_next (b_next b)) else modify (h_set_used (b_next b)));;
      insert_block block;;
      compact;;
      mret true
    else free_loop fuel free (b_next b) block
  end.

Definition ta_free (free : Z) : M theap bool := h ← get_heap; free_loop (list_fuel h) free (h_used h) 0.

(** [(num + heap_alignment - 1) & -heap_alignment] on 64 bits. *)
Definition round_up (al num : Z) : Z := Z.land (u64 (num + al - 1)) (u64 (- al)).

(** A free record that fits was found: take it. *)
Definition take_free (num top prev ptr : Z) (b : block) (is_top : bool) : M theap unit :=
  (if negb (prev =? 0) then upd_block prev (b_set_next (b_next b)) else modify (h_set_free (b_next b)));;
  h ← get_heap;
  upd_block ptr (b_set_next (h_used h));;
  modify (h_set_used ptr);;
  if is_top then upd_block ptr (b_set_size num);; modify (h_set_top (u64 (b_addr b + num)))
  else if negb (h_fresh h =? 0) then
    let excess := u64 (b_size b - num) in
    if heap_split_thresh h <=? excess then
      upd_block ptr (b_set_size num);;
      let split := h_fresh h in
      sb ← get_block split;
      modify (h_set_fresh (b_next sb));;
      upd_block split (b_set_addr (u64 (b_addr b + num)));;
      upd_block split (b_set_size excess);;
      insert_block split;;
      compact
    else mret tt
  else mret tt.

Fixpoint alloc_loop (fuel : nat) (num top ptr prev : Z) : M theap (option Z) :=
  match fuel with
  | O => nofuel
  | S fuel =>
    if ptr =? 0 then mret None else
    h ← get;
    b ← get_block ptr;
    let is_top := (top <=? u64 (b_addr b + b_size b)) && (u64 (b_addr b + num) <=? heap_limit h) in
    if is_top || (num <=? b_size b) then
      take_free num top prev ptr b is_top;; mret (Some ptr)
    else alloc_loop fuel num top (b_next b) ptr
  end.

Definition alloc_block (num : Z) : M theap Z :=
  h ← get_heap;
  let top := h_top h in
  let num := round_up (heap_alignment h) num in
  r ← alloc_loop (list_fuel h) num top (h_free h) 0;
  match r with
  | Some ptr => mret ptr
  | None =>
    h ← get_heap;
    let new_top := u64 (top + num) in
    if negb (h_fresh h =? 0) && (new_top <=? heap_limit h) then
      let ptr := h_fresh h in
      b ← get_block ptr;
      modify (h_set_fresh (b_next b));;
      upd_block ptr (b_set_addr top);;
      upd_block ptr (b_set_next (h_used h));;
      upd_block ptr (b_set_size num);;
      modify (h_set_used ptr);;
      modify (h_set_top new_top);;
      mret ptr
    else mret 0
  end.

Definition ta_alloc (num : Z) : M theap Z :=
  block ← alloc_block num;
  if negb (block =? 0) then b ← get_block block; mret (b_addr b) else mret 0.

Definition clear_byte (a : Z) : M theap unit :=
  h ← get; _ ← of_opt (h_mem h !! a); modify (h_set_mem (<[a := 0]> (h_mem h))).
Definition clear_word (a : Z) : M theap unit := each (λ i, clear_byte (a + i)) (seqZ 0 8).

Definition memclear (ptr num : Z) : M theap unit :=
  let numw := Z.land num (u64 (- 8)) / 8 in
  each (λ i, clear_word (ptr + 8 * i)) (seqZ 0 numw);;
  each (λ i, clear_byte (ptr + 8 * numw + i)) (seqZ 0 (Z.land num 7)).

Definition ta_calloc (num size : Z) : M theap Z :=
  let num := u64 (num * size) in
  block ← alloc_block num;
  if negb (block =? 0) then b ← get_block block; memclear (b_addr b) num;; mret (b_addr b) else mret 0.

Fixpoint count_blocks (fuel : nat) (num ptr : Z) : M theap Z :=
  match fuel with
  | O => nofuel
  | S fuel => if ptr =? 0 then mret num else b ← get_block ptr; count_blocks fuel (num + 1) (b_next b)
  end.

Definition ta_num_free : M theap Z := h ← get_heap; count_blocks (list_fuel h) 0 (h_free h).
Definition ta_num_used : M theap Z := h ← get_heap; count_blocks (list_fuel h) 0 (h_used h).
Definition ta_num_fresh : M theap Z := h ← get_heap; count_blocks (list_fuel h) 0 (h_fresh h).
Definition ta_check : M theap bool :=
  free ← ta_num_free; used ← ta_num_used; fresh ← ta_num_fresh;
  h ← get; mret (heap_max_blocks h =? u64 (free + used + fresh)).

Definition free (ptr : Z) : M theap unit := ta_free ptr;; mret tt.
Definition malloc (size : Z) : M theap Z := ta_alloc size.
Definition calloc (num size : Z) : M theap Z := ta_calloc num size.
