(* ===== verification/TinyallocInv.v ===== *)
(** * The kernel heap hands out disjoint memory

    The three lists of Tinyalloc.v as lists of (record, (address, size)), the
    invariant of the heap over them, and the theorem that every sequence of
    allocations and frees keeps the live blocks apart. *)

From S2P Require Import Prelude Tinyalloc.

Abbreviation item := (Z * (Z * Z))%type.
Definition ptrs (l : list item) : list Z := l.*1.
Definition ranges (l : list item) : list (Z * Z) := l.*2.

(** The list segment from the record [p] up to the record [x]. *)
Fixpoint seg (m : gmap Z block) (p : Z) (l : list item) (x : Z) : Prop :=
  match l with
  | [] => p = x
  | (q, (a, s)) :: l => p = q ∧ q ≠ 0 ∧ ∃ nx, m !! q = Some (Block a nx s) ∧ seg m nx l x
  end.

Lemma seg_app m p l1 l2 x : seg m p (l1 ++ l2) x ↔ ∃ y, seg m p l1 y ∧ seg m y l2 x.
Proof.
  revert p. induction l1 as [|[q [a s]] l1 IH]; intros p; simpl.
  - split; [by exists p|]. by intros (y & -> & ?).
  - split.
    + intros (-> & Hq & nx & Hm & (y & H1 & H2)%IH). exists y. eauto 10.
    + intros (y & (-> & Hq & nx & Hm & H1) & H2). split; [done|]. split; [done|]. exists nx. split; [done|]. apply IH. eauto.
Qed.

Lemma seg_ext m m' p l x : (∀ q, q ∈ ptrs l → m' !! q = m !! q) → seg m p l x → seg m' p l x.
Proof.
  revert p. induction l as [|[q [a s]] l IH]; intros p Hext; simpl; [done|].
  intros (-> & Hq & nx & Hm & Hs). split; [done|]. split; [done|]. exists nx.
  rewrite Hext by (simpl; set_solver). split; [done|]. apply IH; [|done]. intros r Hr. apply Hext. simpl. set_solver.
Qed.

Lemma seg_insert m p l x q b : q ∉ ptrs l → seg m p l x → seg (<[q := b]> m) p l x.
Proof. intros Hq. apply seg_ext. intros r Hr. rewrite lookup_insert_ne; [done|]. set_solver. Qed.

Lemma seg_lookup m p l x q : seg m p l x → q ∈ ptrs l → q ≠ 0 ∧ is_Some (m !! q).
Proof.
  revert p. induction l as [|[r [a s]] l IH]; intros p; simpl; [set_solver|].
  intros (-> & Hr & nx & Hm & Hs) [->|Hq]%elem_of_cons; [rewrite Hm; eauto|eauto].
Qed.

(** A list fits in the fuel its loops are given. *)
Lemma seg_fuel m p l x : seg m p l x → NoDup (ptrs l) → (length l ≤ size m)%nat.
Proof.
  intros Hs Hnd. trans (length (ptrs l)); [unfold ptrs; by rewrite length_fmap|].
  rewrite <-(size_list_to_set (C := gset Z) (ptrs l)) by done. rewrite <-size_dom. apply subseteq_size. intros q Hq. apply elem_of_list_to_set in Hq.
  apply elem_of_dom. by eapply seg_lookup.
Qed.

(** The list behind a segment starts outside of it. *)
Lemma seg_apart m p l1 n l2 : seg m p l1 n → seg m n l2 0 → (∀ q, q ∈ ptrs l1 → q ∉ ptrs l2) → n ∉ ptrs l1.
Proof.
  intros H1 H2 Hd Hn. destruct l2 as [|[q [a s]] l2]; simpl in H2.
  - subst. by apply (seg_lookup _ _ _ _ _ H1) in Hn as [? _].
  - destruct H2 as (-> & _). apply (Hd q Hn). left.
Qed.

(** Redirect the last link of a segment. *)
Lemma seg_relink m p l q a s y b :
  q ∉ ptrs l → b_addr b = a → b_size b = s → seg m p (l ++ [(q, (a, s))]) y → seg (<[q := b]> m) p (l ++ [(q, (a, s))]) (b_next b).
Proof.
  intros Hq Ha Hs (y' & H1 & H2)%seg_app. apply seg_app. exists y'. split; [by apply seg_insert|].
  destruct H2 as (-> & Hne & nx & Hm & Hn). split; [done|]. split; [done|]. exists (b_next b). rewrite lookup_insert_eq.
  destruct b; simpl in *; by subst.
Qed.

(** ** Running the steps *)

Definition cfg (h : theap) := (h_ptr h, heap_limit h, heap_split_thresh h, heap_alignment h, heap_max_blocks h, h_mem h).

(** [keeps Ps h h']: nothing but the lists' heads, the top and the records
    [Ps] changed. *)
Definition keeps (Ps : list Z) (h h' : theap) : Prop :=
  cfg h' = cfg h ∧ ∀ q, q ∉ Ps → h_blocks h' !! q = h_blocks h !! q.

Lemma keeps_refl Ps h : keeps Ps h h.
Proof. done. Qed.
Lemma keeps_trans Ps h1 h2 h3 : keeps Ps h1 h2 → keeps Ps h2 h3 → keeps Ps h1 h3.
Proof. intros [E1 H1] [E2 H2]. split; [congruence|]. intros q Hq. rewrite H2, H1; done. Qed.
Lemma keeps_weaken Ps Ps' h h' : keeps Ps h h' → Ps ⊆ Ps' → keeps Ps' h h'.
Proof. intros [E H] Hs. split; [done|]. intros q Hq. apply H. set_solver. Qed.
Lemma keeps_seg Ps h h' p l x : keeps Ps h h' → (∀ q, q ∈ ptrs l → q ∉ Ps) → seg (h_blocks h) p l x → seg (h_blocks h') p l x.
Proof. intros [_ H] Hd. apply seg_ext. intros q Hq. by apply H, Hd. Qed.

Lemma get_heap_run h : h_ptr h ≠ 0 → get_heap h = Done h h.
Proof. intros H. unfold get_heap, mbind, M_bind, get. simpl. by destruct (Z.eqb_spec (h_ptr h) 0). Qed.
Lemma get_block_run p b h : h_blocks h !! p = Some b → get_block p h = Done b h.
Proof. intros H. unfold get_block, mbind, M_bind, get. simpl. by rewrite H. Qed.
Lemma upd_block_run p f b h :
  h_blocks h !! p = Some b → upd_block p f h = Done tt (h_set_blocks (<[p := f b]> (h_blocks h)) h).
Proof. intros H. unfold upd_block. by mstep (get_block_run p b h H). Qed.
Lemma modify_run f (h : theap) : modify f h = Done tt (f h).
Proof. done. Qed.

(** ** insert_block *)

Lemma insert_find_run fuel addr ptr prev l h :
  seg (h_blocks h) ptr l 0 → (length l < fuel)%nat →
  ∃ l1 l2 ptr', insert_find fuel addr ptr prev h = Done (ptr', default prev (last (ptrs l1))) h ∧
    l = l1 ++ l2 ∧ seg (h_blocks h) ptr l1 ptr' ∧ seg (h_blocks h) ptr' l2 0.
Proof.
  revert ptr prev l. induction fuel as [|fuel IH]; intros ptr prev l Hs Hf; [lia|]. cbn [insert_find].
  destruct l as [|[q [a s]] l]; cbn [seg] in Hs.
  - subst ptr. exists [], [], 0. simpl. done.
  - destruct Hs as (-> & Hq & nx & Hm & Hs). destruct (Z.eqb_spec q 0); [done|].
    mstep (get_block_run _ _ _ Hm). simpl. destruct (Z.leb_spec addr a).
    + exists [], ((q, (a, s)) :: l), q. simpl. eauto 10.
    + destruct (IH nx q l Hs ltac:(simpl in Hf; lia)) as (l1 & l2 & ptr' & -> & -> & H1 & H2).
      exists ((q, (a, s)) :: l1), l2, ptr'. split_and!; [|done|by simpl; eauto 10|done].
      f_equal. f_equal. simpl. destruct (ptrs l1) as [|z l0] eqn:E; [done|]. simpl.
      by destruct (last (z :: l0)) eqn:El; [|apply last_None in El].
Qed.

Lemma insert_block_wp p a s fl h nx :
  h_ptr h ≠ 0 → p ≠ 0 → seg (h_blocks h) (h_free h) fl 0 → NoDup (ptrs fl) → p ∉ ptrs fl →
  h_blocks h !! p = Some (Block a nx s) →
  wp (insert_block p h) (λ _ h', keeps (p :: ptrs fl) h h' ∧ h_used h' = h_used h ∧ h_fresh h' = h_fresh h ∧ h_top h' = h_top h ∧
    ∃ l1 l2, fl = l1 ++ l2 ∧ seg (h_blocks h') (h_free h') (l1 ++ (p, (a, s)) :: l2) 0).
Proof.
  intros Hh Hp Hs Hnd Hn Hm. unfold insert_block. mstep (get_heap_run h Hh). mstep (get_block_run _ _ _ Hm). simpl b_addr.
  destruct (insert_find_run (list_fuel h) a (h_free h) 0 fl h Hs) as (l1 & l2 & ptr & Hr & -> & H1 & H2).
  { unfold list_fuel. pose proof (seg_fuel _ _ _ _ Hs Hnd). lia. }
  mstep Hr. unfold ptrs in Hn, Hnd. rewrite fmap_app in Hn, Hnd. apply not_elem_of_app in Hn as [Hn1 Hn2].
  apply NoDup_app in Hnd as (Hnd1 & Hnd12 & Hnd2).
  destruct l1 as [|[q [a1 s1]] l0 _] using rev_ind.
  - simpl. mstep (modify_run (h_set_free p) h).
    rewrite (upd_block_run p (b_set_next ptr) (Block a nx s)) by done. simpl. split; [|split_and!; try done].
    + split; [done|]. intros q Hq. simpl. rewrite lookup_insert_ne; [done|]. set_solver.
    + exists [], l2. split; [done|]. simpl. split; [done|]. split; [done|]. exists ptr. rewrite lookup_insert_eq. split; [done|].
      by apply seg_insert.
  - unfold ptrs in *. rewrite fmap_app in Hn1, Hnd1, Hnd12 |- *. simpl in *. rewrite last_snoc. simpl.
    pose proof H1 as (y & Hy1 & (-> & Hq0 & nq & Hmq & _))%seg_app. destruct (Z.eqb_spec q 0); [done|]. simpl.
    mstep (upd_block_run q (b_set_next p) _ _ Hmq).
    assert (p ≠ q) as Hpq by (clear -Hn1; set_solver).
    rewrite (upd_block_run p (b_set_next ptr) (Block a nx s)) by (simpl; by rewrite lookup_insert_ne). simpl.
    assert (q ∉ l0.*1) by (apply NoDup_app in Hnd1 as (_ & Hd & _); clear -Hd; set_solver).
    split; [|split_and!; try done].
    + split; [done|]. intros r Hr'. simpl. rewrite !lookup_insert_ne; [done|..]; clear -Hr'; unfold ptrs in Hr'; rewrite ?fmap_app in Hr'; set_solver.
    + exists (l0 ++ [(q, (a1, s1))]), l2. split; [done|]. apply seg_app. exists p. split.
      * apply seg_insert; [unfold ptrs; rewrite fmap_app; simpl; clear -Hn1; set_solver|].
        by apply (seg_relink (h_blocks h) _ l0 q a1 s1 ptr (Block a1 p s1)).
      * split; [done|]. split; [done|]. exists ptr. rewrite lookup_insert_eq. split; [done|].
        apply seg_insert; [done|]. apply seg_insert; [|done]. clear -Hnd12. set_solver.
Qed.

(** ** compact *)

(** [merges l l']: [l'] is [l] with neighbours joined where one goes on at the
    end of the other. *)
Inductive merges : list (Z * Z) → list (Z * Z) → Prop :=
| merges_nil : merges [] []
| merges_keep r l l' : merges l l' → merges (r :: l) (r :: l')
| merges_join a s1 s2 l l' : merges ((a, s1 + s2) :: l) l' → merges ((a, s1) :: (a + s1, s2) :: l) l'.

(** Each range of the list starts where the one before ends. *)
Fixpoint contig (e : Z) (l : list (Z * Z)) : Prop :=
  match l with [] => True | (a, s) :: l => a = e ∧ contig (a + s) l end.
Fixpoint end_from (e : Z) (l : list (Z * Z)) : Z :=
  match l with [] => e | (a, s) :: l => end_from (a + s) l end.

Lemma merges_contig a s l1 l2 l' :
  contig (a + s) l1 → merges ((a, end_from (a + s) l1 - a) :: l2) l' → merges ((a, s) :: l1 ++ l2) l'.
Proof.
  revert s. induction l1 as [|[a1 s1] l1 IH]; intros s; simpl.
  - by replace (a + s - a) with s by lia.
  - intros [-> Hc] Hm. apply merges_join. apply IH; replace (a + (s + s1)) with (a + s + s1) by lia; done.
Qed.

Lemma end_from_ge e l : contig e l → Forall (λ r, 0 ≤ r.1 ∧ 0 ≤ r.2 ∧ r.1 + r.2 < 2 ^ 63) l → e ≤ end_from e l.
Proof.
  revert e. induction l as [|[a s] l IH]; intros e; simpl; [lia|]. intros [-> Hc] [Ha Hl]%Forall_cons. simpl in Ha.
  specialize (IH _ Hc Hl). lia.
Qed.

(** Ranges on which 64-bit sums do not wrap. *)
Definition tame (r : Z * Z) : Prop := 0 ≤ r.1 ∧ 0 ≤ r.2 ∧ r.1 + r.2 < 2 ^ 63.

Lemma release_loop_wp fuel scan to l rl h :
  h_ptr h ≠ 0 → seg (h_blocks h) scan l to → NoDup (ptrs l) → to ∉ ptrs l → seg (h_blocks h) (h_fresh h) rl 0 →
  (∀ q, q ∈ ptrs l → q ∉ ptrs rl) → (length l < fuel)%nat →
  wp (release_loop fuel scan to h) (λ _ h', keeps (ptrs l) h h' ∧ h_free h' = h_free h ∧ h_used h' = h_used h ∧ h_top h' = h_top h ∧
    ∃ rl1, ptrs rl1 ≡ₚ ptrs l ∧ seg (h_blocks h') (h_fresh h') (rl1 ++ rl) 0).
Proof.
  revert fuel scan rl h. induction l as [|[q [a s]] l IH]; intros fuel scan rl h Hh Hs Hnd Hto Hr Hd Hf;
    (destruct fuel as [|fuel]; [simpl in Hf; lia|]); cbn [release_loop].
  - simpl in Hs. subst. rewrite Z.eqb_refl. simpl. split; [apply keeps_refl|]. split_and!; try done. by exists [].
  - destruct Hs as (-> & Hq & nx & Hm & Hs). simpl in Hnd, Hto, Hd. apply NoDup_cons in Hnd as [Hql Hnd].
    apply not_elem_of_cons in Hto as [Htq Hto]. destruct (Z.eqb_spec q to); [done|].
    mstep (get_block_run _ _ _ Hm). mstep (get_heap_run h Hh). mstep (upd_block_run q (b_set_next (h_fresh h)) _ _ Hm).
    mstep (modify_run (h_set_fresh q) (h_set_blocks (<[q := Block a (h_fresh h) s]> (h_blocks h)) h)).
    erewrite (bind_Done (upd_block q (b_set_addr 0))) by (apply upd_block_run; simpl; apply lookup_insert_eq). cbn beta iota.
    erewrite (bind_Done (upd_block q (b_set_size 0))) by (apply upd_block_run; simpl; apply lookup_insert_eq). cbn beta iota.
    simpl. rewrite !insert_insert_eq.
    eapply wp_mono; [apply (IH fuel nx ((q, (0, 0)) :: rl))|].
    + done.
    + by apply seg_insert.
    + done.
    + done.
    + simpl. split; [done|]. split; [done|]. exists (h_fresh h). rewrite lookup_insert_eq. split; [done|].
      apply seg_insert; [apply Hd; left|done].
    + intros r Hr1. simpl. apply not_elem_of_cons. split; [by intros ->|]. apply Hd. by right.
    + simpl in Hf. lia.
    + simpl. intros _ h' (Hk & Hfr & Hus & Htp & rl1 & Hp & Hsg). split; [|split_and!; try done].
      * destruct Hk as [Hc Hk]. split; [done|]. intros r [Hrq Hrl]%not_elem_of_cons. rewrite (Hk r Hrl). simpl.
        by rewrite lookup_insert_ne.
      * exists (rl1 ++ [(q, (0, 0))]). rewrite <-app_assoc. split; [|done]. unfold ptrs in *. rewrite fmap_app, Hp. simpl.
        by rewrite <-Permutation_cons_append.
Qed.

Lemma merge_scan_run fuel prev bp scan l h :
  h_blocks h !! prev = Some bp → seg (h_blocks h) scan l 0 → tame (b_addr bp, b_size bp) → Forall tame (ranges l) → (length l < fuel)%nat →
  ∃ l1 l2 prev' b', merge_scan fuel prev scan h = Done prev' h ∧ l = l1 ++ l2 ∧ prev' = default prev (last (ptrs l1)) ∧
    h_blocks h !! prev' = Some b' ∧ contig (b_addr bp + b_size bp) (ranges l1) ∧ tame (b_addr b', b_size b') ∧
    b_addr b' + b_size b' = end_from (b_addr bp + b_size bp) (ranges l1) ∧
    seg (h_blocks h) (if l1 is [] then b_next bp else scan) l1 (b_next b') ∧ (l1 ≠ [] → seg (h_blocks h) (b_next b') l2 0).
Proof.
  revert prev bp scan l. induction fuel as [|fuel IH]; intros prev bp scan l Hp Hs Htp Ht Hf; [lia|]. cbn [merge_scan].
  destruct l as [|[q [a s]] l]; cbn [seg] in Hs.
  - subst scan. exists [], [], prev, bp. simpl. done.
  - destruct Hs as (-> & Hq & nx & Hm & Hs). destruct (Z.eqb_spec q 0); [done|].
    mstep (get_block_run _ _ _ Hp). mstep (get_block_run _ _ _ Hm). cbn [b_addr b_size b_next]. simpl in Ht, Hf.
    apply Forall_cons in Ht as [Hta Ht]. rewrite (wrap_small 64) by (unfold tame in Htp; simpl in Htp; lia).
    destruct (Z.eqb_spec (b_addr bp + b_size bp) a) as [Ha|Ha].
    + destruct (IH q (Block a nx s) nx l Hm Hs Hta Ht ltac:(lia)) as (l1 & l2 & prev' & b' & -> & -> & -> & Hb & Hc & Htb & He & Hs1 & Hs2).
      simpl b_addr in *. simpl b_size in *. simpl b_next in *.
      exists ((q, (a, s)) :: l1), l2, (default q (last (ptrs l1))), b'. split_and!; try done.
      * simpl. destruct (ptrs l1) as [|z l0] eqn:E; [done|]. simpl. by destruct (last (z :: l0)) eqn:El; [|apply last_None in El].
      * simpl. split; [done|]. split; [done|]. exists nx. split; [done|]. by destruct l1.
      * intros _. destruct l1 as [|x l1]; [|by apply Hs2]. simpl in Hs1. by rewrite <-Hs1.
    + exists [], ((q, (a, s)) :: l), prev, bp. simpl. done.
Qed.

(** The record [q] takes over the ranges of the records [l1] behind it. *)
Lemma absorb_wp q a s nx l1 n2 rl e h :
  h_ptr h ≠ 0 → h_blocks h !! q = Some (Block a nx s) → seg (h_blocks h) nx l1 n2 → NoDup (q :: ptrs l1) → n2 ∉ ptrs l1 →
  seg (h_blocks h) (h_fresh h) rl 0 → (∀ r, r ∈ q :: ptrs l1 → r ∉ ptrs rl) →
  wp ((upd_block q (b_set_size e);; release_blocks nx n2;; upd_block q (b_set_next n2)) h) (λ _ h',
    keeps (q :: ptrs l1) h h' ∧ h_free h' = h_free h ∧ h_used h' = h_used h ∧ h_top h' = h_top h ∧
    h_blocks h' !! q = Some (Block a n2 e) ∧ ∃ rl1, ptrs rl1 ≡ₚ ptrs l1 ∧ seg (h_blocks h') (h_fresh h') (rl1 ++ rl) 0).
Proof.
  intros Hh Hm Hs Hnd Hn2 Hr Hd. apply NoDup_cons in Hnd as [Hq Hnd]. mstep (upd_block_run q (b_set_size e) _ _ Hm).
  assert (seg (<[q := Block a nx e]> (h_blocks h)) nx l1 n2) as Hs' by by apply seg_insert.
  rewrite wp_bind. unfold release_blocks. rewrite (bind_Done get _ _ _ _ eq_refl).
  eapply wp_mono; [apply (release_loop_wp _ nx n2 l1 rl)|]; try done.
  - apply seg_insert; [apply Hd; left|done].
  - intros r Hr1. apply Hd. by right.
  - unfold list_fuel. pose proof (seg_fuel _ _ _ _ Hs' Hnd). by apply Nat.lt_succ_r.
  - intros _ h1 ([Hc Hk] & Hfr & Hus & Htp & rl1 & Hp & Hsg). simpl in *.
    assert (h_blocks h1 !! q = Some (Block a nx e)) as Hq1 by (rewrite (Hk q Hq); apply lookup_insert_eq).
    rewrite (upd_block_run q (b_set_next n2) _ _ Hq1). simpl. split; [|split_and!; try done].
    + split; [done|]. intros r [Hrq Hrl]%not_elem_of_cons. simpl. rewrite lookup_insert_ne, (Hk r Hrl) by done. by apply lookup_insert_ne.
    + apply lookup_insert_eq.
    + exists rl1. split; [done|]. apply seg_insert; [|done]. unfold ptrs. rewrite fmap_app. intros [Hi|Hi]%elem_of_app.
      * fold (ptrs rl1) in Hi. rewrite Hp in Hi. done.
      * by eapply Hd; [left|].
Qed.

(** The list [l] from [ptr] on was compacted; the records it gave up are in
    front of [rl] on the fresh list. *)
Definition compacted (ptr : Z) (l rl : list item) (h h' : theap) : Prop :=
  keeps (ptrs l) h h' ∧ h_free h' = h_free h ∧ h_used h' = h_used h ∧ h_top h' = h_top h ∧
  ∃ l' rl1, ptrs l' ++ ptrs rl1 ≡ₚ ptrs l ∧ merges (ranges l) (ranges l') ∧ seg (h_blocks h') ptr l' 0 ∧
    seg (h_blocks h') (h_fresh h') (rl1 ++ rl) 0.

(** [absorbed q a s l1 l2 rl h h1 n2]: [q] has taken over [l1] and goes on
    with [l2]. *)
Definition absorbed (q a s : Z) (l1 l2 rl : list item) (h h1 : theap) (n2 : Z) : Prop :=
  keeps (q :: ptrs l1) h h1 ∧ h_free h1 = h_free h ∧ h_used h1 = h_used h ∧ h_top h1 = h_top h ∧
  h_blocks h1 !! q = Some (Block a n2 (end_from (a + s) (ranges l1) - a)) ∧ contig (a + s) (ranges l1) ∧ seg (h_blocks h1) n2 l2 0 ∧
  ∃ rl1, ptrs rl1 ≡ₚ ptrs l1 ∧ seg (h_blocks h1) (h_fresh h1) (rl1 ++ rl) 0.

Lemma compacted_cons q a s l1 l2 n2 rl rl1 h h1 h' :
  q ≠ 0 → q ∉ ptrs l2 → absorbed q a s l1 l2 rl h h1 n2 → ptrs rl1 ≡ₚ ptrs l1 →
  compacted n2 l2 (rl1 ++ rl) h1 h' → compacted q ((q, (a, s)) :: l1 ++ l2) rl h h'.
Proof.
  intros Hq Hq2 (Hk & Hf1 & Hu1 & Ht1 & Hq1 & Hc & _) Hp1 (Hk2 & Hf2 & Hu2 & Ht2 & l' & rl2 & Hp2 & Hmg & Hsl & Hsr).
  unfold compacted, ptrs, ranges in *. cbn [fmap list_fmap fst snd]. rewrite !fmap_app. split; [|split_and!; try congruence].
  - apply (keeps_trans _ _ h1).
    + eapply keeps_weaken; [exact Hk|]. clear. set_solver.
    + eapply keeps_weaken; [exact Hk2|]. clear. set_solver.
  - exists ((q, (a, end_from (a + s) (l1.*2) - a)) :: l'), (rl2 ++ rl1). split_and!.
    + simpl. rewrite fmap_app, Hp1. apply Permutation_skip. rewrite app_assoc, Hp2. apply Permutation_app_comm.
    + apply merges_contig; [done|]. simpl. by apply merges_keep.
    + simpl. split; [done|]. split; [done|]. exists n2. split; [|done]. destruct Hk2 as [_ Hk2]. by rewrite Hk2.
    + by rewrite <-app_assoc.
Qed.

(** One round of the loop. *)
Lemma compact_body_wp q a s nx l rl h :
  h_ptr h ≠ 0 → h_blocks h !! q = Some (Block a nx s) → seg (h_blocks h) nx l 0 → NoDup (q :: ptrs l) → Forall tame ((a, s) :: ranges l) →
  seg (h_blocks h) (h_fresh h) rl 0 → (∀ r, r ∈ q :: ptrs l → r ∉ ptrs rl) →
  wp ((prev ← merge_scan (list_fuel h) q nx;
      if negb (prev =? q) then
        p ← get_block prev;
        upd_block q (b_set_size (u64 (u64 (b_addr p - a) + b_size p)));;
        release_blocks nx (b_next p);;
        upd_block q (b_set_next (b_next p))
      else mret tt) h) (λ _ h1, ∃ l1 l2 n2, l = l1 ++ l2 ∧ absorbed q a s l1 l2 rl h h1 n2).
Proof.
  intros Hh Hm Hs Hnd Ht Hr Hd. apply Forall_cons in Ht as [Hta Ht]. pose proof (seg_fuel _ _ _ _ Hs (NoDup_cons_1_2 _ _ Hnd)) as Hfl.
  destruct (merge_scan_run (list_fuel h) q (Block a nx s) nx l h Hm Hs Hta Ht ltac:(unfold list_fuel; lia))
    as (l1 & l2 & prev & b' & Hrun & -> & -> & Hb & Hc & Htb & He & Hs1 & Hs2). cbn [b_addr b_size b_next] in *.
  mstep Hrun. unfold ptrs in Hnd, Hd. rewrite fmap_app in Hnd, Hd. apply NoDup_cons in Hnd as [Hnq Hnd].
  apply not_elem_of_app in Hnq as [Hq1 Hq2]. apply NoDup_app in Hnd as (Hnd1 & Hnd12 & Hnd2).
  destruct (decide (l1 = [])) as [->|Hne].
  - simpl. rewrite Z.eqb_refl. simpl. exists [], l2, nx. split; [done|]. split; [apply keeps_refl|]. split_and!; try done.
    + simpl. by replace (a + s - a) with s by lia.
    + by exists [].
  - assert (default q (last (ptrs l1)) ∈ ptrs l1) as Hin.
    { destruct (last (ptrs l1)) as [z|] eqn:El; [by apply last_Some_elem_of in El|]. apply last_None, fmap_nil_inv in El. done. }
    destruct (Z.eqb_spec (default q (last (ptrs l1))) q) as [Eq|_]; [by rewrite Eq in Hin|]. cbn [negb].
    mstep (get_block_run _ _ _ Hb). destruct l1 as [|x l1']; [done|]. specialize (Hs2 Hne).
    unfold tame in Hta, Htb. cbn [fst snd] in *.
    assert (a + s ≤ end_from (a + s) (ranges (x :: l1'))) as Hge.
    { apply end_from_ge; [done|]. unfold ranges in Ht. rewrite fmap_app in Ht. by apply Forall_app in Ht as [? _]. }
    rewrite wrap_add_l, wrap_small by lia. replace (b_addr b' - a + b_size b') with (end_from (a + s) (ranges (x :: l1')) - a) by lia.
    eapply wp_mono; [apply (absorb_wp q a s nx (x :: l1') (b_next b') rl)|]; try done.
    + apply NoDup_cons. done.
    + eapply seg_apart; [exact Hs1|exact Hs2|exact Hnd12].
    + intros r Hr1. apply Hd. clear -Hr1. unfold ptrs in Hr1. set_solver.
    + intros _ h1 (Hk & Hf1 & Hu1 & Ht1 & Hq1' & rl1 & Hp1 & Hsg). exists (x :: l1'), l2, (b_next b'). split; [done|].
      split; [done|]. split_and!; try done; [|by exists rl1]. apply (keeps_seg _ _ _ _ _ _ Hk); [|done].
      intros r Hr2 [->|Hr1]%elem_of_cons; [done|by eapply Hnd12].
Qed.

Lemma compact_loop_wp fuel ptr l rl h :
  h_ptr h ≠ 0 → seg (h_blocks h) ptr l 0 → NoDup (ptrs l) → Forall tame (ranges l) → seg (h_blocks h) (h_fresh h) rl 0 →
  (∀ q, q ∈ ptrs l → q ∉ ptrs rl) → (length l < fuel)%nat → wp (compact_loop fuel ptr h) (λ _ h', compacted ptr l rl h h').
Proof.
  revert ptr l rl h. induction fuel as [|fuel IH]; intros ptr l rl h Hh Hs Hnd Ht Hr Hd Hf; [lia|]. cbn [compact_loop].
  destruct l as [|[q [a s]] l]; cbn [seg] in Hs.
  { subst ptr. simpl. split; [apply keeps_refl|]. split_and!; try done. exists [], []. split_and!; try done. constructor. }
  destruct Hs as (-> & Hq & nx & Hm & Hs). destruct (Z.eqb_spec q 0); [done|].
  mstep (eq_refl : get h = Done h h). mstep (get_block_run _ _ _ Hm). cbn [b_next b_addr].
  pose proof (compact_body_wp q a s nx l rl h Hh Hm Hs Hnd Ht Hr Hd) as Hb.
  rewrite wp_bind in Hb |- *. eapply wp_mono; [exact Hb|]. clear Hb. cbn beta. intros prev h0 Hb.
  rewrite wp_bind. eapply wp_mono; [exact Hb|]. clear Hb. cbn beta. intros _ h1 (l1 & l2 & n2 & -> & Hab).
  pose proof Hab as (Hk & _ & _ & _ & Hq1 & _ & Hs2 & rl1 & Hp1 & Hsg). mstep (get_block_run _ _ _ Hq1). cbn [b_next].
  change (NoDup (q :: (l1 ++ l2).*1)) in Hnd. change (Forall tame ((a, s) :: (l1 ++ l2).*2)) in Ht.
  change (∀ r, r ∈ q :: (l1 ++ l2).*1 → r ∉ ptrs rl) in Hd. rewrite fmap_app in Hnd, Hd. rewrite fmap_app in Ht.
  apply NoDup_cons in Hnd as [[Hql1 Hql2]%not_elem_of_app Hnd]. apply NoDup_app in Hnd as (Hnd1 & Hnd12 & Hnd2).
  apply Forall_cons in Ht as [_ [_ Ht]%Forall_app].
  eapply wp_mono; [apply (IH n2 l2 (rl1 ++ rl) h1)|]; try done.
  - destruct Hk as [Hc1 _]. injection Hc1. congruence.
  - intros r Hr2. unfold ptrs. rewrite fmap_app. intros [Hi|Hi]%elem_of_app.
    + rewrite Hp1 in Hi. by eapply Hnd12.
    + eapply Hd; [|exact Hi]. right. apply elem_of_app. by right.
  - simpl in Hf. rewrite length_app in Hf. lia.
  - intros [] h' Hc. by apply (compacted_cons q a s l1 l2 n2 rl rl1 h h1).
Qed.

(** ** The lists of the heap *)

Record Shape (h : theap) (fl ul rl : list item) : Prop := {
  sh_ptr : h_ptr h ≠ 0;
  sh_free : seg (h_blocks h) (h_free h) fl 0;
  sh_used : seg (h_blocks h) (h_used h) ul 0;
  sh_fresh : seg (h_blocks h) (h_fresh h) rl 0;
  sh_nodup : NoDup (ptrs fl ++ ptrs ul ++ ptrs rl)
}.

Lemma NoDup_3 (l1 l2 l3 : list Z) :
  NoDup (l1 ++ l2 ++ l3) ↔ NoDup l1 ∧ NoDup l2 ∧ NoDup l3 ∧ (∀ x, x ∈ l1 → x ∉ l2) ∧ (∀ x, x ∈ l1 → x ∉ l3) ∧ (∀ x, x ∈ l2 → x ∉ l3).
Proof.
  rewrite !NoDup_app. setoid_rewrite not_elem_of_app. naive_solver.
Qed.

Lemma ptrs_app l1 l2 : ptrs (l1 ++ l2) = ptrs l1 ++ ptrs l2.
Proof. apply fmap_app. Qed.
Lemma ranges_app l1 l2 : ranges (l1 ++ l2) = ranges l1 ++ ranges l2.
Proof. apply fmap_app. Qed.
Lemma cfg_ptr h h' : cfg h' = cfg h → h_ptr h' = h_ptr h.
Proof. unfold cfg. congruence. Qed.

(** A record in no list goes to the free list, which is then compacted. *)
Lemma insert_compact_wp p a s nx fl ul rl h :
  Shape h fl ul rl → p ≠ 0 → p ∉ ptrs fl ++ ptrs ul ++ ptrs rl → h_blocks h !! p = Some (Block a nx s) →
  Forall tame ((a, s) :: ranges fl) →
  wp ((insert_block p;; compact) h) (λ _ h', cfg h' = cfg h ∧ h_top h' = h_top h ∧
    ∃ l1 l2 fl' rl', fl = l1 ++ l2 ∧ Shape h' fl' ul rl' ∧ ptrs fl' ++ ptrs rl' ≡ₚ p :: ptrs fl ++ ptrs rl ∧
      merges (ranges (l1 ++ (p, (a, s)) :: l2)) (ranges fl')).
Proof.
  intros [Hh Hf Hu Hr Hnd] Hp Hn Hm Ht. apply not_elem_of_app in Hn as [Hnf [Hnu Hnr]%not_elem_of_app].
  apply NoDup_3 in Hnd as (Hn1 & Hn2 & Hn3 & H12 & H13 & H23). apply Forall_cons in Ht as [Hta Ht].
  rewrite wp_bind. eapply wp_mono; [by apply (insert_block_wp p a s fl h nx)|].
  intros _ h1 (Hk & Eu & Er & Et & l1 & l2 & -> & Hs1). pose proof (cfg_ptr _ _ (proj1 Hk)) as Hp1.
  unfold compact. mstep (get_heap_run h1 ltac:(congruence)).
  assert (ptrs (l1 ++ (p, (a, s)) :: l2) ≡ₚ p :: ptrs (l1 ++ l2)) as Hperm.
  { rewrite !ptrs_app. simpl. by rewrite Permutation_middle. }
  assert (NoDup (ptrs (l1 ++ (p, (a, s)) :: l2))) as Hnd1 by (rewrite Hperm; by apply NoDup_cons).
  eapply wp_mono; [apply (compact_loop_wp _ _ (l1 ++ (p, (a, s)) :: l2) rl h1)|]; try done; try congruence.
  - rewrite ranges_app in Ht |- *. apply Forall_app in Ht as [? ?]. apply Forall_app. split; [done|]. by apply Forall_cons.
  - rewrite Er. apply (keeps_seg _ _ _ _ _ _ Hk); [|done]. intros q Hq [->|Hqf]%elem_of_cons; [done|by eapply H13].
  - intros q. rewrite Hperm. intros [->|Hq]%elem_of_cons; [done|by apply H13].
  - unfold list_fuel. pose proof (seg_fuel _ _ _ _ Hs1 Hnd1). lia.
  - intros _ h2 (Hk2 & Ef2 & Eu2 & Et2 & fl' & rl1 & Hp2 & Hmg & Hsf & Hsr).
    split; [by rewrite (proj1 Hk2), (proj1 Hk)|]. split; [congruence|].
    exists l1, l2, fl', (rl1 ++ rl). split; [done|]. rewrite Hperm in Hp2.
    split; [|split; [by rewrite ptrs_app, app_assoc, Hp2|done]]. split.
    + rewrite (cfg_ptr _ _ (proj1 Hk2)). congruence.
    + by rewrite Ef2.
    + rewrite Eu2, Eu. apply (keeps_seg _ _ _ _ _ _ Hk2); [|apply (keeps_seg _ _ _ _ _ _ Hk); [|done]];
        intros q Hq; rewrite ?Hperm; intros [->|Hqf]%elem_of_cons; [done|by eapply H12|done|by eapply H12].
    + done.
    + rewrite ptrs_app, (Permutation_app_comm (ptrs ul)), !app_assoc, Hp2, <-!app_assoc.
      rewrite <-app_comm_cons, (Permutation_app_comm (ptrs rl)).
      apply NoDup_cons. split; [|by apply NoDup_3].
      rewrite !not_elem_of_app. done.
Qed.

(** Take a record out of the list that starts at [head]. *)
Definition unlinked (set : Z → theap → theap) (head nx : Z) (l1 l2 : list item) (h h' : theap) : Prop :=
  ∃ m, h' = h_set_blocks m (if l1 is [] then set nx h else h) ∧ seg m (if l1 is [] then nx else head) (l1 ++ l2) 0 ∧
    ∀ r, r ∉ ptrs l1 → m !! r = h_blocks h !! r.

Lemma unlink_wp set head q a s nx l1 l2 h :
  (∀ v, h_blocks (set v h) = h_blocks h) → h_set_blocks (h_blocks h) (set nx h) = set nx h →
  seg (h_blocks h) head l1 q → h_blocks h !! q = Some (Block a nx s) → seg (h_blocks h) nx l2 0 → NoDup (ptrs (l1 ++ (q, (a, s)) :: l2)) →
  wp ((if negb (default 0 (last (ptrs l1)) =? 0) then upd_block (default 0 (last (ptrs l1))) (b_set_next nx) else modify (set nx)) h)
    (λ _ h', unlinked set head nx l1 l2 h h').
Proof.
  intros Hset Hset' H1 Hm H2 Hnd. destruct l1 as [|[r [a1 s1]] l0 _] using rev_ind.
  - simpl. exists (h_blocks h). done.
  - rewrite !ptrs_app in *. simpl. rewrite last_snoc. simpl.
    pose proof H1 as (y & Hy1 & (-> & Hr0 & nr & Hmr & _))%seg_app. destruct (Z.eqb_spec r 0); [done|]. simpl.
    rewrite (upd_block_run r (b_set_next nx) _ _ Hmr). simpl. exists (<[r := Block a1 nx s1]> (h_blocks h)).
    simpl in Hnd. rewrite NoDup_app, NoDup_app in Hnd. destruct Hnd as ((Hnd0 & Hd0 & _) & Hd1 & _).
    assert (r ∉ ptrs l0) by (clear -Hd0; set_solver). assert (r ∉ ptrs l2) by (clear -Hd1; set_solver).
    split; [by destruct l0|]. split.
    + apply seg_app. exists nx. split; [|by apply seg_insert].
      destruct l0; apply (seg_relink _ _ _ _ _ _ q (Block a1 nx s1)); done.
    + intros r' Hr'. rewrite ptrs_app in Hr'. rewrite lookup_insert_ne; [done|]. clear -Hr'. set_solver.
Qed.

(** ** Disjoint ranges *)

Definition apart (r1 r2 : Z * Z) : Prop := r1.2 = 0 ∨ r2.2 = 0 ∨ r1.1 + r1.2 ≤ r2.1 ∨ r2.1 + r2.2 ≤ r1.1.
Fixpoint disj (l : list (Z * Z)) : Prop :=
  match l with [] => True | r :: l => Forall (apart r) l ∧ disj l end.

Lemma apart_sym r1 r2 : apart r1 r2 → apart r2 r1.
Proof. unfold apart. lia. Qed.

Lemma disj_perm l l' : l ≡ₚ l' → disj l → disj l'.
Proof.
  induction 1 as [|r l l' Hp IH|r1 r2 l|l1 l2 l3 _ IH1 _ IH2]; simpl; [done| | |by auto].
  - intros [Hr Hl]. split; [by rewrite <-Hp|by apply IH].
  - rewrite !Forall_cons. intros [[H12 H1] [H2 Hl]]. split_and!; try done. by apply apart_sym.
Qed.

#[export] Instance disj_proper : Proper ((≡ₚ) ==> iff) disj.
Proof. intros l l' Hp. split; by apply disj_perm. Qed.

Lemma disj_app l1 l2 : disj (l1 ++ l2) ↔ disj l1 ∧ disj l2 ∧ Forall (λ r, Forall (apart r) l2) l1.
Proof.
  induction l1 as [|r l1 IH]; simpl; [naive_solver|]. rewrite IH, Forall_app, Forall_cons. naive_solver.
Qed.

(** Joining neighbours keeps what holds of joined ranges, and disjointness. *)
Lemma merges_Forall (P : Z * Z → Prop) l l' :
  (∀ a s1 s2, P (a, s1) → P (a + s1, s2) → P (a, s1 + s2)) → merges l l' → Forall P l → Forall P l'.
Proof.
  intros HP. induction 1 as [|r l l' Hm IH|a s1 s2 l l' Hm IH]; rewrite ?Forall_cons; [done|naive_solver|].
  intros (H1 & H2 & Hl). apply IH. apply Forall_cons. auto.
Qed.

Definition sized (r : Z * Z) : Prop := 0 ≤ r.2.
Lemma apart_join r a s1 s2 : sized r → sized (a, s1) → sized (a + s1, s2) → apart r (a, s1) → apart r (a + s1, s2) → apart r (a, s1 + s2).
Proof. unfold apart, sized. simpl. lia. Qed.

Lemma merges_disj l l' u : merges l l' → Forall sized (l ++ u) → disj (l ++ u) → disj (l' ++ u).
Proof.
  induction 1 as [|r l l' Hm IH|a s1 s2 l l' Hm IH]; simpl; [done| |].
  - intros [Hr Hs]%Forall_cons [Hap Hd]. split; [|by apply IH]. apply Forall_app in Hap as [Hl Hu]. apply Forall_app. split; [|done].
    apply Forall_app in Hs as [Hs _].
    apply (Forall_impl (λ x, sized x ∧ apart r x)); [|by intros ? []].
    apply (merges_Forall _ l); [|done|by apply Forall_and].
    intros a s1 s2 [? ?] [? ?]. split; [unfold sized in *; simpl in *; lia|by apply apart_join].
  - rewrite !Forall_cons. intros (H1 & H2 & Hs) ((H12 & Ha1) & Ha2 & Hd). apply IH; [apply Forall_cons|]; split; try done.
    + unfold sized in *. simpl in *. lia.
    + apply Forall_forall. intros x Hx. rewrite Forall_forall in Hs, Ha1, Ha2.
      apply apart_sym, apart_join; auto using apart_sym.
Qed.

(** ** The invariant *)

Definition start_of (h : theap) : Z := h_ptr h + SIZEOF_HEAP + heap_max_blocks h * SIZEOF_BLOCK.

Record range_ok (h : theap) (top : Z) (r : Z * Z) : Prop := {
  ro_start : start_of h ≤ r.1;
  ro_size : 0 ≤ r.2;
  ro_limit : r.1 + r.2 ≤ heap_limit h;
  ro_top : 0 < r.2 → r.1 + r.2 ≤ top;
  ro_addr : (heap_alignment h | r.1);
  ro_mult : (heap_alignment h | r.2)
}.

Record HInv (h : theap) (fl ul rl : list item) : Prop := {
  hi_shape : Shape h fl ul rl;
  hi_count : Z.of_nat (length (ptrs fl ++ ptrs ul ++ ptrs rl)) = heap_max_blocks h;
  hi_base : 0 ≤ h_ptr h ∧ start_of h ≤ h_top h ≤ heap_limit h ∧ heap_limit h < 2 ^ 63;
  hi_top : (heap_alignment h | h_top h);
  hi_ok : Forall (range_ok h (h_top h)) (ranges fl ++ ranges ul);
  hi_disj : disj (ranges fl ++ ranges ul)
}.

Lemma range_ok_join h top a s1 s2 : range_ok h top (a, s1) → range_ok h top (a + s1, s2) → range_ok h top (a, s1 + s2).
Proof.
  intros [A1 A2 A3 A4 A5 A6] [B1 B2 B3 B4 B5 B6]. simpl in *. split; simpl; try lia; try done.
  by apply Z.divide_add_r.
Qed.
Lemma range_ok_sized h top l : Forall (range_ok h top) l → Forall sized l.
Proof. intros H. eapply Forall_impl; [exact H|]. by intros r []. Qed.
Lemma HInv_tame h fl ul rl : HInv h fl ul rl → Forall tame (ranges fl).
Proof.
  intros [_ Hc Hb _ Hok _]. apply Forall_app in Hok as [Hok _]. eapply Forall_impl; [exact Hok|].
  intros r [A1 A2 A3 _ _ _]. unfold start_of, SIZEOF_HEAP, SIZEOF_BLOCK in A1. unfold tame. lia.
Qed.

Lemma ranges_cons q r l : ranges ((q, r) :: l) = r :: ranges l.
Proof. done. Qed.
Lemma ptrs_cons q r l : ptrs ((q, r) :: l) = q :: ptrs l.
Proof. done. Qed.

(** Count records. *)
Ltac count := unfold ptrs; repeat first [rewrite length_app | rewrite length_fmap | progress cbn [length]]; lia.

(** The invariant after a record was put on the free list and the list was
    compacted. *)
Lemma HInv_compacted h h' p a s l1 l2 ul rl0 fl' rl' :
  cfg h' = cfg h → Shape h' fl' ul rl' → ptrs fl' ++ ptrs rl' ≡ₚ p :: ptrs (l1 ++ l2) ++ ptrs rl0 →
  merges (ranges (l1 ++ (p, (a, s)) :: l2)) (ranges fl') →
  Z.of_nat (length (p :: ptrs (l1 ++ l2) ++ ptrs rl0 ++ ptrs ul)) = heap_max_blocks h →
  0 ≤ h_ptr h ∧ start_of h ≤ h_top h' ≤ heap_limit h ∧ heap_limit h < 2 ^ 63 → (heap_alignment h | h_top h') →
  Forall (range_ok h (h_top h')) ((a, s) :: ranges (l1 ++ l2) ++ ranges ul) → disj ((a, s) :: ranges (l1 ++ l2) ++ ranges ul) →
  HInv h' fl' ul rl'.
Proof.
  intros Hc Hsh Hp Hm Hlen Hb Ht Hok Hd. unfold cfg in Hc. injection Hc as E1 E2 E3 E4 E5 E6.
  assert (start_of h' = start_of h) as Es by (unfold start_of; congruence).
  assert (∀ r, range_ok h (h_top h') r → range_ok h' (h_top h') r) as Hr.
  { intros r [A1 A2 A3 A4 A5 A6]. split; rewrite ?Es, ?E2, ?E4; done. }
  assert ((a, s) :: ranges (l1 ++ l2) ++ ranges ul ≡ₚ ranges (l1 ++ (p, (a, s)) :: l2) ++ ranges ul) as Hperm.
  { rewrite !ranges_app, ranges_cons, app_comm_cons, Permutation_middle. done. }
  rewrite Hperm in Hok, Hd. split.
  - done.
  - rewrite E5, <-Hlen. f_equal. rewrite (Permutation_app_comm (ptrs ul)), app_assoc, Hp.
    simpl. rewrite <-app_assoc. done.
  - rewrite E1, E2, Es. done.
  - by rewrite E4.
  - apply (Forall_impl (range_ok h (h_top h'))); [|done]. apply Forall_app in Hok as [Hf Hu]. apply Forall_app. split; [|done].
    eapply merges_Forall; [|exact Hm|exact Hf]. apply range_ok_join.
  - eapply merges_disj; [exact Hm|by eapply range_ok_sized|done].
Qed.

(** ** ta_free *)

Lemma free_loop_cases fuel p head block u1 u2 h :
  seg (h_blocks h) head u1 block → seg (h_blocks h) block u2 0 → (length u2 < fuel)%nat →
  (Forall (λ r, r.1 ≠ p) (ranges u2) ∧ free_loop fuel p block (default 0 (last (ptrs u1))) h = Done false h) ∨
  ∃ u3 q s nx u4, u2 = u3 ++ (q, (p, s)) :: u4 ∧ Forall (λ r, r.1 ≠ p) (ranges u3) ∧ seg (h_blocks h) head (u1 ++ u3) q ∧ q ≠ 0 ∧
    h_blocks h !! q = Some (Block p nx s) ∧ seg (h_blocks h) nx u4 0 ∧
    free_loop fuel p block (default 0 (last (ptrs u1))) h =
      ((if negb (default 0 (last (ptrs (u1 ++ u3))) =? 0) then upd_block (default 0 (last (ptrs (u1 ++ u3)))) (b_set_next nx)
        else modify (h_set_used nx));; insert_block q;; compact;; mret true) h.
Proof.
  revert block u1 u2. induction fuel as [|fuel IH]; intros block u1 u2 H1 H2 Hf; [lia|]. cbn [free_loop].
  destruct u2 as [|[q [a s]] u2]; cbn [seg] in H2; [subst; by left|].
  destruct H2 as (-> & Hq & nx & Hm & H2). destruct (Z.eqb_spec q 0); [done|]. mstep (get_block_run _ _ _ Hm). cbn [b_addr b_next].
  destruct (Z.eqb_spec p a) as [->|Hpa].
  - right. exists [], q, s, nx, u2. rewrite app_nil_r. split_and!; done.
  - destruct (IH nx (u1 ++ [(q, (a, s))]) u2) as [[Hn Hr]|(u3 & q' & s' & nx' & u4 & -> & Hn & Hs & Hq' & Hm' & H4 & Hr)].
    + apply seg_app. exists q. split; [done|]. simpl. split_and!; try done. by exists nx.
    + done.
    + simpl in Hf. lia.
    + left. rewrite ptrs_app, last_app in Hr. simpl in Hr. split; [by apply Forall_cons|done].
    + right. rewrite <-app_assoc in Hs, Hr. rewrite (ptrs_app u1 [_]), last_app in Hr. simpl in Hr.
      exists ((q, (a, s)) :: u3), q', s', nx', u4. split_and!; try done. by apply Forall_cons.
Qed.

Lemma seg_split m p l1 q r l2 : seg m p (l1 ++ (q, r) :: l2) 0 → ∃ nx, seg m p l1 q ∧ q ≠ 0 ∧ m !! q = Some (Block r.1 nx r.2) ∧ seg m nx l2 0.
Proof.
  destruct r as [a s]. intros (y & H1 & (-> & Hq & nx & Hm & H2))%seg_app. eauto.
Qed.

Lemma unlinked_used h h1 fl u1 q r u2 rl nx :
  Shape h fl (u1 ++ (q, r) :: u2) rl → unlinked h_set_used (h_used h) nx u1 u2 h h1 →
  Shape h1 fl (u1 ++ u2) rl ∧ cfg h1 = cfg h ∧ h_top h1 = h_top h ∧ h_blocks h1 !! q = h_blocks h !! q ∧ q ∉ ptrs fl ++ ptrs (u1 ++ u2) ++ ptrs rl.
Proof.
  intros [Hh Hf Hu Hr Hnd] (m & -> & Hs & Hk). rewrite ptrs_app, ptrs_cons in Hnd.
  assert (NoDup (q :: ptrs fl ++ ptrs (u1 ++ u2) ++ ptrs rl)) as [Hq Hnd']%NoDup_cons.
  { rewrite ptrs_app. revert Hnd. apply NoDup_Permutation_proper. rewrite <-!app_assoc, <-app_comm_cons.
    by rewrite !app_assoc, <-Permutation_middle, <-!app_assoc. }
  assert (q ∉ ptrs u1) as Hq1 by (rewrite ptrs_app in Hq; clear -Hq; set_solver).
  rewrite ptrs_app in Hnd'. pose proof Hnd' as (_ & Hnu & _ & H12 & _ & H23)%NoDup_3.
  assert (∀ x, x ∈ ptrs fl → x ∉ ptrs u1) as D1 by (clear -H12; set_solver).
  assert (∀ x, x ∈ ptrs rl → x ∉ ptrs u1) as D2 by (clear -H23; set_solver).
  split; [|split_and!; [by destruct u1|by destruct u1| |done]].
  - split; [by destruct u1| |by destruct u1| |by rewrite ptrs_app];
      destruct u1; simpl; (apply (seg_ext (h_blocks h)); [|done]); intros x Hx; apply Hk; auto.
  - destruct u1; simpl; by apply Hk.
Qed.

Lemma unlinked_free h h1 l1 q r l2 ul rl nx :
  Shape h (l1 ++ (q, r) :: l2) ul rl → unlinked h_set_free (h_free h) nx l1 l2 h h1 →
  Shape h1 (l1 ++ l2) ul rl ∧ cfg h1 = cfg h ∧ h_top h1 = h_top h ∧ h_used h1 = h_used h ∧ h_fresh h1 = h_fresh h ∧
  h_blocks h1 !! q = h_blocks h !! q ∧ q ∉ ptrs (l1 ++ l2) ++ ptrs ul ++ ptrs rl.
Proof.
  intros [Hh Hf Hu Hr Hnd] (m & -> & Hs & Hk). rewrite ptrs_app, ptrs_cons in Hnd.
  assert (NoDup (q :: ptrs (l1 ++ l2) ++ ptrs ul ++ ptrs rl)) as [Hq Hnd']%NoDup_cons.
  { rewrite ptrs_app. revert Hnd. apply NoDup_Permutation_proper. rewrite <-!app_assoc. simpl. by rewrite <-Permutation_middle. }
  assert (q ∉ ptrs l1) as Hq1 by (rewrite ptrs_app in Hq; clear -Hq; set_solver).
  rewrite ptrs_app in Hnd'. pose proof Hnd' as (_ & Hnu & _ & H12 & H13 & _)%NoDup_3.
  assert (∀ x, x ∈ ptrs ul → x ∉ ptrs l1) as D1 by (clear -H12; set_solver).
  assert (∀ x, x ∈ ptrs rl → x ∉ ptrs l1) as D2 by (clear -H13; set_solver).
  split; [|split_and!; [by destruct l1|by destruct l1|by destruct l1|by destruct l1| |done]].
  - split; [by destruct l1|by destruct l1| | |by rewrite ptrs_app];
      destruct l1; simpl; (apply (seg_ext (h_blocks h)); [|done]); intros x Hx; apply Hk; auto.
  - destruct l1; simpl; by apply Hk.
Qed.

(** Freeing an address gives up the block that was handed out last at it. *)
Definition freed (p : Z) (ul ul' : list item) (b : bool) : Prop :=
  if b then ∃ u1 q s u2, ul = u1 ++ (q, (p, s)) :: u2 ∧ Forall (λ r, r.1 ≠ p) (ranges u1) ∧ ul' = u1 ++ u2
  else Forall (λ r, r.1 ≠ p) (ranges ul) ∧ ul' = ul.

Lemma ta_free_wp p fl ul rl h :
  HInv h fl ul rl → wp (ta_free p h) (λ b h', cfg h' = cfg h ∧ ∃ fl' ul' rl', HInv h' fl' ul' rl' ∧ freed p ul ul' b).
Proof.
  intros HI. pose proof HI as [Hsh Hlen Hb Htop Hok Hd]. pose proof Hsh as [Hh Hf Hu Hr Hnd].
  pose proof Hnd as (_ & Hnu & _)%NoDup_3.
  unfold ta_free. mstep (get_heap_run h Hh).
  destruct (free_loop_cases (list_fuel h) p (h_used h) (h_used h) [] ul h) as [[Hn Hrun]|(u3 & q & s & nx & u4 & -> & Hn & Hs & Hq & Hm & H4 & Hrun)].
  - done.
  - done.
  - unfold list_fuel. pose proof (seg_fuel _ _ _ _ Hu Hnu). lia.
  - change (default 0 (last (ptrs []))) with 0 in Hrun. rewrite Hrun. simpl. split; [done|]. by exists fl, ul, rl.
  - change (default 0 (last (ptrs []))) with 0 in Hrun. rewrite Hrun. clear Hrun. simpl in Hs. rewrite wp_bind.
    eapply wp_mono; [apply (unlink_wp h_set_used (h_used h) q p s nx u3 u4 h); try done; by destruct h|].
    intros [] h1 Hul. apply (unlinked_used _ _ _ _ _ _ _ _ _ Hsh) in Hul as (Hsh1 & Hc1 & Ht1 & Hm1 & Hq1). rewrite Hm in Hm1.
    assert (Forall (range_ok h (h_top h)) ((p, s) :: ranges fl ++ ranges (u3 ++ u4)) ∧ disj ((p, s) :: ranges fl ++ ranges (u3 ++ u4))) as [Hok1 Hd1].
    { assert (ranges fl ++ ranges (u3 ++ (q, (p, s)) :: u4) ≡ₚ (p, s) :: ranges fl ++ ranges (u3 ++ u4)) as Hp.
      { rewrite !ranges_app, ranges_cons, !app_assoc. by rewrite <-Permutation_middle. }
      by rewrite <-Hp. }
    assert (Forall tame ((p, s) :: ranges fl)) as Htm.
    { apply Forall_cons. split; [|by eapply HInv_tame]. apply Forall_cons in Hok1 as [[A1 A2 A3 _ _ _] _].
      unfold start_of, SIZEOF_HEAP, SIZEOF_BLOCK in A1. unfold tame. simpl in *. lia. }
    pose proof (insert_compact_wp q p s nx fl (u3 ++ u4) rl h1 Hsh1 Hq Hq1 Hm1 Htm) as Hic.
    rewrite wp_bind in Hic. rewrite wp_bind. eapply wp_mono; [exact Hic|]. clear Hic. cbn beta. intros [] h2 Hic.
    rewrite wp_bind. eapply wp_mono; [exact Hic|]. clear Hic. cbn beta.
    intros _ h3 (Hc3 & Ht3 & l1 & l2 & fl' & rl' & -> & Hsh3 & Hp3 & Hmg). simpl. split; [congruence|].
    exists fl', (u3 ++ u4), rl'. split; [|by exists u3, q, s, u4].
    apply (HInv_compacted h h3 q p s l1 l2 (u3 ++ u4) rl fl' rl'); rewrite ?Ht3, ?Ht1; try done; [congruence|].
    rewrite <-Hlen. count.
Qed.

(** ** alloc_block *)

(** [x & -2^k] rounds down. *)
Lemma land_neg_pow2 k x : 0 ≤ k < 63 → 0 ≤ x < 2 ^ 64 → Z.land x (u64 (- 2 ^ k)) = x / 2 ^ k * 2 ^ k.
Proof.
  intros Hk Hx. assert (0 < 2 ^ k) by lia. assert (2 ^ k * 2 ^ (64 - k) = 2 ^ 64) as E by (rewrite <-Z.pow_add_r by lia; f_equal; lia).
  assert (u64 (- 2 ^ k) = Z.shiftl (Z.ones (64 - k)) k) as ->.
  { rewrite Z.shiftl_mul_pow2, Z.ones_equiv by lia. unfold wrap. rewrite <-(Z_mod_plus_full _ 1), Z.mod_small; nia. }
  rewrite <-Z.shiftl_mul_pow2, <-Z.shiftr_div_pow2 by lia. apply Z.bits_inj'. intros i Hi.
  rewrite Z.land_spec, !Z.shiftl_spec by lia. destruct (Z.ltb_spec i k).
  - rewrite !(Z.testbit_neg_r _ (i - k)) by lia. by rewrite andb_false_r.
  - rewrite Z.shiftr_spec by lia. replace (i - k + k) with i by lia. destruct (Z.ltb_spec (i - k) (64 - k)).
    + rewrite Z.ones_spec_low by lia. apply andb_true_r.
    + rewrite Z.ones_spec_high by lia. rewrite andb_false_r. symmetry.
      apply (Z.bits_above_log2 x i); [lia|]. destruct (Z.eq_dec x 0) as [->|]; [simpl; lia|]. apply Z.log2_lt_pow2; [lia|].
      apply (Z.lt_le_trans _ (2 ^ 64)); [lia|]. apply Z.pow_le_mono_r; lia.
Qed.

Lemma round_up_spec k num :
  0 ≤ k < 63 → 0 ≤ num → num + 2 ^ k ≤ 2 ^ 64 →
  num ≤ round_up (2 ^ k) num < num + 2 ^ k ∧ (2 ^ k | round_up (2 ^ k) num).
Proof.
  intros Hk Hn Hb. assert (0 < 2 ^ k) by lia. unfold round_up. rewrite (wrap_small 64 (num + 2 ^ k - 1)), land_neg_pow2 by lia.
  set (x := num + 2 ^ k - 1). pose proof (Z.div_mod x (2 ^ k) ltac:(lia)). pose proof (Z.mod_pos_bound x (2 ^ k) ltac:(lia)).
  split; [lia|]. by exists (x / 2 ^ k).
Qed.

(** What makes a free block good for [num] bytes: it is the last one and can be
    moved up to the limit, or it is large enough. *)
Definition fits (h : theap) (num a s : Z) (is_top : bool) : Prop :=
  if is_top then h_top h ≤ a + s ∧ a + num ≤ heap_limit h else num ≤ s.

Lemma alloc_loop_cases fuel num ptr l1 l2 h :
  seg (h_blocks h) (h_free h) l1 ptr → seg (h_blocks h) ptr l2 0 → (length l2 < fuel)%nat → Forall tame (ranges l2) →
  0 ≤ num < 2 ^ 63 →
  (alloc_loop fuel num (h_top h) ptr (default 0 (last (ptrs l1))) h = Done None h ∧ Forall (λ r, r.2 < num) (ranges l2)) ∨
  ∃ l3 q a s nx l4 it, l2 = l3 ++ (q, (a, s)) :: l4 ∧ seg (h_blocks h) (h_free h) (l1 ++ l3) q ∧ h_blocks h !! q = Some (Block a nx s) ∧
    q ≠ 0 ∧ seg (h_blocks h) nx l4 0 ∧ fits h num a s it ∧
    alloc_loop fuel num (h_top h) ptr (default 0 (last (ptrs l1))) h =
      (take_free num (h_top h) (default 0 (last (ptrs (l1 ++ l3)))) q (Block a nx s) it;; mret (Some q)) h.
Proof.
  revert ptr l1 l2. induction fuel as [|fuel IH]; intros ptr l1 l2 H1 H2 Hf Ht Hnum; [lia|]. cbn [alloc_loop].
  destruct l2 as [|[q [a s]] l2]; cbn [seg] in H2; [subst; by left|].
  destruct H2 as (-> & Hq & nx & Hm & H2). destruct (Z.eqb_spec q 0); [done|]. mstep (eq_refl : get h = Done h h).
  mstep (get_block_run _ _ _ Hm). cbn [b_addr b_next b_size]. rewrite ranges_cons in Ht. apply Forall_cons in Ht as [Hta Ht].
  unfold tame in Hta. simpl in Hta. rewrite !(wrap_small 64) by lia.
  destruct ((h_top h <=? a + s) && (a + num <=? heap_limit h) || (num <=? s)) eqn:Efit.
  - right. exists [], q, a, s, nx, l2, ((h_top h <=? a + s) && (a + num <=? heap_limit h)). rewrite app_nil_r. split_and!; try done.
    unfold fits. destruct ((h_top h <=? a + s) && (a + num <=? heap_limit h)) eqn:Et.
    + apply andb_true_iff in Et. rewrite !Z.leb_le in Et. done.
    + apply Z.leb_le. by rewrite orb_false_l in Efit.
  - destruct (IH nx (l1 ++ [(q, (a, s))]) l2) as [[Hr Hn]|(l3 & q' & a' & s' & nx' & l4 & it & -> & Hs & Hm' & Hq' & H4 & Hfit & Hr)].
    + apply seg_app. exists q. split; [done|]. simpl. split_and!; try done. by exists nx.
    + done.
    + simpl in Hf. lia.
    + done.
    + done.
    + left. rewrite ptrs_app, last_app in Hr. simpl in Hr. split; [done|]. rewrite ranges_cons. apply Forall_cons. split; [|done].
      apply orb_false_iff in Efit as [_ Efit]. apply Z.leb_gt in Efit. done.
    + right. rewrite <-app_assoc in Hs, Hr. rewrite (ptrs_app l1 [_]), last_app in Hr. simpl in Hr.
      exists ((q, (a, s)) :: l3), q', a', s', nx', l4, it. split_and!; done.
Qed.

(** A record in no list becomes the head of the used list. *)
Lemma Shape_push h fl ul rl q a s :
  Shape h fl ul rl → q ≠ 0 → q ∉ ptrs fl ++ ptrs ul ++ ptrs rl →
  Shape (h_set_used q (h_set_blocks (<[q := Block a (h_used h) s]> (h_blocks h)) h)) fl ((q, (a, s)) :: ul) rl.
Proof.
  intros [Hh Hf Hu Hr Hnd] Hq Hn. pose proof Hn as [Hn1 [Hn2 Hn3]%not_elem_of_app]%not_elem_of_app. split; simpl; try by apply seg_insert.
  - done.
  - split; [done|]. split; [done|]. exists (h_used h). rewrite lookup_insert_eq. split; [done|]. by apply seg_insert.
  - rewrite <-Permutation_middle. by apply NoDup_cons.
Qed.

(** The head of the used list gets another size. *)
Lemma Shape_resize h fl ul rl q a s s' :
  Shape h fl ((q, (a, s)) :: ul) rl → Shape (h_set_blocks (<[q := Block a (default 0 (b_next <$> h_blocks h !! q)) s']> (h_blocks h)) h) fl ((q, (a, s')) :: ul) rl.
Proof.
  intros [Hh Hf (Eu & Hq & nx & Hm & Hu) Hr Hnd]. rewrite ptrs_cons in Hnd. pose proof Hnd as (_ & Hn2 & _ & H12 & _ & H23)%NoDup_3.
  apply NoDup_cons in Hn2 as [Hn2 _]. assert (q ∉ ptrs fl) by (intros Hi; apply (H12 q Hi); left). assert (q ∉ ptrs rl) by (apply H23; left).
  split; simpl; try done; try by apply seg_insert.
  split; [done|]. split; [done|]. rewrite Hm. exists nx. rewrite lookup_insert_eq. split; [done|]. by apply seg_insert.
Qed.

(** A record in no list may change. *)
Lemma Shape_frame h fl ul rl f b :
  f ∉ ptrs fl ++ ptrs ul ++ ptrs rl → Shape h fl ul rl → Shape (h_set_blocks (<[f := b]> (h_blocks h)) h) fl ul rl.
Proof.
  intros [Hn1 [Hn2 Hn3]%not_elem_of_app]%not_elem_of_app [Hh Hf Hu Hr Hnd]. split; simpl; try done; by apply seg_insert.
Qed.

(** The first fresh record leaves its list. *)
Lemma Shape_pop h fl ul f r rl :
  Shape h fl ul ((f, r) :: rl) → ∃ nx, h_fresh h = f ∧ f ≠ 0 ∧ h_blocks h !! f = Some (Block r.1 nx r.2) ∧
    Shape (h_set_fresh nx h) fl ul rl ∧ f ∉ ptrs fl ++ ptrs ul ++ ptrs rl.
Proof.
  destruct r as [a s]. intros [Hh Hf Hu (Er & Hq & nx & Hm & Hr) Hnd]. rewrite ptrs_cons in Hnd. exists nx. split_and!; try done.
  - split; simpl; try done. rewrite NoDup_3 in Hnd |- *. rewrite NoDup_cons in Hnd. set_solver.
  - apply NoDup_3 in Hnd as (_ & _ & [Hn _]%NoDup_cons & _ & H13 & H23). rewrite !not_elem_of_app.
    split_and!; [intros Hi; apply (H13 f Hi); left|intros Hi; apply (H23 f Hi); left|done].
Qed.

(** The last block is moved: everything else ends before it. *)
Lemma retop h top a s r :
  range_ok h top (a, s) → range_ok h top r → apart (a, s) r → top ≤ a + s → 0 < r.2 → r.1 + r.2 ≤ a.
Proof. intros [A1 A2 A3 A4 _ _] [B1 B2 B3 B4 _ _] Hap Ht Hr. unfold apart in Hap. simpl in *. lia. Qed.

Lemma ranges_moved h top a s num l :
  Forall (range_ok h top) ((a, s) :: l) → disj ((a, s) :: l) → top ≤ a + s → 0 ≤ num → a + num ≤ heap_limit h → (heap_alignment h | num) →
  Forall (range_ok h (a + num)) ((a, num) :: l) ∧ disj ((a, num) :: l).
Proof.
  intros [Ha Hl]%Forall_cons [Hap Hd] Ht Hn Hlim Hal.
  assert (Forall (λ r, 0 < r.2 → r.1 + r.2 ≤ a) l) as Hb.
  { apply Forall_forall. intros r Hr. rewrite Forall_forall in Hl, Hap. eapply retop; eauto. }
  split; [apply Forall_cons; split|split]; [| | |done].
  - destruct Ha as [A1 A2 A3 A4 A5 A6]. split; simpl in *; done.
  - apply Forall_forall. intros r Hr. rewrite Forall_forall in Hl, Hb. destruct (Hl r Hr) as [B1 B2 B3 B4 B5 B6].
    split; try done. intros Hp. specialize (Hb r Hr Hp). lia.
  - apply Forall_forall. intros r Hr. rewrite Forall_forall in Hl, Hb. destruct (Hl r Hr) as [_ B2 _ _ _ _].
    specialize (Hb r Hr). unfold apart. simpl. lia.
Qed.

(** A block is cut in two. *)
Lemma ranges_cut h top a s num l :
  Forall (range_ok h top) ((a, s) :: l) → disj ((a, s) :: l) → 0 ≤ num ≤ s → (heap_alignment h | num) →
  Forall (range_ok h top) ((a + num, s - num) :: (a, num) :: l) ∧ disj ((a + num, s - num) :: (a, num) :: l).
Proof.
  intros [Ha Hl]%Forall_cons [Hap Hd] Hn Hal. destruct Ha as [A1 A2 A3 A4 A5 A6]. simpl in *.
  split; [apply Forall_cons; split; [|apply Forall_cons; split]|rewrite Forall_cons; split_and!].
  - split; simpl; try lia; [by apply Z.divide_add_r|by apply Z.divide_sub_r].
  - split; simpl; try lia; done.
  - done.
  - unfold apart. simpl. lia.
  - eapply Forall_impl; [apply Forall_and; split; [exact Hap|exact Hl]|]. intros r [Hr [_ B2 _ _ _ _]]. unfold apart in *. simpl in *. lia.
  - eapply Forall_impl; [apply Forall_and; split; [exact Hap|exact Hl]|]. intros r [Hr [_ B2 _ _ _ _]]. unfold apart in *. simpl in *. lia.
  - done.
Qed.

(** A block of at least [num] bytes was put in front of the used list. *)
Definition handed (num : Z) (h h' : theap) (ul : list item) (q : Z) : Prop :=
  cfg h' = cfg h ∧ ∃ fl' a s rl', num ≤ s ∧ HInv h' fl' ((q, (a, s)) :: ul) rl'.

Lemma HInv_intro h h' fl ul rl fl' ul' rl' top :
  HInv h fl ul rl → cfg h' = cfg h → h_top h' = top → Shape h' fl' ul' rl' →
  length (ptrs fl' ++ ptrs ul' ++ ptrs rl') = length (ptrs fl ++ ptrs ul ++ ptrs rl) →
  start_of h ≤ top ≤ heap_limit h → (heap_alignment h | top) →
  Forall (range_ok h top) (ranges fl' ++ ranges ul') → disj (ranges fl' ++ ranges ul') → HInv h' fl' ul' rl'.
Proof.
  intros [_ Hlen Hb _ _ _] Hc <- Hsh Hl Ht Hal Hok Hd. unfold cfg in Hc. injection Hc as E1 E2 E3 E4 E5 E6.
  assert (start_of h' = start_of h) as Es by (unfold start_of; congruence).
  split; try done; rewrite ?Es, ?E1, ?E2, ?E4, ?E5; try lia; try done.
  eapply Forall_impl; [exact Hok|]. intros r [A1 A2 A3 A4 A5 A6]. split; rewrite ?Es, ?E2, ?E4; done.
Qed.

(** Once the block is on the used list: move the top, cut the block, or leave
    it as it is. *)
Definition trim (num q a s : Z) (fresh thresh : Z) (it : bool) : M theap unit :=
  if it then upd_block q (b_set_size num);; modify (h_set_top (u64 (a + num)))
  else if negb (fresh =? 0) then
    if thresh <=? u64 (s - num) then
      upd_block q (b_set_size num);;
      sb ← get_block fresh;
      modify (h_set_fresh (b_next sb));;
      upd_block fresh (b_set_addr (u64 (a + num)));;
      upd_block fresh (b_set_size (u64 (s - num)));;
      insert_block fresh;;
      compact
    else mret tt
  else mret tt.

Lemma HInv_used_bounds h fl ul rl q a s : HInv h fl ((q, (a, s)) :: ul) rl → tame (a, s) ∧ q ≠ 0 ∧ ∃ nx, h_blocks h !! q = Some (Block a nx s).
Proof.
  intros [[_ _ (_ & Hq & nx & Hm & _) _ _] Hc Hb _ Hok _]. split; [|eauto]. rewrite ranges_cons in Hok.
  apply Forall_app in Hok as [_ [[A1 A2 A3 _ _ _] _]%Forall_cons]. unfold start_of, SIZEOF_HEAP, SIZEOF_BLOCK in A1. unfold tame. simpl in *. lia.
Qed.

Lemma ranges_used fl q r ul : ranges fl ++ ranges ((q, r) :: ul) ≡ₚ r :: ranges fl ++ ranges ul.
Proof. rewrite ranges_cons. by rewrite <-Permutation_middle. Qed.

Lemma trim_top_wp num q a s fl ul rl h fresh thresh :
  HInv h fl ((q, (a, s)) :: ul) rl → 0 ≤ num → (heap_alignment h | num) → h_top h ≤ a + s → a + num ≤ heap_limit h →
  wp (trim num q a s fresh thresh true h) (λ _ h', handed num h h' ul q).
Proof.
  intros HI Hn Hal Ht Hlim. pose proof HI as [Hsh Hlen Hb Htop Hok Hd]. destruct (HInv_used_bounds _ _ _ _ _ _ _ HI) as (Htm & Hq & nx & Hm).
  unfold trim. mstep (upd_block_run q (b_set_size num) _ _ Hm). rewrite modify_run. cbn [wp].
  rewrite (wrap_small 64) by (unfold tame in Htm; simpl in Htm; lia). split; [done|].
  pose proof (Shape_resize _ _ _ _ _ _ _ num Hsh) as Hsh'. rewrite Hm in Hsh'. simpl in Hsh'.
  rewrite ranges_used in Hok, Hd. destruct (ranges_moved h (h_top h) a s num _ Hok Hd Ht Hn Hlim Hal) as [Hok' Hd'].
  apply Forall_cons in Hok as [[A1 _ _ _ A5 _] _]. simpl in *.
  exists fl, a, num, rl. split; [done|]. eapply HInv_intro; [exact HI|done|done| |done| | |by rewrite ranges_used|by rewrite ranges_used].
  - by destruct Hsh'.
  - simpl. lia.
  - by apply Z.divide_add_r.
Qed.

Lemma trim_cut_wp num q a s fl ul rl h thresh :
  HInv h fl ((q, (a, s)) :: ul) rl → 0 ≤ num ≤ s → (heap_alignment h | num) → 
  wp (trim num q a s (h_fresh h) thresh false h) (λ _ h', handed num h h' ul q).
Proof.
  intros HI Hn Hal. pose proof HI as [Hsh Hlen Hb Htop Hok Hd]. destruct (HInv_used_bounds _ _ _ _ _ _ _ HI) as (Htm & Hq & nx & Hm).
  unfold tame in Htm. simpl in Htm.
  assert (handed num h h ul q) as Hsame by (split; [done|]; exists fl, a, s, rl; split; [lia|done]).
  unfold trim. rewrite !(wrap_small 64) by lia.
  destruct (Z.eqb_spec (h_fresh h) 0) as [Hf0|Hf0]; [done|]. cbn [negb]. destruct (Z.leb_spec thresh (s - num)); [|done].
  mstep (upd_block_run q (b_set_size num) _ _ Hm).
  pose proof (Shape_resize _ _ _ _ _ _ _ num Hsh) as Hsh'. rewrite Hm in Hsh'. cbn [fmap option_fmap option_map default from_option b_next id] in Hsh'.
  change (b_set_size num (Block a nx s)) with (Block a nx num). set (h1 := h_set_blocks _ h) in *.
  destruct rl as [|[f [fa fs]] rl]; [destruct Hsh as [_ _ _ Hr _]; done|].
  destruct (Shape_pop _ _ _ _ _ _ Hsh') as (fnx & Ef & Hfn & Hfm & Hsh2 & Hfd). change (h_fresh h1) with (h_fresh h) in Ef. rewrite Ef.
  cbn [fst snd] in Hfm. mstep (get_block_run _ _ _ Hfm). rewrite (bind_Done _ _ _ _ _ (modify_run _ _)). cbn [b_next].
  rewrite (bind_Done _ _ _ _ _ (upd_block_run f _ _ (h_set_fresh fnx h1) Hfm)).
  erewrite (bind_Done (upd_block f _)) by (apply upd_block_run; apply lookup_insert_eq). 
  set (h2 := h_set_blocks _ (h_set_blocks _ _)).
  assert (Shape h2 fl ((q, (a, num)) :: ul) rl) as Hsh3 by (by apply Shape_frame, Shape_frame).
  rewrite ranges_used in Hok, Hd. destruct (ranges_cut h (h_top h) a s num _ Hok Hd Hn Hal) as [Hok' Hd'].
  eapply wp_mono; [apply (insert_compact_wp f (a + num) (s - num) fnx fl ((q, (a, num)) :: ul) rl h2)|]; try done.
  - unfold h2. simpl. apply lookup_insert_eq.
  - apply Forall_cons. split; [|by eapply HInv_tame]. unfold tame. simpl. lia.
  - intros _ h3 (Hc3 & Ht3 & l1 & l2 & fl' & rl' & -> & Hsh4 & Hp & Hmg). split; [exact Hc3|].
    exists fl', a, num, rl'. split; [lia|]. change (h_top h2) with (h_top h) in Ht3.
    apply (HInv_compacted h h3 f (a + num) (s - num) l1 l2 ((q, (a, num)) :: ul) rl fl' rl'); rewrite ?Ht3; try done.
    + rewrite <-Hlen. count.
    + by rewrite ranges_used.
    + by rewrite ranges_used.
Qed.

Lemma take_free_wp num q a s nx l1 l2 ul rl it h :
  HInv h (l1 ++ (q, (a, s)) :: l2) ul rl → 0 ≤ num → (heap_alignment h | num) → fits h num a s it →
  h_blocks h !! q = Some (Block a nx s) → seg (h_blocks h) (h_free h) l1 q → seg (h_blocks h) nx l2 0 → q ≠ 0 →
  wp (take_free num (h_top h) (default 0 (last (ptrs l1))) q (Block a nx s) it h) (λ _ h', handed num h h' ul q).
Proof.
  intros HI Hn Hal Hfit Hm H1 H2 Hq. pose proof HI as [Hsh Hlen Hb Htop Hok Hd]. pose proof Hsh as [Hh Hf Hu Hr Hnd].
  unfold take_free. cbn [b_next b_addr b_size]. rewrite wp_bind.
  eapply wp_mono; [apply (unlink_wp h_set_free (h_free h) q a s nx l1 l2 h); try done; by apply NoDup_3 in Hnd as (? & _)|].
  intros [] h1 Hul. apply (unlinked_free _ _ _ _ _ _ _ _ _ Hsh) in Hul as (Hsh1 & Hc1 & Ht1 & Hu1 & Hr1 & Hm1 & Hq1). rewrite Hm in Hm1.
  pose proof (cfg_ptr _ _ Hc1) as Hp1. mstep (get_heap_run h1 ltac:(congruence)). mstep (upd_block_run q (b_set_next (h_used h1)) _ _ Hm1).
  rewrite (bind_Done _ _ _ _ _ (modify_run _ _)).
  change (b_set_next (h_used h1) (Block a nx s)) with (Block a (h_used h1) s).
  pose proof (Shape_push _ _ _ _ q a s Hsh1 Hq Hq1) as Hsh2.
  set (h2 := h_set_used q (h_set_blocks (<[q := Block a (h_used h1) s]> (h_blocks h1)) h1)) in *.
  assert (ranges (l1 ++ (q, (a, s)) :: l2) ++ ranges ul ≡ₚ ranges (l1 ++ l2) ++ ranges ((q, (a, s)) :: ul)) as Hp.
  { rewrite ranges_used, !ranges_app, ranges_cons, <-!app_assoc. simpl. by rewrite <-Permutation_middle. }
  assert (HInv h2 (l1 ++ l2) ((q, (a, s)) :: ul) rl) as HI2.
  { eapply HInv_intro; [exact HI|exact Hc1|exact Ht1|done| |lia|done|by rewrite <-Hp|by rewrite <-Hp].
    count. }
  assert (cfg h2 = cfg h) as Hc2 by exact Hc1. unfold cfg in Hc2. injection Hc2 as E1 E2 E3 E4 E5 E6.
  change (wp (trim num q a s (h_fresh h2) (heap_split_thresh h1) it h2) (λ _ h', handed num h h' ul q)).
  eapply (wp_mono _ (λ _ h', handed num h2 h' ul q)); [|intros _ h3 [Hc3 Hx]; split; [by rewrite Hc3|done]].
  destruct it; simpl in Hfit.
  - apply (trim_top_wp num q a s _ _ _ _ _ _ HI2); [done|by rewrite <-E4 in Hal|change (h_top h1 ≤ a + s)|change (a + num ≤ heap_limit h1)]; lia.
  - apply (trim_cut_wp num q a s _ _ _ _ _ HI2); [done|by rewrite <-E4 in Hal].
Qed.

(** A new block on top of all others. *)
Lemma ranges_grown h top num l :
  Forall (range_ok h top) l → disj l → start_of h ≤ top → 0 ≤ num → top + num ≤ heap_limit h → (heap_alignment h | top) → (heap_alignment h | num) →
  Forall (range_ok h (top + num)) ((top, num) :: l) ∧ disj ((top, num) :: l).
Proof.
  intros Hl Hd Hs Hn Hlim Hat Han. split; [apply Forall_cons; split|split]; [| | |done].
  - split; simpl; try done; lia.
  - eapply Forall_impl; [exact Hl|]. intros r [B1 B2 B3 B4 B5 B6]. split; try done. lia.
  - eapply Forall_impl; [exact Hl|]. intros r [B1 B2 B3 B4 B5 B6]. unfold apart. simpl. lia.
Qed.

(** The record [f] is taken from the fresh list for a block on top. *)
Lemma grow_top_wp num f r rl fl ul h :
  HInv h fl ul ((f, r) :: rl) → 0 ≤ num → (heap_alignment h | num) → h_top h + num ≤ heap_limit h →
  wp ((b ← get_block f;
      modify (h_set_fresh (b_next b));;
      upd_block f (b_set_addr (h_top h));;
      upd_block f (b_set_next (h_used h));;
      upd_block f (b_set_size num);;
      modify (h_set_used f);;
      modify (h_set_top (h_top h + num));;
      mret f) h) (λ r h', r = f ∧ handed num h h' ul f).
Proof.
  intros HI Hn Hal Hlim. pose proof HI as [Hsh Hlen Hb Htop Hok Hd].
  destruct (Shape_pop _ _ _ _ _ _ Hsh) as (nx & Ef & Hf & Hm & Hsh1 & Hnf). mstep (get_block_run _ _ _ Hm). cbn [b_next].
  rewrite (bind_Done _ _ _ _ _ (modify_run _ _)). set (h1 := h_set_fresh nx h) in *.
  rewrite (bind_Done _ _ _ _ _ (upd_block_run f _ _ h1 Hm)).
  erewrite (bind_Done (upd_block f (b_set_next _))) by (apply upd_block_run, lookup_insert_eq).
  erewrite (bind_Done (upd_block f (b_set_size _))) by (apply upd_block_run, lookup_insert_eq).
  rewrite !(bind_Done _ _ _ _ _ (modify_run _ _)). cbn [wp mret M_ret]. split; [done|]. split; [done|].
  destruct (ranges_grown h (h_top h) num _ Hok Hd) as [Hok' Hd']; try done; [apply Hb|].
  exists fl, (h_top h), num, rl. split; [done|].
  eapply HInv_intro; [exact HI|done|done| | | | |by rewrite ranges_used|by rewrite ranges_used].
  - pose proof (Shape_push h1 fl ul rl f (h_top h) num Hsh1 Hf Hnf) as Hsh2.
    cbn [h_blocks h_set_blocks]. rewrite !insert_insert_eq. destruct Hsh2 as [? ? ? ? ?]. split; assumption.
  - count.
  - simpl. lia.
  - by apply Z.divide_add_r.
Qed.

(** Why an allocation fails: no free block is as large as asked, and there is
    no record or no room for a new one. *)
Definition exhausted (h : theap) (fl rl : list item) (num : Z) : Prop :=
  Forall (λ r, r.2 < num) (ranges fl) ∧ (rl = [] ∨ heap_limit h < h_top h + num).

Lemma alloc_block_wp k num fl ul rl h :
  HInv h fl ul rl → heap_alignment h = 2 ^ k → 0 ≤ k < 62 → 0 ≤ num < 2 ^ 62 →
  wp (alloc_block num h) (λ r h', (r = 0 ∧ h' = h ∧ exhausted h fl rl (round_up (2 ^ k) num)) ∨ (r ≠ 0 ∧ handed num h h' ul r)).
Proof.
  intros HI Hal Hk Hn. pose proof HI as [Hsh Hlen Hb Htop Hok Hd]. pose proof Hsh as [Hh Hf Hu Hr Hnd]. pose proof Hnd as (Hnf & _)%NoDup_3.
  assert (2 ^ k ≤ 2 ^ 62) as Hk2 by (apply Z.pow_le_mono_r; lia).
  destruct (round_up_spec k num ltac:(lia) ltac:(lia) ltac:(lia)) as [Hru Hdv].
  assert (0 ≤ h_top h) by (unfold start_of, SIZEOF_HEAP, SIZEOF_BLOCK in Hb; lia).
  unfold alloc_block. mstep (get_heap_run h Hh). rewrite Hal. set (n := round_up (2 ^ k) num) in *.
  assert (∀ q h', handed n h h' ul q → handed num h h' ul q) as Hw.
  { intros q h' (Hc & fl' & a & s & rl' & Hs & HI'). split; [done|]. exists fl', a, s, rl'. split; [lia|done]. }
  destruct (alloc_loop_cases (list_fuel h) n (h_free h) [] fl h) as [[Hrun Hsm]|(l3 & q & a & s & nx & l4 & it & -> & Hs & Hm & Hq & H4 & Hfit & Hrun)].
  - done.
  - done.
  - unfold list_fuel. pose proof (seg_fuel _ _ _ _ Hf Hnf). lia.
  - by eapply HInv_tame.
  - lia.
  - change (default 0 (last (ptrs []))) with 0 in Hrun. mstep Hrun. mstep (get_heap_run h Hh). rewrite (wrap_small 64) by lia.
    destruct rl as [|[f [fa fs]] rl].
    { simpl in Hr. rewrite Hr. simpl. left. split; [done|]. split; [done|]. split; [done|by left]. }
    pose proof Hr as (-> & Hf0 & _). destruct (Z.eqb_spec f 0); [done|]. cbn [negb andb].
    destruct (Z.leb_spec (h_top h + n) (heap_limit h)); [|left; split; [done|]; split; [done|]; split; [done|by right]].
    eapply wp_mono; [apply (grow_top_wp n f (fa, fs) rl fl ul h); first [done|lia|by rewrite Hal]|]. intros r h' [-> Hhd]. right. auto.
  - change (default 0 (last (ptrs []))) with 0 in Hrun. rewrite wp_bind, Hrun, wp_bind. simpl in Hs.
    eapply wp_mono; [apply (take_free_wp n q a s nx l3 l4 ul rl it h); first [done|lia|by rewrite Hal]|].
    intros [] h' Hhd. right. auto.
Qed.

(** ** Clearing memory *)

Definition zeroed (P : Z → Prop) (h h' : theap) : Prop :=
  ∃ m, h' = h_set_mem m h ∧ ∀ x, (P x → m !! x = Some 0) ∧ (¬ P x → m !! x = h_mem h !! x).
Definition mapped (P : Z → Prop) (h : theap) : Prop := ∀ x, P x → is_Some (h_mem h !! x).

Lemma zeroed_mapped P Q h h' : (∀ x, Decision (P x)) → zeroed P h h' → mapped Q h → mapped Q h'.
Proof.
  intros HP (m & -> & Hm) HQ x Hx. simpl. destruct (decide (P x)) as [Hp|Hp].
  - rewrite (proj1 (Hm x) Hp). eauto.
  - rewrite (proj2 (Hm x) Hp). by apply HQ.
Qed.

Lemma each_zeroed {A} (Q : A → Z → Prop) (f : A → M theap unit) l h :
  (∀ i x, Decision (Q i x)) → (∀ i h, mapped (Q i) h → wp (f i h) (λ _ h', zeroed (Q i) h h')) →
  mapped (λ x, ∃ i, i ∈ l ∧ Q i x) h → wp (each f l h) (λ _ h', zeroed (λ x, ∃ i, i ∈ l ∧ Q i x) h h').
Proof.
  intros HQ Hf. revert h. induction l as [|i l IH]; intros h Hm; cbn [each].
  - exists (h_mem h). split; [by destruct h|]. intros x. split; [|done]. intros (i & Hi & _). by apply not_elem_of_nil in Hi.
  - rewrite wp_bind. eapply wp_mono; [apply Hf|].
    + intros x Hx. apply Hm. exists i. split; [left|done].
    + intros [] h1 Hz. eapply wp_mono; [apply IH|].
      * eapply zeroed_mapped; [apply HQ|exact Hz|]. intros x (j & Hj & Hx). apply Hm. exists j. split; [by right|done].
      * intros [] h2 (m2 & -> & H2). destruct Hz as (m1 & -> & H1). exists m2. split; [done|]. simpl in H2.
        intros x. split.
        -- intros (j & Hj & Hx). destruct (Exists_dec (λ i, Q i x) l) as [He|He].
           ++ apply H2. by apply Exists_exists in He.
           ++ rewrite (proj2 (H2 x)) by (intros Hc; apply He; by apply Exists_exists). apply H1.
              apply elem_of_cons in Hj as [->|Hj]; [done|]. exfalso. apply He, Exists_exists. by exists j.
        -- intros Hn. rewrite (proj2 (H2 x)); [apply H1|]; [intros Hx|intros (j & Hj & Hx)]; apply Hn; eexists; split; [left|done|by right|done].
Qed.

Lemma clear_byte_wp a h : mapped (λ x, x = a) h → wp (clear_byte a h) (λ _ h', zeroed (λ x, x = a) h h').
Proof.
  intros Hm. unfold clear_byte. mstep (eq_refl : get h = Done h h). destruct (Hm a eq_refl) as [v Hv]. rewrite Hv. simpl.
  exists (<[a := 0]> (h_mem h)). split; [done|]. intros x. split; [intros ->; apply lookup_insert_eq|].
  intros Hx. by apply lookup_insert_ne.
Qed.

Lemma zeroed_iff (P Q : Z → Prop) h h' : (∀ x, P x ↔ Q x) → zeroed P h h' → zeroed Q h h'.
Proof. intros HPQ (m & -> & Hm). exists m. split; [done|]. intros x. rewrite <-HPQ. apply Hm. Qed.
Lemma mapped_iff (P Q : Z → Prop) h : (∀ x, P x ↔ Q x) → mapped P h → mapped Q h.
Proof. intros HPQ Hm x Hx. by apply Hm, HPQ. Qed.

(** A loop that clears [w] bytes at a time. *)
Lemma each_clear w (f : Z → M theap unit) p n h :
  0 < w → 0 ≤ n → (∀ i h, mapped (λ x, p + w * i ≤ x < p + w * i + w) h → wp (f i h) (λ _ h', zeroed (λ x, p + w * i ≤ x < p + w * i + w) h h')) →
  mapped (λ x, p ≤ x < p + w * n) h → wp (each f (seqZ 0 n) h) (λ _ h', zeroed (λ x, p ≤ x < p + w * n) h h').
Proof.
  intros Hw Hn Hf Hm. assert (∀ x, (∃ i, i ∈ seqZ 0 n ∧ p + w * i ≤ x < p + w * i + w) ↔ p ≤ x < p + w * n) as Hiff.
  { intros x. setoid_rewrite elem_of_seqZ. split; [intros (i & Hi & Hx); nia|]. intros Hx. exists ((x - p) / w).
    pose proof (Z.div_mod (x - p) w ltac:(lia)). pose proof (Z.mod_pos_bound (x - p) w Hw).
    assert (0 ≤ (x - p) / w < n); [|lia]. split; [apply Z.div_pos; lia|apply Z.div_lt_upper_bound; lia]. }
  eapply wp_mono; [apply (each_zeroed (λ i x, p + w * i ≤ x < p + w * i + w)); [intros; apply _|exact Hf|]|].
  - by eapply mapped_iff; [intros x; symmetry; apply Hiff|].
  - intros [] h'. by apply zeroed_iff.
Qed.

Lemma clear_bytes_wp a n h :
  0 ≤ n → mapped (λ x, a ≤ x < a + n) h → wp (each (λ i, clear_byte (a + i)) (seqZ 0 n) h) (λ _ h', zeroed (λ x, a ≤ x < a + n) h h').
Proof.
  intros Hn Hm. pose proof (each_clear 1 (λ i, clear_byte (a + i)) a n h) as Hc. rewrite Z.mul_1_l in Hc. apply Hc; [lia|lia| |exact Hm].
  intros i h1 Hm1. eapply wp_mono; [apply clear_byte_wp|].
  - eapply mapped_iff; [|exact Hm1]. intros x. simpl. lia.
  - intros [] h'. apply zeroed_iff. intros x. simpl. lia.
Qed.

Lemma clear_word_wp a h : mapped (λ x, a ≤ x < a + 8) h → wp (clear_word a h) (λ _ h', zeroed (λ x, a ≤ x < a + 8) h h').
Proof. by apply (clear_bytes_wp a 8). Qed.

Lemma memclear_wp p n h :
  0 ≤ n < 2 ^ 63 → mapped (λ x, p ≤ x < p + n) h → wp (memclear p n h) (λ _ h', zeroed (λ x, p ≤ x < p + n) h h').
Proof.
  intros Hn Hm. unfold memclear.
  assert (Z.land n (u64 (- 8)) / 8 = n / 8) as -> by (rewrite (land_neg_pow2 3) by lia; by apply Z.div_mul).
  assert (Z.land n 7 = n mod 8) as -> by (by apply (Z.land_ones n 3)).
  pose proof (Z.div_mod n 8 ltac:(lia)). pose proof (Z.mod_pos_bound n 8 ltac:(lia)).
  rewrite wp_bind. eapply wp_mono; [apply (each_clear 8 (λ i, clear_word (p + 8 * i)) p (n / 8) h); [lia|apply Z.div_pos; lia| |]|].
  - intros i h1. apply clear_word_wp.
  - intros x Hx. apply Hm. lia.
  - intros [] h1 Hz1. pose proof Hz1 as (m1 & -> & H1).
    eapply wp_mono; [apply (clear_bytes_wp (p + 8 * (n / 8)) (n mod 8)); [lia|]|].
    + eapply zeroed_mapped; [|exact Hz1|]; [intros; apply _|]. intros x Hx. apply Hm. lia.
    + intros [] h2 (m2 & -> & H2). exists m2. split; [done|]. simpl in *. intros x. specialize (H1 x). specialize (H2 x). split.
      * intros Hx. destruct (decide (p + 8 * (n / 8) ≤ x)); [apply H2; lia|]. rewrite (proj2 H2) by lia. apply H1. lia.
      * intros Hx. rewrite (proj2 H2) by lia. apply H1. lia.
Qed.
