(* ===== verification/TinyallocThm.v ===== *)
(** * What the kernel heap promises

    The initial heap, sequences of operations on it, and the claims. *)

From S2P Require Import Prelude Tinyalloc TinyallocInv.

(** ** ta_init *)

Definition record_at (p : Z) (i : Z) : Z := p + i * SIZEOF_BLOCK.

Lemma fresh_loop_wp n p h :
  0 < p → (∀ i, 0 ≤ i < Z.of_nat n → is_Some (h_blocks h !! record_at p i)) →
  wp (fresh_loop n p h) (λ r h', r = record_at p (Z.of_nat n) ∧ ∃ l m, h' = h_set_blocks m h ∧
    ptrs l = (λ i, record_at p (Z.of_nat i)) <$> seq 0 n ∧ seg m p l r ∧ ∀ q, q ∉ ptrs l → m !! q = h_blocks h !! q).
Proof.
  revert p h. induction n as [|n IH]; intros p h Hp Hm; cbn [fresh_loop].
  - simpl. split; [unfold record_at; lia|]. exists [], (h_blocks h). split_and!; first [done|by destruct h|unfold record_at; simpl; lia].
  - destruct (Hm 0 ltac:(lia)) as [b Hb]. unfold record_at in Hb. replace (p + 0 * SIZEOF_BLOCK) with p in Hb by lia.
    rewrite (bind_Done _ _ _ _ _ (upd_block_run p _ _ h Hb)).
    assert (∀ i, record_at (p + SIZEOF_BLOCK) i = record_at p (i + 1)) as Hrec by (intros; unfold record_at; lia).
    eapply wp_mono; [apply IH|].
    + unfold SIZEOF_BLOCK. lia.
    + intros i Hi. simpl. rewrite Hrec, lookup_insert_ne by (unfold record_at, SIZEOF_BLOCK; lia). apply Hm. lia.
    + intros r h' (-> & l & m & -> & Hl & Hs & Hk). simpl in Hk. split; [rewrite Hrec; f_equal; lia|].
      exists ((p, (b_addr b, b_size b)) :: l), m. split; [done|].
      assert (p ∉ ptrs l) as Hpl.
      { rewrite Hl. intros (i & Hi & Hin%elem_of_seq)%list_elem_of_fmap. unfold record_at, SIZEOF_BLOCK in Hi. lia. }
      split; [|split].
      * rewrite ptrs_cons, Hl. simpl. f_equal; [unfold record_at; lia|]. rewrite <-fmap_S_seq, <-list_fmap_compose.
        apply list_fmap_ext. intros k i _. simpl. rewrite Hrec. f_equal. lia.
      * simpl. split; [done|]. split; [lia|]. exists (p + SIZEOF_BLOCK). split; [|done].
        rewrite (Hk p Hpl), lookup_insert_eq. by destruct b.
      * intros q [Hq Hql]%not_elem_of_cons. rewrite (Hk q Hql). by apply lookup_insert_ne.
Qed.

Definition init_pre (base limit n al k : Z) (h : theap) : Prop :=
  0 < base ∧ 0 < n ∧ n < 2 ^ 32 ∧ base + SIZEOF_HEAP + n * SIZEOF_BLOCK ≤ limit < 2 ^ 62 ∧ al = 2 ^ k ∧ 0 ≤ k < 62 ∧
  (al | base + SIZEOF_HEAP + n * SIZEOF_BLOCK) ∧
  (∀ i, 0 ≤ i < n → is_Some (h_blocks h !! record_at (base + SIZEOF_HEAP) i)) ∧
  mapped (λ x, base ≤ x < limit) h.

Lemma ta_init_wp base limit n split al k h :
  init_pre base limit n al k h → wp (ta_init base limit n split al h) (λ r h', r = true ∧ ∃ rl, HInv h' [] [] rl ∧
    cfg h' = (base, limit, split, al, n, h_mem h)).
Proof.
  intros (Hb & Hn & Hn2 & Hl & -> & Hk & Hal & Hm & _). unfold ta_init. rewrite (bind_Done _ _ _ _ _ (modify_run _ _)).
  rewrite (wrap_small 64) by lia. rewrite wp_bind. eapply wp_mono; [apply fresh_loop_wp|].
  - unfold SIZEOF_HEAP. lia.
  - intros i Hi. apply Hm. lia.
  - rewrite Z2Nat.id by lia. intros r h1 (-> & l & m & -> & Hp & Hs & Hk1). simpl in Hk1.
    destruct (Hm (n - 1) ltac:(lia)) as [b Hlast].
    assert (record_at (base + SIZEOF_HEAP) (n - 1) ∉ ptrs l) as Hnl.
    { rewrite Hp. intros (i & Hi & Hin%elem_of_seq)%list_elem_of_fmap. unfold record_at, SIZEOF_BLOCK in Hi. lia. }
    rewrite <-(Hk1 _ Hnl) in Hlast.
    erewrite (bind_Done (upd_block _ _)) by (apply upd_block_run; exact Hlast). simpl. split; [done|].
    set (x := record_at (base + SIZEOF_HEAP) (n - 1)) in *.
    exists (l ++ [(x, (b_addr b, b_size b))]). split; [|done].
    assert (NoDup (ptrs (l ++ [(x, (b_addr b, b_size b))]))) as Hnd.
    { rewrite ptrs_app. apply NoDup_app. split_and!; [|by intros y Hy ->%list_elem_of_singleton|apply NoDup_singleton].
      rewrite Hp. apply NoDup_fmap_2; [|apply NoDup_seq]. intros i j. unfold record_at, SIZEOF_BLOCK. lia. }
    split; simpl; try done.
    + split; simpl; try done; [lia|]. apply seg_app. exists x. split; [by apply seg_insert|].
      simpl. split; [done|]. split; [unfold x, record_at, SIZEOF_HEAP, SIZEOF_BLOCK; lia|]. exists 0. rewrite lookup_insert_eq. by destruct b.
    + rewrite ptrs_app, Hp, length_app, length_fmap, length_seq. simpl. lia.
    + unfold start_of. simpl. lia.
Qed.

(** ** ta_check *)

Lemma count_blocks_run fuel num p l h :
  seg (h_blocks h) p l 0 → (length l < fuel)%nat → count_blocks fuel num p h = Done (num + Z.of_nat (length l)) h.
Proof.
  revert num p l. induction fuel as [|fuel IH]; intros num p l Hs Hf; [lia|]. cbn [count_blocks].
  destruct l as [|[q [a s]] l]; cbn [seg] in Hs.
  - subst. simpl. by rewrite Z.add_0_r.
  - destruct Hs as (-> & Hq & nx & Hm & Hs). destruct (Z.eqb_spec q 0); [done|]. mstep (get_block_run _ _ _ Hm). cbn [b_next length] in *.
    rewrite (IH _ _ l Hs) by lia. f_equal. lia.
Qed.

Lemma ta_check_run fl ul rl h : HInv h fl ul rl → heap_max_blocks h < 2 ^ 64 → ta_check h = Done true h.
Proof.
  intros [[Hh Hf Hu Hr Hnd] Hlen _ _ _ _] Hmax. apply NoDup_3 in Hnd as (N1 & N2 & N3 & _).
  unfold ta_check, ta_num_free, ta_num_used, ta_num_fresh.
  assert (∀ p l, seg (h_blocks h) p l 0 → NoDup (ptrs l) → count_blocks (list_fuel h) 0 p h = Done (Z.of_nat (length l)) h) as Hc.
  { intros p l Hs Hn. rewrite (count_blocks_run _ _ _ l) by (done || (unfold list_fuel; pose proof (seg_fuel _ _ _ _ Hs Hn); lia)). done. }
  erewrite (bind_Done (get_heap ≫= _)) by (rewrite (bind_Done _ _ _ _ _ (get_heap_run h Hh)); by apply (Hc _ fl)).
  erewrite (bind_Done (get_heap ≫= _)) by (rewrite (bind_Done _ _ _ _ _ (get_heap_run h Hh)); by apply (Hc _ ul)).
  erewrite (bind_Done (get_heap ≫= _)) by (rewrite (bind_Done _ _ _ _ _ (get_heap_run h Hh)); by apply (Hc _ rl)).
  rewrite (bind_Done get _ _ _ _ eq_refl). unfold mret, M_ret. f_equal. apply Z.eqb_eq. rewrite <-Hlen.
  unfold ptrs. rewrite !length_app, !length_fmap, wrap_small; [lia|]. split; [lia|].
  revert Hlen. unfold ptrs. rewrite !length_app, !length_fmap. lia.
Qed.

(** ** Sequences of operations *)

Inductive hop := HAlloc (num : Z) | HCalloc (num size : Z) | HFree (p : Z).

Definition hop_run (o : hop) : M theap Z :=
  match o with
  | HAlloc num => malloc num
  | HCalloc num size => calloc num size
  | HFree p => b ← ta_free p; mret (Z.b2z b)
  end.
Fixpoint hops_run (os : list hop) : M theap (list Z) :=
  match os with [] => mret [] | o :: os => r ← hop_run o; rs ← hops_run os; mret (r :: rs) end.

Definition hop_ok (o : hop) : Prop :=
  match o with HAlloc num => 0 ≤ num < 2 ^ 62 | HCalloc num size => 0 ≤ num * size < 2 ^ 62 | HFree _ => True end.

(** The specification: the live blocks, newest first, and the memory.  A block
    is handed out inside the heap, aligned, and apart from every live one; a
    cleared one holds zeros and nothing else changed; a block leaves when its
    address is freed, and freeing anything else does nothing. *)
Section Spec.
Variables start limit al : Z.
Definition fresh_block (num a s : Z) (live : list (Z * Z)) : Prop :=
  num ≤ s ∧ a ≠ 0 ∧ start ≤ a ∧ a + s ≤ limit ∧ (al | a) ∧ Forall (apart (a, s)) live.
Definition cleared (a n : Z) (m m' : gmap Z Z) : Prop :=
  ∀ x, (a ≤ x < a + n → m' !! x = Some 0) ∧ (¬ a ≤ x < a + n → m' !! x = m !! x).

Inductive hstep : list (Z * Z) → gmap Z Z → hop → Z → list (Z * Z) → gmap Z Z → Prop :=
| hs_alloc live m num a s : fresh_block num a s live → hstep live m (HAlloc num) a ((a, s) :: live) m
| hs_alloc_full live m num : hstep live m (HAlloc num) 0 live m
| hs_calloc live m num size a s m' :
    fresh_block (num * size) a s live → cleared a (num * size) m m' → hstep live m (HCalloc num size) a ((a, s) :: live) m'
| hs_calloc_full live m num size : hstep live m (HCalloc num size) 0 live m
| hs_free l1 p s l2 m : Forall (λ r, r.1 ≠ p) l1 → hstep (l1 ++ (p, s) :: l2) m (HFree p) 1 (l1 ++ l2) m
| hs_free_miss live p m : Forall (λ r, r.1 ≠ p) live → hstep live m (HFree p) 0 live m.

Inductive hsteps : list (Z * Z) → gmap Z Z → list hop → list Z → list (Z * Z) → gmap Z Z → Prop :=
| hsteps_nil live m : hsteps live m [] [] live m
| hsteps_cons live m o r live1 m1 os rs live2 m2 :
    hstep live m o r live1 m1 → hsteps live1 m1 os rs live2 m2 → hsteps live m (o :: os) (r :: rs) live2 m2.
End Spec.

(** A heap with the live blocks [live]. *)
Definition heap_at (base limit n al : Z) (h : theap) (live : list (Z * Z)) : Prop :=
  ∃ fl ul rl split, HInv h fl ul rl ∧ ranges ul = live ∧ cfg h = (base, limit, split, al, n, h_mem h) ∧ mapped (λ x, base ≤ x < limit) h.

Lemma handed_fresh base limit n al num h h' live ul q :
  heap_at base limit n al h live → ranges ul = live → handed num h h' ul q →
  ∃ a s nx, h_blocks h' !! q = Some (Block a nx s) ∧ fresh_block (base + SIZEOF_HEAP + n * SIZEOF_BLOCK) limit al num a s live ∧
    heap_at base limit n al h' ((a, s) :: live) ∧ h_mem h' = h_mem h.
Proof.
  intros (fl0 & ul0 & rl0 & split & HI0 & _ & Hc & Hmp) <- (Hc' & fl & a & s & rl & Hn & HI).
  destruct (HInv_used_bounds _ _ _ _ _ _ _ HI) as (Htm & Hq & nx & Hm). exists a, s, nx. split; [done|].
  assert (h_mem h' = h_mem h) as Emem by (unfold cfg in Hc'; congruence).
  rewrite Hc in Hc'. pose proof Hc' as Hc2. unfold cfg in Hc2. injection Hc2 as E1 E2 E3 E4 E5 _.
  split_and!; [| |done].
  - pose proof HI as [[Hh _ _ _ _] Hlen Hb _ Hok Hd]. rewrite ranges_used in Hok, Hd. apply Forall_cons in Hok as [[A1 A2 A3 A4 A5 A6] _].
    unfold start_of in *. simpl in *. rewrite E1, E2, E4, E5 in *. unfold fresh_block. split_and!; try done.
    + unfold SIZEOF_HEAP, SIZEOF_BLOCK in A1. lia.
    + destruct Hd as [Hd _]. by apply Forall_app in Hd as [_ Hd].
  - exists fl, ((q, (a, s)) :: ul), rl, split. split; [done|]. split; [done|]. split; [by rewrite Hc', Emem|]. intros x Hx. rewrite Emem. by apply Hmp.
Qed.

Lemma heap_alloc_at base limit n k num h live :
  heap_at base limit n (2 ^ k) h live → 0 ≤ k < 62 → 0 ≤ num < 2 ^ 62 →
  wp (alloc_block num h) (λ r h', (r = 0 ∧ h' = h) ∨ (r ≠ 0 ∧ ∃ a s nx, h_blocks h' !! r = Some (Block a nx s) ∧
    fresh_block (base + SIZEOF_HEAP + n * SIZEOF_BLOCK) limit (2 ^ k) num a s live ∧ heap_at base limit n (2 ^ k) h' ((a, s) :: live) ∧ h_mem h' = h_mem h)).
Proof.
  intros Hat Hk Hn. pose proof Hat as (fl & ul & rl & split & HI & <- & Hc & Hmp).
  eapply wp_mono; [apply (alloc_block_wp k num fl ul rl h HI); try done; unfold cfg in Hc; congruence|].
  intros r h' [(-> & -> & _)|(Hr & Hh)]; [by left|right]. split; [done|]. by eapply handed_fresh.
Qed.

Lemma zeroed_at base limit n al h h' P live : (∀ x, Decision (P x)) → heap_at base limit n al h live → zeroed P h h' → heap_at base limit n al h' live.
Proof.
  intros HP (fl & ul & rl & split & HI & <- & Hc & Hmp) Hz. pose proof (zeroed_mapped _ _ _ _ HP Hz Hmp) as Hmp'. destruct Hz as (m & -> & _).
  exists fl, ul, rl, split. split_and!; try done; [|unfold cfg in *; simpl; congruence].
  destruct HI as [[? ? ? ? ?] ? ? ? ? ?]. split; try done. eapply Forall_impl; [eassumption|]. by intros r [].
Qed.

Lemma hop_at base limit n k o h live :
  heap_at base limit n (2 ^ k) h live → 0 < base → 0 ≤ n → 0 ≤ k < 62 → hop_ok o →
  wp (hop_run o h) (λ r h', ∃ live', heap_at base limit n (2 ^ k) h' live' ∧
    hstep (base + SIZEOF_HEAP + n * SIZEOF_BLOCK) limit (2 ^ k) live (h_mem h) o r live' (h_mem h')).
Proof.
  intros Hat Hb Hn Hk Ho. destruct o as [num|num size|p]; simpl in Ho; unfold hop_run.
  - unfold malloc, ta_alloc. rewrite wp_bind. eapply wp_mono; [by apply (heap_alloc_at base limit n k num h live)|].
    intros r h' [[-> ->]|(Hr & a & s & nx & Hm & Hf & Hat' & Em)].
    + simpl. exists live. split; [done|constructor].
    + destruct (Z.eqb_spec r 0); [done|]. cbn [negb]. mstep (get_block_run _ _ _ Hm). exists ((a, s) :: live). split; [done|].
      rewrite Em. by constructor.
  - unfold calloc, ta_calloc. rewrite (wrap_small 64) by lia. rewrite wp_bind. eapply wp_mono; [by apply (heap_alloc_at base limit n k (num * size) h live)|].
    intros r h' [[-> ->]|(Hr & a & s & nx & Hm & Hf & Hat' & Em)].
    + simpl. exists live. split; [done|constructor].
    + destruct (Z.eqb_spec r 0); [done|]. cbn [negb]. mstep (get_block_run _ _ _ Hm). cbn [b_addr]. rewrite wp_bind.
      pose proof Hf as (H1 & H2 & H3 & H4 & _). pose proof Hat' as (_ & _ & _ & _ & _ & _ & _ & Hmp').
      eapply wp_mono; [apply (memclear_wp a (num * size) h'); [lia|]|].
      { intros x Hx. apply Hmp'. unfold SIZEOF_HEAP, SIZEOF_BLOCK in H3. lia. }
      intros [] h2 Hz. exists ((a, s) :: live). split; [eapply zeroed_at; [|done|exact Hz]; intros; apply _|].
      destruct Hz as (m & -> & Hz). apply (hs_calloc _ _ _ _ _ _ _ _ _ _ Hf). rewrite <-Em. exact Hz.
  - rewrite wp_bind. pose proof Hat as (fl & ul & rl & split & HI & <- & Hc & Hmp).
    eapply wp_mono; [by apply (ta_free_wp p fl ul rl h)|]. intros b h' (Hc' & fl' & ul' & rl' & HI' & Hfr). simpl.
    assert (h_mem h' = h_mem h) as Em by (unfold cfg in Hc'; congruence). rewrite Em. exists (ranges ul'). split.
    + exists fl', ul', rl', split. split_and!; [done|done|by rewrite Hc', Hc, Em|]. intros x Hx. rewrite Em. by apply Hmp.
    + destruct b; simpl in Hfr |- *.
      * destruct Hfr as (u1 & q & s & u2 & -> & Hne & ->). rewrite !ranges_app, ranges_cons. by apply hs_free.
      * destruct Hfr as [Hne ->]. by apply hs_free_miss.
Qed.

Lemma hops_at base limit n k os h live :
  heap_at base limit n (2 ^ k) h live → 0 < base → 0 ≤ n → 0 ≤ k < 62 → Forall hop_ok os →
  wp (hops_run os h) (λ rs h', ∃ live', heap_at base limit n (2 ^ k) h' live' ∧
    hsteps (base + SIZEOF_HEAP + n * SIZEOF_BLOCK) limit (2 ^ k) live (h_mem h) os rs live' (h_mem h')).
Proof.
  intros Hat Hb Hn Hk. revert h live Hat. induction os as [|o os IH]; intros h live Hat Hok; cbn [hops_run].
  - exists live. split; [done|constructor].
  - apply Forall_cons in Hok as [Ho Hok]. rewrite wp_bind. eapply wp_mono; [by apply (hop_at base limit n k o h live)|].
    intros r h1 (live1 & Hat1 & Hst). rewrite wp_bind. eapply wp_mono; [by apply (IH h1 live1)|].
    intros rs h2 (live2 & Hat2 & Hsts). exists live2. split; [done|by econstructor].
Qed.

(** C24: The kernel heap, from its initialisation on and for every sequence of
    malloc, calloc and free with sizes below 2^62, terminates without an
    invalid access and hands out memory as the specification says: each block
    lies in the heap, is aligned and large enough, and overlaps no live block;
    calloc clears it and changes no other byte; free gives up exactly the block
    at its address.  The consistency check of the allocator always holds. *)
Theorem heap_blocks_apart base limit n split al k os h :
  init_pre base limit n al k h → Forall hop_ok os →
  wp ((ta_init base limit n split al;; hops_run os) h) (λ rs h', ∃ live,
    hsteps (base + SIZEOF_HEAP + n * SIZEOF_BLOCK) limit al [] (h_mem h) os rs live (h_mem h') ∧ disj live ∧
    ta_check h' = Done true h').
Proof.
  intros Hpre Hok. pose proof Hpre as (Hb & Hn & Hn2 & Hl & -> & Hk & _ & _ & Hmp).
  rewrite wp_bind. eapply wp_mono; [by apply (ta_init_wp base limit n split (2 ^ k) k h)|]. intros _ h1 (_ & rl & HI & Hc).
  assert (h_mem h1 = h_mem h) as Em by (unfold cfg in Hc; congruence).
  eapply wp_mono; [apply (hops_at base limit n k os h1 []); try done; [|lia]|].
  - exists [], [], rl, split. split_and!; try done; [by rewrite Hc, Em|]. intros x Hx. rewrite Em. by apply Hmp.
  - intros rs h2 (live & (fl & ul & rl2 & split' & HI2 & <- & Hc2 & _) & Hst). exists (ranges ul). rewrite <-Em. split_and!; [done| |].
    + destruct HI2 as [_ _ _ _ _ Hd]. by apply disj_app in Hd as (_ & Hd & _).
    + eapply ta_check_run; [exact HI2|]. unfold cfg in Hc2. assert (heap_max_blocks h2 = n) as -> by congruence. lia.
Qed.

(** A heap of four records and 128 bytes. *)
Definition small_heap : theap :=
  Heap 0 0 0 0 0 (list_to_map ((λ i, (record_at 4128 i, Block 7 7 7)) <$> seqZ 0 4)) 0 0 0 0
    (list_to_map ((λ a, (a, 7)) <$> seqZ 4096 256)).

Lemma small_heap_pre : init_pre 4096 4352 4 8 3 small_heap.
Proof.
  unfold init_pre. split; [lia|]. split; [lia|]. split; [lia|]. split; [unfold SIZEOF_HEAP, SIZEOF_BLOCK; lia|].
  split; [reflexivity|]. split; [lia|]. split; [by exists 528|]. split.
  - intros i Hi. apply bool_some. revert i Hi. apply (forall_range (λ i, match h_blocks small_heap !! record_at (4096 + SIZEOF_HEAP) i with Some _ => true | None => false end) 0 4).
    vm_compute. reflexivity.
  - intros x Hx. apply bool_some. revert x Hx. apply (forall_range (λ x, match h_mem small_heap !! x with Some _ => true | None => false end) 4096 4352).
    vm_compute. reflexivity.
Qed.

Lemma heap_blocks_apart_witness :
  wp ((ta_init 4096 4352 4 16 8;; hops_run [HAlloc 20; HCalloc 2 8; HFree 4224; HAlloc 5; HAlloc 200]) small_heap) (λ rs h',
    rs = [4224; 4248; 1; 4224; 0] ∧ ta_check h' = Done true h').
Proof.
  assert (Forall hop_ok [HAlloc 20; HCalloc 2 8; HFree 4224; HAlloc 5; HAlloc 200]) as Hok.
  { repeat (apply Forall_cons; split; [simpl; first [exact I|lia]|]). apply Forall_nil. exact I. }
  pose proof (heap_blocks_apart 4096 4352 4 16 8 3 _ _ small_heap_pre Hok) as Hw.
  refine (wp_and _ _ _ _ (wp_mono _ _ _ Hw _)); [vm_compute; reflexivity|]. intros rs h' (live & _ & _ & Hc). exact Hc.
Defined.

(** A size near 2^64 wraps around: the allocator returns a block for it and moves
    the top of the heap down, so that the next block overlaps a live one. *)
Theorem heap_size_wraps :
  wp ((ta_init 4096 4352 4 16 8;; hops_run [HAlloc 16; HAlloc (2 ^ 64 - 8); HAlloc 16]) small_heap) (λ rs _, rs = [4224; 4240; 4232]).
Proof. vm_compute. reflexivity. Qed.
