(* ===== verification/Buf.v ===== *)
(** * Byte buffers

    The contents of a disk block, of a structure or of a kernel buffer: the
    bytes that differ from 0, by offset.  The size of the object a buffer
    stands for bounds its checked accesses, [buf_load] and [buf_store]. *)

From S2P Require Import Prelude.

Abbreviation bytes := (gmap Z Z).

Definition byte_at (b : bytes) (i : Z) : Z := default 0 (b !! i).

Section Sized.
Context (len : Z).
Definition buf_load (b : bytes) (i : Z) : option Z :=
  if decide (0 ≤ i < len) then Some (byte_at b i) else None.
Definition buf_store (b : bytes) (i v : Z) : option bytes :=
  if decide (0 ≤ i < len) then Some (<[i := u8 v]> b) else None.
End Sized.

(** Little-endian integers of [n] bytes at an offset. *)
Fixpoint le_get (b : bytes) (off : Z) (n : nat) : Z :=
  match n with
  | O => 0
  | S n => byte_at b off + 256 * le_get b (off + 1) n
  end.
Fixpoint le_put (b : bytes) (off : Z) (n : nat) (v : Z) : bytes :=
  match n with
  | O => b
  | S n => <[off := v mod 256]> (le_put b (off + 1) n (v / 256))
  end.

(** [memcpy(dst + doff, src + soff, n)] between distinct objects. *)
Fixpoint blit (dst : bytes) (doff : Z) (src : bytes) (soff : Z) (n : nat) : bytes :=
  match n with
  | O => dst
  | S n => blit (<[doff := byte_at src soff]> dst) (doff + 1) src (soff + 1) n
  end.

(** The [n] bytes from an offset on, and their replacement. *)
Definition slice (b : bytes) (off : Z) (n : nat) : list Z :=
  (λ i, byte_at b (off + Z.of_nat i)) <$> seq 0 n.
Fixpoint put_list (b : bytes) (off : Z) (l : list Z) : bytes :=
  match l with
  | [] => b
  | x :: l => put_list (<[off := x]> b) (off + 1) l
  end.

(** The buffer of a list of bytes. *)
Definition of_list (l : list Z) : bytes := put_list ∅ 0 l.

(** Every stored byte is one. *)
Definition wf_bytes (b : bytes) : Prop := ∀ i, 0 ≤ byte_at b i < 256.

(** ** Lemmas *)

Lemma byte_at_empty i : byte_at ∅ i = 0.
Proof. done. Qed.

Lemma byte_at_insert b i v j : byte_at (<[i := v]> b) j = if decide (i = j) then v else byte_at b j.
Proof.
  unfold byte_at. rewrite lookup_insert. by destruct (decide (i = j)).
Qed.

Lemma wf_insert b i v : wf_bytes b → 0 ≤ v < 256 → wf_bytes (<[i := v]> b).
Proof. intros Hb Hv j. rewrite byte_at_insert. destruct (decide _); [done|apply Hb]. Qed.

Lemma wf_empty : wf_bytes ∅.
Proof. intros i. rewrite byte_at_empty. lia. Qed.

Lemma le_get_range b off n : wf_bytes b → 0 ≤ le_get b off n < 256 ^ Z.of_nat n.
Proof.
  intros Hb. revert off. induction n as [|n IH]; intros off; [simpl; lia|].
  rewrite Nat2Z.inj_succ, Z.pow_succ_r by lia. simpl. specialize (IH (off + 1)). pose proof (Hb off). lia.
Qed.

Lemma le_put_out b off n v j : j < off ∨ off + Z.of_nat n ≤ j → byte_at (le_put b off n v) j = byte_at b j.
Proof.
  revert off v. induction n as [|n IH]; intros off v Hj; [done|]. simpl.
  rewrite byte_at_insert, decide_False by lia. apply IH. lia.
Qed.

Lemma wf_le_put b off n v : wf_bytes b → wf_bytes (le_put b off n v).
Proof.
  intros Hb. revert off v. induction n as [|n IH]; intros off v; [done|]. simpl.
  apply wf_insert; [apply IH|]. apply Z.mod_pos_bound. lia.
Qed.

Lemma le_get_ext b b' off n :
  (∀ j, off ≤ j < off + Z.of_nat n → byte_at b j = byte_at b' j) → le_get b off n = le_get b' off n.
Proof.
  revert off. induction n as [|n IH]; intros off Hb; [done|]. simpl.
  rewrite (Hb off), (IH (off + 1)); [done|intros j Hj; apply Hb; lia|lia].
Qed.

(** Writing an integer and reading it back. *)
Lemma le_get_put b off n v : le_get (le_put b off n v) off n = v mod 256 ^ Z.of_nat n.
Proof.
  revert off v. induction n as [|n IH]; intros off v; [by rewrite Z.mod_1_r|]. simpl le_get. simpl le_put.
  rewrite byte_at_insert, decide_True by done.
  rewrite (le_get_ext _ (le_put b (off + 1) n (v / 256))), IH.
  - rewrite Nat2Z.inj_succ, Z.pow_succ_r, Z.rem_mul_r by lia. done.
  - intros j Hj. rewrite byte_at_insert, decide_False by lia. done.
Qed.

Lemma le_get_put_other b off n v off' m :
  off' + Z.of_nat m ≤ off ∨ off + Z.of_nat n ≤ off' → le_get (le_put b off n v) off' m = le_get b off' m.
Proof. intros Ho. apply le_get_ext. intros j Hj. apply le_put_out. lia. Qed.

Lemma blit_spec dst doff src soff n j :
  byte_at (blit dst doff src soff n) j =
    if decide (doff ≤ j < doff + Z.of_nat n) then byte_at src (soff + (j - doff)) else byte_at dst j.
Proof.
  revert dst doff soff. induction n as [|n IH]; intros dst doff soff; simpl blit.
  { by rewrite decide_False by lia. }
  rewrite IH, byte_at_insert. repeat destruct (decide _); try lia; try done.
  - f_equal. lia.
  - f_equal. lia.
Qed.

Lemma slice_length b off n : length (slice b off n) = n.
Proof. unfold slice. by rewrite length_fmap, length_seq. Qed.

Lemma slice_lookup b off n i : (i < n)%nat → slice b off n !! i = Some (byte_at b (off + Z.of_nat i)).
Proof. intros. unfold slice. rewrite list_lookup_fmap, lookup_seq_lt by done. done. Qed.

Lemma slice_S b off n : slice b off (S n) = byte_at b off :: slice b (off + 1) n.
Proof.
  unfold slice. simpl. rewrite Z.add_0_r. f_equal. rewrite <-fmap_S_seq, <-list_fmap_compose.
  apply list_fmap_ext. intros i x _. simpl. f_equal. lia.
Qed.

Lemma slice_ext b b' off off' n :
  (∀ i, 0 ≤ i < Z.of_nat n → byte_at b (off + i) = byte_at b' (off' + i)) → slice b off n = slice b' off' n.
Proof.
  intros Hb. unfold slice. apply list_fmap_ext. intros i x Hi. apply Hb.
  apply lookup_seq in Hi. lia.
Qed.

Lemma put_list_spec b off l j :
  byte_at (put_list b off l) j =
    if decide (off ≤ j < off + Z.of_nat (length l)) then default 0 (l !! Z.to_nat (j - off)) else byte_at b j.
Proof.
  revert b off. induction l as [|x l IH]; intros b off; simpl put_list; simpl length.
  { by rewrite decide_False by lia. }
  rewrite IH, byte_at_insert. repeat destruct (decide _); try lia; try done.
  - replace (Z.to_nat (j - off)) with (S (Z.to_nat (j - (off + 1)))) by lia. done.
  - subst j. by rewrite Z.sub_diag.
Qed.

Lemma slice_put_list b off l : slice (put_list b off l) off (length l) = l.
Proof.
  apply list_eq. intros i. destruct (decide (i < length l)%nat) as [Hi|Hi].
  - rewrite slice_lookup by done. rewrite put_list_spec, decide_True by lia.
    replace (Z.to_nat (off + Z.of_nat i - off)) with i by lia.
    destruct (l !! i) eqn:E; [done|]. apply lookup_ge_None in E. lia.
  - rewrite !lookup_ge_None_2; [done|lia|rewrite slice_length; lia].
Qed.

Lemma wf_put_list b off l : wf_bytes b → Forall (λ x, 0 ≤ x < 256) l → wf_bytes (put_list b off l).
Proof.
  intros Hb Hl. revert b off Hb. induction Hl as [|x l Hx Hl IH]; intros b off Hb; [done|].
  simpl. apply IH. by apply wf_insert.
Qed.

Lemma wf_blit dst doff src soff n : wf_bytes dst → wf_bytes src → wf_bytes (blit dst doff src soff n).
Proof. intros Hd Hs j. rewrite blit_spec. by destruct (decide _). Qed.

Lemma wf_slice b off n : wf_bytes b → Forall (λ x, 0 ≤ x < 256) (slice b off n).
Proof. intros Hb. unfold slice. apply Forall_fmap, Forall_true. intros i. apply Hb. Qed.

#[export] Hint Resolve wf_empty wf_insert wf_le_put wf_put_list wf_blit wf_slice : kernel.
