(* ===== verification/Bitmap.v ===== *)
(** * lib/bitmap.c: bitmaps in a buffer

    The search reads the buffer by 64-bit words, the updates write single
    bytes.  [len] is the size of the buffer: an access past it faults. *)

From S2P Require Import Prelude Buf.

Section Bitmap.
Context {S : Type} (len : Z).

(** [bitmap64[qw]]: the word of the eight bytes at [8 * qw]. *)
Definition load64 (buf : bytes) (qw : Z) : M S Z :=
  if decide (0 ≤ 8 * qw ∧ 8 * qw + 8 ≤ len) then mret (le_get buf (8 * qw) 8) else fault.

(** [__builtin_ctzll]: the index of the lowest bit set, of 64. *)
Fixpoint ctz_loop (fuel : nat) (x i : Z) : Z :=
  match fuel with
  | O => i
  | Datatypes.S fuel => if Z.testbit x i then i else ctz_loop fuel x (i + 1)
  end.
Definition ctzll (x : Z) : Z := ctz_loop 64 x 0.

Fixpoint find_zero_loop (fuel : nat) (buf : bytes) (qw max_qw : Z) : M S Z :=
  match fuel with
  | O => nofuel
  | Datatypes.S fuel =>
    if qw <? max_qw then
      qword ← load64 buf qw;
      if qword =? UINT64_MAX then find_zero_loop fuel buf (qw + 1) max_qw
      else mret (s32 (ctzll (u64 (Z.lnot qword)) + qw * 64))
    else mret (-1)
  end.

Definition bm_find_first_zero (buf : bytes) (bit_size : Z) : M S Z :=
  let max_qw := bit_size / 64 in
  find_zero_loop (Datatypes.S (Z.to_nat max_qw)) buf 0 max_qw.

(** The divisions are on [size_t]: the index is converted to it. *)
Definition bm_set_bit (buf : bytes) (bit_idx : Z) : M S bytes :=
  let idx := s32 (u64 bit_idx / 8) in
  let byte_shift := u64 bit_idx mod 8 in
  v ← of_opt (buf_load len buf idx);
  of_opt (buf_store len buf idx (Z.lor v (Z.shiftl 1 byte_shift))).

Definition bm_clear_bit (buf : bytes) (bit_idx : Z) : M S bytes :=
  let idx := s32 (u64 bit_idx / 8) in
  let byte_shift := u64 bit_idx mod 8 in
  v ← of_opt (buf_load len buf idx);
  of_opt (buf_store len buf idx (Z.land v (Z.lnot (Z.shiftl 1 byte_shift)))).
End Bitmap.

(** ** Bits of a buffer *)

Definition bit (b : bytes) (i : Z) : bool := Z.testbit (byte_at b (i / 8)) (i mod 8).

Lemma byte_bits v k : 0 ≤ v < 256 → 8 ≤ k → Z.testbit v k = false.
Proof.
  intros Hv Hk. rewrite <-(Z.mod_small v (2 ^ 8)) by lia. apply Z.mod_pow2_bits_high. lia.
Qed.

(** A word read from the buffer has the bits of its bytes. *)
Lemma le_get_bits b off n k :
  wf_bytes b → 0 ≤ k < 8 * Z.of_nat n →
  Z.testbit (le_get b off n) k = Z.testbit (byte_at b (off + k / 8)) (k mod 8).
Proof.
  intros Hb. revert off k. induction n as [|n IH]; intros off k Hk; [lia|]. simpl.
  assert (byte_at b off + 256 * le_get b (off + 1) n = Z.lor (byte_at b off) (Z.shiftl (le_get b (off + 1) n) 8)) as ->.
  { rewrite Z.shiftl_mul_pow2 by lia. replace (le_get b (off + 1) n * 2 ^ 8) with (256 * le_get b (off + 1) n) by lia.
    symmetry. rewrite <-Z.add_nocarry_lor; [done|].
    apply Z.bits_inj'. intros j Hj. rewrite Z.land_spec, Z.bits_0.
    replace (256 * le_get b (off + 1) n) with (le_get b (off + 1) n * 2 ^ 8) by lia.
    rewrite <-Z.shiftl_mul_pow2, Z.shiftl_spec by lia.
    destruct (decide (j < 8)); [rewrite (Z.testbit_neg_r _ (j - 8)) by lia; apply andb_false_r|].
    rewrite byte_bits by (apply Hb || lia). done. }
  rewrite Z.lor_spec, Z.shiftl_spec by lia.
  destruct (decide (k < 8)).
  - rewrite (Z.testbit_neg_r _ (k - 8)), orb_false_r, Z.div_small, Z.mod_small, Z.add_0_r by lia. done.
  - rewrite byte_bits by (apply Hb || lia). simpl. rewrite IH by lia.
    replace (k / 8) with (1 + (k - 8) / 8) by (replace k with (k - 8 + 1 * 8) at 2 by lia; rewrite Z.div_add; lia).
    replace (k mod 8) with ((k - 8) mod 8) by (replace k with (k - 8 + 1 * 8) at 2 by lia; rewrite Z_mod_plus_full; lia).
    do 2 f_equal. lia.
Qed.

(** The lowest bit set of a nonzero word. *)
Lemma ctz_loop_spec (fuel : nat) x i :
  (∃ j, i ≤ j < i + Z.of_nat fuel ∧ Z.testbit x j = true) →
  let r := ctz_loop fuel x i in
  i ≤ r < i + Z.of_nat fuel ∧ Z.testbit x r = true ∧ ∀ j, i ≤ j < r → Z.testbit x j = false.
Proof.
  revert i. induction fuel as [|n IH]; intros i (j & Hj & Hb); [lia|]. cbn [ctz_loop].
  destruct (Z.testbit x i) eqn:E; cbv zeta.
  { split_and!; [lia|lia|done|lia]. }
  assert (j ≠ i) by congruence. destruct (IH (i + 1)) as (Hr & Hr' & Hlt); [exists j; split; [lia|done]|].
  split_and!; [lia|lia|done|]. intros k Hk. destruct (decide (k = i)) as [->|]; [done|]. apply Hlt. lia.
Qed.

Lemma not_all_ones x : 0 ≤ x < 2 ^ 64 → x ≠ UINT64_MAX → ∃ j, 0 ≤ j < 64 ∧ Z.testbit x j = false.
Proof.
  intros Hx Hne. destruct (decide (Exists (λ j, Z.testbit x (Z.of_nat j) = false) (seq 0 64))) as [He|Hn].
  - apply Exists_exists in He as (j & Hj & Hb). apply elem_of_seq in Hj. exists (Z.of_nat j). split; [lia|done].
  - exfalso. apply Hne. apply not_Exists_Forall in Hn; [|solve_decision]. rewrite Forall_forall in Hn.
    apply Z.bits_inj'. intros k Hk. unfold UINT64_MAX. change (2 ^ 64 - 1) with (Z.ones 64).
    destruct (decide (k < 64)).
    + rewrite Z.ones_spec_low by lia. destruct (Z.testbit x k) eqn:E; [done|].
      exfalso. apply (Hn (Z.to_nat k)); [apply elem_of_seq; lia|]. by rewrite Z2Nat.id.
    + rewrite Z.ones_spec_high by lia. rewrite <-(Z.mod_small x (2 ^ 64)) by lia. apply Z.mod_pow2_bits_high. lia.
Qed.

Lemma lnot_bits x j : 0 ≤ j < 64 → Z.testbit (u64 (Z.lnot x)) j = negb (Z.testbit x j).
Proof. intros Hj. unfold wrap. rewrite Z.mod_pow2_bits_low by lia. apply Z.lnot_spec. lia. Qed.

Section Correct.
Context {S : Type} (len : Z).

(** No zero among the first [n] bits. *)
Definition all_set (b : bytes) (n : Z) : Prop := ∀ i, 0 ≤ i < n → bit b i = true.

(** [r] is the lowest index of a zero bit below [n], or -1 when there is none. *)
Definition first_zero (b : bytes) (n r : Z) : Prop :=
  (r = -1 ∧ all_set b n) ∨ (0 ≤ r < n ∧ bit b r = false ∧ all_set b r).

Lemma bit_word b qw k :
  wf_bytes b → 0 ≤ qw → 0 ≤ k < 64 → bit b (qw * 64 + k) = Z.testbit (le_get b (8 * qw) 8) k.
Proof.
  intros Hb Hq Hk. rewrite le_get_bits by (done || lia). unfold bit.
  replace (qw * 64 + k) with (k + (8 * qw) * 8) by lia. rewrite Z.div_add, Z_mod_plus_full by lia.
  do 2 f_equal. lia.
Qed.

Lemma word_full b qw : wf_bytes b → 0 ≤ qw → all_set b (qw * 64) → le_get b (8 * qw) 8 = UINT64_MAX →
  all_set b ((qw + 1) * 64).
Proof.
  intros Hb Hq Hs Hw i Hi. destruct (decide (i < qw * 64)); [apply Hs; lia|].
  replace i with (qw * 64 + (i - qw * 64)) by lia. rewrite bit_word by (done || lia). rewrite Hw.
  unfold UINT64_MAX. change (2 ^ 64 - 1) with (Z.ones 64). apply Z.ones_spec_low. lia.
Qed.

Lemma find_zero_loop_run (fuel : nat) b qw n (s : S) :
  wf_bytes b → 0 ≤ qw ≤ n → 8 * n ≤ len → n * 64 < 2 ^ 31 → n - qw < Z.of_nat fuel → all_set b (qw * 64) →
  ∃ r, find_zero_loop len fuel b qw n s = Done r s ∧ first_zero b (n * 64) r.
Proof.
  intros Hb. revert qw. induction fuel as [|f IH]; intros qw Hq Hl Hn Hf Hs; [lia|]. cbn [find_zero_loop].
  destruct (Z.ltb_spec qw n) as [Hlt|Hge].
  2:{ exists (-1). split; [done|]. left. split; [done|]. by replace n with qw by lia. }
  unfold load64. rewrite decide_True by lia. rewrite bind_ret.
  destruct (Z.eqb_spec (le_get b (8 * qw) 8) UINT64_MAX) as [Hw|Hw].
  { apply IH; try lia. apply word_full; (done || lia). }
  pose proof (le_get_range b (8 * qw) 8 Hb) as Hr. change (256 ^ Z.of_nat 8) with (2 ^ 64) in Hr.
  destruct (not_all_ones _ Hr Hw) as (j & Hj & Hjb).
  pose proof (ctz_loop_spec 64 (u64 (Z.lnot (le_get b (8 * qw) 8))) 0) as Hc. cbv zeta in Hc.
  fold (ctzll (u64 (Z.lnot (le_get b (8 * qw) 8)))) in Hc. set (c := ctzll _) in *.
  destruct Hc as (Hc & Hcb & Hcl); [exists j; split; [lia|]; by rewrite lnot_bits, Hjb|].
  rewrite lnot_bits in Hcb by lia. apply negb_true_iff in Hcb.
  exists (qw * 64 + c). split.
  { unfold mret, M_ret. f_equal. rewrite sext_small by lia. lia. }
  right. split_and!; [lia|lia| |].
  - by rewrite bit_word by (done || lia).
  - intros i Hi. destruct (decide (i < qw * 64)); [apply Hs; lia|].
    replace i with (qw * 64 + (i - qw * 64)) by lia. rewrite bit_word by (done || lia).
    specialize (Hcl (i - qw * 64) ltac:(lia)). rewrite lnot_bits in Hcl by lia. by apply negb_false_iff in Hcl.
Qed.

Lemma find_first_zero_run b bit_size (s : S) :
  wf_bytes b → 0 ≤ bit_size < 2 ^ 31 → bit_size mod 64 = 0 → bit_size / 8 ≤ len →
  ∃ r, bm_find_first_zero len b bit_size s = Done r s ∧ first_zero b bit_size r.
Proof.
  intros Hb Hn Hm Hl. assert (bit_size = bit_size / 64 * 64) as E by (pose proof (Z.div_mod bit_size 64); lia).
  assert (0 ≤ bit_size / 64) by (apply Z.div_pos; lia).
  assert (bit_size / 8 = 8 * (bit_size / 64)) as E8.
  { rewrite E at 1. replace (bit_size / 64 * 64) with (8 * (bit_size / 64) * 8) by lia. by rewrite Z.div_mul. }
  destruct (find_zero_loop_run (Datatypes.S (Z.to_nat (bit_size / 64))) b 0 (bit_size / 64) s) as (r & Hr & Hz);
    try lia; [done|intros i Hi; lia|].
  exists r. split; [done|]. by rewrite E.
Qed.

(** Setting and clearing a bit change that bit alone. *)
Lemma update_bit (f : Z → Z) b i v j :
  wf_bytes b → 0 ≤ i → 0 ≤ j → 0 ≤ f (byte_at b (i / 8)) < 256 →
  (∀ k, 0 ≤ k < 8 → Z.testbit (f (byte_at b (i / 8))) k =
    if decide (k = i mod 8) then v else Z.testbit (byte_at b (i / 8)) k) →
  bit (<[i / 8 := u8 (f (byte_at b (i / 8)))]> b) j = if decide (j = i) then v else bit b j.
Proof.
  intros Hb Hi Hj Hr Hf. unfold bit. rewrite byte_at_insert.
  pose proof (Z.div_mod i 8 ltac:(lia)). pose proof (Z.div_mod j 8 ltac:(lia)).
  pose proof (Z.mod_pos_bound j 8 ltac:(lia)). pose proof (Z.mod_pos_bound i 8 ltac:(lia)).
  destruct (decide (i / 8 = j / 8)) as [E|E].
  - rewrite wrap_small by done. rewrite Hf by lia. destruct (decide (j mod 8 = i mod 8)), (decide (j = i)); try lia.
    + done.
    + by rewrite E.
  - by rewrite decide_False by congruence.
Qed.

Lemma index_ok i : 0 ≤ i → i / 8 < len → len ≤ 2 ^ 31 →
  s32 (u64 i / 8) = i / 8 ∧ u64 i mod 8 = i mod 8 ∧ 0 ≤ i / 8 < len.
Proof.
  intros Hi Hl Hlen. assert (0 ≤ i / 8) by (apply Z.div_pos; lia).
  pose proof (Z.div_mod i 8 ltac:(lia)). pose proof (Z.mod_pos_bound i 8 ltac:(lia)).
  rewrite wrap_small by lia. split_and!; try lia. apply sext_small; lia.
Qed.

Lemma set_bit_run b i (s : S) :
  wf_bytes b → 0 ≤ i → i / 8 < len → len ≤ 2 ^ 31 →
  ∃ b', bm_set_bit len b i s = Done b' s ∧ wf_bytes b' ∧
    (∀ j, 0 ≤ j → bit b' j = if decide (j = i) then true else bit b j) ∧
    ∀ j, j ≠ i / 8 → byte_at b' j = byte_at b j.
Proof.
  intros Hb Hi Hl Hlen. destruct (index_ok i Hi Hl Hlen) as (E1 & E2 & E3).
  unfold bm_set_bit. rewrite E1, E2. unfold buf_load, buf_store. rewrite !decide_True by done.
  unfold of_opt. rewrite bind_ret, decide_True by done. unfold mret, M_ret.
  set (v := Z.lor _ _). assert (0 ≤ v < 256) as Hv.
  { pose proof (Z.mod_pos_bound i 8 ltac:(lia)). pose proof (Hb (i / 8)).
    assert (0 ≤ v) by (apply Z.lor_nonneg; split; [lia|apply Z.shiftl_nonneg; lia]).
    split; [done|]. destruct (decide (v = 0)) as [->|]; [lia|]. apply (Z.log2_lt_pow2 v 8); [lia|]. subst v.
    rewrite Z.log2_lor, Z.log2_shiftl by (rewrite ?Z.shiftl_nonneg; lia). simpl (Z.log2 1). apply Z.max_lub_lt; [|lia].
    destruct (decide (byte_at b (i / 8) = 0)) as [->|]; [simpl; lia|]. apply Z.log2_lt_pow2; lia. }
  eexists. split; [reflexivity|]. split_and!.
  - apply wf_insert; [done|]. by rewrite wrap_small.
  - intros j Hj. apply (update_bit (λ x, Z.lor x (Z.shiftl 1 (i mod 8))) b i true j Hb Hi Hj Hv).
    intros k Hk. rewrite Z.lor_spec, Z.shiftl_1_l, Z.pow2_bits_eqb by (apply Z.mod_pos_bound; lia).
    destruct (decide (k = i mod 8)) as [->|]; [by rewrite Z.eqb_refl, orb_true_r|].
    destruct (Z.eqb_spec (i mod 8) k); [congruence|]. by rewrite orb_false_r.
  - intros j Hj. by rewrite byte_at_insert, decide_False by done.
Qed.

Lemma clear_bit_run b i (s : S) :
  wf_bytes b → 0 ≤ i → i / 8 < len → len ≤ 2 ^ 31 →
  ∃ b', bm_clear_bit len b i s = Done b' s ∧ wf_bytes b' ∧
    (∀ j, 0 ≤ j → bit b' j = if decide (j = i) then false else bit b j) ∧
    ∀ j, j ≠ i / 8 → byte_at b' j = byte_at b j.
Proof.
  intros Hb Hi Hl Hlen. destruct (index_ok i Hi Hl Hlen) as (E1 & E2 & E3).
  unfold bm_clear_bit. rewrite E1, E2. unfold buf_load, buf_store. rewrite !decide_True by done.
  unfold of_opt. rewrite bind_ret, decide_True by done. unfold mret, M_ret.
  set (v := Z.land _ _). assert (0 ≤ v < 256) as Hv.
  { pose proof (Hb (i / 8)). subst v. rewrite <-(Z.mod_small (byte_at b (i / 8)) (2 ^ 8)) by lia.
    rewrite <-Z.land_ones, <-Z.land_assoc, (Z.land_comm (Z.ones 8)), Z.land_assoc, Z.land_ones by lia.
    apply Z.mod_pos_bound. lia. }
  eexists. split; [reflexivity|]. split_and!.
  - apply wf_insert; [done|]. by rewrite wrap_small.
  - intros j Hj. apply (update_bit (λ x, Z.land x (Z.lnot (Z.shiftl 1 (i mod 8)))) b i false j Hb Hi Hj Hv).
    intros k Hk. rewrite Z.land_spec, Z.lnot_spec, Z.shiftl_1_l, Z.pow2_bits_eqb by (lia || (apply Z.mod_pos_bound; lia)).
    destruct (decide (k = i mod 8)) as [->|]; [by rewrite Z.eqb_refl, andb_false_r|].
    destruct (Z.eqb_spec (i mod 8) k); [congruence|]. by rewrite andb_true_r.
  - intros j Hj. by rewrite byte_at_insert, decide_False by done.
Qed.
End Correct.

(** On a bitmap of [n] bits (whole 64-bit words inside the buffer) the search
    returns the index of the lowest zero bit, or -1 when all [n] bits are set;
    setting the bit it found sets that bit and no other, and clearing it again
    gives the bits back as they were. *)
Theorem bitmap_find_set_clear {S} (len n : Z) b (s : S) :
  wf_bytes b → 0 ≤ n < 2 ^ 31 → n mod 64 = 0 → n / 8 ≤ len → len ≤ 2 ^ 31 →
  ∃ r, bm_find_first_zero len b n s = Done r s ∧ first_zero b n r ∧
    (0 ≤ r → ∃ b1 b2, bm_set_bit len b r s = Done b1 s ∧ bm_clear_bit len b1 r s = Done b2 s ∧
      (∀ j, 0 ≤ j → bit b1 j = if decide (j = r) then true else bit b j) ∧
      (∀ j, 0 ≤ j → bit b2 j = bit b j)).
Proof.
  intros Hb Hn Hm Hl Hlen. destruct (find_first_zero_run len b n s Hb Hn Hm Hl) as (r & Hr & Hz).
  exists r. split_and!; [done..|]. intros Hr0. destruct Hz as [[-> _]|(Hrn & Hrb & _)]; [lia|].
  assert (r / 8 < len) as Hr8.
  { apply Z.div_lt_upper_bound; [lia|]. pose proof (Z.div_mod n 8 ltac:(lia)).
    pose proof (Z.div_mod n 64 ltac:(lia)). pose proof (Z.mod_pos_bound n 8 ltac:(lia)). lia. }
  destruct (set_bit_run len b r s Hb Hr0 Hr8 Hlen) as (b1 & H1 & Hw1 & Hb1 & _).
  destruct (clear_bit_run len b1 r s Hw1 Hr0 Hr8 Hlen) as (b2 & H2 & _ & Hb2 & _).
  exists b1, b2. split_and!; [done..|]. intros j Hj. rewrite Hb2, Hb1 by done.
  by destruct (decide (j = r)) as [->|].
Qed.

Lemma bitmap_find_set_clear_witness :
  ∃ r, bm_find_first_zero 8 (of_list [255; 7]) 64 tt = Done r tt ∧ r = 11.
Proof.
  assert (wf_bytes (of_list [255; 7])) as Hw.
  { apply wf_put_list; [apply wf_empty|]. rewrite !Forall_cons, Forall_nil. lia. }
  destruct (bitmap_find_set_clear 8 64 (of_list [255; 7]) tt Hw) as (r & Hr & _); [lia|done|done|lia|].
  exists r. split; [exact Hr|]. assert (bm_find_first_zero 8 (of_list [255; 7]) 64 tt = Done 11 tt) as H11 by (vm_compute; reflexivity).
  rewrite H11 in Hr. by injection Hr.
Defined.
