(* ===== verification/FsState.v ===== *)
(** * The data of the file system stack, and what it needs of the kernel

    The block cache, the inode cache, the superblock and the table of open
    files are one state, [fs].  The locks, the block device and the memory of
    the user are the environment, an [Env]: its operations are those of
    sync/*.c, virtio_blk.c and vpages.c that the file system calls, and
    [EnvSpec] is what the file system relies on.  An operation of the
    environment may switch context; the code of the file system is then
    suspended with it. *)

From S2P Require Import Prelude Clist Buf.

(** ** Layout (include/kernel/fs_layout.h) *)

Definition MAXNAME : Z := 16.
Definition FS_SUPERBLK : Z := 1.
Definition FS_MAGIC_NUMBER : Z := 69.
Definition FS_BLK_SIZE : Z := 4096.
Definition FS_ROOT_INODE_ID : Z := 1.
Definition FS_BM_BITS_PER_BLK : Z := FS_BLK_SIZE * 8.
Definition FS_INODE_DIR_DBLKNO : Z := 12.
Definition FS_INODE_INDIR_DBLKNO : Z := FS_BLK_SIZE / 4.
Definition FS_MAX_FILE_SIZE : Z := (FS_INODE_DIR_DBLKNO + FS_INODE_INDIR_DBLKNO) * FS_BLK_SIZE.

Record fs_meta := FsMeta {
  magic : Z;
  nb_blk : Z;
  blk_size : Z;
  nb_ibm : Z;
  nb_dbm : Z;
  nb_itab : Z;
  nb_dblk : Z;
  ibm_start : Z;
  dbm_start : Z;
  itab_start : Z;
  data_start : Z;
}.

Definition INODE_FREE : Z := 0.
Definition INODE_DIRECTORY : Z := 1.
Definition INODE_FILE : Z := 2.
Definition INODE_SPECIAL_FILE : Z := 3.
Definition INODE_DEVICE : Z := 4.

Record dinode := Dinode {
  di_size : Z;
  di_type : Z;
  di_dev_id : Z;
  di_nblink : Z;
  di_dirblkno : list Z;
  di_indir : Z;
}.

Record dirent := Dirent { de_name : list Z; de_inum : Z }.

(** ** The caches and the open files *)

Record cblk := Cblk { cb_blkno : Z; cb_refcnt : Z; cb_flags : Z; cb_buf : bytes }.

Record inode := Inode { i_refcnt : Z; i_ino : Z; i_valid : bool; i_content : dinode }.

(** The callbacks of an open file: none, those of a regular file, or those a
    device registered. *)
Inductive file_ops := NoOps | FileOps | DevOps (dev : Z).

Record file := File { f_refcnt : Z; f_i : Z; f_off : Z; f_mode : Z; f_ops : file_ops }.

(** The list nodes: those of the buffers and of the inode slots, and the
    heads of the two lists. *)
Inductive fnode := FBuf (i : Z) | FBufList | FIno (i : Z) | FIcache.
#[export] Instance fnode_eq_dec : EqDecision fnode.
Proof. solve_decision. Defined.
#[export] Program Instance fnode_countable : Countable fnode :=
  inj_countable' (λ n, match n with
    | FBuf i => Datatypes.inl (Datatypes.inl i) | FBufList => Datatypes.inr false | FIno i => Datatypes.inl (Datatypes.inr i) | FIcache => Datatypes.inr true end)
    (λ c, match c with
    | Datatypes.inl (Datatypes.inl i) => FBuf i | Datatypes.inr false => FBufList | Datatypes.inl (Datatypes.inr i) => FIno i | Datatypes.inr true => FIcache end) _.
Next Obligation. by intros []. Qed.

(** The buffers, the slots and the open files are arrays, addressed by their
    index.  [dev_map] gives the driver whose callbacks a device id has, [holder]
    is the static variable of [strtok]: what is left of the string. *)
Record fs := Fs {
  fs_nodes : store fnode;
  bufs : gmap Z cblk;
  islots : gmap Z inode;
  ftable : gmap Z file;
  dev_map : gmap Z Z;
  sb : fs_meta;
  root : Z;
  holder : option (list Z);
}.

(** ** The environment *)

(** The mutexes of the buffers and of the inodes, and the spinlocks of the two
    caches. *)
Inductive lock := LBuf (i : Z) | LIno (i : Z).
#[export] Instance lock_eq_dec : EqDecision lock.
Proof. solve_decision. Defined.
#[export] Program Instance lock_countable : Countable lock :=
  inj_countable' (λ n, match n with LBuf i => Datatypes.inl i | LIno i => Datatypes.inr i end)
    (λ c, match c with Datatypes.inl i => LBuf i | Datatypes.inr i => LIno i end) _.
Next Obligation. by intros []. Qed.
Inductive slock := SBcache | SIcache.
#[export] Instance slock_eq_dec : EqDecision slock.
Proof. solve_decision. Defined.

(** [env_blk_read] and [env_blk_write] are [virtio_blk_request] on a buffer of
    [FS_BLK_SIZE] bytes, at a sector; [env_copyin] and [env_copyout] copy from
    and to the memory of the running task. *)
Class Env (E : Type) := {
  env_mutex_init : lock → M E unit;
  env_mutex_lock : lock → M E unit;
  env_mutex_unlock : lock → M E unit;
  env_mutex_is_lock : lock → M E bool;
  env_spinlock_lock : slock → M E unit;
  env_spinlock_unlock : slock → M E unit;
  env_blk_read : Z → M E (Z * bytes);
  env_blk_write : Z → bytes → M E Z;
  env_copyin : Z → Z → M E (Z * list Z);
  env_copyout : Z → list Z → M E Z;
}.

Record sys (E : Type) := Sys { s_fs : fs; s_env : E }.
Arguments Sys {E} _ _.
Arguments s_fs {E} _.
Arguments s_env {E} _.

Fixpoint ozoom {E A : Type} (f : fs) (o : outcome E A) : outcome (sys E) A :=
  match o with
  | Done a e => Done a (Sys f e)
  | Panic msg => Panic msg
  | Fault => Fault
  | NoFuel => NoFuel
  | Switch e k => Switch (Sys f e) (λ s, ozoom (s_fs s) (k (s_env s)))
  end.
Definition env {E A : Type} (m : M E A) : M (sys E) A := λ s, ozoom (s_fs s) (m (s_env s)).

(** ** Access to the state *)

Definition with_fs_nodes (v : store fnode) (f : fs) : fs :=
  Fs v (bufs f) (islots f) (ftable f) (dev_map f) (sb f) (root f) (holder f).
Definition with_bufs (v : gmap Z cblk) (f : fs) : fs :=
  Fs (fs_nodes f) v (islots f) (ftable f) (dev_map f) (sb f) (root f) (holder f).
Definition with_islots (v : gmap Z inode) (f : fs) : fs :=
  Fs (fs_nodes f) (bufs f) v (ftable f) (dev_map f) (sb f) (root f) (holder f).
Definition with_ftable (v : gmap Z file) (f : fs) : fs :=
  Fs (fs_nodes f) (bufs f) (islots f) v (dev_map f) (sb f) (root f) (holder f).
Definition with_dev_map (v : gmap Z Z) (f : fs) : fs :=
  Fs (fs_nodes f) (bufs f) (islots f) (ftable f) v (sb f) (root f) (holder f).
Definition with_sb (v : fs_meta) (f : fs) : fs :=
  Fs (fs_nodes f) (bufs f) (islots f) (ftable f) (dev_map f) v (root f) (holder f).
Definition with_root (v : Z) (f : fs) : fs :=
  Fs (fs_nodes f) (bufs f) (islots f) (ftable f) (dev_map f) (sb f) v (holder f).
Definition with_holder (v : option (list Z)) (f : fs) : fs :=
  Fs (fs_nodes f) (bufs f) (islots f) (ftable f) (dev_map f) (sb f) (root f) v.

Section Access.
Context {E : Type}.

Definition on_fs (g : fs → fs) : M (sys E) unit := modify (λ s, Sys (g (s_fs s)) (s_env s)).
Definition get_fs : M (sys E) fs := gets s_fs.
Definition get_sb : M (sys E) fs_meta := gets (λ s, sb (s_fs s)).

Definition get_buf (i : Z) : M (sys E) cblk := f ← get_fs; of_opt (bufs f !! i).
Definition set_buf (i : Z) (b : cblk) : M (sys E) unit := on_fs (λ f, with_bufs (<[i := b]> (bufs f)) f).
Definition upd_buf (i : Z) (g : cblk → cblk) : M (sys E) unit := b ← get_buf i; set_buf i (g b).

Definition get_slot (i : Z) : M (sys E) inode := f ← get_fs; of_opt (islots f !! i).
Definition set_slot (i : Z) (v : inode) : M (sys E) unit := on_fs (λ f, with_islots (<[i := v]> (islots f)) f).
Definition upd_slot (i : Z) (g : inode → inode) : M (sys E) unit := b ← get_slot i; set_slot i (g b).

Definition get_file (i : Z) : M (sys E) file := f ← get_fs; of_opt (ftable f !! i).
Definition set_file (i : Z) (v : file) : M (sys E) unit := on_fs (λ f, with_ftable (<[i := v]> (ftable f)) f).
Definition upd_file (i : Z) (g : file → file) : M (sys E) unit := b ← get_file i; set_file i (g b).

#[export] Program Instance sys_has_nodes : HasNodes fnode (sys E) :=
  {| nodes := λ s, fs_nodes (s_fs s); set_nodes := λ v s, Sys (with_fs_nodes v (s_fs s)) (s_env s) |}.
Next Obligation. done. Qed.
Next Obligation. by intros [[] ?]. Qed.
Next Obligation. done. Qed.
End Access.

Definition cb_set_blkno (v : Z) (b : cblk) : cblk := Cblk v (cb_refcnt b) (cb_flags b) (cb_buf b).
Definition cb_set_refcnt (v : Z) (b : cblk) : cblk := Cblk (cb_blkno b) v (cb_flags b) (cb_buf b).
Definition cb_set_flags (v : Z) (b : cblk) : cblk := Cblk (cb_blkno b) (cb_refcnt b) v (cb_buf b).
Definition cb_set_buf (v : bytes) (b : cblk) : cblk := Cblk (cb_blkno b) (cb_refcnt b) (cb_flags b) v.
Definition i_set_refcnt (v : Z) (i : inode) : inode := Inode v (i_ino i) (i_valid i) (i_content i).
Definition i_set_ino (v : Z) (i : inode) : inode := Inode (i_refcnt i) v (i_valid i) (i_content i).
Definition i_set_valid (v : bool) (i : inode) : inode := Inode (i_refcnt i) (i_ino i) v (i_content i).
Definition i_set_content (v : dinode) (i : inode) : inode := Inode (i_refcnt i) (i_ino i) (i_valid i) v.
Definition di_set_size (v : Z) (d : dinode) : dinode :=
  Dinode v (di_type d) (di_dev_id d) (di_nblink d) (di_dirblkno d) (di_indir d).
Definition di_set_type (v : Z) (d : dinode) : dinode :=
  Dinode (di_size d) v (di_dev_id d) (di_nblink d) (di_dirblkno d) (di_indir d).
Definition di_set_dev_id (v : Z) (d : dinode) : dinode :=
  Dinode (di_size d) (di_type d) v (di_nblink d) (di_dirblkno d) (di_indir d).
Definition di_set_nblink (v : Z) (d : dinode) : dinode :=
  Dinode (di_size d) (di_type d) (di_dev_id d) v (di_dirblkno d) (di_indir d).
Definition di_set_dirblkno (v : list Z) (d : dinode) : dinode :=
  Dinode (di_size d) (di_type d) (di_dev_id d) (di_nblink d) v (di_indir d).

(** ** What the file system relies on

    [ready] are the mutexes that have been initialised, [held] those the
    running task holds, [spinning] the spinlock it
    holds, [disk] the contents of the device: the block of [FS_BLK_SIZE] bytes
    that starts at a sector.  While the task is switched out the environment
    goes from one state to another that looks the same ([calm]).  A request
    returns the length the device wrote: errors of the device panic. *)

Class EnvSpec (E : Type) `{Env E} := {
  env_ok : E → Prop;
  ready : E → gset lock;
  held : E → gset lock;
  spinning : E → option slock;
  disk : E → Z → bytes;
}.

Section Relies.
Context {E : Type} `{EnvSpec E}.

Definition same_disk (e e' : E) : Prop := ∀ n, disk e' n = disk e n.
Definition calm (e e' : E) : Prop :=
  env_ok e' ∧ ready e' = ready e ∧ held e' = held e ∧ spinning e' = spinning e ∧ same_disk e e'.

(** The rely of the code of the file system: it is resumed in the state it left. *)
Definition resumes (s s' : sys E) : Prop := s_fs s' = s_fs s ∧ calm (s_env s) (s_env s').
Definition runs {A} (o : outcome (sys E) A) (Q : A → sys E → Prop) : Prop :=
  wpr (λ _, True) resumes o Q.
Definition env_runs {A} (o : outcome E A) (Q : A → E → Prop) : Prop := wpr (λ _, True) calm o Q.
End Relies.

Definition lock_ok (l : lock) : Prop := match l with LBuf i | LIno i => 0 ≤ i < 64 end.

Class EnvLaws (E : Type) `{EnvSpec E} : Prop := {
  law_init m e : env_ok e → lock_ok m → m ∉ held e →
    env_runs (env_mutex_init m e) (λ _ e', env_ok e' ∧ ready e' = {[m]} ∪ ready e ∧ held e' = held e ∧
      spinning e' = spinning e ∧ same_disk e e');
  law_lock m e : env_ok e → m ∈ ready e → spinning e = None → m ∉ held e →
    env_runs (env_mutex_lock m e) (λ _ e', env_ok e' ∧ ready e' = ready e ∧ held e' = {[m]} ∪ held e ∧
      spinning e' = None ∧ same_disk e e');
  law_unlock m e : env_ok e → spinning e = None → m ∈ held e →
    env_runs (env_mutex_unlock m e) (λ _ e', env_ok e' ∧ ready e' = ready e ∧ held e' = held e ∖ {[m]} ∧
      spinning e' = None ∧ same_disk e e');
  law_is_lock m e : env_ok e → m ∈ held e →
    env_runs (env_mutex_is_lock m e) (λ r e', r = true ∧ calm e e');
  law_spin l e : env_ok e → spinning e = None →
    env_runs (env_spinlock_lock l e) (λ _ e', env_ok e' ∧ ready e' = ready e ∧ held e' = held e ∧
      spinning e' = Some l ∧ same_disk e e');
  law_unspin l e : env_ok e → spinning e = Some l →
    env_runs (env_spinlock_unlock l e) (λ _ e', env_ok e' ∧ ready e' = ready e ∧ held e' = held e ∧
      spinning e' = None ∧ same_disk e e');
  law_read s e : env_ok e → spinning e = None →
    env_runs (env_blk_read s e) (λ r e', calm e e' ∧ 0 ≤ r.1 ∧ r.2 = disk e s);
  law_write s b e : env_ok e → spinning e = None →
    env_runs (env_blk_write s b e) (λ r e', env_ok e' ∧ ready e' = ready e ∧ held e' = held e ∧
      spinning e' = None ∧ 0 ≤ r ∧ disk e' s = b ∧ ∀ s', s' + 8 ≤ s ∨ s + 8 ≤ s' → disk e' s' = disk e s');
}.

(** ** Running the code *)

Section Running.
Context {E : Type} `{EnvLaws E}.
Implicit Types (s : sys E) (f : fs) (e : E).

Lemma calm_refl e : env_ok e → calm e e.
Proof. intros; split_and!; done. Qed.

Lemma calm_trans (e1 e2 e3 : E) : calm e1 e2 → calm e2 e3 → calm e1 e3.
Proof.
  intros (_ & Ha0 & Ha & Hb & Hc) (? & Hd0 & Hd & Hd' & Hd''). split_and!; [done|congruence..|].
  intros n. by rewrite Hd'', Hc.
Qed.

Lemma runs_bind {A B} (m : M (sys E) A) (k : A → M (sys E) B) s Q :
  runs (m s) (λ a s', runs (k a s') Q) → runs ((m ≫= k) s) Q.
Proof. apply wpr_bind. Qed.

Lemma runs_mono {A} (o : outcome (sys E) A) (P Q : A → sys E → Prop) :
  runs o P → (∀ a s, P a s → Q a s) → runs o Q.
Proof. apply wpr_mono. Qed.

(** An operation of the environment leaves the file system alone. *)
Lemma runs_env {A} (m : M E A) f e (Q : A → sys E → Prop) :
  env_runs (m e) (λ a e', Q a (Sys f e')) → runs (env m (Sys f e)) Q.
Proof.
  unfold env, env_runs, runs. simpl. generalize (m e). intros o. revert f.
  induction o as [| | | |e0 k IH]; intros f Ho; simpl in *; try done.
  destruct Ho as [_ Hk]. split; [done|]. intros [f' e'] [Hf Hc]. simpl in *. subst f'.
  apply IH. by apply Hk.
Qed.

(** The operations of the environment, from a state that is described by what
    the running task holds. *)
Definition at_env (e : E) (hs : gset lock) (sp : option slock) (dk : Z → bytes) : Prop :=
  env_ok e ∧ (∀ l, lock_ok l → l ∈ ready e) ∧ held e = hs ∧ spinning e = sp ∧ ∀ n, disk e n = dk n.

Lemma at_env_next e e' hs sp dk hs' sp' :
  at_env e hs sp dk → env_ok e' → ready e' = ready e → held e' = hs' → spinning e' = sp' → same_disk e e' →
  at_env e' hs' sp' dk.
Proof.
  intros (_ & Hr & _ & _ & Hd) ? Hr' ? ? Hs. split_and!; try done; [by rewrite Hr'|]. intros n. by rewrite Hs.
Qed.

Lemma at_env_calm e e' hs sp dk : at_env e hs sp dk → calm e e' → at_env e' hs sp dk.
Proof.
  intros He (? & ? & Hh & Hs & ?). pose proof He as (_ & _ & Hh0 & Hs0 & _).
  apply (at_env_next e e' hs sp dk); congruence || done.
Qed.

Lemma runs_lock m f e hs dk (Q : unit → sys E → Prop) :
  at_env e hs None dk → lock_ok m → m ∉ hs → (∀ e', at_env e' ({[m]} ∪ hs) None dk → Q tt (Sys f e')) →
  runs (env (env_mutex_lock m) (Sys f e)) Q.
Proof.
  intros He Hl Hm HQ. pose proof He as (Hok & Hr & Hh & Hs & Hd). apply runs_env.
  eapply wpr_mono; [apply law_lock; auto; by rewrite Hh|].
  intros [] e' (? & ? & Hh' & ? & Hd'). apply HQ, (at_env_next e e' hs None dk); try done. by rewrite Hh', Hh.
Qed.

Lemma runs_unlock m f e hs dk (Q : unit → sys E → Prop) :
  at_env e hs None dk → m ∈ hs → (∀ e', at_env e' (hs ∖ {[m]}) None dk → Q tt (Sys f e')) →
  runs (env (env_mutex_unlock m) (Sys f e)) Q.
Proof.
  intros He Hm HQ. pose proof He as (Hok & Hr & Hh & Hs & Hd). apply runs_env.
  eapply wpr_mono; [apply law_unlock; auto; by rewrite Hh|].
  intros [] e' (? & ? & Hh' & ? & Hd'). apply HQ, (at_env_next e e' hs None dk); try done. by rewrite Hh', Hh.
Qed.

Lemma runs_is_lock m f e hs dk (Q : bool → sys E → Prop) :
  at_env e hs None dk → m ∈ hs → (∀ e', at_env e' hs None dk → Q true (Sys f e')) →
  runs (env (env_mutex_is_lock m) (Sys f e)) Q.
Proof.
  intros He Hm HQ. pose proof He as (Hok & _ & Hh & Hs & Hd). apply runs_env.
  eapply wpr_mono; [apply law_is_lock; try done; by rewrite Hh|].
  intros b e' [-> Hc]. by apply HQ, (at_env_calm e).
Qed.

Lemma runs_spin l f e hs dk (Q : unit → sys E → Prop) :
  at_env e hs None dk → (∀ e', at_env e' hs (Some l) dk → Q tt (Sys f e')) →
  runs (env (env_spinlock_lock l) (Sys f e)) Q.
Proof.
  intros He HQ. pose proof He as (Hok & _ & Hh & Hs & Hd). apply runs_env.
  eapply wpr_mono; [by apply law_spin|].
  intros [] e' (? & ? & Hh' & ? & Hd'). apply HQ, (at_env_next e e' hs None dk); congruence || done.
Qed.

Lemma runs_unspin l f e hs dk (Q : unit → sys E → Prop) :
  at_env e hs (Some l) dk → (∀ e', at_env e' hs None dk → Q tt (Sys f e')) →
  runs (env (env_spinlock_unlock l) (Sys f e)) Q.
Proof.
  intros He HQ. pose proof He as (Hok & _ & Hh & Hs & Hd). apply runs_env.
  eapply wpr_mono; [by apply law_unspin|].
  intros [] e' (? & ? & Hh' & ? & Hd'). apply HQ, (at_env_next e e' hs (Some l) dk); congruence || done.
Qed.

Lemma runs_read sec f e hs dk (Q : Z * bytes → sys E → Prop) :
  at_env e hs None dk → (∀ r e', 0 ≤ r → at_env e' hs None dk → Q (r, dk sec) (Sys f e')) →
  runs (env (env_blk_read sec) (Sys f e)) Q.
Proof.
  intros He HQ. pose proof He as (Hok & _ & Hh & Hs & Hd). apply runs_env.
  eapply wpr_mono; [by apply (law_read sec)|].
  intros [r b] e' (Hc & Hr & Hb). simpl in *. rewrite Hb, Hd. apply HQ; [done|]. by apply (at_env_calm e).
Qed.

Lemma runs_write sec b f e hs dk (Q : Z → sys E → Prop) :
  at_env e hs None dk →
  (∀ r e' dk', 0 ≤ r → at_env e' hs None dk' → dk' sec = b →
    (∀ n : Z, n + 8 ≤ sec ∨ sec + 8 ≤ n → dk' n = dk n) → Q r (Sys f e')) →
  runs (env (env_blk_write sec b) (Sys f e)) Q.
Proof.
  intros (Hok & Hr & Hh & Hs & Hd) HQ. apply runs_env. eapply wpr_mono; [by apply (law_write sec b)|].
  intros r e' (? & Hr' & Hh' & ? & ? & Hb & Ho). apply (HQ r e' (disk e')); try done.
  - split_and!; [done|by rewrite Hr'|congruence|done|done].
  - intros n Hn. by rewrite Ho, Hd.
Qed.
End Running.
