(* ===== verification/Layout.v ===== *)
(** * The structures of the disk (include/kernel/fs_layout.h)

    How the superblock, an inode and a directory entry lie in a block: fields
    little-endian, at the offsets of the C structures.  Padding is neither
    read nor written. *)

From S2P Require Import Prelude Clist Buf FsState.

#[global] Arguments le_get : simpl never.
#[global] Arguments le_put : simpl never.

Definition SIZEOF_DINODE : Z := 64.
Definition SIZEOF_DIRENT : Z := 20.
Definition SIZEOF_FS_META : Z := 44.

Definition dinode_get (b : bytes) (off : Z) : dinode :=
  Dinode (le_get b off 4) (le_get b (off + 4) 1) (le_get b (off + 5) 1) (le_get b (off + 8) 4)
    ((λ k, le_get b (off + 12 + 4 * Z.of_nat k) 4) <$> seq 0 12) (le_get b (off + 60) 4).

Fixpoint words_put (b : bytes) (off : Z) (l : list Z) : bytes :=
  match l with
  | [] => b
  | x :: l => words_put (le_put b off 4 x) (off + 4) l
  end.

Definition dinode_put (b : bytes) (off : Z) (d : dinode) : bytes :=
  let b := le_put b off 4 (di_size d) in
  let b := le_put b (off + 4) 1 (di_type d) in
  let b := le_put b (off + 5) 1 (di_dev_id d) in
  let b := le_put b (off + 8) 4 (di_nblink d) in
  let b := words_put b (off + 12) (di_dirblkno d) in
  le_put b (off + 60) 4 (di_indir d).

Definition meta_get (b : bytes) : fs_meta :=
  FsMeta (le_get b 0 4) (le_get b 4 4) (le_get b 8 4) (le_get b 12 4) (le_get b 16 4) (le_get b 20 4)
    (le_get b 24 4) (le_get b 28 4) (le_get b 32 4) (le_get b 36 4) (le_get b 40 4).
Definition meta_put (b : bytes) (off : Z) (m : fs_meta) : bytes :=
  words_put b off [magic m; nb_blk m; blk_size m; nb_ibm m; nb_dbm m; nb_itab m; nb_dblk m;
    ibm_start m; dbm_start m; itab_start m; data_start m].

(** A directory entry as the bytes of the C structure, and back. *)
Definition dirent_bytes (e : dirent) : list Z := de_name e ++ slice (le_put ∅ 0 4 (de_inum e)) 0 4.
Definition dirent_of (l : list Z) : dirent := Dirent (take 16 l) (le_get (of_list (drop 16 l)) 0 4).

(** The values the structures can hold. *)
Definition is_u32 (x : Z) : Prop := 0 ≤ x < 2 ^ 32.
Record dinode_wf (d : dinode) : Prop := {
  dw_size : is_u32 (di_size d);
  dw_type : 0 ≤ di_type d < 256;
  dw_dev : 0 ≤ di_dev_id d < 256;
  dw_nblink : is_u32 (di_nblink d);
  dw_dir : Forall is_u32 (di_dirblkno d) ∧ length (di_dirblkno d) = 12%nat;
  dw_indir : is_u32 (di_indir d);
}.
Definition dirent_wf (e : dirent) : Prop :=
  length (de_name e) = 16%nat ∧ Forall (λ x, 0 ≤ x < 256) (de_name e) ∧ is_u32 (de_inum e).

(** ** What is written is read back *)

Lemma wf_words_put b off l : wf_bytes b → wf_bytes (words_put b off l).
Proof. revert b off. induction l as [|x l IH]; intros b off Hb; [done|]. by apply IH, wf_le_put. Qed.

Lemma words_put_out b off l j :
  j < off ∨ off + 4 * Z.of_nat (length l) ≤ j → byte_at (words_put b off l) j = byte_at b j.
Proof.
  revert b off. induction l as [|x l IH]; intros b off Hj; [done|]. cbn [words_put length] in *.
  rewrite IH, le_put_out by lia. done.
Qed.

Lemma words_put_other b off l off' m :
  off' + Z.of_nat m ≤ off ∨ off + 4 * Z.of_nat (length l) ≤ off' → le_get (words_put b off l) off' m = le_get b off' m.
Proof. intros Ho. apply le_get_ext. intros j Hj. apply words_put_out. lia. Qed.

Lemma words_put_get b off l k x :
  l !! k = Some x → is_u32 x → le_get (words_put b off l) (off + 4 * Z.of_nat k) 4 = x.
Proof.
  revert b off k. induction l as [|y l IH]; intros b off [|k] Hk Hx; try done; cbn [words_put lookup list_lookup] in *.
  - injection Hk as ->. rewrite words_put_other, Z.add_0_r, le_get_put by lia. by apply Z.mod_small.
  - replace (off + 4 * Z.of_nat (S k)) with (off + 4 + 4 * Z.of_nat k) by lia. by apply IH.
Qed.

Lemma le_get_put_u32 b off x : is_u32 x → le_get (le_put b off 4 x) off 4 = x.
Proof. intros Hx. rewrite le_get_put. by apply Z.mod_small. Qed.
Lemma le_get_put_u8 b off x : 0 ≤ x < 256 → le_get (le_put b off 1 x) off 1 = x.
Proof. intros Hx. rewrite le_get_put. by apply Z.mod_small. Qed.

Lemma dinode_put_out b off d j :
  length (di_dirblkno d) = 12%nat → j < off ∨ off + SIZEOF_DINODE ≤ j → byte_at (dinode_put b off d) j = byte_at b j.
Proof.
  unfold dinode_put, SIZEOF_DINODE. intros Hl Hj.
  repeat first [rewrite le_put_out by lia | rewrite words_put_out by lia]. done.
Qed.

Lemma dinode_get_put b off d : dinode_wf d → dinode_get (dinode_put b off d) off = d.
Proof.
  intros [Hs Ht Hd Hn [Hf Hl] Hi]. destruct d as [size type dev nb dir indir]. unfold dinode_get, dinode_put.
  cbn [di_size di_type di_dev_id di_nblink di_dirblkno di_indir] in *.
  f_equal; repeat first [rewrite le_get_put_other by lia | rewrite words_put_other by lia];
    try (by apply le_get_put_u32); try (by apply le_get_put_u8).
  apply list_eq. intros k. rewrite list_lookup_fmap. destruct (decide (k < 12)%nat) as [Hk|Hk].
  - rewrite lookup_seq_lt by lia. simpl. rewrite le_get_put_other by lia.
    destruct (lookup_lt_is_Some_2 dir k ltac:(lia)) as [x Hx]. rewrite Hx. f_equal.
    apply words_put_get; [done|]. by eapply Forall_lookup_1 in Hf.
  - rewrite lookup_seq_ge by lia. simpl. symmetry. apply lookup_ge_None. lia.
Qed.

Lemma dinode_get_ext b b' off :
  (∀ j, off ≤ j < off + SIZEOF_DINODE → byte_at b j = byte_at b' j) → dinode_get b off = dinode_get b' off.
Proof.
  unfold SIZEOF_DINODE. intros Hb. unfold dinode_get. f_equal; try (apply le_get_ext; intros j Hj; apply Hb; lia).
  apply list_fmap_ext. intros i k Hk. apply lookup_seq in Hk. apply le_get_ext. intros j Hj. apply Hb. lia.
Qed.

Lemma dinode_get_wf b off : wf_bytes b → dinode_wf (dinode_get b off).
Proof.
  intros Hb. pose proof (λ o, le_get_range b o 4 Hb) as H4. pose proof (λ o, le_get_range b o 1 Hb) as H1.
  split; simpl; try apply H4; try apply H1. split; [|done]. by rewrite !Forall_cons, Forall_nil; split_and!; try apply H4.
Qed.

Lemma dirent_roundtrip e : dirent_wf e → dirent_of (dirent_bytes e) = e.
Proof.
  intros (Hl & _ & Hi). destruct e as [name inum]. unfold dirent_of, dirent_bytes. cbn [de_name de_inum] in *.
  rewrite take_app_length', drop_app_length' by done. f_equal. unfold of_list.
  rewrite (le_get_ext _ (le_put ∅ 0 4 inum)); [by apply le_get_put_u32|].
  intros j Hj. rewrite put_list_spec. rewrite decide_True by (unfold slice; rewrite length_fmap, length_seq; lia).
  unfold slice. rewrite list_lookup_fmap, lookup_seq_lt by lia. simpl. f_equal. lia.
Qed.

Lemma dirent_bytes_len e : length (de_name e) = 16%nat → length (dirent_bytes e) = 20%nat.
Proof. intros Hl. unfold dirent_bytes. rewrite length_app, Hl. done. Qed.
