(* ===== verification/Mkfs.v ===== *)
(** * The program that makes a disk image (tools/mkfs.c)

    The image is one buffer of bytes, zeroed by [ftruncate].  The host is a
    parameter: whether a [pwrite] at an offset succeeds, and what [open],
    [fstat] and the calls of [read] answer for a file. *)

From S2P Require Import Prelude Clist Buf FsState Layout.

Definition FS_NB_RESERVED : Z := 1.
Definition FS_NB_SUPERBLK : Z := 1.
Definition FS_NB_IBM : Z := 2.
Definition FS_NB_DBM : Z := 2.
Definition FS_NB_ITAB : Z := 5.
Definition FS_NB_INODES : Z := FS_NB_ITAB * FS_BLK_SIZE / SIZEOF_DINODE.
Definition EXIT_SUCCESS : Z := 0.
Definition EXIT_FAILURE : Z := 1.

Record mkst := Mkst { img : bytes; i_allocated : Z; blk_allocated : Z; root_di : dinode }.

(** A file of the host: its path, its size if it can be opened, what [read]
    returns until the end of the file, and whether the last call fails. *)
Record hfile := HFile { h_path : list Z; h_stat : option Z; h_reads : list (list Z); h_err : bool }.

Definition zero_dinode : dinode := Dinode 0 INODE_FREE 0 0 (replicate 12 0) 0.
Definition mk_set_img (v : bytes) (s : mkst) : mkst := Mkst v (i_allocated s) (blk_allocated s) (root_di s).
Definition mk_set_i (v : Z) (s : mkst) : mkst := Mkst (img s) v (blk_allocated s) (root_di s).
Definition mk_set_blk (v : Z) (s : mkst) : mkst := Mkst (img s) (i_allocated s) v (root_di s).
Definition mk_set_root (v : dinode) (s : mkst) : mkst := Mkst (img s) (i_allocated s) (blk_allocated s) v.

(** The bytes of an inode as the program holds it. *)
Definition dinode_bytes (d : dinode) : list Z := slice (dinode_put ∅ 0 d) 0 64.

(** What follows the last slash. *)
Fixpoint basename (path : list Z) : list Z :=
  match path with
  | [] => []
  | c :: p => if bool_decide (47 ∈ p) then basename p else if c =? 47 then p else path
  end.

Section Mkfs.
Context (DISK_SIZE_M : Z) (pwrite_ok : Z → Z → bool).

Definition FS_NB_BLK : Z := Z.shiftl DISK_SIZE_M 20 / FS_BLK_SIZE.
Definition FS_NB_DBLK : Z := FS_NB_BLK - FS_NB_ITAB - FS_NB_IBM - FS_NB_DBM - FS_NB_SUPERBLK - FS_NB_RESERVED.

Definition superblock : fs_meta :=
  FsMeta FS_MAGIC_NUMBER FS_NB_BLK FS_BLK_SIZE FS_NB_IBM FS_NB_DBM FS_NB_ITAB FS_NB_DBLK
    (FS_SUPERBLK + FS_NB_SUPERBLK)
    (FS_SUPERBLK + FS_NB_SUPERBLK + FS_NB_IBM)
    (FS_SUPERBLK + FS_NB_SUPERBLK + FS_NB_IBM + FS_NB_DBM)
    (FS_SUPERBLK + FS_NB_SUPERBLK + FS_NB_IBM + FS_NB_DBM + FS_NB_ITAB).

Definition root_di0 : dinode := Dinode 0 INODE_DIRECTORY 0 1 (data_start superblock :: replicate 11 0) 0.
Definition mkst0 : mkst := Mkst ∅ 0 0 root_di0.

Definition pwrite (l : list Z) (off : Z) : M mkst bool :=
  if pwrite_ok off (Z.of_nat (length l)) then modify (λ s, mk_set_img (put_list (img s) off l) s);; mret true
  else mret false.

Definition alloc_block : M mkst Z :=
  s ← get;
  let b := blk_allocated s + 1 in
  modify (mk_set_blk b);;
  if (FS_BM_BITS_PER_BLK <=? b) || (FS_NB_DBLK <=? b) then mret (-1) else
  mret (b + data_start superblock).

Definition write_inode (ino : Z) (i : dinode) : M mkst Z :=
  let off := itab_start superblock * FS_BLK_SIZE + ino * SIZEOF_DINODE in
  ok ← pwrite (dinode_bytes i) off;
  if negb ok then mret (-1) else mret 0.

Definition alloc_inode (i : dinode) : M mkst Z :=
  s ← get;
  let a := i_allocated s + 1 in
  modify (mk_set_i a);;
  if (FS_BM_BITS_PER_BLK <=? a) || (FS_NB_INODES <=? a) then mret (-1) else
  r ← write_inode a i;
  if r <? 0 then mret (-1) else mret a.

(** [memset] of the whole bytes, then the last bits. *)
Definition bm_bytes (nbits : Z) : bytes :=
  let bm := put_list ∅ 0 (replicate (Z.to_nat (nbits / 8)) 255) in
  if nbits mod 8 =? 0 then bm else <[nbits / 8 := u8 (Z.shiftl 1 (nbits mod 8) - 1)]> bm.
Definition write_bm (start nbits : Z) : M mkst Z :=
  ok ← pwrite (slice (bm_bytes nbits) 0 4096) (start * FS_BLK_SIZE);
  if negb ok then mret (-1) else mret 0.

Definition data_off (dblkno : Z) : Z := dblkno * FS_BLK_SIZE.

(** The loop over what is read; [None] is the label [err]. *)
Fixpoint alloc_file_loop (reads : list (list Z)) (i : dinode) (dir_blk nb_indir : Z) : M mkst (option dinode) :=
  match reads with
  | [] => mret (Some i)
  | buf :: reads =>
    blkno ← alloc_block;
    if blkno <? 0 then mret None else
    ok ← pwrite buf (data_off blkno);
    if negb ok then mret None else
    let n := Z.of_nat (length buf) in
    let grow (i : dinode) := di_set_size (u32 (di_size i + n)) i in
    if dir_blk =? FS_INODE_DIR_DBLKNO then
      i ← (if di_indir i =? 0 then
             indir_blk ← alloc_block;
             if indir_blk <? 0 then mret None else
             mret (Some (Dinode (di_size i) (di_type i) (di_dev_id i) (di_nblink i) (di_dirblkno i) indir_blk))
           else mret (Some i));
      match i with
      | None => mret None
      | Some i =>
        ok ← pwrite (slice (le_put ∅ 0 4 blkno) 0 4) (data_off (di_indir i) + nb_indir * 4);
        if negb ok then mret None else
        alloc_file_loop reads (grow i) dir_blk (nb_indir + 1)
      end
    else
      alloc_file_loop reads (grow (di_set_dirblkno (<[Z.to_nat dir_blk := blkno]> (di_dirblkno i)) i)) (dir_blk + 1) nb_indir
  end.
Definition alloc_file (h : hfile) : M mkst (option dinode) :=
  match h_stat h with
  | None => mret None
  | Some size =>
    if FS_MAX_FILE_SIZE <? size then mret None else
    let i := di_set_nblink 1 (di_set_type INODE_FILE zero_dinode) in
    i ← alloc_file_loop (h_reads h) i 0 0;
    if h_err h then mret None else mret i
  end.

(** The directory is always [root_di]. *)
Definition mk_dir_add_entry (path : list Z) (id : Z) : M mkst Z :=
  let name := basename path in
  if MAXNAME <=? Z.of_nat (length name) then mret (-1) else
  s ← get;
  let dir := root_di s in
  if FS_BLK_SIZE <? di_size dir + SIZEOF_DIRENT then mret (-1) else
  let entry := Dirent (name ++ replicate (16 - length name) 0) id in
  blk ← of_opt (di_dirblkno dir !! 0%nat);
  ok ← pwrite (dirent_bytes entry) (data_off blk + di_size dir);
  if negb ok then mret (-1) else
  modify (mk_set_root (di_set_size (di_size dir + SIZEOF_DIRENT) dir));;
  mret 0.

Fixpoint add_files (files : list hfile) : M mkst Z :=
  match files with
  | [] => mret 0
  | h :: files =>
    file_i ← alloc_file h;
    match file_i with
    | None => mret (-1)
    | Some i =>
      res ← alloc_inode i;
      if res <? 0 then mret (-1) else
      res ← mk_dir_add_entry (h_path h) res;
      if res <? 0 then mret (-1) else add_files files
    end
  end.

(** [main] once the disk is open and truncated. *)
Definition mkfs_main (files : list hfile) : M mkst Z :=
  ok ← pwrite (slice (meta_put ∅ 0 superblock) 0 44) (FS_SUPERBLK * FS_BLK_SIZE);
  if negb ok then mret EXIT_FAILURE else
  res ← alloc_inode root_di0;
  if res <? 0 then mret EXIT_FAILURE else
  res ← add_files files;
  if res <? 0 then mret EXIT_FAILURE else
  s ← get;
  res ← write_inode FS_ROOT_INODE_ID (root_di s);
  if res <? 0 then mret EXIT_FAILURE else
  s ← get;
  res ← write_bm (ibm_start superblock) (i_allocated s + 1);
  if res <? 0 then mret EXIT_FAILURE else
  res ← write_bm (dbm_start superblock) (blk_allocated s + 1);
  if res <? 0 then mret EXIT_FAILURE else
  mret EXIT_SUCCESS.
End Mkfs.
