(* ===== verification/Bcache.v ===== *)
(** * The block cache (kernel/core/fs/bcache.c)

    Sixty-four buffers in a list ordered by last use. *)

From S2P Require Import Prelude Clist Buf FsState.

Definition CBLK_FLAGS_DIRTY : Z := 1.
Definition CBLK_FLAGS_VALID : Z := 2.
Definition NBUF : Z := 64.
Definition VIRTIO_BLK_SIZE : Z := 512.

Definition get_sector (blkno : Z) : Z := s32 (u32 (blkno * (FS_BLK_SIZE / VIRTIO_BLK_SIZE))).

Definition is_dirty_locked (b : cblk) : bool := has (cb_flags b) CBLK_FLAGS_DIRTY.
Definition is_valid_locked (b : cblk) : bool := has (cb_flags b) CBLK_FLAGS_VALID.
Definition set_dirty_locked (b : cblk) : cblk := cb_set_flags (u8 (Z.lor (cb_flags b) CBLK_FLAGS_DIRTY)) b.
Definition clear_dirty_locked (b : cblk) : cblk :=
  cb_set_flags (u8 (Z.land (cb_flags b) (Z.lnot CBLK_FLAGS_DIRTY))) b.
Definition set_valid_locked (b : cblk) : cblk := cb_set_flags (u8 (Z.lor (cb_flags b) CBLK_FLAGS_VALID)) b.
Definition clear_valid_locked (b : cblk) : cblk :=
  cb_set_flags (u8 (Z.land (cb_flags b) (Z.lnot CBLK_FLAGS_VALID))) b.

(** The predicates of the list searches: [container_of], then a test. *)
Definition buf_pred (f : fs) (p : cblk → bool) (n : fnode) : bool :=
  match n with
  | FBuf i => match bufs f !! i with Some b => p b | None => false end
  | _ => false
  end.
Definition match_blkno_cb_locked (blkno : Z) (b : cblk) : bool := cb_blkno b =? blkno.
Definition find_by_refcnt_cb_locked (b : cblk) : bool := (cb_refcnt b =? 0) && negb (is_dirty_locked b).

Section Bcache.
Context {E : Type} `{Env E}.

Definition buf_of_node (n : option fnode) : M (sys E) (option Z) :=
  match n with
  | None => mret None
  | Some (FBuf i) => mret (Some i)
  | Some _ => fault
  end.

Definition bcache_init : M (sys E) unit :=
  each (λ i,
    upd_buf i (cb_set_blkno UINT32_MAX);;
    env (env_mutex_init (LBuf i));;
    on_nodes (λ s, Some (clist_init_node (FBuf i) s));;
    on_nodes (clist_push_front FBufList (FBuf i))) (Z.of_nat <$> seq 0 (Z.to_nat NBUF)).

Definition cache_request_locked (blkno : Z) : M (sys E) (option Z) :=
  f ← get_fs;
  blk_node ← read_nodes (clist_find FBufList (buf_pred f (match_blkno_cb_locked blkno)));
  buf_of_node blk_node.

Definition find_reusable_locked : M (sys E) (option Z) :=
  f ← get_fs;
  blk_node ← read_nodes (clist_find_rev FBufList (buf_pred f find_by_refcnt_cb_locked));
  buf_of_node blk_node.

Definition bcache_invalidate (blkno : Z) : M (sys E) unit :=
  env (env_spinlock_lock SBcache);;
  blk ← cache_request_locked blkno;
  match blk with
  | Some i => upd_buf i clear_dirty_locked;; upd_buf i clear_valid_locked;;
              upd_buf i (cb_set_blkno UINT32_MAX)
  | None => mret tt
  end;;
  env (env_spinlock_unlock SBcache).

Definition bcache_getblk (blkno : Z) : M (sys E) Z :=
  env (env_spinlock_lock SBcache);;
  hit ← cache_request_locked blkno;
  blk ← match hit with
    | Some i => mret i
    | None =>
      r ← find_reusable_locked;
      match r with
      | None => panic "BUFFER OVERFLOW: buffer all used"
      | Some i => upd_buf i (cb_set_blkno blkno);; upd_buf i clear_valid_locked;; mret i
      end
    end;
  upd_buf blk (λ b, cb_set_refcnt (u32 (cb_refcnt b + 1)) b);;
  env (env_spinlock_unlock SBcache);;
  env (env_mutex_lock (LBuf blk));;
  mret blk.

Definition bcache_release (blk : Z) : M (sys E) unit :=
  env (env_mutex_unlock (LBuf blk));;
  env (env_spinlock_lock SBcache);;
  upd_buf blk (λ b, cb_set_refcnt (u32 (cb_refcnt b - 1)) b);;
  on_nodes (clist_remove (Some (FBuf blk)));;
  on_nodes (clist_push_front FBufList (FBuf blk));;
  env (env_spinlock_unlock SBcache).

Definition bcache_read (blkno : Z) : M (sys E) (option Z) :=
  blk ← bcache_getblk blkno;
  b ← get_buf blk;
  if is_valid_locked b then mret (Some blk) else
  r ← env (env_blk_read (u64 (get_sector blkno)));
  upd_buf blk (cb_set_buf r.2);;
  if r.1 <? 0 then bcache_release blk;; mret None else
  upd_buf blk set_valid_locked;; mret (Some blk).

Definition bcache_mark_dirty (blk : Z) : M (sys E) unit := upd_buf blk set_dirty_locked.

Definition bcache_sync (blk : Z) : M (sys E) Z :=
  b ← get_buf blk;
  if negb (is_dirty_locked b) then mret 0 else
  res ← env (env_blk_write (u64 (get_sector (cb_blkno b))) (cb_buf b));
  if res <? 0 then mret res else
  upd_buf blk clear_dirty_locked;; mret 0.
End Bcache.
