(* ===== verification/BcacheInv.v ===== *)
(** * What the block cache promises

    The contents the cache stands for is a function from block numbers to
    blocks, [lblk]: the buffer when the block is cached, the disk otherwise.
    [BInv] is the invariant of the cache for the task that runs: it holds the
    mutex of exactly the buffers it references. *)

From S2P Require Import Prelude Clist Buf FsState Bcache.

(** ** Flags *)

Lemma has_bit x k : 0 ≤ k → has x (2 ^ k) = Z.testbit x k.
Proof.
  intros Hk. unfold has. destruct (Z.testbit x k) eqn:E.
  - apply negb_true_iff, Z.eqb_neq. intros H0.
    assert (Z.testbit (Z.land x (2 ^ k)) k = true) as Ht by (rewrite Z.land_spec, E, Z.pow2_bits_true by lia; done).
    by rewrite H0, Z.bits_0 in Ht.
  - apply negb_false_iff, Z.eqb_eq. apply Z.bits_inj'. intros n Hn.
    rewrite Z.land_spec, Z.bits_0, Z.pow2_bits_eqb by lia.
    destruct (Z.eqb_spec k n) as [<-|]; [by rewrite E|by rewrite andb_false_r].
Qed.

Lemma u8_bit x k : 0 ≤ k < 8 → Z.testbit (u8 x) k = Z.testbit x k.
Proof. intros. unfold wrap. apply Z.mod_pow2_bits_low. lia. Qed.

Section Flags.
Implicit Types b : cblk.
Lemma dirty_bit b : is_dirty_locked b = Z.testbit (cb_flags b) 0.
Proof. apply (has_bit _ 0). lia. Qed.
Lemma valid_bit b : is_valid_locked b = Z.testbit (cb_flags b) 1.
Proof. apply (has_bit _ 1). lia. Qed.

Ltac flag_bits :=
  rewrite ?dirty_bit, ?valid_bit; cbn [cb_set_flags set_dirty_locked set_valid_locked clear_dirty_locked
    clear_valid_locked cb_flags];
  rewrite u8_bit by lia; rewrite ?Z.lor_spec, ?Z.land_spec, ?Z.lnot_spec by lia; cbn;
  rewrite ?orb_true_r, ?orb_false_r, ?andb_true_r, ?andb_false_r.

Lemma dirty_set_dirty b : is_dirty_locked (set_dirty_locked b) = true.
Proof. by flag_bits. Qed.
Lemma valid_set_dirty b : is_valid_locked (set_dirty_locked b) = is_valid_locked b.
Proof. by flag_bits. Qed.
Lemma dirty_clear_dirty b : is_dirty_locked (clear_dirty_locked b) = false.
Proof. by flag_bits. Qed.
Lemma valid_clear_dirty b : is_valid_locked (clear_dirty_locked b) = is_valid_locked b.
Proof. by flag_bits. Qed.
Lemma dirty_set_valid b : is_dirty_locked (set_valid_locked b) = is_dirty_locked b.
Proof. by flag_bits. Qed.
Lemma valid_set_valid b : is_valid_locked (set_valid_locked b) = true.
Proof. by flag_bits. Qed.
Lemma dirty_clear_valid b : is_dirty_locked (clear_valid_locked b) = is_dirty_locked b.
Proof. by flag_bits. Qed.
Lemma valid_clear_valid b : is_valid_locked (clear_valid_locked b) = false.
Proof. by flag_bits. Qed.
End Flags.
Create Rewrite HintDb flags.
#[export] Hint Rewrite dirty_set_dirty valid_set_dirty dirty_clear_dirty valid_clear_dirty
  dirty_set_valid valid_set_valid dirty_clear_valid valid_clear_valid : flags.

(** ** The invariant *)

Definition sector (n : Z) : Z := u64 (get_sector n).

(** Block numbers whose sector fits the driver's integer. *)
Definition blk_ok (n : Z) : Prop := 0 ≤ n < 2 ^ 28.

Lemma blk_ok_max n : blk_ok n → n ≠ UINT32_MAX.
Proof. unfold blk_ok, UINT32_MAX. lia. Qed.

Lemma sector_eq n : blk_ok n → sector n = 8 * n.
Proof.
  intros Hn. unfold blk_ok in Hn. unfold sector, get_sector. change (FS_BLK_SIZE / VIRTIO_BLK_SIZE) with 8.
  rewrite (wrap_small 32) by lia. rewrite sext_small by lia. rewrite wrap_small by lia. lia.
Qed.

Definition buf_idx : list Z := Z.of_nat <$> seq 0 (Z.to_nat NBUF).
Lemma buf_idx_elem i : i ∈ buf_idx ↔ 0 ≤ i < NBUF.
Proof.
  unfold buf_idx. rewrite list_elem_of_fmap. setoid_rewrite elem_of_seq. unfold NBUF. split.
  - intros (k & -> & Hk). lia.
  - intros Hi. exists (Z.to_nat i). lia.
Qed.
Lemma buf_idx_nodup : NoDup buf_idx.
Proof. apply NoDup_fmap_2; [apply _|apply NoDup_seq]. Qed.
#[global] Opaque buf_idx.

Record buf_ok (hs : gset lock) (dk : Z → bytes) (i : Z) (b : cblk) : Prop := {
  bo_ref : cb_refcnt b = if decide (LBuf i ∈ hs) then 1 else 0;
  bo_wf : wf_bytes (cb_buf b);
  bo_dirty : is_dirty_locked b = true → is_valid_locked b = true;
  bo_valid : is_valid_locked b = true → blk_ok (cb_blkno b);
  bo_clean : is_valid_locked b = true → is_dirty_locked b = false → cb_buf b = dk (sector (cb_blkno b));
}.

Definition lists (bl il : list Z) : gmap fnode (list fnode) :=
  {[FBufList := FBuf <$> bl; FIcache := FIno <$> il]}.

(** [il] is the order of the inode cache, which the block cache does not touch. *)
Record BInv (f : fs) (hs : gset lock) (dk : Z → bytes) (il : list Z) : Prop := {
  bi_list : ∃ bl, Rep (fs_nodes f) (lists bl il) ∧ ∀ i, i ∈ bl ↔ 0 ≤ i < NBUF;
  bi_dom : ∀ i, is_Some (bufs f !! i) ↔ 0 ≤ i < NBUF;
  bi_inj : ∀ i j bi bj, bufs f !! i = Some bi → bufs f !! j = Some bj →
    cb_blkno bi = cb_blkno bj → cb_blkno bi ≠ UINT32_MAX → i = j;
  bi_buf : ∀ i b, bufs f !! i = Some b → buf_ok hs dk i b;
  bi_disk : ∀ n, blk_ok n → wf_bytes (dk (sector n));
}.

Definition cached (f : fs) (n : Z) : option cblk :=
  head (omap (λ i, b ← bufs f !! i; if is_valid_locked b && (cb_blkno b =? n) then Some b else None) buf_idx).
Definition lblk (f : fs) (dk : Z → bytes) (n : Z) : bytes :=
  match cached f n with Some b => cb_buf b | None => dk (sector n) end.

(** The buffers that can be given to another block. *)
Definition reusable (f : fs) (i : Z) : Prop :=
  match bufs f !! i with Some b => find_by_refcnt_cb_locked b = true | None => False end.
#[export] Instance reusable_dec f i : Decision (reusable f i).
Proof. unfold reusable. destruct (bufs f !! i); apply _. Defined.
Definition spare (f : fs) : Z := Z.of_nat (length (filter (reusable f) buf_idx)).

(** What the cache leaves alone of the rest of the file system. *)
Definition fs_frame (f f' : fs) : Prop :=
  islots f' = islots f ∧ ftable f' = ftable f ∧ sb f' = sb f ∧ root f' = root f ∧ holder f' = holder f ∧
  dev_map f' = dev_map f.
Lemma fs_frame_refl f : fs_frame f f.
Proof. done. Qed.
Lemma fs_frame_trans f1 f2 f3 : fs_frame f1 f2 → fs_frame f2 f3 → fs_frame f1 f3.
Proof. unfold fs_frame. naive_solver congruence. Qed.

Definition Content (f : fs) (dk : Z → bytes) (n : Z) (c : bytes) : Prop :=
  (∃ i b, bufs f !! i = Some b ∧ is_valid_locked b = true ∧ cb_blkno b = n ∧ c = cb_buf b) ∨
  ((∀ i b, bufs f !! i = Some b → is_valid_locked b = true → cb_blkno b ≠ n) ∧ c = dk (sector n)).

Lemma cached_spec f n :
  (∀ i, is_Some (bufs f !! i) ↔ 0 ≤ i < NBUF) →
  match cached f n with
  | Some b => ∃ i, bufs f !! i = Some b ∧ is_valid_locked b = true ∧ cb_blkno b = n
  | None => ∀ i b, bufs f !! i = Some b → is_valid_locked b = true → cb_blkno b ≠ n
  end.
Proof.
  intros Hdom. unfold cached. set (g := λ i, _). destruct (omap g buf_idx) as [|b l] eqn:Eo; simpl.
  - intros i b Hb Hv Hn. assert (i ∈ buf_idx) as Hi by (apply buf_idx_elem, Hdom; eauto).
    assert (b ∈ omap g buf_idx) as Hin.
    { apply list_elem_of_omap. exists i. split; [done|]. subst g. simpl. rewrite Hb. simpl.
      by rewrite Hv, Hn, Z.eqb_refl. }
    rewrite Eo in Hin. by apply elem_of_nil in Hin.
  - assert (b ∈ omap g buf_idx) as Hin by (rewrite Eo; apply elem_of_cons; by left).
    apply list_elem_of_omap in Hin as (i & _ & Hg). subst g. simpl in Hg.
    destruct (bufs f !! i) as [b0|] eqn:Eb; simpl in Hg; [|done].
    destruct (is_valid_locked b0 && (cb_blkno b0 =? n)) eqn:Ev; [|done]. injection Hg as <-.
    apply andb_true_iff in Ev as [Hv Hn]. exists i. split_and!; [done..|]. by apply Z.eqb_eq.
Qed.

Lemma lblk_content f dk n : (∀ i, is_Some (bufs f !! i) ↔ 0 ≤ i < NBUF) → Content f dk n (lblk f dk n).
Proof.
  intros Hdom. pose proof (cached_spec f n Hdom) as Hc. unfold lblk. destruct (cached f n) as [b|].
  - destruct Hc as (i & ? & ? & ?). left. by exists i, b.
  - by right.
Qed.

Lemma content_lblk f hs dk il n c : BInv f hs dk il → Content f dk n c → lblk f dk n = c.
Proof.
  intros HB Hc. destruct (lblk_content f dk n (bi_dom _ _ _ _ HB)) as [(i & b & Hb & Hv & Hn & ->)|[Hno ->]];
    destruct Hc as [(j & b' & Hb' & Hv' & Hn' & ->)|[Hno' ->]]; try done; try naive_solver.
  assert (i = j) as ->.
  { apply (bi_inj _ _ _ _ HB i j b b'); try done; [congruence|].
    by apply blk_ok_max, (bo_valid _ _ _ _ (bi_buf _ _ _ _ HB i b Hb)). }
  congruence.
Qed.

Lemma lblk_wf f hs dk il n : BInv f hs dk il → blk_ok n → wf_bytes (lblk f dk n).
Proof.
  intros HB Hn0. destruct (lblk_content f dk n (bi_dom _ _ _ _ HB)) as [(i & b & Hb & Hv & Hn & ->)|[Hno ->]].
  - by apply (bo_wf _ _ _ _ (bi_buf _ _ _ _ HB i b Hb)).
  - by apply (bi_disk _ _ _ _ HB).
Qed.

(** ** Changing one buffer *)

Definition ind (b : cblk) : Z := if find_by_refcnt_cb_locked b then 1 else 0.

Lemma filter_ext_in {A} (P Q : A → Prop) `{∀ x, Decision (P x), ∀ x, Decision (Q x)} (l : list A) :
  (∀ x, x ∈ l → P x ↔ Q x) → filter P l = filter Q l.
Proof.
  induction l as [|x l IH]; intros HPQ; [done|]. rewrite !filter_cons.
  rewrite IH by (intros y Hy; apply HPQ; by apply elem_of_cons; right).
  assert (P x ↔ Q x) as Hx by (apply HPQ, elem_of_cons; by left).
  destruct (decide (P x)), (decide (Q x)); tauto || done.
Qed.

Definition set_bufs (i : Z) (b : cblk) (f : fs) : fs := with_bufs (<[i := b]> (bufs f)) f.

Lemma ind_reusable f i b : bufs f !! i = Some b → ind b = if decide (reusable f i) then 1 else 0.
Proof.
  intros Hb. unfold ind. destruct (decide (reusable f i)) as [Hr|Hr]; unfold reusable in Hr; rewrite Hb in Hr.
  - by rewrite Hr.
  - by destruct (find_by_refcnt_cb_locked b).
Qed.

Lemma spare_update f i b b' :
  0 ≤ i < NBUF → bufs f !! i = Some b → spare (set_bufs i b' f) = spare f - ind b + ind b'.
Proof.
  intros Hi Hb. unfold spare. pose proof (proj2 (buf_idx_elem i) Hi) as Hin.
  apply list_elem_of_split in Hin as (l1 & l2 & El). pose proof buf_idx_nodup as Hnd. rewrite El in Hnd |- *.
  apply NoDup_app in Hnd as (_ & Hd & Hnd2). apply NoDup_cons in Hnd2 as [Hn2 _].
  assert (∀ j, j ∈ l1 ++ l2 → reusable (set_bufs i b' f) j ↔ reusable f j) as Hsame.
  { intros j Hj. unfold reusable, set_bufs. simpl. rewrite lookup_insert_ne; [done|]. intros <-.
    apply elem_of_app in Hj as [Hj|Hj]; [|done]. apply (Hd i Hj), elem_of_cons. by left. }
  rewrite !filter_app, !filter_cons.
  rewrite (filter_ext_in _ (reusable f) l1) by (intros; apply Hsame, elem_of_app; by left).
  rewrite (filter_ext_in _ (reusable f) l2) by (intros; apply Hsame, elem_of_app; by right).
  rewrite (ind_reusable f i b Hb), (ind_reusable (set_bufs i b' f) i b')
    by (unfold set_bufs; simpl; apply lookup_insert_eq).
  rewrite !length_app. destruct (decide (reusable f i)), (decide (reusable (set_bufs i b' f) i)); cbn [length]; lia.
Qed.

Lemma ind_range b : 0 ≤ ind b ≤ 1.
Proof. unfold ind. destruct (find_by_refcnt_cb_locked b); lia. Qed.

(** A buffer is replaced: the conditions it has to meet, and the contents. *)
Lemma buf_ok_held hs hs' dk i b :
  (LBuf i ∈ hs' ↔ LBuf i ∈ hs) → buf_ok hs dk i b → buf_ok hs' dk i b.
Proof.
  intros Hi [Hr ????]. split; try done. rewrite Hr. by repeat destruct (decide _); try tauto.
Qed.

Lemma binv_set f hs hs' dk il i b b' :
  BInv f hs dk il → bufs f !! i = Some b →
  (∀ j, j ≠ i → LBuf j ∈ hs' ↔ LBuf j ∈ hs) → buf_ok hs' dk i b' →
  (cb_blkno b' ≠ UINT32_MAX → ∀ j bj, j ≠ i → bufs f !! j = Some bj → cb_blkno bj ≠ cb_blkno b') →
  BInv (set_bufs i b' f) hs' dk il.
Proof.
  intros [Hl Hdom Hinj Hok Hdk] Hb Hhs Hb' Hn. split; [done| | | |done].
  - intros j. unfold set_bufs. simpl. rewrite lookup_insert. destruct (decide (i = j)) as [<-|]; [|done].
    rewrite <-Hdom, Hb. split; intros; by eexists.
  - intros j k bj bk. unfold set_bufs. simpl. rewrite !lookup_insert.
    destruct (decide (i = j)) as [<-|], (decide (i = k)) as [<-|]; intros Hj Hk Hbn Hne; try done.
    + injection Hj as <-. exfalso. by apply (Hn Hne k bk).
    + injection Hk as <-. exfalso. apply (Hn ltac:(congruence) j bj); congruence.
    + by apply (Hinj j k bj bk).
  - intros j bj. unfold set_bufs. simpl. rewrite lookup_insert.
    destruct (decide (i = j)) as [<-|]; [intros [= <-]; done|]. intros Hj.
    apply (buf_ok_held hs); [apply Hhs; congruence|by apply Hok].
Qed.

(** The blocks other than those of the two versions of the buffer keep their
    contents. *)
Lemma lblk_set f hs hs' dk il i b b' n :
  BInv f hs dk il → BInv (set_bufs i b' f) hs' dk il → bufs f !! i = Some b →
  (is_valid_locked b = true → cb_blkno b ≠ n) → (is_valid_locked b' = true → cb_blkno b' ≠ n) →
  lblk (set_bufs i b' f) dk n = lblk f dk n.
Proof.
  intros HB HB' Hb Hn Hn'. apply (content_lblk _ hs' dk il); [done|].
  destruct (lblk_content f dk n (bi_dom _ _ _ _ HB)) as [(j & c & Hc & Hv & Hcn & ->)|[Hno ->]].
  - left. exists j, c. unfold set_bufs. simpl. rewrite lookup_insert_ne; [done|]. intros <-.
    assert (c = b) as -> by congruence. by apply Hn.
  - right. split; [|done]. intros j c. unfold set_bufs. simpl. rewrite lookup_insert.
    destruct (decide (i = j)); [intros [= <-]; done|]. apply Hno.
Qed.

Lemma lblk_hit f hs dk il i b n :
  BInv f hs dk il → bufs f !! i = Some b → is_valid_locked b = true → cb_blkno b = n → lblk f dk n = cb_buf b.
Proof. intros HB Hb Hv Hn. apply (content_lblk _ hs dk il); [done|]. left. by exists i, b. Qed.

Lemma lblk_miss f hs dk il n :
  BInv f hs dk il → (∀ i b, bufs f !! i = Some b → is_valid_locked b = true → cb_blkno b ≠ n) →
  lblk f dk n = dk (sector n).
Proof. intros HB Hn. apply (content_lblk _ hs dk il); [done|]. by right. Qed.

(** A buffer [i] taken for block [n], its contents being those of the block. *)
Lemma take_buf f hs dk il i b b' n :
  BInv f hs dk il → bufs f !! i = Some b → LBuf i ∉ hs → blk_ok n →
  (cb_blkno b = n ∨ (is_dirty_locked b = false ∧ ∀ j bj, bufs f !! j = Some bj → cb_blkno bj ≠ n)) →
  cb_blkno b' = n → cb_refcnt b' = 1 → is_valid_locked b' = true →
  is_dirty_locked b' = is_dirty_locked b → cb_buf b' = lblk f dk n →
  BInv (set_bufs i b' f) ({[LBuf i]} ∪ hs) dk il ∧ (∀ m, lblk (set_bufs i b' f) dk m = lblk f dk m).
Proof.
  intros HB Hb Hi Hn0 Hcase Hn Href Hv Hd Hbuf. pose proof (blk_ok_max n Hn0) as Hmax. pose proof (bi_buf _ _ _ _ HB i b Hb) as Hok.
  assert (∀ j bj, j ≠ i → bufs f !! j = Some bj → cb_blkno bj ≠ n) as Hother.
  { intros j bj Hj Hbj Hbn. destruct Hcase as [Hbi|[_ Hno]]; [|by apply (Hno j bj)].
    apply Hj. apply (bi_inj _ _ _ _ HB j i bj b); congruence. }
  assert (is_valid_locked b = true → is_dirty_locked b = false → cb_blkno b = n →
    dk (sector n) = lblk f dk n) as Hdisk.
  { intros Hvb Hdb Hbn. rewrite (lblk_hit f hs dk il i b n) by done. rewrite <-Hbn. symmetry. by apply (bo_clean _ _ _ _ Hok). }
  assert (BInv (set_bufs i b' f) ({[LBuf i]} ∪ hs) dk il) as HB'.
  { apply (binv_set f hs _ dk il i b b'); try done; [set_solver| |].
    - split; try done.
      + by rewrite decide_True by set_solver.
      + rewrite Hbuf. by apply (lblk_wf f hs dk il).
      + intros _. by rewrite Hn.
      + intros _ Hcl. rewrite Hd in Hcl. rewrite Hbuf, Hn. symmetry.
        destruct (is_valid_locked b) eqn:Evb; destruct Hcase as [Hbi|[_ Hno]].
        * by apply Hdisk.
        * symmetry. apply (lblk_miss f hs dk il); [done|]. intros j bj Hbj _. by apply (Hno j).
        * symmetry. apply (lblk_miss f hs dk il); [done|]. intros j bj Hbj Hvj Hbn.
          destruct (decide (j = i)) as [->|Hj]; [congruence|]. by apply (Hother j bj).
        * symmetry. apply (lblk_miss f hs dk il); [done|]. intros j bj Hbj _. by apply (Hno j).
    - intros _. rewrite Hn. apply Hother. }
  split; [done|]. intros m. destruct (decide (m = n)) as [->|Hm].
  - rewrite (lblk_hit _ _ dk il i b' n HB'); [done| |done..]. unfold set_bufs. simpl. by rewrite lookup_insert_eq.
  - destruct (decide (is_valid_locked b = true ∧ cb_blkno b = m)) as [[Hvb Hbm]|Hno].
    + (* a clean buffer is evicted *)
      assert (is_dirty_locked b = false) as Hcl by (destruct Hcase as [?|[? _]]; [congruence|done]).
      rewrite (lblk_hit f hs dk il i b m) by done. rewrite (bo_clean _ _ _ _ Hok Hvb Hcl), Hbm.
      apply (lblk_miss _ _ dk il m HB'). intros j bj. unfold set_bufs. simpl. rewrite lookup_insert.
      destruct (decide (i = j)) as [<-|Hj]; [intros [= <-]; congruence|]. intros Hbj Hvj Hbn. apply Hj.
      apply (bi_inj _ _ _ _ HB i j b bj); try congruence. by apply blk_ok_max, (bo_valid _ _ _ _ Hok).
    + apply (lblk_set f hs _ dk il i b b' m HB HB' Hb); [naive_solver|congruence].
Qed.

(** ** Single steps *)

Lemma set_bufs_lookup i b f : bufs (set_bufs i b f) !! i = Some b.
Proof. apply lookup_insert_eq. Qed.
Lemma set_bufs_other i b f j : j ≠ i → bufs (set_bufs i b f) !! j = bufs f !! j.
Proof. intros. apply lookup_insert_ne. congruence. Qed.
Lemma set_bufs_twice i b b' f : set_bufs i b (set_bufs i b' f) = set_bufs i b f.
Proof. unfold set_bufs, with_bufs. simpl. by rewrite insert_insert_eq. Qed.
Lemma set_bufs_id i b f : bufs f !! i = Some b → set_bufs i b f = f.
Proof. intros Hb. unfold set_bufs. rewrite insert_id by done. by destruct f. Qed.
Lemma set_bufs_frame i b f : fs_frame f (set_bufs i b f).
Proof. done. Qed.

Lemma get_buf_run {E} i f (e : E) b : bufs f !! i = Some b → get_buf i (Sys f e) = Done b (Sys f e).
Proof. intros Hb. unfold get_buf, get_fs, gets, of_opt, mbind, M_bind, obind. simpl. by rewrite Hb. Qed.
Lemma upd_buf_run {E} i g f (e : E) b :
  bufs f !! i = Some b → upd_buf i g (Sys f e) = Done tt (Sys (set_bufs i (g b) f) e).
Proof. intros Hb. unfold upd_buf. by rewrite (bind_Done _ _ _ _ _ (get_buf_run i f e b Hb)). Qed.

Lemma read_nodes_at {N W A} `{HasNodes N W} (g : store N → option A) a (w : W) :
  g (nodes w) = Some a → read_nodes g w = Done a w.
Proof. intros Hg. unfold read_nodes. by rewrite Hg. Qed.
Lemma on_nodes_at {N W} `{HasNodes N W} (g : store N → option (store N)) s (w : W) :
  g (nodes w) = Some s → on_nodes g w = Done tt (set_nodes s w).
Proof. intros Hg. unfold on_nodes. by rewrite Hg. Qed.

Section Ops.
Context {E : Type} `{EnvLaws E}.
Implicit Types (e : E) (f : fs) (n i : Z).

Lemma find_node_buf f bl (p : cblk → bool) :
  match List.find (buf_pred f p) (FBuf <$> bl) with
  | Some (FBuf i) => i ∈ bl ∧ ∃ b, bufs f !! i = Some b ∧ p b = true
  | Some _ => False
  | None => ∀ i b, i ∈ bl → bufs f !! i = Some b → p b = false
  end.
Proof.
  destruct (List.find _ _) as [x|] eqn:Ef.
  - apply List.find_some in Ef as [Hx Hp]. apply list_elem_of_In, list_elem_of_fmap in Hx as (i & -> & Hi).
    simpl in Hp. destruct (bufs f !! i) as [b|] eqn:Eb; [|done]. split; [done|by exists b].
  - intros i b Hi Hb. pose proof (List.find_none _ _ Ef (FBuf i)) as Hn. simpl in Hn. rewrite Hb in Hn.
    apply Hn, list_elem_of_In, list_elem_of_fmap. by exists i.
Qed.

Lemma cache_request_run f e hs dk il n :
  BInv f hs dk il → ∃ r, cache_request_locked n (Sys f e) = Done r (Sys f e) ∧
    match r with
    | Some i => ∃ b, bufs f !! i = Some b ∧ cb_blkno b = n
    | None => ∀ i b, bufs f !! i = Some b → cb_blkno b ≠ n
    end.
Proof.
  intros HB. destruct (bi_list _ _ _ _ HB) as (bl & HR & Hbl).
  pose proof (find_rep None _ _ FBufList (FBuf <$> bl) (buf_pred f (match_blkno_cb_locked n)) HR ltac:(done)) as Hf.
  pose proof (find_node_buf f bl (match_blkno_cb_locked n)) as Hs.
  unfold cache_request_locked, get_fs. erewrite bind_Done by reflexivity. cbn beta.
  cbn [s_fs]. mstep (read_nodes_at (clist_find FBufList (buf_pred f (match_blkno_cb_locked n))) _ (Sys f e) Hf).
  destruct (List.find _ _) as [[i| | |]|]; try done; unfold buf_of_node.
  - destruct Hs as (_ & b & Hb & Hp). exists (Some i). split; [done|]. exists b. split; [done|]. by apply Z.eqb_eq.
  - exists None. split; [done|]. intros i b Hb Hn. assert (match_blkno_cb_locked n b = false) as Hp.
    { apply (Hs i); [|done]. apply Hbl, (bi_dom _ _ _ _ HB). by eexists. }
    unfold match_blkno_cb_locked in Hp. apply Z.eqb_neq in Hp. done.
Qed.

Lemma find_reusable_run f e hs dk il :
  BInv f hs dk il → ∃ r, find_reusable_locked (Sys f e) = Done r (Sys f e) ∧
    match r with
    | Some i => ∃ b, bufs f !! i = Some b ∧ find_by_refcnt_cb_locked b = true
    | None => spare f = 0
    end.
Proof.
  intros HB. destruct (bi_list _ _ _ _ HB) as (bl & HR & Hbl).
  pose proof (find_rev_rep None _ _ FBufList (FBuf <$> bl) (buf_pred f find_by_refcnt_cb_locked) HR
    ltac:(done) ltac:(done)) as Hf.
  rewrite <-fmap_reverse in Hf. pose proof (find_node_buf f (reverse bl) find_by_refcnt_cb_locked) as Hs.
  unfold find_reusable_locked, get_fs. erewrite bind_Done by reflexivity. cbn beta.
  cbn [s_fs]. mstep (read_nodes_at (clist_find_rev FBufList (buf_pred f find_by_refcnt_cb_locked)) _ (Sys f e) Hf).
  destruct (List.find _ _) as [[i| | |]|]; try done; unfold buf_of_node.
  - destruct Hs as (_ & b & Hb & Hp). exists (Some i). split; [done|]. by exists b.
  - exists None. split; [done|]. unfold spare.
    destruct (filter (reusable f) buf_idx) as [|i l] eqn:Ef; [done|]. exfalso.
    assert (i ∈ filter (reusable f) buf_idx) as Hi by (rewrite Ef; apply elem_of_cons; by left).
    apply list_elem_of_filter in Hi as [Hr Hi]. unfold reusable in Hr.
    destruct (bufs f !! i) as [b|] eqn:Eb; [|done]. rewrite (Hs i b) in Hr; [done| |done].
    apply elem_of_reverse, Hbl, (bi_dom _ _ _ _ HB). by eexists.
Qed.

(** What [bcache_getblk] does to the buffer it returns. *)
Definition taken f n (b b1 : cblk) : Prop :=
  cb_blkno b1 = n ∧ cb_refcnt b1 = 1 ∧ is_dirty_locked b1 = is_dirty_locked b ∧ cb_buf b1 = cb_buf b ∧
  ((cb_blkno b = n ∧ is_valid_locked b1 = is_valid_locked b) ∨
   (is_dirty_locked b = false ∧ is_valid_locked b1 = false ∧ ∀ j bj, bufs f !! j = Some bj → cb_blkno bj ≠ n)).

(** No block the task holds is block [n]. *)
Definition unheld f (hs : gset lock) n : Prop :=
  ∀ i b, LBuf i ∈ hs → bufs f !! i = Some b → cb_blkno b ≠ n.

Lemma getblk_runs f e hs dk il n :
  at_env e hs None dk → BInv f hs dk il → unheld f hs n → 1 ≤ spare f →
  runs (bcache_getblk n (Sys f e)) (λ i s', ∃ b b1 e',
    s' = Sys (set_bufs i b1 f) e' ∧ at_env e' ({[LBuf i]} ∪ hs) None dk ∧
    bufs f !! i = Some b ∧ (LBuf i ∉ hs) ∧ taken f n b b1).
Proof.
  intros He HB Hun Hsp. unfold bcache_getblk. apply runs_bind, (runs_spin SBcache f e hs dk _ He). intros e1 He1.
  destruct (cache_request_run f e1 hs dk il n HB) as (r & Hr & Hrs). mstep Hr.
  set (k := λ blk : Z, _). assert (∀ i b b1, bufs f !! i = Some b → LBuf i ∉ hs → cb_refcnt b1 = 0 →
    taken f n b (cb_set_refcnt 1 b1) → 
    runs (k i (Sys (set_bufs i b1 f) e1)) (λ i s', ∃ b b1 e', s' = Sys (set_bufs i b1 f) e' ∧ at_env e' ({[LBuf i]} ∪ hs) None dk ∧
      bufs f !! i = Some b ∧ (LBuf i ∉ hs) ∧ taken f n b b1)) as Hk.
  { intros i b b1 Hb Hi Href Ht. subst k. cbn beta.
    mstep (upd_buf_run i (λ b, cb_set_refcnt (u32 (cb_refcnt b + 1)) b) _ e1 b1 (set_bufs_lookup i b1 f)).
    rewrite Href, set_bufs_twice. change (u32 (0 + 1)) with 1.
    apply runs_bind, (runs_unspin SBcache _ e1 hs dk _ He1). intros e2 He2.
    assert (lock_ok (LBuf i)) as Hl by (apply (bi_dom _ _ _ _ HB i); by eexists).
    apply runs_bind, (runs_lock (LBuf i) _ e2 hs dk _ He2 Hl Hi). intros e3 He3.
    exists b, (cb_set_refcnt 1 b1), e3. done. }
  assert (∀ i b, bufs f !! i = Some b → LBuf i ∉ hs → cb_refcnt b = 0) as Href.
  { intros i b Hb Hi. rewrite (bo_ref _ _ _ _ (bi_buf _ _ _ _ HB i b Hb)). by rewrite decide_False. }
  destruct r as [i|].
  - destruct Hrs as (b & Hb & Hn). rewrite bind_ret.
    assert (LBuf i ∉ hs) as Hi by (intros Hi; by apply (Hun i b Hi Hb)).
    rewrite <-(set_bufs_id i b f Hb) at 1. apply (Hk i b b Hb Hi (Href i b Hb Hi)).
    split_and!; try done. by left.
  - destruct (find_reusable_run f e1 hs dk il HB) as (r & Hr2 & Hrs2).
    destruct r as [i|]; [|lia]. destruct Hrs2 as (b & Hb & Hp).
    apply andb_true_iff in Hp as [Hp0 Hpd]. apply Z.eqb_eq in Hp0. apply negb_true_iff in Hpd.
    assert (LBuf i ∉ hs) as Hi.
    { intros Hi. rewrite (bo_ref _ _ _ _ (bi_buf _ _ _ _ HB i b Hb)), decide_True in Hp0; done. }
    set (b1 := clear_valid_locked (cb_set_blkno n b)).
    erewrite bind_Done; [|mstep Hr2; mstep (upd_buf_run i (cb_set_blkno n) f e1 b Hb);
      mstep (upd_buf_run i clear_valid_locked _ e1 _ (set_bufs_lookup i (cb_set_blkno n b) f));
      rewrite set_bufs_twice; reflexivity].
    apply (Hk i b b1 Hb Hi); [done|]. split_and!; [done..|by apply (dirty_clear_valid (cb_set_blkno n b))|done|]. right.
    split_and!; [done|apply (valid_clear_valid (cb_set_blkno n b))|done].
Qed.

(** ** The contract of the cache *)

(** Block [n] is in the hands of the task, in buffer [i]. *)
Definition got f hs dk il n i f' : Prop :=
  (LBuf i ∉ hs) ∧ BInv f' ({[LBuf i]} ∪ hs) dk il ∧
  (∃ b, bufs f' !! i = Some b ∧ cb_blkno b = n ∧ is_valid_locked b = true ∧ cb_buf b = lblk f dk n ∧
    spare f' = spare f - (if is_dirty_locked b then 0 else 1)) ∧
  (∀ m, lblk f' dk m = lblk f dk m) ∧ fs_frame f f' ∧ ∀ j, LBuf j ∈ hs → bufs f' !! j = bufs f !! j.

Lemma buf_range f hs dk il i b : BInv f hs dk il → bufs f !! i = Some b → 0 ≤ i < NBUF.
Proof. intros HB Hb. apply (bi_dom _ _ _ _ HB). by eexists. Qed.

Lemma ind_free f hs dk il i b :
  BInv f hs dk il → bufs f !! i = Some b → LBuf i ∉ hs → ind b = if is_dirty_locked b then 0 else 1.
Proof.
  intros HB Hb Hi. unfold ind, find_by_refcnt_cb_locked.
  rewrite (bo_ref _ _ _ _ (bi_buf _ _ _ _ HB i b Hb)), decide_False by done. by destruct (is_dirty_locked b).
Qed.

Lemma ind_referenced b : cb_refcnt b = 1 → ind b = 0.
Proof. intros Hr. unfold ind, find_by_refcnt_cb_locked. by rewrite Hr. Qed.

Lemma take_got f hs dk il n i b b' :
  BInv f hs dk il → blk_ok n → bufs f !! i = Some b → LBuf i ∉ hs →
  (cb_blkno b = n ∨ (is_dirty_locked b = false ∧ ∀ j bj, bufs f !! j = Some bj → cb_blkno bj ≠ n)) →
  cb_blkno b' = n → cb_refcnt b' = 1 → is_valid_locked b' = true →
  is_dirty_locked b' = is_dirty_locked b → cb_buf b' = lblk f dk n →
  got f hs dk il n i (set_bufs i b' f).
Proof.
  intros HB Hn Hb Hi Hc Hbn Hr Hv Hd Hbuf.
  destruct (take_buf f hs dk il i b b' n) as [HB' Hl]; try done.
  split_and!; [done|done| |done|done|].
  - exists b'. split_and!; try done; [apply set_bufs_lookup|].
    rewrite (spare_update f i b b' (buf_range f hs dk il i b HB Hb) Hb), (ind_free f hs dk il i b HB Hb Hi).
    rewrite (ind_referenced b' Hr), Hd. destruct (is_dirty_locked b); lia.
  - intros j Hj. apply set_bufs_other. by intros ->.
Qed.

Lemma read_runs f e hs dk il n :
  at_env e hs None dk → BInv f hs dk il → blk_ok n → unheld f hs n → 1 ≤ spare f →
  runs (bcache_read n (Sys f e)) (λ r s', ∃ i e', r = Some i ∧ s_env s' = e' ∧
    at_env e' ({[LBuf i]} ∪ hs) None dk ∧ got f hs dk il n i (s_fs s')).
Proof.
  intros He HB Hn Hun Hsp. unfold bcache_read. apply runs_bind.
  eapply runs_mono; [by apply (getblk_runs f e hs dk il n)|].
  intros i s' (b & b1 & e1 & -> & He1 & Hb & Hi & (Hbn & Hr & Hd & Hbuf & Hcase)).
  mstep (get_buf_run i (set_bufs i b1 f) e1 b1 (set_bufs_lookup i b1 f)).
  destruct (is_valid_locked b1) eqn:Ev.
  - exists i, e1. split_and!; [done..|]. simpl s_fs. destruct Hcase as [[Hbi Hvb]|[_ [? _]]]; [|congruence].
    apply (take_got f hs dk il n i b b1); try done; [by left|].
    rewrite Hbuf. symmetry. by apply (lblk_hit f hs dk il i b n).
  - apply runs_bind. fold (sector n). apply (runs_read (sector n) _ e1 _ dk _ He1). intros r e2 Hr0 He2.
    cbn [fst snd]. mstep (upd_buf_run i (cb_set_buf (dk (sector n))) _ e2 b1 (set_bufs_lookup i b1 f)).
    rewrite set_bufs_twice. destruct (Z.ltb_spec r 0) as [|_]; [lia|].
    mstep (upd_buf_run i set_valid_locked _ e2 _ (set_bufs_lookup i (cb_set_buf (dk (sector n)) b1) f)).
    rewrite set_bufs_twice. exists i, e2. split_and!; [done..|]. simpl s_fs.
    apply (take_got f hs dk il n i b); try done.
    + destruct Hcase as [[? _]|(? & _ & ?)]; [by left|by right].
    + apply valid_set_valid.
    + by rewrite <-Hd, (dirty_set_valid (cb_set_buf _ b1)).
    + symmetry. apply (lblk_miss f hs dk il n HB). intros j bj Hbj Hvj Hjn.
      destruct Hcase as [[Hbi Hvb]|(_ & _ & Hno)]; [|by apply (Hno j bj)].
      destruct (decide (j = i)) as [->|Hj]; [congruence|]. apply Hj.
      apply (bi_inj _ _ _ _ HB j i bj b); try congruence. unfold blk_ok in Hn. unfold UINT32_MAX. lia.
Qed.

(** Releasing a block. *)
Definition put f hs dk il i f' : Prop :=
  BInv f' (hs ∖ {[LBuf i]}) dk il ∧ (∀ m, lblk f' dk m = lblk f dk m) ∧ fs_frame f f' ∧
  (∀ j, j ≠ i → bufs f' !! j = bufs f !! j) ∧
  ∃ b, bufs f !! i = Some b ∧ bufs f' !! i = Some (cb_set_refcnt 0 b) ∧
    spare f' = spare f + (if is_dirty_locked b then 0 else 1).

Lemma cached_nodes f v n : cached (with_fs_nodes v f) n = cached f n.
Proof. reflexivity. Qed.

Lemma release_runs f e hs dk il i :
  at_env e hs None dk → BInv f hs dk il → 0 ≤ i < NBUF → LBuf i ∈ hs →
  runs (bcache_release i (Sys f e)) (λ _ s', ∃ e', s_env s' = e' ∧
    at_env e' (hs ∖ {[LBuf i]}) None dk ∧ put f hs dk il i (s_fs s')).
Proof.
  intros He HB Hi Hin. unfold bcache_release.
  destruct (proj2 (bi_dom _ _ _ _ HB i) Hi) as [b Hb]. pose proof (bi_buf _ _ _ _ HB i b Hb) as Hok.
  pose proof (bo_ref _ _ _ _ Hok) as Href. rewrite decide_True in Href by done.
  apply runs_bind, (runs_unlock (LBuf i) f e hs dk _ He Hin). intros e1 He1.
  apply runs_bind, (runs_spin SBcache f e1 _ dk _ He1). intros e2 He2.
  mstep (upd_buf_run i (λ b, cb_set_refcnt (u32 (cb_refcnt b - 1)) b) f e2 b Hb). rewrite Href.
  change (u32 (1 - 1)) with 0. set (b' := cb_set_refcnt 0 b).
  assert (BInv (set_bufs i b' f) (hs ∖ {[LBuf i]}) dk il) as HB'.
  { apply (binv_set f hs _ dk il i b b'); try done; [set_solver| |].
    - destruct Hok. split; try done. by rewrite decide_False by set_solver.
    - intros Hne j bj Hj Hbj Hjn. apply Hj.
      apply (bi_inj _ _ _ _ HB j i bj b); [done|done|exact Hjn|by rewrite Hjn]. }
  destruct (bi_list _ _ _ _ HB') as (bl & HR & Hbl).
  assert (i ∈ bl) as Hibl by by apply Hbl. apply list_elem_of_split in Hibl as (l1 & l2 & El).
  destruct (remove_rep None _ _ FBufList (FBuf <$> l1) (FBuf <$> l2) (FBuf i) HR) as (s1 & Hs1 & HR1 & Hd1).
  { subst bl. unfold lists. rewrite lookup_insert_eq, fmap_app. done. }
  pose proof (rep_nodup None _ _ FBufList _ HR eq_refl) as Hnd. rewrite El, fmap_app, fmap_cons in Hnd.
  apply NoDup_middle in Hnd as [Hni _]. rewrite <-fmap_app in *.
  destruct (push_front_rep None s1 _ FBufList _ (FBuf i) HR1 ltac:(done) ltac:(apply lookup_insert_eq))
    as (s2 & Hs2 & HR2 & _).
  { split_and!.
    - rewrite Hd1. apply (rep_dom None _ _ FBufList (FBuf <$> bl) _ HR eq_refl). apply elem_of_cons. right.
      apply list_elem_of_fmap. exists i. split; [done|]. subst bl. apply elem_of_app. right. apply elem_of_cons. by left.
    - done.
    - intros h l. rewrite lookup_insert. destruct (decide (FBufList = h)) as [<-|Hh].
      + intros [= <-]. done.
      + unfold lists. rewrite lookup_insert_ne by done. intros [<- <-]%lookup_singleton_Some.
        intros (? & ? & _)%list_elem_of_fmap. done. }
  mstep (on_nodes_at (clist_remove (Some (FBuf i))) s1 (Sys (set_bufs i b' f) e2) Hs1).
  mstep (on_nodes_at (clist_push_front FBufList (FBuf i)) s2 (set_nodes s1 (Sys (set_bufs i b' f) e2)) Hs2).
  simpl set_nodes. apply (runs_unspin SBcache _ e2 _ dk _ He2). intros e3 He3.
  exists e3. split_and!; [done..|]. simpl s_fs. split_and!.
  - destruct HB' as [_ ????]. split; try done. exists (i :: l1 ++ l2). split.
    + unfold lists in *. rewrite !insert_insert_eq in HR2. exact HR2.
    + intros j. rewrite <-Hbl, El, elem_of_cons, !elem_of_app, elem_of_cons. tauto.
  - intros m. unfold lblk. rewrite !cached_nodes. fold (lblk (set_bufs i b' f) dk m) (lblk f dk m).
    destruct (decide (is_valid_locked b = true ∧ cb_blkno b = m)) as [[Hv Hm]|Hno].
    + rewrite (lblk_hit f hs dk il i b m HB Hb Hv Hm).
      by rewrite (lblk_hit _ _ dk il i b' m HB' (set_bufs_lookup i b' f) Hv Hm).
    + apply (lblk_set f hs (hs ∖ {[LBuf i]}) dk il i b b' m HB HB' Hb); naive_solver.
  - done.
  - intros j Hj. by apply set_bufs_other.
  - exists b. split_and!; [done|apply set_bufs_lookup|]. change (spare _) with (spare (set_bufs i b' f)) at 1.
    rewrite (spare_update f i b b' Hi Hb), (ind_referenced b Href).
    rewrite (ind_free _ _ dk il i b' HB' (set_bufs_lookup i b' f)) by set_solver.
    change (is_dirty_locked b') with (is_dirty_locked b). destruct (is_dirty_locked b); lia.
Qed.

(** Changing the contents of a block that is held, and marking it dirty. *)
Definition wrote f hs dk il n c f' : Prop :=
  BInv f' hs dk il ∧ (∀ m, lblk f' dk m = if decide (m = n) then c else lblk f dk m) ∧
  fs_frame f f' ∧ spare f' = spare f.

Lemma write_held f hs dk il i b c :
  BInv f hs dk il → bufs f !! i = Some b → LBuf i ∈ hs → is_valid_locked b = true → wf_bytes c →
  wrote f hs dk il (cb_blkno b) c (set_bufs i (set_dirty_locked (cb_set_buf c b)) f).
Proof.
  intros HB Hb Hi Hv Hc. set (b' := set_dirty_locked _).
  pose proof (bi_buf _ _ _ _ HB i b Hb) as Hok.
  assert (is_valid_locked b' = true) as Hv' by (unfold b'; by rewrite valid_set_dirty).
  assert (BInv (set_bufs i b' f) hs dk il) as HB'.
  { apply (binv_set f hs hs dk il i b b'); try done.
    - destruct Hok. split; [done|done|done|intros _; by apply bo_valid0|].
      intros _ Hcl. unfold b' in Hcl. by rewrite dirty_set_dirty in Hcl.
    - intros Hne j bj Hj Hbj Hjn. apply Hj.
      apply (bi_inj _ _ _ _ HB j i bj b); [done|done|exact Hjn|by rewrite Hjn]. }
  split_and!; [done| |done|].
  - intros m. destruct (decide (m = cb_blkno b)) as [->|Hm].
    + by apply (lblk_hit _ hs dk il i b' _ HB' (set_bufs_lookup i b' f) Hv').
    + apply (lblk_set f hs hs dk il i b b' m HB HB' Hb); intros _ Eb; apply Hm; symmetry; exact Eb.
  - rewrite (spare_update f i b b' (buf_range f hs dk il i b HB Hb) Hb).
    assert (cb_refcnt b = 1) as Hr by (rewrite (bo_ref _ _ _ _ Hok); by rewrite decide_True).
    rewrite !ind_referenced by done. lia.
Qed.

(** Dropping a block from the cache: its contents are those of the disk again. *)
Lemma invalidate_runs f e hs dk il n :
  at_env e hs None dk → BInv f hs dk il → unheld f hs n → n ≠ UINT32_MAX →
  runs (bcache_invalidate n (Sys f e)) (λ _ s', ∃ e', s_env s' = e' ∧ at_env e' hs None dk ∧
    BInv (s_fs s') hs dk il ∧ fs_frame f (s_fs s') ∧ spare f ≤ spare (s_fs s') ∧
    (∀ m, m ≠ n → lblk (s_fs s') dk m = lblk f dk m) ∧ lblk (s_fs s') dk n = dk (sector n) ∧
    ∀ j, LBuf j ∈ hs → bufs (s_fs s') !! j = bufs f !! j).
Proof.
  intros He HB Hun Hmax. unfold bcache_invalidate. apply runs_bind, (runs_spin SBcache f e hs dk _ He). intros e1 He1.
  destruct (cache_request_run f e1 hs dk il n HB) as (r & Hr & Hrs). mstep Hr. destruct r as [i|].
  - destruct Hrs as (b & Hb & Hbn). pose proof (bi_buf _ _ _ _ HB i b Hb) as Hok.
    assert (LBuf i ∉ hs) as Hi by (intros Hi; by apply (Hun i b Hi Hb)).
    set (b' := cb_set_blkno UINT32_MAX (clear_valid_locked (clear_dirty_locked b))).
    erewrite bind_Done; [|mstep (upd_buf_run i clear_dirty_locked f e1 b Hb);
      mstep (upd_buf_run i clear_valid_locked _ e1 _ (set_bufs_lookup i (clear_dirty_locked b) f));
      rewrite set_bufs_twice, (upd_buf_run i (cb_set_blkno UINT32_MAX) _ e1 _ (set_bufs_lookup i _ f)), set_bufs_twice;
      reflexivity].
    fold b'. assert (is_valid_locked b' = false) as Hv' by apply (valid_clear_valid (clear_dirty_locked b)).
    assert (is_dirty_locked b' = false) as Hd'.
    { change (is_dirty_locked (clear_valid_locked (clear_dirty_locked b)) = false). by autorewrite with flags. }
    assert (BInv (set_bufs i b' f) hs dk il) as HB'.
    { apply (binv_set f hs hs dk il i b b'); try done. destruct Hok. split; try done; congruence. }
    cbn beta. apply (runs_unspin SBcache _ e1 hs dk _ He1). intros e2 He2. exists e2. simpl s_fs. split_and!; try done.
    + rewrite (spare_update f i b b' (buf_range f hs dk il i b HB Hb) Hb).
      rewrite (ind_free _ _ dk il i b' HB' (set_bufs_lookup i b' f) Hi), Hd'. pose proof (ind_range b). lia.
    + intros m Hm. apply (lblk_set f hs hs dk il i b b' m HB HB' Hb); congruence.
    + apply (lblk_miss _ hs dk il n HB'). intros j bj. destruct (decide (j = i)) as [->|Hj].
      * rewrite set_bufs_lookup. intros [= <-]. congruence.
      * rewrite set_bufs_other by done. intros Hbj _ Hjn. apply Hj. apply (bi_inj _ _ _ _ HB j i bj b); congruence.
    + intros j Hj. apply set_bufs_other. by intros ->.
  - rewrite bind_ret. apply (runs_unspin SBcache _ e1 hs dk _ He1). intros e2 He2. exists e2. simpl s_fs.
    split_and!; try done. apply (lblk_miss _ hs dk il n HB). intros i b Hb _. by apply (Hrs i b).
Qed.

(** Writing a block back. *)
Lemma sync_runs f e hs dk il i b :
  at_env e hs None dk → BInv f hs dk il → bufs f !! i = Some b → LBuf i ∈ hs → is_valid_locked b = true →
  runs (bcache_sync i (Sys f e)) (λ r s', ∃ dk', r = 0 ∧ at_env (s_env s') hs None dk' ∧
    BInv (s_fs s') hs dk' il ∧ fs_frame f (s_fs s') ∧ spare (s_fs s') = spare f ∧
    (∀ m, blk_ok m → lblk (s_fs s') dk' m = lblk f dk m) ∧
    dk' (sector (cb_blkno b)) = cb_buf b ∧
    ∃ b', bufs (s_fs s') !! i = Some b' ∧ is_dirty_locked b' = false ∧ cb_buf b' = cb_buf b).
Proof.
  intros He HB Hb Hi Hv. unfold bcache_sync. mstep (get_buf_run i f e b Hb).
  pose proof (bi_buf _ _ _ _ HB i b Hb) as Hok.
  destruct (is_dirty_locked b) eqn:Ed; cbn [negb].
  2:{ exists dk. split_and!; try done; [symmetry; by apply (bo_clean _ _ _ _ Hok)|by exists b]. }
  fold (sector (cb_blkno b)). apply runs_bind, (runs_write (sector (cb_blkno b)) (cb_buf b) f e hs dk _ He).
  intros r e1 dk1 Hr He1 Hdk Hother. destruct (Z.ltb_spec r 0) as [|_]; [lia|].
  mstep (upd_buf_run i clear_dirty_locked f e1 b Hb). set (b' := clear_dirty_locked b).
  pose proof (bo_valid _ _ _ _ Hok Hv) as Hbok.
  assert (∀ m, blk_ok m → m ≠ cb_blkno b → dk1 (sector m) = dk (sector m)) as Hkeep.
  { intros m Hm Hne. apply Hother. rewrite !sector_eq by done. lia. }
  assert (is_valid_locked b' = true) as Hv' by (unfold b'; by rewrite valid_clear_dirty).
  assert (BInv (set_bufs i b' f) hs dk1 il) as HB'.
  { destruct HB as [Hl Hdom Hinj Hbok' Hdk0]. split; [done| | | |].
    - intros j. destruct (decide (j = i)) as [->|Hj].
      + rewrite set_bufs_lookup, <-Hdom, Hb. split; intros; by eexists.
      + rewrite set_bufs_other by done. apply Hdom.
    - assert (∀ j bj, bufs (set_bufs i b' f) !! j = Some bj →
        ∃ bj0, bufs f !! j = Some bj0 ∧ cb_blkno bj0 = cb_blkno bj) as Hback.
      { intros j bj. destruct (decide (j = i)) as [->|Hj]; [rewrite set_bufs_lookup; intros [= <-]; by exists b|].
        rewrite set_bufs_other by done. by exists bj. }
      intros j k bj bk (bj0 & Hj & Ej)%Hback (bk0 & Hk & Ek)%Hback Hbn Hne.
      apply (Hinj j k bj0 bk0); congruence.
    - intros j bj. destruct (decide (j = i)) as [->|Hj].
      + rewrite set_bufs_lookup. intros [= <-]. destruct Hok. split; try done.
      + rewrite set_bufs_other by done. intros Hbj. destruct (Hbok' j bj Hbj) as [Hrj Hwj Hdj Hvj Hcj].
        split; try done. intros Hvalid Hclean. rewrite Hcj by done. symmetry. apply Hkeep; [by apply Hvj|].
        intros Hjn. apply Hj. apply (Hinj j i bj b); try done. by apply blk_ok_max, Hvj.
    - intros m Hm. destruct (decide (m = cb_blkno b)) as [->|Hne].
      + rewrite Hdk. by apply (bo_wf _ _ _ _ Hok).
      + rewrite Hkeep by done. by apply Hdk0. }
  exists dk1. simpl s_fs. split_and!; try done.
  - assert (cb_refcnt b = 1) as Href by (rewrite (bo_ref _ _ _ _ Hok); by rewrite decide_True).
    rewrite (spare_update f i b b' (buf_range f hs dk il i b HB Hb) Hb), !ind_referenced by done. lia.
  - intros m Hm. destruct (decide (m = cb_blkno b)) as [->|Hne].
    + rewrite (lblk_hit f hs dk il i b _ HB Hb Hv eq_refl).
      by apply (lblk_hit _ hs dk1 il i b' (cb_blkno b) HB' (set_bufs_lookup i b' f) Hv' eq_refl).
    + destruct (lblk_content f dk m (bi_dom _ _ _ _ HB)) as [(j & c & Hc & Hvc & Hcn & ->)|[Hno ->]].
      * assert (j ≠ i) by (intros ->; congruence).
        apply (lblk_hit _ hs dk1 il j c m HB'); [by rewrite set_bufs_other|done|done].
      * rewrite <-Hkeep by done. apply (lblk_miss _ hs dk1 il m HB'). intros j bj.
        destruct (decide (j = i)) as [->|Hj]; [rewrite set_bufs_lookup; intros [= <-] _ Eb; apply Hne; symmetry; exact Eb|].
        rewrite set_bufs_other by done. apply Hno.
  - exists b'. split_and!; [apply set_bufs_lookup|apply dirty_clear_dirty|done].
Qed.
End Ops.

(** ** Initialisation *)

Section Init.
Context {E : Type} `{EnvLaws E}.

(** The static state of the buffers. *)
Definition blank : cblk := Cblk 0 0 0 ∅.

Definition init_state (f : fs) (e : E) (il done_ : list Z) (s : sys E) : Prop :=
  Rep (fs_nodes (s_fs s)) (lists (reverse done_) il) ∧ fs_frame f (s_fs s) ∧
  (∀ i, 0 ≤ i < NBUF → bufs (s_fs s) !! i = Some (if decide (i ∈ done_) then cb_set_blkno UINT32_MAX blank else blank)) ∧
  (∀ i, is_Some (bufs (s_fs s) !! i) → 0 ≤ i < NBUF) ∧
  env_ok (s_env s) ∧ held (s_env s) = held e ∧ spinning (s_env s) = spinning e ∧ same_disk e (s_env s) ∧
  (∀ i, i ∈ done_ → LBuf i ∈ ready (s_env s)) ∧ ∀ l, l ∈ ready e → l ∈ ready (s_env s).

Lemma init_step f e il pre i post s :
  (∀ j, LBuf j ∉ held e) → buf_idx = pre ++ i :: post → init_state f e il pre s →
  runs ((upd_buf i (cb_set_blkno UINT32_MAX);; env (env_mutex_init (LBuf i));;
    on_nodes (λ s, Some (clist_init_node (FBuf i) s));; on_nodes (clist_push_front FBufList (FBuf i))) s)
    (λ _ s', init_state f e il (pre ++ [i]) s').
Proof.
  intros Hheld Hidx (HR & Hfr & Hb & Hdom & Hok & Hh & Hsp & Hd & Hrd & Hrd0). destruct s as [g e1]. simpl in *.
  assert (0 ≤ i < NBUF) as Hi by (apply buf_idx_elem; rewrite Hidx; apply elem_of_app; right; apply elem_of_cons; by left).
  assert (i ∉ pre) as Hpre.
  { pose proof buf_idx_nodup as Hnd. rewrite Hidx in Hnd. apply NoDup_middle in Hnd as [Hni _].
    intros Hin. apply Hni, elem_of_app. by left. }
  pose proof (Hb i Hi) as Hbi. rewrite decide_False in Hbi by done.
  mstep (upd_buf_run i (cb_set_blkno UINT32_MAX) g e1 blank Hbi). apply runs_bind, runs_env.
  eapply wpr_mono; [apply law_init; [done|exact Hi|by rewrite Hh]|]. intros [] e2 (Hok2 & Hr2 & Hh2 & Hs2 & Hd2).
  set (g1 := set_bufs i _ g). erewrite bind_Done by reflexivity. cbn beta.
  assert (∀ h l, lists (reverse pre) il !! h = Some l → FBuf i ∉ h :: l) as Hfresh.
  { intros h l Hl. unfold lists in Hl. rewrite lookup_insert in Hl. destruct (decide (FBufList = h)) as [<-|].
    - injection Hl as <-. rewrite not_elem_of_cons. split; [done|]. intros (j & [= ->] & Hj)%list_elem_of_fmap.
      by apply Hpre, elem_of_reverse.
    - apply lookup_singleton_Some in Hl as [<- <-]. rewrite not_elem_of_cons. split; [done|].
      by intros (? & ? & _)%list_elem_of_fmap. }
  pose proof (init_rep None _ _ (FBuf i) HR Hfresh) as HR1.
  destruct (push_front_rep None _ _ FBufList (FBuf <$> reverse pre) (FBuf i) HR1 ltac:(done) ltac:(done))
    as (s2 & Hs2' & HR2 & _).
  { split_and!; [unfold clist_init_node; set_solver|done|]. intros h l Hl. by apply (proj2 (proj1 (not_elem_of_cons _ _ _) (Hfresh h l Hl))). }
  match goal with |- context [on_nodes _ ?w] =>
    assert (nodes w = clist_init_node (FBuf i) (fs_nodes g)) as Hx by reflexivity end.
  rewrite (on_nodes_at _ s2) by (rewrite Hx; exact Hs2'). split_and!; simpl; try done.
  - unfold lists in HR2. rewrite insert_insert_eq in HR2. unfold lists. rewrite reverse_snoc. exact HR2.
  - intros j Hj. destruct (decide (j = i)) as [->|Hne].
    + rewrite lookup_insert_eq, decide_True; [done|]. apply elem_of_app. right. apply elem_of_cons. by left.
    + rewrite lookup_insert_ne by done. rewrite Hb by done. f_equal.
      destruct (decide (j ∈ pre)) as [Hin|Hnin]; [rewrite decide_True by (apply elem_of_app; by left); done|].
      rewrite decide_False; [done|]. intros [?|Hji%list_elem_of_singleton]%elem_of_app; done.
  - intros j [b Hj]. destruct (decide (j = i)) as [->|Hne]; [done|]. rewrite lookup_insert_ne in Hj by done.
    apply Hdom. by eexists.
  - congruence.
  - congruence.
  - intros n. by rewrite Hd2, Hd.
  - intros j [Hj| ->%list_elem_of_singleton]%elem_of_app; rewrite Hr2; [|set_solver]. apply elem_of_union. right. by apply Hrd.
  - intros l Hl. rewrite Hr2. apply elem_of_union. right. by apply Hrd0.
Qed.

Lemma init_runs f e il :
  env_ok e → (∀ j, LBuf j ∉ held e) → Rep (fs_nodes f) (lists [] il) →
  (∀ i, bufs f !! i = if decide (0 ≤ i < NBUF) then Some blank else None) →
  (∀ n, blk_ok n → wf_bytes (disk e (sector n))) →
  runs (bcache_init (Sys f e)) (λ _ s', BInv (s_fs s') (held e) (disk e) il ∧ fs_frame f (s_fs s') ∧
    env_ok (s_env s') ∧ held (s_env s') = held e ∧ spinning (s_env s') = spinning e ∧ same_disk e (s_env s') ∧
    (∀ i, 0 ≤ i < NBUF → LBuf i ∈ ready (s_env s')) ∧ (∀ l, l ∈ ready e → l ∈ ready (s_env s')) ∧
    ∀ n, lblk (s_fs s') (disk e) n = disk e (sector n)).
Proof.
  intros Hok Hheld HR Hb Hdk. unfold bcache_init. change (Z.of_nat <$> seq 0 (Z.to_nat NBUF)) with buf_idx.
  eapply runs_mono; [apply (each_wpr _ _ (init_state f e il))|].
  - intros pre i post s Hidx Hs. by apply (init_step f e il pre i post s).
  - split_and!; simpl; try done.
    + intros i Hi. rewrite Hb, decide_True by done. done.
    + intros i [b Hi]. rewrite Hb in Hi. by destruct (decide _).
    + by intros i Hi%elem_of_nil.
  - intros [] [g e1] (HR1 & Hfr & Hb1 & Hdom & Hok1 & Hh & Hsp & Hd & Hrd & Hrd0). simpl in *.
    assert (∀ i b, bufs g !! i = Some b → b = cb_set_blkno UINT32_MAX blank) as Hall.
    { intros i b Hi. pose proof (Hdom i ltac:(by eexists)) as Hr. rewrite Hb1 in Hi by done.
      rewrite decide_True in Hi by by apply buf_idx_elem. by injection Hi. }
    assert (BInv g (held e) (disk e) il) as HB.
    { split; [| | | |done].
      - exists (reverse buf_idx). split; [done|]. intros i. by rewrite elem_of_reverse, buf_idx_elem.
      - intros i. split; [apply Hdom|]. intros Hi. rewrite Hb1 by done. by eexists.
      - intros i j bi bj Hi Hj _ Hne. apply Hall in Hi. subst bi. done.
      - intros i b Hi. apply Hall in Hi. subst b. split; try done. by rewrite decide_False. }
    split_and!; try done; [intros i Hi; by apply Hrd, buf_idx_elem|].
    intros n. apply (lblk_miss g (held e) (disk e) il n HB). intros i b Hi Hv. apply Hall in Hi. by subst b.
Qed.
End Init.

(** ** Whole accesses

    [step f hs dk il d c f2]: from [f], the cache now stands for the blocks
    [d], at most [c] buffers were used up, and the blocks the task holds are
    untouched. *)

Section Accesses.
Context {E : Type} `{EnvLaws E}.
Implicit Types (e : E) (f : fs) (d : Z → bytes).

Definition step f hs dk il d (c : Z) f2 : Prop :=
  BInv f2 hs dk il ∧ fs_frame f f2 ∧ (∀ m, lblk f2 dk m = d m) ∧ spare f - c ≤ spare f2 ∧
  ∀ j, LBuf j ∈ hs → bufs f2 !! j = bufs f !! j.

Definition upd d (n : Z) (b : bytes) : Z → bytes := λ m, if decide (m = n) then b else d m.

Lemma upd_eq d n b : upd d n b n = b.
Proof. unfold upd. by rewrite decide_True. Qed.
Lemma upd_ne d n b m : m ≠ n → upd d n b m = d m.
Proof. intros. unfold upd. by rewrite decide_False. Qed.

Lemma step_refl f hs dk il : BInv f hs dk il → step f hs dk il (lblk f dk) 0 f.
Proof. intros. split_and!; (done || lia). Qed.

Lemma step_trans f1 f2 f3 hs dk il d1 d2 c1 c2 :
  step f1 hs dk il d1 c1 f2 → step f2 hs dk il d2 c2 f3 → step f1 hs dk il d2 (c1 + c2) f3.
Proof.
  intros (_ & Hf1 & _ & Hs1 & Hb1) (HB & Hf2 & Hl & Hs2 & Hb2). split_and!; [done|by eapply fs_frame_trans|done|lia|].
  intros j Hj. by rewrite Hb2, Hb1.
Qed.

Lemma step_weaken f hs dk il d d' c c' f2 :
  step f hs dk il d c f2 → (∀ m, d m = d' m) → c ≤ c' → step f hs dk il d' c' f2.
Proof. intros (? & ? & Hl & ? & ?) Hd Hc. split_and!; try done; [intros m; by rewrite Hl|lia]. Qed.

Lemma step_unheld f hs dk il d c f2 n : step f hs dk il d c f2 → unheld f hs n → unheld f2 hs n.
Proof. intros (_ & _ & _ & _ & Hb) Hu i b Hi Hbi. rewrite Hb in Hbi by done. by apply (Hu i b). Qed.

(** Block [n] is in the hands of the task, in buffer [i], and since the state
    [f] the blocks have become [d] at the cost of [c] buffers. *)
Definition holding f hs dk il d (c n i : Z) f1 : Prop :=
  (LBuf i ∉ hs) ∧ BInv f1 ({[LBuf i]} ∪ hs) dk il ∧
  (∃ b, bufs f1 !! i = Some b ∧ cb_blkno b = n ∧ is_valid_locked b = true ∧ cb_buf b = d n ∧
    spare f - c - (if is_dirty_locked b then 0 else 1) ≤ spare f1) ∧
  (∀ m, lblk f1 dk m = d m) ∧ fs_frame f f1 ∧ ∀ j, LBuf j ∈ hs → bufs f1 !! j = bufs f !! j.

Lemma got_holding f hs dk il n i f1 : got f hs dk il n i f1 → holding f hs dk il (lblk f dk) 0 n i f1.
Proof.
  intros (Hi & HB & (b & ? & ? & ? & ? & Hs) & ? & ? & ?). split_and!; try done. exists b. split_and!; try done. lia.
Qed.

(** Work on other blocks while one is held. *)
Lemma holding_step f hs dk il d c n i f1 d2 c2 f2 :
  holding f hs dk il d c n i f1 → step f1 ({[LBuf i]} ∪ hs) dk il d2 c2 f2 → d2 n = d n →
  holding f hs dk il d2 (c + c2) n i f2.
Proof.
  intros (Hi & HB & (b & Hb & Hbn & Hv & Hc & Hs) & Hl & Hf & Hk) (HB2 & Hf2 & Hl2 & Hs2 & Hk2) Hd.
  split_and!; [done|done| |done|by eapply fs_frame_trans|].
  - exists b. rewrite Hk2 by set_solver. split_and!; try done; [congruence|lia].
  - intros j Hj. rewrite Hk2 by set_solver. by apply Hk.
Qed.

(** A block that is held, then released. *)
Lemma holding_release f f1 e hs dk il d c n i :
  at_env e ({[LBuf i]} ∪ hs) None dk → holding f hs dk il d c n i f1 →
  runs (bcache_release i (Sys f1 e)) (λ _ s', at_env (s_env s') hs None dk ∧ step f hs dk il d c (s_fs s')).
Proof.
  intros He (Hi & HB & (b & Hb & _ & _ & _ & Hs) & Hl & Hf & Hk).
  assert (({[LBuf i]} ∪ hs) ∖ {[LBuf i]} = hs) as Eh by set_solver.
  eapply runs_mono; [apply (release_runs f1 e _ dk il i He HB); [by eapply buf_range|set_solver]|].
  intros _ s' (e' & <- & He' & HB' & Hl' & Hf' & Hk' & b' & Hb' & _ & Hs'). rewrite Eh in *.
  assert (b' = b) as -> by congruence. split; [done|]. split_and!; [done|by eapply fs_frame_trans| | |].
  - intros m. by rewrite Hl', Hl.
  - destruct (is_dirty_locked b); lia.
  - intros j Hj. rewrite Hk', Hk; [done|done|]. by intros ->.
Qed.

(** A block that is held, given new contents, marked dirty and released. *)
Lemma holding_write {A} (k : M (sys E) A) (Q : A → sys E → Prop) f f1 e hs dk il d c n i b :
  at_env e ({[LBuf i]} ∪ hs) None dk → holding f hs dk il d c n i f1 → wf_bytes b →
  (∀ s', at_env (s_env s') hs None dk → step f hs dk il (upd d n b) (c + 1) (s_fs s') → runs (k s') Q) →
  runs ((upd_buf i (cb_set_buf b);; bcache_mark_dirty i;; bcache_release i;; k) (Sys f1 e)) Q.
Proof.
  intros He (Hi & HB & (b0 & Hb & Hbn & Hv & _ & Hs) & Hl & Hf & Hk) Hc HQ.
  mstep (upd_buf_run i (cb_set_buf b) f1 e b0 Hb). unfold bcache_mark_dirty.
  mstep (upd_buf_run i set_dirty_locked _ e _ (set_bufs_lookup i (cb_set_buf b b0) f1)). rewrite set_bufs_twice.
  destruct (write_held f1 _ dk il i b0 b HB Hb ltac:(set_solver) Hv Hc) as (HB2 & Hl2 & Hf2 & Hs2).
  assert (({[LBuf i]} ∪ hs) ∖ {[LBuf i]} = hs) as Eh by set_solver.
  apply runs_bind. eapply runs_mono; [apply (release_runs _ e _ dk il i He HB2); [by eapply (buf_range f1)|set_solver]|].
  intros _ s' (e' & <- & He' & HB' & Hl' & Hf' & Hk' & b' & Hb' & _ & Hs'). rewrite Eh in *.
  apply HQ; [done|]. split_and!; [done| | | |].
  - eapply fs_frame_trans; [exact Hf|]. eapply fs_frame_trans; [exact Hf2|done].
  - intros m. rewrite Hl', Hl2, Hbn. unfold upd. destruct (decide (m = n)); [done|apply Hl].
  - destruct (is_dirty_locked b'), (is_dirty_locked b0); lia.
  - intros j Hj. rewrite Hk' by by intros ->. rewrite set_bufs_other by by intros ->. by apply Hk.
Qed.

(** The same for a block just read. *)
Lemma release_clean f f1 e hs dk il n i :
  at_env e ({[LBuf i]} ∪ hs) None dk → got f hs dk il n i f1 →
  runs (bcache_release i (Sys f1 e)) (λ _ s', at_env (s_env s') hs None dk ∧ step f hs dk il (lblk f dk) 0 (s_fs s')).
Proof. intros He Hg. by apply (holding_release f f1 e hs dk il _ _ n), got_holding. Qed.

Lemma release_dirty {A} (k : M (sys E) A) (Q : A → sys E → Prop) f f1 e hs dk il n i b :
  at_env e ({[LBuf i]} ∪ hs) None dk → got f hs dk il n i f1 → wf_bytes b →
  (∀ s', at_env (s_env s') hs None dk → step f hs dk il (upd (lblk f dk) n b) 1 (s_fs s') → runs (k s') Q) →
  runs ((upd_buf i (cb_set_buf b);; bcache_mark_dirty i;; bcache_release i;; k) (Sys f1 e)) Q.
Proof. intros He Hg Hb HQ. by apply (holding_write k Q f f1 e hs dk il (lblk f dk) 0 n i b He (got_holding _ _ _ _ _ _ _ Hg)). Qed.

(** The cache does not look at the inode slots. *)
Lemma step_slots X f hs dk il d c f2 :
  step f hs dk il d c f2 → step (with_islots X f) hs dk il d c (with_islots X f2).
Proof.
  intros (HB & (_ & Hft & Hsb & Hr & Hh & Hd) & Hl & Hs & Hk). split_and!; try done.
  by destruct HB as [? ? ? ? ?].
Qed.
Lemma binv_slots X f hs dk il : BInv f hs dk il → BInv (with_islots X f) hs dk il.
Proof. by intros []. Qed.
End Accesses.
