(* ===== verification/Mmio.v ===== *)
(** * Device registers (include/lib/mmio.h)

    An access to a register, of one, two, four or eight bytes at an address.
    What a device answers is not the kernel's to decide: in the kernel's state
    the answers to come are a list, the same for all devices and in the order
    in which the code asks, and the writes are recorded.  A statement about
    every such list is one about every device. *)

From S2P Require Import Prelude.

Class Mmio (D : Type) := {
  mmio_read : Z → Z → M D Z;
  mmio_write : Z → Z → Z → M D unit;
}.

Record mmio := MmioSt { mm_in : list Z; mm_out : list (Z * Z * Z) }.

(** A device that has no answer left never answers. *)
#[export] Instance mmio_oracle : Mmio mmio := {|
  mmio_read w a := λ s, match mm_in s with
    | [] => NoFuel
    | v :: vs => Done (wrap (8 * w) v) (MmioSt vs (mm_out s))
    end;
  mmio_write w a v := modify (λ s, MmioSt (mm_in s) (mm_out s ++ [(w, a, wrap (8 * w) v)]));
|}.

Section Accessors.
Context {D : Type} `{Mmio D}.
Definition MMIO8 (a : Z) : M D Z := mmio_read 1 a.
Definition MMIO16 (a : Z) : M D Z := mmio_read 2 a.
Definition MMIO32 (a : Z) : M D Z := mmio_read 4 a.
Definition MMIO64 (a : Z) : M D Z := mmio_read 8 a.
Definition MMIO8_set (a v : Z) : M D unit := mmio_write 1 a v.
Definition MMIO16_set (a v : Z) : M D unit := mmio_write 2 a v.
Definition MMIO32_set (a v : Z) : M D unit := mmio_write 4 a v.
Definition MMIO64_set (a v : Z) : M D unit := mmio_write 8 a v.
End Accessors.
