(* ===== verification/Uart.v ===== *)
(** * The receive buffer of the uart (kernel/drivers/uart/ns16550.c)

    The ring of received characters between the daemon that fills it and the
    tasks that read it, and that it is a queue of at most 127 characters. *)

From S2P Require Import Prelude.

Definition UART_RX_BUFFER_SIZE : Z := 128.

Record uart_ring_buffer := Ring { rb_buf : list Z; rb_head : Z; rb_tail : Z }.
Definition ring0 : uart_ring_buffer := Ring (replicate (Z.to_nat UART_RX_BUFFER_SIZE) 0) 0 0.

Definition buffer_empty (b : uart_ring_buffer) : bool := rb_head b =? rb_tail b.
Definition buffer_full (b : uart_ring_buffer) : bool := u32 (rb_head b + 1) mod UART_RX_BUFFER_SIZE =? rb_tail b.

(** An index out of the buffer is an invalid access. *)
Definition buffer_put (c : Z) : M uart_ring_buffer Z :=
  b ← get;
  if buffer_full b then mret (- ENOSPC) else
  _ ← of_opt (rb_buf b !! Z.to_nat (rb_head b));
  modify (λ b, Ring (<[Z.to_nat (rb_head b) := c]> (rb_buf b)) (u32 (rb_head b + 1) mod UART_RX_BUFFER_SIZE) (rb_tail b));;
  mret 0.

Definition buffer_get : M uart_ring_buffer Z :=
  b ← get;
  if negb (buffer_empty b) then
    c ← of_opt (rb_buf b !! Z.to_nat (rb_tail b));
    modify (λ b, Ring (rb_buf b) (rb_head b) (u32 (rb_tail b + 1) mod UART_RX_BUFFER_SIZE));;
    mret c
  else mret 0.

(** ** The characters in the ring, oldest first *)

Definition ring_len (b : uart_ring_buffer) : Z := (rb_head b - rb_tail b) mod UART_RX_BUFFER_SIZE.
Definition ring_chars (b : uart_ring_buffer) : list Z :=
  (λ i, default 0 (rb_buf b !! Z.to_nat ((rb_tail b + i) mod UART_RX_BUFFER_SIZE))) <$> seqZ 0 (ring_len b).

Definition ring_ok (b : uart_ring_buffer) : Prop :=
  length (rb_buf b) = Z.to_nat UART_RX_BUFFER_SIZE ∧ 0 ≤ rb_head b < UART_RX_BUFFER_SIZE ∧ 0 ≤ rb_tail b < UART_RX_BUFFER_SIZE.

Section Ring.
Implicit Types b : uart_ring_buffer.
Abbreviation N := UART_RX_BUFFER_SIZE.

Lemma ring_len_range b : 0 ≤ ring_len b < N.
Proof. by apply Z.mod_pos_bound. Qed.

Lemma ring_next x : 0 ≤ x < N → u32 (x + 1) mod N = (x + 1) mod N.
Proof. intros. rewrite (wrap_small 32) by (unfold N in *; lia). done. Qed.

Lemma length_ring_chars b : Z.of_nat (length (ring_chars b)) = ring_len b.
Proof. unfold ring_chars. rewrite length_fmap, length_seqZ. pose proof (ring_len_range b). lia. Qed.

(** The tests on the two indexes are tests on the number of characters. *)
Lemma ring_full b : ring_ok b → buffer_full b = bool_decide (ring_len b = N - 1).
Proof.
  intros (_ & Hh & Ht). unfold buffer_full, ring_len. rewrite ring_next by done. unfold N in *.
  apply eq_bool_prop_intro. rewrite bool_decide_spec, Is_true_true, Z.eqb_eq. split; intros E.
  - rewrite <- E. rewrite Zminus_mod_idemp_r. replace (rb_head b - (rb_head b + 1)) with (-1) by lia. done.
  - pose proof (Z.div_mod (rb_head b - rb_tail b) 128 ltac:(lia)) as D. rewrite E in D.
    replace (rb_head b + 1) with (rb_tail b + ((rb_head b - rb_tail b) / 128 + 1) * 128) by lia.
    rewrite Z.mod_add by lia. by apply Z.mod_small.
Qed.
Lemma ring_is_empty b : ring_ok b → buffer_empty b = bool_decide (ring_len b = 0).
Proof.
  intros (_ & Hh & Ht). unfold buffer_empty, ring_len. unfold N in *.
  apply eq_bool_prop_intro. rewrite bool_decide_spec, Is_true_true, Z.eqb_eq. split; intros E.
  - by rewrite E, Z.sub_diag.
  - pose proof (Z.div_mod (rb_head b - rb_tail b) 128 ltac:(lia)) as D. rewrite E in D.
    assert (-1 < (rb_head b - rb_tail b) / 128 < 1) by lia. lia.
Qed.

Lemma ring_put_chars b c :
  ring_ok b → ring_len b ≠ N - 1 →
  let b' := Ring (<[Z.to_nat (rb_head b) := c]> (rb_buf b)) ((rb_head b + 1) mod N) (rb_tail b) in
  ring_ok b' ∧ ring_chars b' = ring_chars b ++ [c].
Proof.
  intros (Hl & Hh & Ht) Hf b'. pose proof (ring_len_range b) as Hr. unfold N in *.
  assert (Hlen : ring_len b' = ring_len b + 1).
  { unfold ring_len, N in *. simpl. rewrite Zminus_mod_idemp_l.
    replace (rb_head b + 1 - rb_tail b) with ((rb_head b - rb_tail b) + 1) by lia.
    rewrite <- Z.add_mod_idemp_l by lia. apply Z.mod_small. lia. }
  assert (Hhd : (rb_tail b + ring_len b) mod 128 = rb_head b).
  { unfold ring_len, N. rewrite Z.add_mod_idemp_r by lia. replace (_ + _) with (rb_head b) by lia. by apply Z.mod_small. }
  pose proof (Z.mod_pos_bound (rb_head b + 1) 128 ltac:(lia)).
  split; [unfold ring_ok, N; simpl; split_and!; [by rewrite length_insert|lia..]|].
  unfold ring_chars. rewrite Hlen, seqZ_app by lia. rewrite fmap_app. f_equal.
  - apply list_fmap_ext. intros j i [Ei Hj]%lookup_seqZ. subst i. unfold b'. cbn [rb_buf rb_tail]. unfold N. rewrite list_lookup_insert_ne; [done|].
    intros E%Z2Nat.inj; [|lia|by apply Z.mod_pos_bound]. rewrite <- Hhd in E.
    assert (E' : (ring_len b - (0 + Z.of_nat j)) mod 128 = 0).
    { replace (_ - _) with ((rb_tail b + ring_len b) - (rb_tail b + (0 + Z.of_nat j))) by lia.
      by rewrite Zminus_mod, E, Z.sub_diag. }
    rewrite Z.mod_small in E' by lia. lia.
  - unfold b'. cbn -[Z.modulo insert lookup Z.to_nat]. rewrite !Z.add_0_l. unfold N.
    change (seqZ (ring_len b) 1) with [ring_len b]. rewrite list_fmap_singleton, Hhd, list_lookup_insert_eq by (rewrite Hl; unfold N; lia). done.
Qed.

Lemma ring_get_chars b :
  ring_ok b → ring_len b ≠ 0 →
  let b' := Ring (rb_buf b) (rb_head b) ((rb_tail b + 1) mod N) in
  ∃ c, rb_buf b !! Z.to_nat (rb_tail b) = Some c ∧ ring_ok b' ∧ ring_chars b = c :: ring_chars b'.
Proof.
  intros (Hl & Hh & Ht) Hf b'. pose proof (ring_len_range b) as Hr. unfold N in *.
  destruct (lookup_lt_is_Some_2 (rb_buf b) (Z.to_nat (rb_tail b))) as [c Hc]; [rewrite Hl; unfold N; lia|].
  pose proof (Z.mod_pos_bound (rb_tail b + 1) 128 ltac:(lia)).
  exists c. split; [done|]. split; [unfold ring_ok, N; simpl; split_and!; [done|lia..]|].
  assert (Hlen : ring_len b' = ring_len b - 1).
  { unfold ring_len, N in *. simpl. rewrite Zminus_mod_idemp_r.
    replace (rb_head b - (rb_tail b + 1)) with ((rb_head b - rb_tail b) - 1) by lia.
    rewrite <- Zminus_mod_idemp_l. apply Z.mod_small. lia. }
  unfold ring_chars. rewrite Hlen, seqZ_cons by lia. rewrite fmap_cons. f_equal.
  - unfold N. rewrite Z.add_0_r, (Z.mod_small (rb_tail b)) by lia. by rewrite Hc.
  - change (Z.succ 0) with (1 + 0). rewrite <- (fmap_add_seqZ 1 0), <- list_fmap_compose.
    replace (Z.pred (ring_len b)) with (ring_len b - 1) by lia.
    apply list_fmap_ext. intros j i _. unfold compose, N. simpl. rewrite Z.add_mod_idemp_l by lia. by rewrite Z.add_assoc.
Qed.
End Ring.

(** ** The ring is a bounded queue *)

Inductive rop := RPut (c : Z) | RGet.
Definition rop_run (o : rop) : M uart_ring_buffer Z := match o with RPut c => buffer_put c | RGet => buffer_get end.

(** A queue of at most 127 characters: one that does not fit is refused, and
    reading an empty queue gives 0. *)
Definition rop_spec (o : rop) (l : list Z) : Z * list Z :=
  match o with
  | RPut c => if decide (Z.of_nat (length l) = UART_RX_BUFFER_SIZE - 1) then (- ENOSPC, l) else (0, l ++ [c])
  | RGet => match l with [] => (0, []) | c :: l => (c, l) end
  end.

Fixpoint rops_run (os : list rop) : M uart_ring_buffer (list Z) :=
  match os with [] => mret [] | o :: os => r ← rop_run o; rs ← rops_run os; mret (r :: rs) end.
Fixpoint rops_spec (os : list rop) (l : list Z) : list Z * list Z :=
  match os with
  | [] => ([], l)
  | o :: os => let '(r, l) := rop_spec o l in let '(rs, l) := rops_spec os l in (r :: rs, l)
  end.

Lemma rop_refines o b : ring_ok b →
  ∃ b', rop_run o b = Done (rop_spec o (ring_chars b)).1 b' ∧ ring_ok b' ∧ ring_chars b' = (rop_spec o (ring_chars b)).2.
Proof.
  intros Hb. destruct o as [c|]; cbn -[buffer_put buffer_get Z.modulo UART_RX_BUFFER_SIZE].
  - unfold buffer_put, mbind, M_bind. cbn -[buffer_full Z.modulo UART_RX_BUFFER_SIZE insert].
    rewrite (ring_full b Hb), length_ring_chars. case_bool_decide as Hf.
    + rewrite decide_True by done. by exists b.
    + rewrite decide_False by done. pose proof Hb as (Hl & Hh & _).
      destruct (lookup_lt_is_Some_2 (rb_buf b) (Z.to_nat (rb_head b))) as [x Hx]; [unfold UART_RX_BUFFER_SIZE in *; lia|].
      rewrite Hx. cbn -[Z.modulo UART_RX_BUFFER_SIZE insert]. rewrite ring_next by done.
      eexists. split; [done|]. by apply ring_put_chars.
  - unfold buffer_get, mbind, M_bind. cbn -[buffer_empty Z.modulo UART_RX_BUFFER_SIZE].
    rewrite (ring_is_empty b Hb). case_bool_decide as He; simpl.
    + exists b. assert (E : ring_chars b = []) by (apply length_zero_iff_nil; pose proof (length_ring_chars b); lia).
      by rewrite E.
    + destruct (ring_get_chars b Hb He) as (c & Hc & Hok & E). rewrite Hc.
      cbn -[Z.modulo UART_RX_BUFFER_SIZE]. pose proof Hb as (_ & _ & Ht). rewrite ring_next by done. rewrite E. by eexists.
Qed.

(** C36: the receive buffer is a queue: whatever puts and gets are made on it,
    each returns what it would on a bounded queue of characters, and the
    characters left are those of that queue in the same order. *)
Theorem uart_ring_is_queue (os : list rop) (b : uart_ring_buffer) :
  ring_ok b →
  ∃ b', rops_run os b = Done (rops_spec os (ring_chars b)).1 b' ∧ ring_ok b' ∧
    ring_chars b' = (rops_spec os (ring_chars b)).2.
Proof.
  revert b. induction os as [|o os IH]; intros b Hb; [by exists b|].
  destruct (rop_refines o b Hb) as (b1 & E1 & Hb1 & C1). destruct (IH b1 Hb1) as (b2 & E2 & Hb2 & C2).
  exists b2. cbn [rops_run rops_spec]. mstep E1. mstep E2. rewrite C1 in C2. rewrite C1.
  destruct (rop_spec o (ring_chars b)) as [r l]. cbn [fst snd] in *.
  destruct (rops_spec os l) as [rs l']. done.
Qed.

(** 130 characters arrive and two are read: the first two, and three are lost. *)
Lemma uart_ring_is_queue_witness :
  ∃ b, rops_run ((RPut <$> seqZ 1 130) ++ [RGet; RGet]) ring0 = Done (replicate 127 0 ++ replicate 3 (- ENOSPC) ++ [1; 2]) b ∧
    ring_chars b = seqZ 3 125.
Proof.
  destruct (uart_ring_is_queue ((RPut <$> seqZ 1 130) ++ [RGet; RGet]) ring0) as (b & E & _ & C); [done|].
  exists b. rewrite E, C. split; vm_compute; reflexivity.
Defined.
