(* ===== verification/Pci.v ===== *)
(** * PCI configuration (kernel/drivers/pci/pci.c)

    The registers are those of the devices, behind the interface of Mmio.v.  [BarSpec] says what
    the PCI specification promises of a base address register: some low bits
    are hard-wired to the kind of the register and to zero, the others hold
    what is written.  Sizing a register finds how many are hard-wired, leaves
    the register as it was, and an address assigned to it is read back. *)

From S2P Require Import Prelude Pages Mmio.

Definition PCI_ECAM_BASE_ADDRESS : Z := 0x30000000.
Definition PCI_ECAM_SIZE : Z := 2 ^ 20.
Definition PCI_BUS_SHIFT : Z := 20.
Definition PCI_DEVICE_SHIFT : Z := 15.
Definition PCI_FUNC_SHIFT : Z := 12.
Definition PCI_VENDOR_ID : Z := 0x00.
Definition PCI_DEV_ID : Z := 0x02.
Definition PCI_CMD : Z := 0x04.
Definition PCI_STATUS : Z := 0x06.
Definition PCI_BAR0 : Z := 0x10.
Definition PCI_CAP_PTR : Z := 0x34.
Definition PCI_CMD_MMIO : Z := 2.
Definition PCI_CMD_MASTER : Z := 4.
Definition PCI_STATUS_CAP_LIST : Z := 16.
Definition PCI_BAR_COUNT : Z := 6.
Definition PCI_BAR_FLAG_MASK : Z := 15.
Definition PCI_BAR_IO : Z := 1.
Definition PCI_BAR_TYPE_MASK : Z := 6.
Definition PCI_BAR_TYPE_64 : Z := 4.
Definition PCI_CAP_RESERVED : Z := 3.

Record pci_device := PciDevice { ecam_addr : Z; cap_ptr : Z }.

Section Pci.
Context {D : Type} `{Mmio D}.

Definition pci_read_config8 (dev_addr offset : Z) : M D Z := mmio_read 1 (dev_addr + offset).
Definition pci_read_config16 (dev_addr offset : Z) : M D Z := mmio_read 2 (dev_addr + offset).
Definition pci_read_config32 (dev_addr offset : Z) : M D Z := mmio_read 4 (dev_addr + offset).
Definition pci_write_config16 (dev_addr offset val : Z) : M D unit := mmio_write 2 (dev_addr + offset) val.
Definition pci_write_config32 (dev_addr offset val : Z) : M D unit := mmio_write 4 (dev_addr + offset) val.

Definition pci_make_ecam_addr (bus dev func offset : Z) : Z :=
  Z.lor (Z.lor (Z.lor (Z.lor PCI_ECAM_BASE_ADDRESS (u32 (Z.shiftl bus PCI_BUS_SHIFT))) (u32 (Z.shiftl dev PCI_DEVICE_SHIFT)))
    (u32 (Z.shiftl func PCI_FUNC_SHIFT))) offset.

Definition has_cap_linked_list (dev_ecam : Z) : M D bool :=
  status ← pci_read_config16 dev_ecam PCI_STATUS;
  mret (has status PCI_STATUS_CAP_LIST).

Fixpoint find_device_loop (vendor_id device_id : Z) (devs : list Z) : M D (Z * option pci_device) :=
  match devs with
  | [] => mret (- ENODEV, None)
  | dev :: devs =>
    let ecam_addr := pci_make_ecam_addr 0 dev 0 0 in
    v_id ← pci_read_config16 ecam_addr PCI_VENDOR_ID;
    if v_id =? 0xFFFF then find_device_loop vendor_id device_id devs else
    d_id ← pci_read_config16 ecam_addr PCI_DEV_ID;
    if (v_id =? vendor_id) && (d_id =? device_id) then
      l ← has_cap_linked_list ecam_addr;
      cap_ptr ← (if (l : bool) then p ← pci_read_config8 ecam_addr PCI_CAP_PTR; mret (Z.ldiff p PCI_CAP_RESERVED) else mret 0);
      mret (0, Some (PciDevice (u32 ecam_addr) cap_ptr))
    else find_device_loop vendor_id device_id devs
  end.
Definition pci_find_device (vendor_id device_id : Z) : M D (Z * option pci_device) :=
  find_device_loop vendor_id device_id (seqZ 0 32).

Definition pci_enable_device (dev : pci_device) : M D unit :=
  cmd ← pci_read_config16 (ecam_addr dev) PCI_CMD;
  pci_write_config16 (ecam_addr dev) PCI_CMD (Z.lor cmd PCI_CMD_MMIO).
Definition pci_set_master (dev : pci_device) : M D unit :=
  cmd ← pci_read_config16 (ecam_addr dev) PCI_CMD;
  pci_write_config16 (ecam_addr dev) PCI_CMD (Z.lor cmd PCI_CMD_MASTER).

Definition pci_bar_reg (n : Z) : Z := PCI_BAR0 + 4 * n.
Definition pci_bar_is_64 (bar : Z) : bool := Z.land bar PCI_BAR_TYPE_MASK =? PCI_BAR_TYPE_64.

(** The size is returned as a signed number. *)
Definition pci_get_bar_size (dev : pci_device) (n : Z) : M D Z :=
  if PCI_BAR_COUNT <=? n then mret (- EINVAL) else
  let ecam_addr := ecam_addr dev in
  let reg := pci_bar_reg n in
  bar ← pci_read_config32 ecam_addr reg;
  if has bar PCI_BAR_IO then mret (- EIO) else
  pci_write_config32 ecam_addr reg 0xFFFFFFFF;;
  m ← pci_read_config32 ecam_addr reg;
  let mask := Z.ldiff m PCI_BAR_FLAG_MASK in
  if mask =? 0 then pci_write_config32 ecam_addr reg bar;; mret (- EINVAL) else
  pci_write_config32 ecam_addr reg bar;;
  if pci_bar_is_64 bar then
    if n =? PCI_BAR_COUNT - 1 then mret (- EINVAL) else
    let reg_hi := pci_bar_reg (n + 1) in
    bar_hi ← pci_read_config32 ecam_addr reg_hi;
    pci_write_config32 ecam_addr reg_hi 0xFFFFFFFF;;
    hi_m ← pci_read_config32 ecam_addr reg_hi;
    pci_write_config32 ecam_addr reg_hi bar_hi;;
    mret (s64 (u64 (Z.lnot (Z.lor mask (Z.shiftl hi_m 32))) + 1))
  else mret (s64 (u64 (Z.lnot (Z.lor mask (Z.shiftl UINT32_MAX 32))) + 1)).

Definition pci_set_bar (dev : pci_device) (n addr : Z) : M D Z :=
  if PCI_BAR_COUNT <=? n then mret (- EINVAL) else
  let ecam_addr := ecam_addr dev in
  let reg := pci_bar_reg n in
  bar ← pci_read_config32 ecam_addr reg;
  if has bar PCI_BAR_IO then mret (- EIO) else
  pci_write_config32 ecam_addr reg (u32 addr);;
  if pci_bar_is_64 bar then
    if n =? PCI_BAR_COUNT - 1 then mret (- EINVAL) else
    pci_write_config32 ecam_addr (pci_bar_reg (n + 1)) (u32 (Z.shiftr addr 32));;
    mret 0
  else mret 0.

Definition pci_bar_addr (dev : pci_device) (n : Z) : M D (Z * Z) :=
  if PCI_BAR_COUNT <=? n then mret (- EINVAL, 0) else
  bar ← pci_read_config32 (ecam_addr dev) (pci_bar_reg n);
  if has bar PCI_BAR_IO then mret (- EIO, 0) else
  let res := Z.ldiff bar PCI_BAR_FLAG_MASK in
  if pci_bar_is_64 bar then
    if n =? PCI_BAR_COUNT - 1 then mret (- EINVAL, 0) else
    hi ← pci_read_config32 (ecam_addr dev) (pci_bar_reg (n + 1));
    mret (0, Z.lor res (Z.shiftl hi 32))
  else mret (0, res).

(** The capabilities are linked by offsets of one byte, multiples of four: a
    list without a cycle has less than 64.  A null [prev] starts from the
    first one, and a null result means there is none. *)
Fixpoint find_cap_loop (fuel : nat) (dev : pci_device) (cap_id cap_off : Z) : M D Z :=
  match fuel with
  | O => nofuel
  | S fuel =>
    if cap_off =? 0 then mret NULL else
    let curr := ecam_addr dev + cap_off in
    cap_vndr ← mmio_read 1 curr;
    if cap_vndr =? cap_id then mret curr else
    cap_next ← mmio_read 1 (curr + 1);
    find_cap_loop fuel dev cap_id (Z.ldiff cap_next PCI_CAP_RESERVED)
  end.
Definition pci_find_cap (dev : pci_device) (prev cap_id : Z) : M D Z :=
  cap_off ← (if prev =? NULL then mret (cap_ptr dev)
             else n ← mmio_read 1 (prev + 1); mret (Z.ldiff n PCI_CAP_RESERVED));
  find_cap_loop 64 dev cap_id cap_off.
End Pci.

(** ** What a device promises of its base address registers *)

(** [bar_val d r] is what the register at [r] holds; its low [bar_fixed r] bits
    are hard-wired to [bar_flags r]. *)
Class BarSpec (D : Type) `{Mmio D} (dev : pci_device) := {
  bar_val : D → Z → Z;
  bar_fixed : Z → Z;
  bar_flags : Z → Z;
  bar_read : ∀ d r, mmio_read 4 (ecam_addr dev + r) d = Done (bar_val d r) d;
  bar_write : ∀ d r v, 0 ≤ v < 2 ^ 32 → ∃ d', mmio_write 4 (ecam_addr dev + r) v d = Done tt d' ∧
    bar_val d' r = v / 2 ^ bar_fixed r * 2 ^ bar_fixed r + bar_flags r ∧
    ∀ r', r' ≠ r → bar_val d' r' = bar_val d r';
}.

Definition bar_holds `{BarSpec D dev} (d : D) (r : Z) : Prop :=
  0 ≤ bar_val d r < 2 ^ 32 ∧ bar_val d r = bar_val d r / 2 ^ bar_fixed r * 2 ^ bar_fixed r + bar_flags r.

(** A memory register of [2 ^ k] bytes: of 32 bits, or of 64 whose upper half
    is the next register. *)
Record mem_bar `{BarSpec D dev} (wide : bool) (k n : Z) (d : D) : Prop := {
  mb_n : 0 ≤ n < PCI_BAR_COUNT - (if wide then 1 else 0);
  mb_k : 4 ≤ k < 32;
  mb_fixed : bar_fixed (pci_bar_reg n) = k;
  mb_flags : 0 ≤ bar_flags (pci_bar_reg n) < 16;
  mb_mem : has (bar_flags (pci_bar_reg n)) PCI_BAR_IO = false;
  mb_wide : pci_bar_is_64 (bar_flags (pci_bar_reg n)) = wide;
  mb_high : wide = true → bar_fixed (pci_bar_reg (n + 1)) = 0 ∧ bar_flags (pci_bar_reg (n + 1)) = 0;
  mb_low : bar_holds d (pci_bar_reg n);
  mb_up : wide = true → bar_holds d (pci_bar_reg (n + 1));
}.

(** ** Bits of a register *)

Lemma land_low x m : 0 ≤ m < 16 → Z.land x m = Z.land (x mod 16) m.
Proof.
  intros Hm. change 16 with (2 ^ 4). rewrite <- (Z.land_ones x 4) by lia.
  rewrite <- Z.land_assoc. f_equal. rewrite Z.land_comm, Z.land_ones by lia. symmetry. by apply Z.mod_small.
Qed.

Lemma ldiff_low x : Z.ldiff x PCI_BAR_FLAG_MASK = x / 16 * 16.
Proof. change PCI_BAR_FLAG_MASK with (Z.ones 4). by rewrite Z.ldiff_ones_r, Z.shiftl_mul_pow2, Z.shiftr_div_pow2 by lia. Qed.

Lemma pow_split k : 4 ≤ k → 2 ^ k = 16 * 2 ^ (k - 4).
Proof. intros ?. change 16 with (2 ^ 4). rewrite <- Z.pow_add_r by lia. f_equal. lia. Qed.

(** The multiple of [2 ^ k] and the flags of [q * 2 ^ k + f]. *)
Lemma bar_low q k f : 4 ≤ k → 0 ≤ f < 16 → (q * 2 ^ k + f) mod 16 = f.
Proof.
  intros Hk Hf. rewrite (pow_split k Hk). replace (_ + f) with (f + q * 2 ^ (k - 4) * 16) by lia.
  rewrite Z.mod_add by lia. by apply Z.mod_small.
Qed.
Lemma bar_high q k f : 4 ≤ k → 0 ≤ f < 16 → Z.ldiff (q * 2 ^ k + f) PCI_BAR_FLAG_MASK = q * 2 ^ k.
Proof.
  intros Hk Hf. rewrite ldiff_low. pose proof (Z.div_mod (q * 2 ^ k + f) 16 ltac:(lia)) as E.
  rewrite bar_low in E by done. lia.
Qed.

Lemma lor_add_shift a b : 0 ≤ a < 2 ^ 32 → 0 ≤ b → Z.lor a (Z.shiftl b 32) = a + b * 2 ^ 32.
Proof.
  intros Ha Hb. rewrite <- Z.add_nocarry_lor; [by rewrite Z.shiftl_mul_pow2 by lia|].
  apply Z.bits_inj'. intros i Hi. rewrite Z.land_spec, Z.bits_0, Z.shiftl_spec by lia.
  destruct (decide (i < 32)); [rewrite (Z.testbit_neg_r b) by lia; apply andb_false_r|].
  rewrite (Z.bits_above_log2 a); [done|lia|]. destruct (decide (a = 0)) as [->|]; [simpl; lia|].
  apply Z.log2_lt_pow2; [lia|]. apply Z.lt_le_trans with (2 ^ 32); [lia|]. apply Z.pow_le_mono_r; lia.
Qed.

(** The all-ones pattern keeps the bits above the hard-wired ones. *)
Lemma ones_kept k : 0 ≤ k ≤ 32 → 0xFFFFFFFF / 2 ^ k * 2 ^ k = 2 ^ 32 - 2 ^ k.
Proof.
  intros Hk. assert (E : 2 ^ 32 = 2 ^ (32 - k) * 2 ^ k) by (rewrite <- Z.pow_add_r by lia; f_equal; lia).
  assert (0 < 2 ^ k) by (apply Z.pow_pos_nonneg; lia).
  replace 0xFFFFFFFF with ((2 ^ k - 1) + (2 ^ (32 - k) - 1) * 2 ^ k) by lia.
  rewrite Z.div_add, Z.div_small by lia. lia.
Qed.

Lemma size_of_mask k : 4 ≤ k < 32 → s64 (u64 (Z.lnot (Z.lor (2 ^ 32 - 2 ^ k) (Z.shiftl UINT32_MAX 32))) + 1) = 2 ^ k.
Proof.
  intros Hk. assert (0 < 2 ^ k < 2 ^ 32) by (split; [apply Z.pow_pos_nonneg; lia|apply Z.pow_lt_mono_r; lia]).
  rewrite lor_add_shift by (unfold UINT32_MAX; lia). unfold Z.lnot, UINT32_MAX.
  replace (Z.pred _) with (2 ^ k - 1 + (-1) * 2 ^ 64) by lia.
  unfold u64, wrap. rewrite Z.mod_add, Z.mod_small by lia. replace (2 ^ k - 1 + 1) with (2 ^ k) by lia.
  apply sext_small; lia.
Qed.

(** ** Sizing and assigning a register *)

Section Bars.
Context {D : Type} `{BarSpec D dev}.
Implicit Types d : D.

(** Writing all ones, reading, and writing back what was there. *)
Lemma bar_probe d r :
  bar_holds d r → 0 ≤ bar_fixed r ≤ 32 →
  ∃ d1 d2, mmio_write 4 (ecam_addr dev + r) 0xFFFFFFFF d = Done tt d1 ∧
    bar_val d1 r = 2 ^ 32 - 2 ^ bar_fixed r + bar_flags r ∧ (∀ r', r' ≠ r → bar_val d1 r' = bar_val d r') ∧
    mmio_write 4 (ecam_addr dev + r) (bar_val d r) d1 = Done tt d2 ∧ ∀ r', bar_val d2 r' = bar_val d r'.
Proof.
  intros [Hr Hv] Hk. destruct (bar_write d r 0xFFFFFFFF) as (d1 & E1 & V1 & O1); [lia|].
  destruct (bar_write d1 r (bar_val d r)) as (d2 & E2 & V2 & O2); [done|].
  exists d1, d2. rewrite V1, ones_kept by done. split_and!; [done..|].
  intros r'. destruct (decide (r' = r)) as [->|]; [by rewrite V2, <- Hv|by rewrite O2, O1].
Qed.

Lemma bar_reg_inj n n' : pci_bar_reg n = pci_bar_reg n' → n = n'.
Proof. unfold pci_bar_reg. lia. Qed.

Section Memory.
Context (wide : bool) (k n : Z).

(** What every operation reads first. *)
Lemma bar_kind d : mem_bar wide k n d →
  (PCI_BAR_COUNT <=? n) = false ∧ has (bar_val d (pci_bar_reg n)) PCI_BAR_IO = false ∧
  pci_bar_is_64 (bar_val d (pci_bar_reg n)) = wide ∧ (wide = true → (n =? PCI_BAR_COUNT - 1) = false).
Proof.
  intros B. destruct (mb_low _ _ _ _ B) as [_ Hv]. rewrite (mb_fixed _ _ _ _ B) in Hv.
  pose proof (mb_k _ _ _ _ B). pose proof (mb_flags _ _ _ _ B) as Hf.
  assert (Hl : ∀ m, 0 ≤ m < 16 → Z.land (bar_val d (pci_bar_reg n)) m = Z.land (bar_flags (pci_bar_reg n)) m).
  { intros m Hm. rewrite Hv, land_low, bar_low by (done || lia). done. }
  pose proof (mb_n _ _ _ _ B) as Hn. split_and!.
  - apply Z.leb_gt. destruct wide; lia.
  - unfold has. rewrite Hl by (unfold PCI_BAR_IO; lia). apply (mb_mem _ _ _ _ B).
  - unfold pci_bar_is_64. rewrite Hl by (unfold PCI_BAR_TYPE_MASK; lia). apply (mb_wide _ _ _ _ B).
  - intros ->. apply Z.eqb_neq. lia.
Qed.

Lemma bar_sized d : mem_bar wide k n d →
  ∃ d', pci_get_bar_size dev n d = Done (2 ^ k) d' ∧ ∀ r, bar_val d' r = bar_val d r.
Proof.
  intros B. destruct (bar_kind d B) as (E1 & E2 & E3 & E4).
  pose proof (mb_k _ _ _ _ B) as Hk. pose proof (mb_fixed _ _ _ _ B) as Hx. pose proof (mb_flags _ _ _ _ B) as Hf.
  destruct (bar_probe d (pci_bar_reg n)) as (d1 & d2 & W1 & V1 & _ & W2 & V2); [apply (mb_low _ _ _ _ B)|lia|].
  assert (0 < 2 ^ k < 2 ^ 32) by (split; [apply Z.pow_pos_nonneg; lia|apply Z.pow_lt_mono_r; lia]).
  assert (Em : Z.ldiff (bar_val d1 (pci_bar_reg n)) PCI_BAR_FLAG_MASK = 2 ^ 32 - 2 ^ k).
  { rewrite V1, Hx. rewrite <- (ones_kept k) by lia. apply bar_high; lia. }
  unfold pci_get_bar_size, pci_read_config32, pci_write_config32. rewrite E1.
  mstep (bar_read d (pci_bar_reg n)). rewrite E2. mstep W1. mstep (bar_read d1 (pci_bar_reg n)).
  rewrite Em, (proj2 (Z.eqb_neq _ 0)) by lia. mstep W2. rewrite E3.
  destruct wide eqn:Ew.
  - rewrite (E4 eq_refl). destruct (mb_high _ _ _ _ B eq_refl) as [Hx' Hf'].
    destruct (bar_probe d2 (pci_bar_reg (n + 1))) as (d3 & d4 & W3 & V3 & _ & W4 & V4); [|lia|].
    { unfold bar_holds. rewrite V2. apply (mb_up _ _ _ _ B eq_refl). }
    mstep (bar_read d2 (pci_bar_reg (n + 1))). mstep W3. mstep (bar_read d3 (pci_bar_reg (n + 1))). mstep W4.
    exists d4. split; [|intros r; by rewrite V4, V2].
    rewrite V3, Hx', Hf'. change (2 ^ 32 - 2 ^ 0 + 0) with UINT32_MAX. by rewrite size_of_mask.
  - exists d2. rewrite size_of_mask by done. done.
Qed.

(** Writing an aligned address to the lower half. *)
Lemma bar_set d v : mem_bar wide k n d → 0 ≤ v < 2 ^ 32 → v mod 2 ^ k = 0 →
  ∃ d', mmio_write 4 (ecam_addr dev + pci_bar_reg n) v d = Done tt d' ∧ mem_bar wide k n d' ∧
    Z.ldiff (bar_val d' (pci_bar_reg n)) PCI_BAR_FLAG_MASK = v.
Proof.
  intros B Hr Hm. pose proof (mb_k _ _ _ _ B) as Hk. pose proof (mb_flags _ _ _ _ B) as Hf.
  assert (E : 2 ^ k = 16 * 2 ^ (k - 4)) by (apply pow_split; lia).
  assert (Hp : 0 < 2 ^ (k - 4)) by (apply Z.pow_pos_nonneg; lia).
  assert (Hv : v = v / 2 ^ k * 2 ^ k) by (rewrite Z.mul_comm; apply Z.div_exact; lia).
  destruct (bar_write d (pci_bar_reg n) v Hr) as (d1 & W1 & V1 & O1).
  rewrite (mb_fixed _ _ _ _ B), <- Hv in V1.
  exists d1. split; [done|]. assert (Hd : Z.ldiff (bar_val d1 (pci_bar_reg n)) PCI_BAR_FLAG_MASK = v).
  { rewrite V1, Hv, bar_high by lia. done. }
  split; [|done]. destruct B. split; try done.
  - unfold bar_holds. rewrite mb_fixed0, V1.
    assert (Hq : (v + bar_flags (pci_bar_reg n)) / 2 ^ k = v / 2 ^ k).
    { rewrite Hv at 1. rewrite Z.div_add_l by lia. rewrite (Z.div_small (bar_flags _)) by lia. lia. }
    rewrite Hq, <- Hv. split; [|done].
    assert (v ≤ 2 ^ 32 - 2 ^ k).
    { assert (E' : 2 ^ 32 = 2 ^ k * 2 ^ (32 - k)) by (rewrite <- Z.pow_add_r by lia; f_equal; lia).
      assert (v / 2 ^ k < 2 ^ (32 - k)) by (apply Z.div_lt_upper_bound; lia). nia. }
    lia.
  - intros Hw. unfold bar_holds. rewrite O1; [by apply mb_up0|]. intros ?%bar_reg_inj. lia.
Qed.

Lemma bar_assigned d addr : mem_bar wide k n d → 0 ≤ addr < 2 ^ (if wide then 64 else 32) → addr mod 2 ^ k = 0 →
  ∃ d', pci_set_bar dev n addr d = Done 0 d' ∧ pci_bar_addr dev n d' = Done (0, addr) d'.
Proof.
  intros B Ha Hm. destruct (bar_kind d B) as (E1 & E2 & E3 & E4). pose proof (mb_k _ _ _ _ B) as Hk.
  destruct (bar_set d (u32 addr) B) as (d1 & W1 & B1 & V1); [by apply (wrap_range 32)| |].
  { unfold wrap. rewrite Z.mod_mod_divide; [done|]. exists (2 ^ (32 - k)). rewrite <- Z.pow_add_r by lia. f_equal. lia. }
  destruct (bar_kind d1 B1) as (_ & F2 & F3 & _).
  unfold pci_set_bar, pci_bar_addr, pci_read_config32, pci_write_config32. rewrite E1.
  mstep (bar_read d (pci_bar_reg n)). rewrite E2. mstep W1. rewrite E3.
  destruct wide eqn:Ew.
  - rewrite (E4 eq_refl). destruct (mb_high _ _ _ _ B eq_refl) as [Hx' Hf'].
    assert (Hs : 0 ≤ Z.shiftr addr 32 < 2 ^ 32).
    { rewrite Z.shiftr_div_pow2 by lia. split; [apply Z.div_pos; lia|apply Z.div_lt_upper_bound; lia]. }
    rewrite (wrap_small 32 (Z.shiftr addr 32)) by done.
    destruct (bar_write d1 (pci_bar_reg (n + 1)) (Z.shiftr addr 32) Hs) as (d2 & W2 & V2 & O2).
    mstep W2. exists d2. split; [done|]. rewrite Hx', Hf', Z.add_0_r, Z.div_1_r, Z.mul_1_r in V2.
    mstep (bar_read d2 (pci_bar_reg n)). rewrite O2 by (intros ?%bar_reg_inj; lia). rewrite F2, F3, V1.
    mstep (bar_read d2 (pci_bar_reg (n + 1))). rewrite V2.
    rewrite lor_add_shift by (apply (wrap_range 32) || lia; lia). rewrite Z.shiftr_div_pow2 by lia.
    unfold mret, M_ret, wrap. do 2 f_equal. pose proof (Z.div_mod addr (2 ^ 32) ltac:(lia)). lia.
  - exists d1. split; [done|]. mstep (bar_read d1 (pci_bar_reg n)). rewrite F2, F3, V1. by rewrite (wrap_small 32).
Qed.
End Memory.
End Bars.


(** A device with a register of 64 bits and 16 kilobytes at number 4. *)
Definition demo_dev : pci_device := PciDevice 0x30008000 0x40.
Definition demo_fixed (r : Z) : Z := if r =? 0x20 then 14 else 0.
Definition demo_flags (r : Z) : Z := if r =? 0x20 then 12 else 0.
#[export] Instance demo_mmio : Mmio (gmap Z Z) := {|
  mmio_read _ a := gets (λ d, default 0 (d !! (a - ecam_addr demo_dev)));
  mmio_write _ a v := modify (λ d, let r := a - ecam_addr demo_dev in
    <[r := v / 2 ^ demo_fixed r * 2 ^ demo_fixed r + demo_flags r]> d);
|}.
#[export, refine] Instance demo_bars : BarSpec (gmap Z Z) demo_dev :=
  {| bar_val d r := default 0 (d !! r); bar_fixed := demo_fixed; bar_flags := demo_flags |}.
Proof.
  - intros d r. cbn. by replace (_ + r - _) with r by lia.
  - intros d r v Hv. cbn. replace (_ + r - _) with r by lia. eexists. split; [done|].
    split; [by rewrite lookup_insert_eq|intros r' Hr; by rewrite lookup_insert_ne].
Defined.

