(* ===== verification/Font.v ===== *)
(** * The font (lib/font.c)

    The table of glyphs, by code point: eight rows of eight pixels, the least
    significant bit on the left. *)

From S2P Require Import Prelude.

Definition font8x8_basic : list (list Z) := [
  [0x00; 0x00; 0x00; 0x00; 0x00; 0x00; 0x00; 0x00];
  [0x00; 0x00; 0x00; 0x00; 0x00; 0x00; 0x00; 0x00];
  [0x00; 0x00; 0x00; 0x00; 0x00; 0x00; 0x00; 0x00];
  [0x00; 0x00; 0x00; 0x00; 0x00; 0x00; 0x00; 0x00];
  [0x00; 0x00; 0x00; 0x00; 0x00; 0x00; 0x00; 0x00];
  [0x00; 0x00; 0x00; 0x00; 0x00; 0x00; 0x00; 0x00];
  [0x00; 0x00; 0x00; 0x00; 0x00; 0x00; 0x00; 0x00];
  [0x00; 0x00; 0x00; 0x00; 0x00; 0x00; 0x00; 0x00];
  [0x00; 0x00; 0x00; 0x00; 0x00; 0x00; 0x00; 0x00];
  [0x00; 0x00; 0x00; 0x00; 0x00; 0x00; 0x00; 0x00];
  [0x00; 0x00; 0x00; 0x00; 0x00; 0x00; 0x00; 0x00];
  [0x00; 0x00; 0x00; 0x00; 0x00; 0x00; 0x00; 0x00];
  [0x00; 0x00; 0x00; 0x00; 0x00; 0x00; 0x00; 0x00];
  [0x00; 0x00; 0x00; 0x00; 0x00; 0x00; 0x00; 0x00];
  [0x00; 0x00; 0x00; 0x00; 0x00; 0x00; 0x00; 0x00];
  [0x00; 0x00; 0x00; 0x00; 0x00; 0x00; 0x00; 0x00];
  [0x00; 0x00; 0x00; 0x00; 0x00; 0x00; 0x00; 0x00];
  [0x00; 0x00; 0x00; 0x00; 0x00; 0x00; 0x00; 0x00];
  [0x00; 0x00; 0x00; 0x00; 0x00; 0x00; 0x00; 0x00];
  [0x00; 0x00; 0x00; 0x00; 0x00; 0x00; 0x00; 0x00];
  [0x00; 0x00; 0x00; 0x00; 0x00; 0x00; 0x00; 0x00];
  [0x00; 0x00; 0x00; 0x00; 0x00; 0x00; 0x00; 0x00];
  [0x00; 0x00; 0x00; 0x00; 0x00; 0x00; 0x00; 0x00];
  [0x00; 0x00; 0x00; 0x00; 0x00; 0x00; 0x00; 0x00];
  [0x00; 0x00; 0x00; 0x00; 0x00; 0x00; 0x00; 0x00];
  [0x00; 0x00; 0x00; 0x00; 0x00; 0x00; 0x00; 0x00];
  [0x00; 0x00; 0x00; 0x00; 0x00; 0x00; 0x00; 0x00];
  [0x00; 0x00; 0x00; 0x00; 0x00; 0x00; 0x00; 0x00];
  [0x00; 0x00; 0x00; 0x00; 0x00; 0x00; 0x00; 0x00];
  [0x00; 0x00; 0x00; 0x00; 0x00; 0x00; 0x00; 0x00];
  [0x00; 0x00; 0x00; 0x00; 0x00; 0x00; 0x00; 0x00];
  [0x00; 0x00; 0x00; 0x00; 0x00; 0x00; 0x00; 0x00];
  [0x00; 0x00; 0x00; 0x00; 0x00; 0x00; 0x00; 0x00];
  [0x18; 0x3c; 0x3c; 0x18; 0x18; 0x00; 0x18; 0x00];
  [0x36; 0x36; 0x00; 0x00; 0x00; 0x00; 0x00; 0x00];
  [0x36; 0x36; 0x7f; 0x36; 0x7f; 0x36; 0x36; 0x00];
  [0x0c; 0x3e; 0x03; 0x1e; 0x30; 0x1f; 0x0c; 0x00];
  [0x00; 0x63; 0x33; 0x18; 0x0c; 0x66; 0x63; 0x00];
  [0x1c; 0x36; 0x1c; 0x6e; 0x3b; 0x33; 0x6e; 0x00];
  [0x06; 0x06; 0x03; 0x00; 0x00; 0x00; 0x00; 0x00];
  [0x18; 0x0c; 0x06; 0x06; 0x06; 0x0c; 0x18; 0x00];
  [0x06; 0x0c; 0x18; 0x18; 0x18; 0x0c; 0x06; 0x00];
  [0x00; 0x66; 0x3c; 0xff; 0x3c; 0x66; 0x00; 0x00];
  [0x00; 0x0c; 0x0c; 0x3f; 0x0c; 0x0c; 0x00; 0x00];
  [0x00; 0x00; 0x00; 0x00; 0x00; 0x0c; 0x0c; 0x06];
  [0x00; 0x00; 0x00; 0x3f; 0x00; 0x00; 0x00; 0x00];
  [0x00; 0x00; 0x00; 0x00; 0x00; 0x0c; 0x0c; 0x00];
  [0x60; 0x30; 0x18; 0x0c; 0x06; 0x03; 0x01; 0x00];
  [0x3e; 0x63; 0x73; 0x7b; 0x6f; 0x67; 0x3e; 0x00];
  [0x0c; 0x0e; 0x0c; 0x0c; 0x0c; 0x0c; 0x3f; 0x00];
  [0x1e; 0x33; 0x30; 0x1c; 0x06; 0x33; 0x3f; 0x00];
  [0x1e; 0x33; 0x30; 0x1c; 0x30; 0x33; 0x1e; 0x00];
  [0x38; 0x3c; 0x36; 0x33; 0x7f; 0x30; 0x78; 0x00];
  [0x3f; 0x03; 0x1f; 0x30; 0x30; 0x33; 0x1e; 0x00];
  [0x1c; 0x06; 0x03; 0x1f; 0x33; 0x33; 0x1e; 0x00];
  [0x3f; 0x33; 0x30; 0x18; 0x0c; 0x0c; 0x0c; 0x00];
  [0x1e; 0x33; 0x33; 0x1e; 0x33; 0x33; 0x1e; 0x00];
  [0x1e; 0x33; 0x33; 0x3e; 0x30; 0x18; 0x0e; 0x00];
  [0x00; 0x0c; 0x0c; 0x00; 0x00; 0x0c; 0x0c; 0x00];
  [0x00; 0x0c; 0x0c; 0x00; 0x00; 0x0c; 0x0c; 0x06];
  [0x18; 0x0c; 0x06; 0x03; 0x06; 0x0c; 0x18; 0x00];
  [0x00; 0x00; 0x3f; 0x00; 0x00; 0x3f; 0x00; 0x00];
  [0x06; 0x0c; 0x18; 0x30; 0x18; 0x0c; 0x06; 0x00];
  [0x1e; 0x33; 0x30; 0x18; 0x0c; 0x00; 0x0c; 0x00];
  [0x3e; 0x63; 0x7b; 0x7b; 0x7b; 0x03; 0x1e; 0x00];
  [0x0c; 0x1e; 0x33; 0x33; 0x3f; 0x33; 0x33; 0x00];
  [0x3f; 0x66; 0x66; 0x3e; 0x66; 0x66; 0x3f; 0x00];
  [0x3c; 0x66; 0x03; 0x03; 0x03; 0x66; 0x3c; 0x00];
  [0x1f; 0x36; 0x66; 0x66; 0x66; 0x36; 0x1f; 0x00];
  [0x7f; 0x46; 0x16; 0x1e; 0x16; 0x46; 0x7f; 0x00];
  [0x7f; 0x46; 0x16; 0x1e; 0x16; 0x06; 0x0f; 0x00];
  [0x3c; 0x66; 0x03; 0x03; 0x73; 0x66; 0x7c; 0x00];
  [0x33; 0x33; 0x33; 0x3f; 0x33; 0x33; 0x33; 0x00];
  [0x1e; 0x0c; 0x0c; 0x0c; 0x0c; 0x0c; 0x1e; 0x00];
  [0x78; 0x30; 0x30; 0x30; 0x33; 0x33; 0x1e; 0x00];
  [0x67; 0x66; 0x36; 0x1e; 0x36; 0x66; 0x67; 0x00];
  [0x0f; 0x06; 0x06; 0x06; 0x46; 0x66; 0x7f; 0x00];
  [0x63; 0x77; 0x7f; 0x7f; 0x6b; 0x63; 0x63; 0x00];
  [0x63; 0x67; 0x6f; 0x7b; 0x73; 0x63; 0x63; 0x00];
  [0x1c; 0x36; 0x63; 0x63; 0x63; 0x36; 0x1c; 0x00];
  [0x3f; 0x66; 0x66; 0x3e; 0x06; 0x06; 0x0f; 0x00];
  [0x1e; 0x33; 0x33; 0x33; 0x3b; 0x1e; 0x38; 0x00];
  [0x3f; 0x66; 0x66; 0x3e; 0x36; 0x66; 0x67; 0x00];
  [0x1e; 0x33; 0x07; 0x0e; 0x38; 0x33; 0x1e; 0x00];
  [0x3f; 0x2d; 0x0c; 0x0c; 0x0c; 0x0c; 0x1e; 0x00];
  [0x33; 0x33; 0x33; 0x33; 0x33; 0x33; 0x3f; 0x00];
  [0x33; 0x33; 0x33; 0x33; 0x33; 0x1e; 0x0c; 0x00];
  [0x63; 0x63; 0x63; 0x6b; 0x7f; 0x77; 0x63; 0x00];
  [0x63; 0x63; 0x36; 0x1c; 0x1c; 0x36; 0x63; 0x00];
  [0x33; 0x33; 0x33; 0x1e; 0x0c; 0x0c; 0x1e; 0x00];
  [0x7f; 0x63; 0x31; 0x18; 0x4c; 0x66; 0x7f; 0x00];
  [0x1e; 0x06; 0x06; 0x06; 0x06; 0x06; 0x1e; 0x00];
  [0x03; 0x06; 0x0c; 0x18; 0x30; 0x60; 0x40; 0x00];
  [0x1e; 0x18; 0x18; 0x18; 0x18; 0x18; 0x1e; 0x00];
  [0x08; 0x1c; 0x36; 0x63; 0x00; 0x00; 0x00; 0x00];
  [0x00; 0x00; 0x00; 0x00; 0x00; 0x00; 0x00; 0xff];
  [0x0c; 0x0c; 0x18; 0x00; 0x00; 0x00; 0x00; 0x00];
  [0x00; 0x00; 0x1e; 0x30; 0x3e; 0x33; 0x6e; 0x00];
  [0x07; 0x06; 0x06; 0x3e; 0x66; 0x66; 0x3b; 0x00];
  [0x00; 0x00; 0x1e; 0x33; 0x03; 0x33; 0x1e; 0x00];
  [0x38; 0x30; 0x30; 0x3e; 0x33; 0x33; 0x6e; 0x00];
  [0x00; 0x00; 0x1e; 0x33; 0x3f; 0x03; 0x1e; 0x00];
  [0x1c; 0x36; 0x06; 0x0f; 0x06; 0x06; 0x0f; 0x00];
  [0x00; 0x00; 0x6e; 0x33; 0x33; 0x3e; 0x30; 0x1f];
  [0x07; 0x06; 0x36; 0x6e; 0x66; 0x66; 0x67; 0x00];
  [0x0c; 0x00; 0x0e; 0x0c; 0x0c; 0x0c; 0x1e; 0x00];
  [0x30; 0x00; 0x30; 0x30; 0x30; 0x33; 0x33; 0x1e];
  [0x07; 0x06; 0x66; 0x36; 0x1e; 0x36; 0x67; 0x00];
  [0x0e; 0x0c; 0x0c; 0x0c; 0x0c; 0x0c; 0x1e; 0x00];
  [0x00; 0x00; 0x33; 0x7f; 0x7f; 0x6b; 0x63; 0x00];
  [0x00; 0x00; 0x1f; 0x33; 0x33; 0x33; 0x33; 0x00];
  [0x00; 0x00; 0x1e; 0x33; 0x33; 0x33; 0x1e; 0x00];
  [0x00; 0x00; 0x3b; 0x66; 0x66; 0x3e; 0x06; 0x0f];
  [0x00; 0x00; 0x6e; 0x33; 0x33; 0x3e; 0x30; 0x78];
  [0x00; 0x00; 0x3b; 0x6e; 0x66; 0x06; 0x0f; 0x00];
  [0x00; 0x00; 0x3e; 0x03; 0x1e; 0x30; 0x1f; 0x00];
  [0x08; 0x0c; 0x3e; 0x0c; 0x0c; 0x2c; 0x18; 0x00];
  [0x00; 0x00; 0x33; 0x33; 0x33; 0x33; 0x6e; 0x00];
  [0x00; 0x00; 0x33; 0x33; 0x33; 0x1e; 0x0c; 0x00];
  [0x00; 0x00; 0x63; 0x6b; 0x7f; 0x7f; 0x36; 0x00];
  [0x00; 0x00; 0x63; 0x36; 0x1c; 0x36; 0x63; 0x00];
  [0x00; 0x00; 0x33; 0x33; 0x33; 0x3e; 0x30; 0x1f];
  [0x00; 0x00; 0x3f; 0x19; 0x0c; 0x26; 0x3f; 0x00];
  [0x38; 0x0c; 0x0c; 0x07; 0x0c; 0x0c; 0x38; 0x00];
  [0x18; 0x18; 0x18; 0x00; 0x18; 0x18; 0x18; 0x00];
  [0x07; 0x0c; 0x0c; 0x38; 0x0c; 0x0c; 0x07; 0x00];
  [0x6e; 0x3b; 0x00; 0x00; 0x00; 0x00; 0x00; 0x00];
  [0x00; 0x00; 0x00; 0x00; 0x00; 0x00; 0x00; 0x00];
  [0x00; 0x00; 0x00; 0x00; 0x00; 0x00; 0x00; 0x00];
  [0x00; 0x00; 0x00; 0x00; 0x00; 0x00; 0x00; 0x00];
  [0x00; 0x00; 0x00; 0x00; 0x00; 0x00; 0x00; 0x00];
  [0x00; 0x00; 0x00; 0x00; 0x00; 0x00; 0x00; 0x00];
  [0x00; 0x00; 0x00; 0x00; 0x00; 0x00; 0x00; 0x00];
  [0x00; 0x00; 0x00; 0x00; 0x00; 0x00; 0x00; 0x00];
  [0x00; 0x00; 0x00; 0x00; 0x00; 0x00; 0x00; 0x00];
  [0x00; 0x00; 0x00; 0x00; 0x00; 0x00; 0x00; 0x00];
  [0x00; 0x00; 0x00; 0x00; 0x00; 0x00; 0x00; 0x00];
  [0x00; 0x00; 0x00; 0x00; 0x00; 0x00; 0x00; 0x00];
  [0x00; 0x00; 0x00; 0x00; 0x00; 0x00; 0x00; 0x00];
  [0x00; 0x00; 0x00; 0x00; 0x00; 0x00; 0x00; 0x00];
  [0x00; 0x00; 0x00; 0x00; 0x00; 0x00; 0x00; 0x00];
  [0x00; 0x00; 0x00; 0x00; 0x00; 0x00; 0x00; 0x00];
  [0x00; 0x00; 0x00; 0x00; 0x00; 0x00; 0x00; 0x00];
  [0x00; 0x00; 0x00; 0x00; 0x00; 0x00; 0x00; 0x00];
  [0x00; 0x00; 0x00; 0x00; 0x00; 0x00; 0x00; 0x00];
  [0x00; 0x00; 0x00; 0x00; 0x00; 0x00; 0x00; 0x00];
  [0x00; 0x00; 0x00; 0x00; 0x00; 0x00; 0x00; 0x00];
  [0x00; 0x00; 0x00; 0x00; 0x00; 0x00; 0x00; 0x00];
  [0x00; 0x00; 0x00; 0x00; 0x00; 0x00; 0x00; 0x00];
  [0x00; 0x00; 0x00; 0x00; 0x00; 0x00; 0x00; 0x00];
  [0x00; 0x00; 0x00; 0x00; 0x00; 0x00; 0x00; 0x00];
  [0x00; 0x00; 0x00; 0x00; 0x00; 0x00; 0x00; 0x00];
  [0x00; 0x00; 0x00; 0x00; 0x00; 0x00; 0x00; 0x00];
  [0x00; 0x00; 0x00; 0x00; 0x00; 0x00; 0x00; 0x00];
  [0x00; 0x00; 0x00; 0x00; 0x00; 0x00; 0x00; 0x00];
  [0x00; 0x00; 0x00; 0x00; 0x00; 0x00; 0x00; 0x00];
  [0x00; 0x00; 0x00; 0x00; 0x00; 0x00; 0x00; 0x00];
  [0x00; 0x00; 0x00; 0x00; 0x00; 0x00; 0x00; 0x00];
  [0x00; 0x00; 0x00; 0x00; 0x00; 0x00; 0x00; 0x00];
  [0x00; 0x00; 0x00; 0x00; 0x00; 0x00; 0x00; 0x00];
  [0x00; 0x00; 0x00; 0x00; 0x00; 0x00; 0x00; 0x00];
  [0x18; 0x18; 0x00; 0x18; 0x18; 0x18; 0x18; 0x00];
  [0x18; 0x18; 0x7E; 0x03; 0x03; 0x7E; 0x18; 0x18];
  [0x1C; 0x36; 0x26; 0x0F; 0x06; 0x67; 0x3F; 0x00];
  [0x00; 0x00; 0x63; 0x3E; 0x36; 0x3E; 0x63; 0x00];
  [0x33; 0x33; 0x1E; 0x3F; 0x0C; 0x3F; 0x0C; 0x0C];
  [0x18; 0x18; 0x18; 0x00; 0x18; 0x18; 0x18; 0x00];
  [0x7C; 0xC6; 0x1C; 0x36; 0x36; 0x1C; 0x33; 0x1E];
  [0x33; 0x00; 0x00; 0x00; 0x00; 0x00; 0x00; 0x00];
  [0x3C; 0x42; 0x99; 0x85; 0x85; 0x99; 0x42; 0x3C];
  [0x3C; 0x36; 0x36; 0x7C; 0x00; 0x00; 0x00; 0x00];
  [0x00; 0xCC; 0x66; 0x33; 0x66; 0xCC; 0x00; 0x00];
  [0x00; 0x00; 0x00; 0x3F; 0x30; 0x30; 0x00; 0x00];
  [0x00; 0x00; 0x00; 0x00; 0x00; 0x00; 0x00; 0x00];
  [0x3C; 0x42; 0x9D; 0xA5; 0x9D; 0xA5; 0x42; 0x3C];
  [0x7E; 0x00; 0x00; 0x00; 0x00; 0x00; 0x00; 0x00];
  [0x1C; 0x36; 0x36; 0x1C; 0x00; 0x00; 0x00; 0x00];
  [0x18; 0x18; 0x7E; 0x18; 0x18; 0x00; 0x7E; 0x00];
  [0x1C; 0x30; 0x18; 0x0C; 0x3C; 0x00; 0x00; 0x00];
  [0x1C; 0x30; 0x18; 0x30; 0x1C; 0x00; 0x00; 0x00];
  [0x18; 0x0C; 0x00; 0x00; 0x00; 0x00; 0x00; 0x00];
  [0x00; 0x00; 0x66; 0x66; 0x66; 0x3E; 0x06; 0x03];
  [0xFE; 0xDB; 0xDB; 0xDE; 0xD8; 0xD8; 0xD8; 0x00];
  [0x00; 0x00; 0x00; 0x18; 0x18; 0x00; 0x00; 0x00];
  [0x00; 0x00; 0x00; 0x00; 0x00; 0x18; 0x30; 0x1E];
  [0x08; 0x0C; 0x08; 0x1C; 0x00; 0x00; 0x00; 0x00];
  [0x1C; 0x36; 0x36; 0x1C; 0x00; 0x00; 0x00; 0x00];
  [0x00; 0x33; 0x66; 0xCC; 0x66; 0x33; 0x00; 0x00];
  [0xC3; 0x63; 0x33; 0xBD; 0xEC; 0xF6; 0xF3; 0x03];
  [0xC3; 0x63; 0x33; 0x7B; 0xCC; 0x66; 0x33; 0xF0];
  [0x03; 0xC4; 0x63; 0xB4; 0xDB; 0xAC; 0xE6; 0x80];
  [0x0C; 0x00; 0x0C; 0x06; 0x03; 0x33; 0x1E; 0x00];
  [0x07; 0x00; 0x1C; 0x36; 0x63; 0x7F; 0x63; 0x00];
  [0x70; 0x00; 0x1C; 0x36; 0x63; 0x7F; 0x63; 0x00];
  [0x1C; 0x36; 0x00; 0x3E; 0x63; 0x7F; 0x63; 0x00];
  [0x6E; 0x3B; 0x00; 0x3E; 0x63; 0x7F; 0x63; 0x00];
  [0x63; 0x1C; 0x36; 0x63; 0x7F; 0x63; 0x63; 0x00];
  [0x0C; 0x0C; 0x00; 0x1E; 0x33; 0x3F; 0x33; 0x00];
  [0x7C; 0x36; 0x33; 0x7F; 0x33; 0x33; 0x73; 0x00];
  [0x1E; 0x33; 0x03; 0x33; 0x1E; 0x18; 0x30; 0x1E];
  [0x07; 0x00; 0x3F; 0x06; 0x1E; 0x06; 0x3F; 0x00];
  [0x38; 0x00; 0x3F; 0x06; 0x1E; 0x06; 0x3F; 0x00];
  [0x0C; 0x12; 0x3F; 0x06; 0x1E; 0x06; 0x3F; 0x00];
  [0x36; 0x00; 0x3F; 0x06; 0x1E; 0x06; 0x3F; 0x00];
  [0x07; 0x00; 0x1E; 0x0C; 0x0C; 0x0C; 0x1E; 0x00];
  [0x38; 0x00; 0x1E; 0x0C; 0x0C; 0x0C; 0x1E; 0x00];
  [0x0C; 0x12; 0x00; 0x1E; 0x0C; 0x0C; 0x1E; 0x00];
  [0x33; 0x00; 0x1E; 0x0C; 0x0C; 0x0C; 0x1E; 0x00];
  [0x3F; 0x66; 0x6F; 0x6F; 0x66; 0x66; 0x3F; 0x00];
  [0x3F; 0x00; 0x33; 0x37; 0x3F; 0x3B; 0x33; 0x00];
  [0x0E; 0x00; 0x18; 0x3C; 0x66; 0x3C; 0x18; 0x00];
  [0x70; 0x00; 0x18; 0x3C; 0x66; 0x3C; 0x18; 0x00];
  [0x3C; 0x66; 0x18; 0x3C; 0x66; 0x3C; 0x18; 0x00];
  [0x6E; 0x3B; 0x00; 0x3E; 0x63; 0x63; 0x3E; 0x00];
  [0xC3; 0x18; 0x3C; 0x66; 0x66; 0x3C; 0x18; 0x00];
  [0x00; 0x36; 0x1C; 0x08; 0x1C; 0x36; 0x00; 0x00];
  [0x5C; 0x36; 0x73; 0x7B; 0x6F; 0x36; 0x1D; 0x00];
  [0x0E; 0x00; 0x66; 0x66; 0x66; 0x66; 0x3C; 0x00];
  [0x70; 0x00; 0x66; 0x66; 0x66; 0x66; 0x3C; 0x00];
  [0x3C; 0x66; 0x00; 0x66; 0x66; 0x66; 0x3C; 0x00];
  [0x33; 0x00; 0x33; 0x33; 0x33; 0x33; 0x1E; 0x00];
  [0x70; 0x00; 0x66; 0x66; 0x3C; 0x18; 0x18; 0x00];
  [0x0F; 0x06; 0x3E; 0x66; 0x66; 0x3E; 0x06; 0x0F];
  [0x00; 0x1E; 0x33; 0x1F; 0x33; 0x1F; 0x03; 0x03];
  [0x07; 0x00; 0x1E; 0x30; 0x3E; 0x33; 0x7E; 0x00];
  [0x38; 0x00; 0x1E; 0x30; 0x3E; 0x33; 0x7E; 0x00];
  [0x7E; 0xC3; 0x3C; 0x60; 0x7C; 0x66; 0xFC; 0x00];
  [0x6E; 0x3B; 0x1E; 0x30; 0x3E; 0x33; 0x7E; 0x00];
  [0x33; 0x00; 0x1E; 0x30; 0x3E; 0x33; 0x7E; 0x00];
  [0x0C; 0x0C; 0x1E; 0x30; 0x3E; 0x33; 0x7E; 0x00];
  [0x00; 0x00; 0xFE; 0x30; 0xFE; 0x33; 0xFE; 0x00];
  [0x00; 0x00; 0x1E; 0x03; 0x03; 0x1E; 0x30; 0x1C];
  [0x07; 0x00; 0x1E; 0x33; 0x3F; 0x03; 0x1E; 0x00];
  [0x38; 0x00; 0x1E; 0x33; 0x3F; 0x03; 0x1E; 0x00];
  [0x7E; 0xC3; 0x3C; 0x66; 0x7E; 0x06; 0x3C; 0x00];
  [0x33; 0x00; 0x1E; 0x33; 0x3F; 0x03; 0x1E; 0x00];
  [0x07; 0x00; 0x0E; 0x0C; 0x0C; 0x0C; 0x1E; 0x00];
  [0x1C; 0x00; 0x0E; 0x0C; 0x0C; 0x0C; 0x1E; 0x00];
  [0x3E; 0x63; 0x1C; 0x18; 0x18; 0x18; 0x3C; 0x00];
  [0x33; 0x00; 0x0E; 0x0C; 0x0C; 0x0C; 0x1E; 0x00];
  [0x1B; 0x0E; 0x1B; 0x30; 0x3E; 0x33; 0x1E; 0x00];
  [0x00; 0x1F; 0x00; 0x1F; 0x33; 0x33; 0x33; 0x00];
  [0x00; 0x07; 0x00; 0x1E; 0x33; 0x33; 0x1E; 0x00];
  [0x00; 0x38; 0x00; 0x1E; 0x33; 0x33; 0x1E; 0x00];
  [0x1E; 0x33; 0x00; 0x1E; 0x33; 0x33; 0x1E; 0x00];
  [0x6E; 0x3B; 0x00; 0x1E; 0x33; 0x33; 0x1E; 0x00];
  [0x00; 0x33; 0x00; 0x1E; 0x33; 0x33; 0x1E; 0x00];
  [0x18; 0x18; 0x00; 0x7E; 0x00; 0x18; 0x18; 0x00];
  [0x00; 0x60; 0x3C; 0x76; 0x7E; 0x6E; 0x3C; 0x06];
  [0x00; 0x07; 0x00; 0x33; 0x33; 0x33; 0x7E; 0x00];
  [0x00; 0x38; 0x00; 0x33; 0x33; 0x33; 0x7E; 0x00];
  [0x1E; 0x33; 0x00; 0x33; 0x33; 0x33; 0x7E; 0x00];
  [0x00; 0x33; 0x00; 0x33; 0x33; 0x33; 0x7E; 0x00];
  [0x00; 0x38; 0x00; 0x33; 0x33; 0x3E; 0x30; 0x1F];
  [0x00; 0x00; 0x06; 0x3E; 0x66; 0x3E; 0x06; 0x00];
  [0x00; 0x33; 0x00; 0x33; 0x33; 0x3E; 0x30; 0x1F]
].
