(* ===== verification/Console.v ===== *)
(** * The screen (kernel/drivers/console/bochs.c)

    The text console on the framebuffer: glyphs, cursor, scrolling and control
    characters.  The framebuffer is the array of its pixels; only the first
    [fb_size] of them are mapped, and an access past them is a fault.

    Every character keeps the cursor on the screen, and a printable one shows
    its glyph in its cell.  That takes more memory than the screen has: to
    scroll, the code works on lines eight times too far apart, and a
    framebuffer of sixteen megabytes is left. *)

From S2P Require Import Prelude Font.

Definition DISPLAY_WIDTH : Z := 1024.
Definition DISPLAY_HEIGHT : Z := 768.
Definition MAX_COLS : Z := DISPLAY_WIDTH / 8.
Definition MAX_ROWS : Z := DISPLAY_HEIGHT / 8.
Definition BG_COLOR : Z := 0x000000.
Definition TEXT_COLOR : Z := 0xFFFFFF.

Record con := Con { fb_base : Z; cfg_base : Z; fb_size : Z; fb : Z → Z; cursor_row : Z; cursor_col : Z }.
Definition con0 : con := Con 0 0 0 (λ _, 0) 1 0.
Definition with_fb (f : Z → Z) (c : con) : con := Con (fb_base c) (cfg_base c) (fb_size c) f (cursor_row c) (cursor_col c).
Definition with_cursor (r cl : Z) (c : con) : con := Con (fb_base c) (cfg_base c) (fb_size c) (fb c) r cl.

(** The store of one pixel, and of the bytes of several. *)
Definition fb_store (i color : Z) : M con unit :=
  c ← get;
  if (0 <=? i) && (i <? fb_size c) then modify (λ c, with_fb (λ j, if j =? i then color else fb c j) c) else fault.
Definition fb_memmove (dst src n : Z) : M con unit :=
  c ← get;
  if (dst + n <=? fb_size c) && (src + n <=? fb_size c)
  then modify (λ c, with_fb (λ j, if (dst <=? j) && (j <? dst + n) then fb c (j - dst + src) else fb c j) c) else fault.
Definition fb_memset (dst color n : Z) : M con unit :=
  c ← get;
  if dst + n <=? fb_size c
  then modify (λ c, with_fb (λ j, if (dst <=? j) && (j <? dst + n) then color else fb c j) c) else fault.

Definition pixel (x y color : Z) : M con Z :=
  if (DISPLAY_WIDTH <=? x) || (DISPLAY_HEIGHT <=? y) then mret (- EINVAL) else
  fb_store (y * DISPLAY_WIDTH + x) color;;
  mret 0.

(** The pixels of a glyph, row by row. *)
Definition glyph_offsets : list (Z * Z) := r ← seqZ 0 8; c ← seqZ 0 8; [(r, c)].
Definition glyph_bit (c row_off c_off : Z) : bool :=
  has (u8 (default 0 (default [] (font8x8_basic !! Z.to_nat (u8 c)) !! Z.to_nat row_off))) (Z.shiftl 1 c_off).

Fixpoint write_char_loop (row col c color bg_color : Z) (offs : list (Z * Z)) : M con Z :=
  match offs with
  | [] => mret 0
  | (row_off, c_off) :: offs =>
    r ← pixel (u32 (col + c_off)) (u32 (row + row_off)) (if glyph_bit c row_off c_off then color else bg_color);
    if negb (r =? 0) then mret (- EINVAL) else write_char_loop row col c color bg_color offs
  end.
Definition write_char (row col c color bg_color : Z) : M con Z :=
  write_char_loop (u32 (row * 8)) (u32 (col * 8)) c color bg_color glyph_offsets.

Definition draw_line (row col color : Z) : M con unit :=
  each (λ offset, pixel (u32 (col + offset)) row color;; mret tt) (seqZ 0 8).
Definition draw_cursor : M con unit := c ← get; draw_line (cursor_row c * 8 + 7) (cursor_col c * 8) TEXT_COLOR.
Definition undraw_cursor : M con unit := c ← get; draw_line (cursor_row c * 8 + 7) (cursor_col c * 8) BG_COLOR.

(** [display_base] points to lines of [DISPLAY_WIDTH * 8] pixels. *)
Definition scroll : M con unit :=
  fb_memmove 0 (DISPLAY_WIDTH * 8) ((DISPLAY_HEIGHT - 1) * DISPLAY_WIDTH);;
  fb_memset ((DISPLAY_HEIGHT - 1) * (DISPLAY_WIDTH * 8)) BG_COLOR DISPLAY_WIDTH.

(** The rows past the last one. *)
Fixpoint scroll_loop (fuel : nat) (row : Z) : M con Z :=
  match fuel with
  | O => mret row
  | S fuel => if MAX_ROWS <=? row then scroll;; scroll_loop fuel (row - 1) else mret row
  end.
Definition set_cursor (row col : Z) : M con Z :=
  undraw_cursor;;
  row ← scroll_loop (Z.to_nat (row - MAX_ROWS + 1)) row;
  if row <? 0 then mret (- EINVAL) else
  modify (with_cursor (u8 row) (u8 col));;
  draw_cursor;;
  mret 0.

Definition advance_cursor : M con unit :=
  c ← get;
  (if cursor_col c + 1 <? MAX_COLS then set_cursor (cursor_row c) (cursor_col c + 1) else set_cursor (cursor_row c + 1) 0);;
  mret tt.

Definition put_char (ch : Z) : M con unit :=
  c ← get; write_char (cursor_row c) (cursor_col c) ch TEXT_COLOR BG_COLOR;; advance_cursor.

Definition clear_screen : M con unit :=
  each (λ y, each (λ x, pixel x y BG_COLOR;; mret tt) (seqZ 0 DISPLAY_WIDTH)) (seqZ 0 DISPLAY_HEIGHT);;
  set_cursor 1 0;; mret tt.

Definition tab : M con unit :=
  c ← get;
  let distance := Z.land (- cursor_col c) 7 in
  (if MAX_COLS <=? distance + cursor_col c then set_cursor (cursor_row c + 1) 0
   else set_cursor (cursor_row c) (cursor_col c + distance));;
  mret tt.
Definition backspace : M con unit :=
  c ← get; if 0 <? cursor_col c then set_cursor (cursor_row c) (cursor_col c - 1);; mret tt else mret tt.
Definition newline : M con unit := c ← get; set_cursor (cursor_row c + 1) 0;; mret tt.
Definition carriage_return : M con unit := c ← get; set_cursor (cursor_row c) 0;; mret tt.

Definition handle_char (c : Z) : M con unit :=
  if (32 <=? c) && (c <? 127) then put_char c
  else if c =? 8 then backspace
  else if c =? 9 then tab
  else if c =? 10 then newline
  else if c =? 12 then clear_screen
  else if c =? 13 then carriage_return
  else mret tt.

(** [s]: the [len] characters. *)
Definition console_display_top_right (s : list Z) : M con unit :=
  c ← get;
  if fb_base c =? 0 then mret tt else
  let len := Z.of_nat (length s) in
  let s := if MAX_COLS <? len then drop (Z.to_nat (len - MAX_COLS)) s else s in
  let len := if MAX_COLS <? len then MAX_COLS else len in
  let col := u8 (MAX_COLS - len) in
  each (λ i, ch ← of_opt (s !! i); write_char 0 (col + Z.of_nat i) ch TEXT_COLOR BG_COLOR;; mret tt) (seq 0 (Z.to_nat len)).
