(* ===== verification/ConsoleThm.v ===== *)
(** * The screen: what is shown, and where the cursor is

    Proofs about Console.v. *)

From S2P Require Import Prelude Font Console.

Abbreviation WIDTH := DISPLAY_WIDTH.
Abbreviation HEIGHT := DISPLAY_HEIGHT.

Ltac screen :=
  change MAX_COLS with 128 in *; change MAX_ROWS with 96 in *; change WIDTH with 1024 in *; change HEIGHT with 768 in *; lia.

(** The pixel of row [y] and column [x]. *)
Definition at_pixel (y x : Z) : Z := y * WIDTH + x.

Record con_ok (c : con) : Prop := {
  co_row : 0 ≤ cursor_row c < MAX_ROWS;
  co_col : 0 ≤ cursor_col c < MAX_COLS;
  co_size : HEIGHT * WIDTH ≤ fb_size c;
}.
(** Room for what [scroll] touches. *)
Definition scrollable (c : con) : Prop := (HEIGHT - 1) * (WIDTH * 8) + WIDTH ≤ fb_size c.

Lemma fb_store_ok i color c :
  0 ≤ i < fb_size c → fb_store i color c = Done tt (with_fb (λ j, if j =? i then color else fb c j) c).
Proof.
  intros [? ?]. unfold fb_store, mbind, M_bind. simpl.
  by rewrite (proj2 (Z.leb_le 0 i)), (proj2 (Z.ltb_lt i (fb_size c))).
Qed.

Lemma pixel_ok x y color c :
  con_ok c → 0 ≤ x < WIDTH → 0 ≤ y < HEIGHT →
  pixel x y color c = Done 0 (with_fb (λ j, if j =? at_pixel y x then color else fb c j) c).
Proof.
  intros C Hx Hy. pose proof (co_size c C). unfold pixel. rewrite (proj2 (Z.leb_gt WIDTH x)), (proj2 (Z.leb_gt HEIGHT y)) by lia.
  cbn [orb]. assert (Hp : 0 ≤ y * WIDTH + x < fb_size c) by (screen).
  by mstep (fb_store_ok _ color c Hp).
Qed.

Lemma con_ok_fb f c : con_ok c → con_ok (with_fb f c).
Proof. by intros []. Qed.

Lemma at_pixel_inj y x y' x' : 0 ≤ x < WIDTH → 0 ≤ x' < WIDTH → at_pixel y x = at_pixel y' x' → y = y' ∧ x = x'.
Proof. unfold at_pixel. intros. split; screen. Qed.

(** ** Glyphs *)

Section Glyph.
Context (row col ch color bg : Z) (Hr : 0 ≤ row < MAX_ROWS) (Hc : 0 ≤ col < MAX_COLS).
Definition cell_pixel (o : Z * Z) : Z := at_pixel (row * 8 + o.1) (col * 8 + o.2).
Definition glyph_color (o : Z * Z) : Z := if glyph_bit ch o.1 o.2 then color else bg.

Lemma cell_pixel_inj o o' : 0 ≤ o.2 < 8 → 0 ≤ o'.2 < 8 → cell_pixel o = cell_pixel o' → o = o'.
Proof.
  intros H1 H2 E. apply at_pixel_inj in E; [|screen..]. destruct o, o'; simpl in *.
  f_equal; lia.
Qed.

Lemma glyph_loop offs c :
  con_ok c → Forall (λ o, 0 ≤ o.1 < 8 ∧ 0 ≤ o.2 < 8) offs →
  ∃ f, write_char_loop (row * 8) (col * 8) ch color bg offs c = Done 0 (with_fb f c) ∧
    (∀ o, o ∈ offs → f (cell_pixel o) = glyph_color o) ∧
    ∀ p, (∀ o, o ∈ offs → p ≠ cell_pixel o) → f p = fb c p.
Proof.
  revert c. induction offs as [|[ro co] offs IH]; intros c C Ho.
  { exists (fb c). split; [by destruct c|]. split; [set_solver|done]. }
  apply Forall_cons in Ho as [[H1 H2] Ho]. simpl in H1, H2. cbn [write_char_loop].
  rewrite !(wrap_small 32) by (screen).
  set (v := if glyph_bit ch ro co then color else bg).
  pose proof (pixel_ok (col * 8 + co) (row * 8 + ro) v c C) as E. specialize (E ltac:(screen)).
  specialize (E ltac:(screen)). mstep E. simpl.
  destruct (IH (with_fb (λ j, if j =? at_pixel (row * 8 + ro) (col * 8 + co) then v else fb c j) c)) as (f & -> & Hin & Hout);
    [by apply con_ok_fb|done|].
  exists f. split; [done|]. split.
  - intros o [->|Hi]%elem_of_cons; [|by apply Hin].
    destruct (decide ((ro, co) ∈ offs)) as [|Hn]; [by apply Hin|]. rewrite Hout; [simpl; by rewrite Z.eqb_refl|].
    intros o Hi Ep. apply cell_pixel_inj in Ep; [by subst|done|]. by apply (proj1 (Forall_forall _ _) Ho o).
  - intros p Hp. rewrite Hout by (intros o Hi; apply Hp; by right). simpl.
    rewrite (proj2 (Z.eqb_neq _ _)); [done|]. apply (Hp (ro, co)). by left.
Qed.

Lemma glyph_offsets_elem o : o ∈ glyph_offsets ↔ 0 ≤ o.1 < 8 ∧ 0 ≤ o.2 < 8.
Proof.
  unfold glyph_offsets. rewrite list_elem_of_bind. setoid_rewrite list_elem_of_bind.
  setoid_rewrite elem_of_seqZ. setoid_rewrite list_elem_of_singleton. destruct o as [a b]. simpl. split.
  - intros (r & (c & [= -> ->] & ?) & ?). lia.
  - intros ?. exists a. split; [|lia]. exists b. split; [done|lia].
Qed.

Lemma write_char_ok c :
  con_ok c →
  ∃ f, write_char row col ch color bg c = Done 0 (with_fb f c) ∧
    (∀ o, 0 ≤ o.1 < 8 → 0 ≤ o.2 < 8 → f (cell_pixel o) = glyph_color o) ∧
    ∀ p, (∀ o, 0 ≤ o.1 < 8 → 0 ≤ o.2 < 8 → p ≠ cell_pixel o) → f p = fb c p.
Proof.
  intros C. destruct (glyph_loop glyph_offsets c C) as (f & E & Hin & Hout).
  { apply Forall_forall. intros o. by rewrite glyph_offsets_elem. }
  exists f. unfold write_char. rewrite !(wrap_small 32) by (screen).
  split; [done|]. setoid_rewrite glyph_offsets_elem in Hin. setoid_rewrite glyph_offsets_elem in Hout. naive_solver.
Qed.
End Glyph.

(** ** The cursor *)

Lemma draw_line_ok row col color xs c :
  con_ok c → 0 ≤ row < MAX_ROWS → 0 ≤ col < MAX_COLS → (∀ x, x ∈ xs → 0 ≤ x < 8) →
  ∃ f, each (λ offset, pixel (u32 (col * 8 + offset)) (row * 8 + 7) color;; mret tt) xs c = Done tt (with_fb f c) ∧
    (∀ x, x ∈ xs → f (cell_pixel row col (7, x)) = color) ∧
    ∀ p, (∀ x, x ∈ xs → p ≠ cell_pixel row col (7, x)) → f p = fb c p.
Proof.
  intros C Hr Hc. revert c C. induction xs as [|x xs IH]; intros c C Hx.
  { exists (fb c). split; [by destruct c|]. split; [set_solver|done]. }
  assert (Hx0 : 0 ≤ x < 8) by (apply Hx; by left). cbn [each].
  rewrite (wrap_small 32) by (screen).
  pose proof (pixel_ok (col * 8 + x) (row * 8 + 7) color c C) as E. specialize (E ltac:(screen)).
  specialize (E ltac:(screen)).
  rewrite (bind_Done (pixel _ _ _;; mret tt) _ _ tt (with_fb (λ j, if j =? cell_pixel row col (7, x) then color else fb c j) c))
    by (mstep E; done).
  destruct (IH (with_fb (λ j, if j =? cell_pixel row col (7, x) then color else fb c j) c)) as (f & -> & Hin & Hout);
    [by apply con_ok_fb|intros y Hy; apply Hx; by right|].
  exists f. split; [done|]. split.
  - intros y [->|Hi]%elem_of_cons; [|by apply Hin].
    destruct (decide (x ∈ xs)); [by apply Hin|]. rewrite Hout; [simpl; by rewrite Z.eqb_refl|].
    intros y Hi Ep. apply (cell_pixel_inj row col Hc) in Ep; [by injection Ep as ->|done|]. apply Hx. by right.
  - intros p Hp. rewrite Hout by (intros y Hi; apply Hp; by right). simpl.
    rewrite (proj2 (Z.eqb_neq _ _)); [done|]. apply Hp. by left.
Qed.

Lemma cursor_line_ok color c :
  con_ok c →
  ∃ f, draw_line (cursor_row c * 8 + 7) (cursor_col c * 8) color c = Done tt (with_fb f c) ∧
    (∀ x, 0 ≤ x < 8 → f (cell_pixel (cursor_row c) (cursor_col c) (7, x)) = color) ∧
    ∀ p, (∀ x, 0 ≤ x < 8 → p ≠ cell_pixel (cursor_row c) (cursor_col c) (7, x)) → f p = fb c p.
Proof.
  intros C. destruct (draw_line_ok (cursor_row c) (cursor_col c) color (seqZ 0 8) c C) as (f & E & Hin & Hout);
    [apply (co_row c C)|apply (co_col c C)|intros x; rewrite elem_of_seqZ; lia|].
  exists f. split; [done|]. setoid_rewrite elem_of_seqZ in Hin. setoid_rewrite elem_of_seqZ in Hout.
  split; intros; [apply Hin; lia|]. apply Hout. intros. apply H. lia.
Qed.

Lemma con_ok_cursor r cl c : con_ok c → 0 ≤ r < MAX_ROWS → 0 ≤ cl < MAX_COLS → con_ok (with_cursor r cl c).
Proof. intros [] ? ?. by split. Qed.

(** The end of [set_cursor], once the row is on the screen. *)
Lemma place_cursor_ok row col c :
  con_ok c → 0 ≤ row < MAX_ROWS → 0 ≤ col < MAX_COLS →
  ∃ f, (modify (with_cursor (u8 row) (u8 col));; draw_cursor;; mret 0) c = Done 0 (with_cursor row col (with_fb f c)) ∧
    (∀ x, 0 ≤ x < 8 → f (cell_pixel row col (7, x)) = TEXT_COLOR) ∧
    ∀ p, (∀ x, 0 ≤ x < 8 → p ≠ cell_pixel row col (7, x)) → f p = fb c p.
Proof.
  intros C Hr Hc. pose proof (con_ok_cursor row col c C Hr Hc) as C'.
  destruct (cursor_line_ok TEXT_COLOR _ C') as (f & E & Hin & Hout). simpl in Hin, Hout. exists f. split; [|done].
  rewrite !(wrap_small 8) by screen. rewrite (bind_Done (modify _) _ c tt (with_cursor row col c)) by done.
  rewrite (bind_Done draw_cursor _ _ _ _ E). done.
Qed.

(** Moving the cursor on the screen: the old line goes, the new one comes. *)
Lemma set_cursor_ok row col c :
  con_ok c → 0 ≤ row < MAX_ROWS → 0 ≤ col < MAX_COLS →
  ∃ f, set_cursor row col c = Done 0 (with_cursor row col (with_fb f c)) ∧
    (∀ x, 0 ≤ x < 8 → f (cell_pixel row col (7, x)) = TEXT_COLOR) ∧
    (∀ x, 0 ≤ x < 8 → (cursor_row c, cursor_col c) ≠ (row, col) →
      f (cell_pixel (cursor_row c) (cursor_col c) (7, x)) = BG_COLOR) ∧
    ∀ p, (∀ x, 0 ≤ x < 8 → p ≠ cell_pixel row col (7, x) ∧ p ≠ cell_pixel (cursor_row c) (cursor_col c) (7, x)) → f p = fb c p.
Proof.
  intros C Hr Hc. destruct (cursor_line_ok BG_COLOR c C) as (f1 & E1 & I1 & O1).
  destruct (place_cursor_ok row col (with_fb f1 c)) as (f2 & E2 & I2 & O2); [by apply con_ok_fb|done|done|].
  exists f2. split_and!; [|done| |].
  - unfold set_cursor. rewrite (bind_Done undraw_cursor _ _ _ _ E1).
    replace (Z.to_nat (row - MAX_ROWS + 1)) with 0%nat by screen. cbn [scroll_loop]. rewrite bind_ret.
    rewrite (proj2 (Z.ltb_ge row 0)) by lia. done.
  - intros x Hx Hne. rewrite O2; [by apply I1|]. intros y Hy E. apply Hne.
    destruct C. unfold cell_pixel in E. cbn [fst snd] in E. apply at_pixel_inj in E; [|screen..]. f_equal; lia.
  - intros p Hp. rewrite O2 by (intros x Hx; by apply Hp). apply O1. intros x Hx. by apply Hp.
Qed.

(** Past the last row the screen scrolls, where there is room for it. *)
Lemma scroll_ok c : con_ok c → scrollable c → ∃ f, scroll c = Done tt (with_fb f c).
Proof.
  intros C Hs. unfold scroll, scrollable in *. unfold mbind, M_bind, fb_memmove, fb_memset.
  unfold mbind, M_bind. cbn -[Z.mul Z.add Z.leb DISPLAY_WIDTH DISPLAY_HEIGHT].
  rewrite !(proj2 (Z.leb_le _ (fb_size c))) by (screen). cbn -[Z.mul Z.add Z.leb DISPLAY_WIDTH DISPLAY_HEIGHT].
  rewrite (proj2 (Z.leb_le _ (fb_size c))) by (screen). by eexists.
Qed.

Lemma set_cursor_below col c :
  con_ok c → scrollable c → 0 ≤ col < MAX_COLS → cursor_row c = MAX_ROWS - 1 →
  ∃ f, set_cursor (cursor_row c + 1) col c = Done 0 (with_cursor (cursor_row c) col (with_fb f c)).
Proof.
  intros C Hs Hc Hr. destruct (cursor_line_ok BG_COLOR c C) as (f1 & E1 & _).
  destruct (scroll_ok (with_fb f1 c)) as (f2 & E2); [by apply con_ok_fb|done|].
  destruct (place_cursor_ok (cursor_row c) col (with_fb f2 c)) as (f3 & E3 & _); [by apply con_ok_fb|screen|done|].
  exists f3. unfold set_cursor. rewrite (bind_Done undraw_cursor _ _ _ _ E1).
  replace (Z.to_nat (cursor_row c + 1 - MAX_ROWS + 1)) with 1%nat by screen. cbn [scroll_loop].
  rewrite (proj2 (Z.leb_le _ _)) by lia.
  rewrite (bind_Done (scroll;; _) _ _ (cursor_row c) (with_fb f2 c)).
  - rewrite (proj2 (Z.ltb_ge _ 0)) by screen. done.
  - mstep E2. unfold mret, M_ret. f_equal. lia.
Qed.

(** ** Any character *)

Lemma each_fb {A} (g : A → M con unit) l c :
  (∀ a c, a ∈ l → con_ok c → ∃ f, g a c = Done tt (with_fb f c)) → con_ok c → ∃ f, each g l c = Done tt (with_fb f c).
Proof.
  revert c. induction l as [|a l IH]; intros c Hg C; [exists (fb c); by destruct c|].
  destruct (Hg a c) as (f & E); [by left|done|]. cbn [each]. rewrite (bind_Done _ _ _ _ _ E).
  destruct (IH (with_fb f c)) as (f' & ->); [intros ? ? ?; apply Hg; by right|by apply con_ok_fb|]. by exists f'.
Qed.

(** What a character leaves: a cursor on the screen, and the same memory. *)
Definition kept (c c' : con) : Prop := con_ok c' ∧ fb_size c' = fb_size c.

Lemma set_cursor_kept row col c :
  con_ok c → scrollable c → row = cursor_row c ∨ row = cursor_row c + 1 ∨ row = 1 → 0 ≤ col < MAX_COLS →
  ∃ c', set_cursor row col c = Done 0 c' ∧ kept c c'.
Proof.
  intros C Hs Hr Hc. pose proof (co_row c C).
  destruct (decide (row < MAX_ROWS)).
  - destruct (set_cursor_ok row col c) as (f & E & _); [done|screen|done|]. eexists. split; [done|].
    split; [|done]. apply con_ok_cursor; [by apply con_ok_fb|screen|done].
  - assert (cursor_row c = MAX_ROWS - 1 ∧ row = cursor_row c + 1) as [Hl ->] by screen.
    destruct (set_cursor_below col c) as (f & E); [done..|]. eexists. split; [done|].
    split; [|done]. apply con_ok_cursor; [by apply con_ok_fb|screen|done].
Qed.

Lemma clear_ok c : con_ok c → ∃ f,
  each (λ y, each (λ x, pixel x y BG_COLOR;; mret tt) (seqZ 0 DISPLAY_WIDTH)) (seqZ 0 DISPLAY_HEIGHT) c = Done tt (with_fb f c).
Proof.
  apply each_fb. intros y c' Hy%elem_of_seqZ C'. apply each_fb; [|done]. intros x c'' Hx%elem_of_seqZ C''.
  eexists. mstep (pixel_ok x y BG_COLOR c'' C'' ltac:(lia) ltac:(lia)). done.
Qed.

(** A move of the cursor whose result is not used. *)
Lemma moved row col c :
  con_ok c → scrollable c → row = cursor_row c ∨ row = cursor_row c + 1 ∨ row = 1 → 0 ≤ col < MAX_COLS →
  ∃ c', (set_cursor row col;; mret tt) c = Done tt c' ∧ kept c c'.
Proof. intros C Hs Hr Hc. destruct (set_cursor_kept row col c C Hs Hr Hc) as (c' & E & Hk). mstep E. by exists c'. Qed.

Lemma advance_kept c : con_ok c → scrollable c → ∃ c', advance_cursor c = Done tt c' ∧ kept c c'.
Proof.
  intros C Hs. pose proof (co_col c C). unfold advance_cursor. rewrite (bind_Done get _ c c c) by done.
  destruct (Z.ltb_spec (cursor_col c + 1) MAX_COLS); apply moved; try done; try lia; screen.
Qed.

Lemma tab_stop col : 0 ≤ col → 0 ≤ Z.land (- col) 7 < 8.
Proof. intros. change 7 with (Z.ones 3). rewrite Z.land_ones by lia. by apply Z.mod_pos_bound. Qed.

Lemma handle_char_kept ch c : con_ok c → scrollable c → ∃ c', handle_char ch c = Done tt c' ∧ kept c c'.
Proof.
  intros C Hs. pose proof (co_row c C). pose proof (co_col c C). unfold handle_char.
  assert (Hget : ∀ (k : con → M con unit), (get ≫= k) c = k c c) by done.
  destruct ((32 <=? ch) && (ch <? 127)).
  { unfold put_char. rewrite Hget.
    destruct (write_char_ok (cursor_row c) (cursor_col c) ch TEXT_COLOR BG_COLOR ltac:(done) ltac:(done) c C) as (f & E & _).
    mstep E. destruct (advance_kept (with_fb f c)) as (c' & Ea & Hk); [by apply con_ok_fb|done|]. by exists c'. }
  destruct (ch =? 8).
  { unfold backspace. rewrite Hget. destruct (Z.ltb_spec 0 (cursor_col c)); [apply moved; try done; lia|by exists c]. }
  destruct (ch =? 9).
  { unfold tab. rewrite Hget. pose proof (tab_stop (cursor_col c) ltac:(lia)).
    destruct (Z.leb_spec MAX_COLS (Z.land (- cursor_col c) 7 + cursor_col c)); apply moved; try done; try lia; screen. }
  destruct (ch =? 10); [unfold newline; rewrite Hget; apply moved; try done; try lia; screen|].
  destruct (ch =? 12).
  { unfold clear_screen. destruct (clear_ok c C) as (f & E). rewrite (bind_Done _ _ _ _ _ E).
    apply (moved 1 0 (with_fb f c)); [by apply con_ok_fb|done|lia|screen]. }
  destruct (ch =? 13); [unfold carriage_return; rewrite Hget; apply moved; try done; try lia; screen|by exists c].
Qed.

(** C33: whatever characters are printed, the code returns with the cursor on
    the screen, in a framebuffer with room for the addresses that [scroll]
    uses. *)
Theorem console_cursor_on_screen (s : list Z) (c : con) :
  con_ok c → scrollable c →
  ∃ c', each handle_char s c = Done tt c' ∧ con_ok c' ∧ fb_size c' = fb_size c.
Proof.
  revert c. induction s as [|ch s IH]; intros c C Hs; [by exists c|].
  destruct (handle_char_kept ch c C Hs) as (c1 & E1 & C1 & H1). cbn [each]. rewrite (bind_Done _ _ _ _ _ E1).
  destruct (IH c1 C1) as (c2 & E2 & C2 & H2); [unfold scrollable; by rewrite H1|]. exists c2. by rewrite H2, H1.
Qed.

(** Eight megapixels, and the sixteen megabytes of the device. *)
Definition big_screen : con := Con 0x50000000 0x40000000 (2 ^ 23) (λ _, 0) 1 0.
Definition bochs_screen (row col : Z) : con := Con 0x50000000 0x40000000 (2 ^ 22) (λ _, 0) row col.

Lemma console_cursor_on_screen_witness :
  ∃ c', each handle_char (replicate 200 10 ++ [72; 9; 105; 8; 13; 12]) big_screen = Done tt c' ∧
    con_ok c' ∧ fb_size c' = 2 ^ 23.
Proof. apply (console_cursor_on_screen _ big_screen); [split; cbn; screen|unfold scrollable; simpl; screen]. Defined.

(** ** What a printable character shows *)

(** The cell after the cursor. *)
Definition next_cell (c : con) : Z * Z :=
  if cursor_col c + 1 <? MAX_COLS then (cursor_row c, cursor_col c + 1) else (cursor_row c + 1, 0).

Lemma put_char_effect ch c :
  con_ok c → (next_cell c).1 < MAX_ROWS →
  ∃ f, put_char ch c = Done tt (with_cursor (next_cell c).1 (next_cell c).2 (with_fb f c)) ∧
    (∀ i j, 0 ≤ i < 8 → 0 ≤ j < 8 → f (cell_pixel (cursor_row c) (cursor_col c) (i, j)) =
      if decide (i = 7) then BG_COLOR else if glyph_bit ch i j then TEXT_COLOR else BG_COLOR) ∧
    (∀ j, 0 ≤ j < 8 → f (cell_pixel (next_cell c).1 (next_cell c).2 (7, j)) = TEXT_COLOR) ∧
    ∀ p, (∀ i j, 0 ≤ i < 8 → 0 ≤ j < 8 → p ≠ cell_pixel (cursor_row c) (cursor_col c) (i, j)) →
      (∀ j, 0 ≤ j < 8 → p ≠ cell_pixel (next_cell c).1 (next_cell c).2 (7, j)) → f p = fb c p.
Proof.
  intros C Hn. pose proof (co_row c C) as Hr. pose proof (co_col c C) as Hc.
  destruct (write_char_ok (cursor_row c) (cursor_col c) ch TEXT_COLOR BG_COLOR Hr Hc c C) as (f1 & E1 & I1 & O1).
  assert (Hx : 0 ≤ (next_cell c).1 < MAX_ROWS ∧ 0 ≤ (next_cell c).2 < MAX_COLS ∧
      (cursor_row c, cursor_col c) ≠ ((next_cell c).1, (next_cell c).2)).
  { unfold next_cell in *. destruct (Z.ltb_spec (cursor_col c + 1) MAX_COLS); cbn [fst snd] in *;
      (split_and!; [screen..|]); intros E; pose proof (f_equal fst E) as F; pose proof (f_equal snd E) as S; cbn [fst snd] in F, S; screen. }
  destruct Hx as (Hx1 & Hx2 & Hne).
  destruct (set_cursor_ok (next_cell c).1 (next_cell c).2 (with_fb f1 c)) as (f2 & E2 & I2 & J2 & O2);
    [by apply con_ok_fb|done|done|]. cbn [with_fb cursor_row cursor_col fb] in *.
  exists f2. split_and!; [| |done|].
  - unfold put_char. rewrite (bind_Done get _ c c c) by done. mstep E1. unfold advance_cursor.
    rewrite (bind_Done get _ _ (with_fb f1 c) (with_fb f1 c)) by done. cbn [with_fb cursor_row cursor_col].
    transitivity ((set_cursor (next_cell c).1 (next_cell c).2;; mret tt) (with_fb f1 c)); [|by mstep E2].
    unfold next_cell. by destruct (_ <? _).
  - intros i j Hi Hj. destruct (decide (i = 7)) as [->|]; [by apply J2|].
    rewrite O2; [by apply (I1 (i, j))|]. intros x Hx. unfold cell_pixel. cbn [fst snd].
    split; intros E; apply at_pixel_inj in E; screen.
  - intros p Hp Hq. rewrite O2; [|intros x Hx; split; [by apply Hq|apply Hp; lia]].
    apply O1. intros [i j] ? ?. by apply Hp.
Qed.

(** C34: a printable character appears in the cell of the cursor: its pixels are
    those of the glyph but for the last row, which is left blank; the cursor
    line appears in the next cell, and no other pixel changes. *)
Theorem printed_char_shown ch c :
  con_ok c → 32 ≤ ch < 127 → (next_cell c).1 < MAX_ROWS →
  ∃ c', handle_char ch c = Done tt c' ∧ (cursor_row c', cursor_col c') = next_cell c ∧
    (∀ i j, 0 ≤ i < 7 → 0 ≤ j < 8 →
      fb c' (cell_pixel (cursor_row c) (cursor_col c) (i, j)) = if glyph_bit ch i j then TEXT_COLOR else BG_COLOR) ∧
    (∀ j, 0 ≤ j < 8 → fb c' (cell_pixel (cursor_row c) (cursor_col c) (7, j)) = BG_COLOR) ∧
    (∀ j, 0 ≤ j < 8 → fb c' (cell_pixel (cursor_row c') (cursor_col c') (7, j)) = TEXT_COLOR) ∧
    ∀ p, (∀ i j, 0 ≤ i < 8 → 0 ≤ j < 8 → p ≠ cell_pixel (cursor_row c) (cursor_col c) (i, j)) →
      (∀ j, 0 ≤ j < 8 → p ≠ cell_pixel (cursor_row c') (cursor_col c') (7, j)) → fb c' p = fb c p.
Proof.
  intros C Hch Hn. destruct (put_char_effect ch c C Hn) as (f & E & I & J & O).
  exists (with_cursor (next_cell c).1 (next_cell c).2 (with_fb f c)). split_and!; try done.
  - unfold handle_char. by rewrite (proj2 (Z.leb_le 32 ch)), (proj2 (Z.ltb_lt ch 127)) by lia.
  - simpl. by destruct (next_cell c).
  - intros i j Hi Hj. cbn [with_cursor with_fb fb]. rewrite I by lia. by rewrite decide_False by lia.
  - intros j Hj. cbn [with_cursor with_fb fb]. by rewrite I by lia.
Qed.

Lemma printed_char_shown_witness :
  ∃ c', handle_char 65 (bochs_screen 1 0) = Done tt c' ∧ (cursor_row c', cursor_col c') = (1, 1) ∧
    (∀ i j, 0 ≤ i < 7 → 0 ≤ j < 8 → fb c' (cell_pixel 1 0 (i, j)) = if glyph_bit 65 i j then TEXT_COLOR else BG_COLOR).
Proof.
  destruct (printed_char_shown 65 (bochs_screen 1 0)) as (c' & E & N & G & _); [split; cbn; screen|lia|done|].
  by exists c'.
Defined.

(** ** Two faults *)

(** An underscore has pixels in the last row only, so nothing is shown. *)
Theorem underscore_not_shown c :
  con_ok c → (next_cell c).1 < MAX_ROWS →
  ∃ c', handle_char 95 c = Done tt c' ∧
    ∀ i j, 0 ≤ i < 8 → 0 ≤ j < 8 → fb c' (cell_pixel (cursor_row c) (cursor_col c) (i, j)) = BG_COLOR.
Proof.
  intros C Hn. destruct (put_char_effect 95 c C Hn) as (f & E & I & _). eexists. split; [exact E|].
  intros i j Hi Hj. cbn [with_cursor with_fb fb]. rewrite I by done. case_decide as Hd; [done|].
  assert (Hg : glyph_bit 95 i j = false); [|by rewrite Hg].
  assert (Hz : i ∈ seqZ 0 7) by (apply elem_of_seqZ; lia). change (seqZ 0 7) with [0; 1; 2; 3; 4; 5; 6] in Hz. clear -Hz.
  rewrite !elem_of_cons, elem_of_nil in Hz. unfold glyph_bit.
  by destruct Hz as [->|[->|[->|[->|[->|[->|[->|[]]]]]]]].
Qed.

(** A new line on the last row of the screen leaves the sixteen megabytes of
    the framebuffer. *)
Theorem scroll_out_of_framebuffer col : 0 ≤ col < MAX_COLS → handle_char 10 (bochs_screen 95 col) = Fault.
Proof.
  intros Hc. assert (C : con_ok (bochs_screen 95 col)) by (split; cbn; screen).
  destruct (cursor_line_ok BG_COLOR _ C) as (f & E & _). cbn [handle_char Z.leb Z.ltb Z.eqb andb Z.compare].
  change (handle_char 10 (bochs_screen 95 col)) with ((set_cursor 96 0;; mret tt) (bochs_screen 95 col)).
  unfold set_cursor. unfold mbind at 1, M_bind at 1. rewrite (bind_Done undraw_cursor _ _ _ _ E). done.
Qed.
