(* ===== verification/Virtio.v ===== *)
(** * The block device: its queue of requests (kernel/drivers/blk/virtio_blk.c)

    The ring the driver shares with the device: the table of descriptors, the
    ring of available chains and the ring of used ones, each as the array of
    its entries.  A request is a structure on the kernel stack of the task that
    makes it, named by its address.  The critical sections are functions on
    the driver's state, composed with the locks and semaphores of Sync.v. *)

From S2P Require Import Prelude Clist Sched Sync.

Definition VIRTIO_MAX_QUEUE_SIZE : Z := 16.
Definition VIRTIO_REQ_NUM_DESC : Z := 3.
Definition VIRTIO_IRQ_QUEUE : Z := 1.
Definition VIRTIO_BLK_S_OK : Z := 0.
Definition VIRTIO_BLK_S_IOERR : Z := 1.
Definition VIRTIO_BLK_S_UNSUPP : Z := 2.
Definition VIRTIO_BLK_T_IN : Z := 0.
Definition VIRTIO_BLK_T_OUT : Z := 1.
Definition VIRTQ_DESC_F_NEXT : Z := 1.
Definition VIRTQ_DESC_F_WRITE : Z := 2.
(** [sizeof(struct virtio_blk_req_hdr)] and [offsetof(struct virtio_blk_req, status)]. *)
Definition SIZEOF_REQ_HDR : Z := 16.
Definition OFFSETOF_STATUS : Z := 68.

Record virtq_desc := Desc { d_addr : Z; d_len : Z; d_flags : Z; d_next : Z }.
Record virtio_blk_req := Req { rq_type : Z; rq_sector : Z; rq_head : Z; rq_len : Z; rq_status : Z }.

Record vblk := VBlk {
  vq_num : Z;
  vq_desc : list virtq_desc;
  av_idx : Z;
  av_ring : list Z;
  us_idx : Z;
  us_ring : list (Z * Z);
  free_head_idx : Z;
  inflight : list Z;
  last_seen_used : Z;
  vq_reqs : gmap Z virtio_blk_req;
}.

Definition with_desc (d : list virtq_desc) (v : vblk) : vblk :=
  VBlk (vq_num v) d (av_idx v) (av_ring v) (us_idx v) (us_ring v) (free_head_idx v) (inflight v) (last_seen_used v) (vq_reqs v).
Definition with_avail (i : Z) (r : list Z) (v : vblk) : vblk :=
  VBlk (vq_num v) (vq_desc v) i r (us_idx v) (us_ring v) (free_head_idx v) (inflight v) (last_seen_used v) (vq_reqs v).
Definition with_used (i : Z) (r : list (Z * Z)) (v : vblk) : vblk :=
  VBlk (vq_num v) (vq_desc v) (av_idx v) (av_ring v) i r (free_head_idx v) (inflight v) (last_seen_used v) (vq_reqs v).
Definition with_free_head (i : Z) (v : vblk) : vblk :=
  VBlk (vq_num v) (vq_desc v) (av_idx v) (av_ring v) (us_idx v) (us_ring v) i (inflight v) (last_seen_used v) (vq_reqs v).
Definition with_inflight (l : list Z) (v : vblk) : vblk :=
  VBlk (vq_num v) (vq_desc v) (av_idx v) (av_ring v) (us_idx v) (us_ring v) (free_head_idx v) l (last_seen_used v) (vq_reqs v).
Definition with_last_seen (i : Z) (v : vblk) : vblk :=
  VBlk (vq_num v) (vq_desc v) (av_idx v) (av_ring v) (us_idx v) (us_ring v) (free_head_idx v) (inflight v) i (vq_reqs v).
Definition with_reqs (m : gmap Z virtio_blk_req) (v : vblk) : vblk :=
  VBlk (vq_num v) (vq_desc v) (av_idx v) (av_ring v) (us_idx v) (us_ring v) (free_head_idx v) (inflight v) (last_seen_used v) m.

Definition rq_set_head (h : Z) (q : virtio_blk_req) : virtio_blk_req := Req (rq_type q) (rq_sector q) h (rq_len q) (rq_status q).
Definition rq_set_len (l : Z) (q : virtio_blk_req) : virtio_blk_req := Req (rq_type q) (rq_sector q) (rq_head q) l (rq_status q).
Definition rq_set_status (s : Z) (q : virtio_blk_req) : virtio_blk_req := Req (rq_type q) (rq_sector q) (rq_head q) (rq_len q) s.
Definition d_set_flags (f : Z) (d : virtq_desc) : virtq_desc := Desc (d_addr d) (d_len d) f (d_next d).
Definition d_set_next (n : Z) (d : virtq_desc) : virtq_desc := Desc (d_addr d) (d_len d) (d_flags d) n.

(** A queue of [n] entries on a page of zeros. *)
Definition virtq_init (n : Z) : vblk :=
  VBlk n (replicate (Z.to_nat n) (Desc 0 0 0 0)) 0 (replicate (Z.to_nat n) 0) 0 (replicate (Z.to_nat n) (0, 0)) 0
    (replicate (Z.to_nat VIRTIO_MAX_QUEUE_SIZE) 0) 0 ∅.

(** ** The critical sections *)

(** An index out of the table is an invalid access. *)
Definition at_idx {A} (l : list A) (i : Z) : option A := if i <? 0 then None else l !! Z.to_nat i.
Definition set_idx {A} (l : list A) (i : Z) (x : A) : option (list A) :=
  _ ← at_idx l i; Some (<[Z.to_nat i := x]> l).

Fixpoint free_list_loop (desc : list virtq_desc) (ks : list Z) : option (list virtq_desc) :=
  match ks with
  | [] => Some desc
  | i :: ks => d ← at_idx desc i; desc ← set_idx desc i (d_set_next (i + 1) d); free_list_loop desc ks
  end.
(** The list of the free descriptors; the semaphore and the lock apart. *)
Definition init_free_desc (v : vblk) : option vblk :=
  desc ← free_list_loop (vq_desc v) (seqZ 0 (vq_num v - 1));
  Some (with_free_head 0 (with_desc desc v)).

Definition submit_queue (req data size : Z) (v : vblk) : option vblk :=
  q ← vq_reqs v !! req;
  let idx0 := free_head_idx v in
  d0 ← at_idx (vq_desc v) idx0;
  let idx1 := d_next d0 in
  d1 ← at_idx (vq_desc v) idx1;
  let idx2 := d_next d1 in
  d2 ← at_idx (vq_desc v) idx2;
  let new_free_slot := d_next d2 in
  desc ← set_idx (vq_desc v) idx0 (Desc req SIZEOF_REQ_HDR VIRTQ_DESC_F_NEXT idx1);
  let data_flags := if rq_type q =? VIRTIO_BLK_T_IN then Z.lor VIRTQ_DESC_F_NEXT VIRTQ_DESC_F_WRITE else VIRTQ_DESC_F_NEXT in
  desc ← set_idx desc idx1 (Desc data size data_flags idx2);
  desc ← set_idx desc idx2 (Desc (req + OFFSETOF_STATUS) 1 VIRTQ_DESC_F_WRITE 0);
  ring ← set_idx (av_ring v) (av_idx v mod vq_num v) idx0;
  infl ← set_idx (inflight v) idx0 req;
  Some (with_avail (u16 (av_idx v + 1)) ring (with_reqs (<[req := rq_set_head idx0 q]> (vq_reqs v))
    (with_inflight infl (with_free_head new_free_slot (with_desc desc v))))).

(** The end of the chain that starts at [i].  Every turn clears a flag, so the
    size of the table bounds their number. *)
Fixpoint release_walk (fuel : nat) (desc : list virtq_desc) (i : Z) : option (list virtq_desc * Z) :=
  match fuel with
  | O => None
  | S fuel =>
    curr ← at_idx desc i;
    if has (d_flags curr) VIRTQ_DESC_F_NEXT then
      desc ← set_idx desc i (d_set_flags 0 curr);
      release_walk fuel desc (d_next curr)
    else Some (desc, i)
  end.
Definition release_push (head_idx status : Z) (v : vblk) : option vblk :=
  d ← at_idx (vq_desc v) status;
  desc ← set_idx (vq_desc v) status (d_set_next (free_head_idx v) d);
  Some (with_free_head head_idx (with_desc desc v)).

(** A turn of the loop of the interrupt handler: the request it completes, and
    after the task is woken the count of the entries that were seen. *)
Definition irq_ack (v : vblk) : option (Z * vblk) :=
  dev_ack ← at_idx (us_ring v) (last_seen_used v mod vq_num v);
  req ← at_idx (inflight v) dev_ack.1;
  q ← vq_reqs v !! req;
  Some (req, with_reqs (<[req := rq_set_len dev_ack.2 q]> (vq_reqs v)) v).
Definition irq_next (v : vblk) : vblk := with_last_seen (u16 (last_seen_used v + 1)) v.

(** ** The operations of the driver *)

Record vst := VSt { vs_k : kst; vs_v : vblk }.
Fixpoint vzoom {A : Type} (v : vblk) (o : outcome kst A) : outcome vst A :=
  match o with
  | Done a k => Done a (VSt k v)
  | Panic msg => Panic msg
  | Fault => Fault
  | NoFuel => NoFuel
  | Switch k c => Switch (VSt k v) (λ s, vzoom (vs_v s) (c (vs_k s)))
  end.
Definition on_vk {A} (m : M kst A) : M vst A := λ s, vzoom (vs_v s) (m (vs_k s)).
Definition on_vblk (f : vblk → option vblk) : M vst unit := modify_opt (λ s, VSt (vs_k s) <$> f (vs_v s)).

(** The addresses of the lock and of the semaphores. *)
Definition vq_lock : spin := SpinL 2.
Definition free_slots : Z := 5.
Definition OFFSETOF_COMPLETION : Z := 24.
Definition completion_sem (req : Z) : Z := req + OFFSETOF_COMPLETION.

Definition init_free_list : M vst unit :=
  on_vblk init_free_desc;;
  v ← gets vs_v;
  on_vk (sem_init free_slots (vq_num v / VIRTIO_REQ_NUM_DESC));;
  on_vk (spinlock_init vq_lock).

Definition submit_req (req data size : Z) : M vst unit :=
  on_vk (spinlock_lock vq_lock);;
  on_vblk (submit_queue req data size);;
  on_vk (spinlock_unlock vq_lock).

Definition release_desc_chain (head_idx : Z) : M vst unit :=
  v ← gets vs_v;
  r ← of_opt (release_walk (S (length (vq_desc v))) (vq_desc v) head_idx);
  on_vblk (λ v, Some (with_desc r.1 v));;
  on_vk (spinlock_lock vq_lock);;
  on_vblk (release_push head_idx r.2);;
  on_vk (spinlock_unlock vq_lock);;
  on_vk (sem_post free_slots).

(** Waking a task may give it the processor before the turn ends.  [fuel]
    bounds the number of entries. *)
Fixpoint irq_loop (fuel : nat) : M vst unit :=
  match fuel with
  | O => nofuel
  | S fuel =>
    v ← gets vs_v;
    if last_seen_used v =? us_idx v then mret tt else
    r ← of_opt (irq_ack v);
    on_vblk (λ _, Some r.2);;
    on_vk (sem_post (completion_sem r.1));;
    on_vblk (λ v, Some (irq_next v));;
    irq_loop fuel
  end.
Definition virtio_irq_handler (fuel : nat) (irq_status : Z) : M vst unit :=
  if negb (has irq_status VIRTIO_IRQ_QUEUE) then mret tt else irq_loop fuel.

(** [req]: the address of the structure on the stack, and [junk] what was
    there; [notify]: the write to the device's doorbell. *)
Definition virtio_blk_request (notify : M vst unit) (junk : virtio_blk_req) (req type sector data size : Z) : M vst Z :=
  on_vk (sem_wait free_slots);;
  on_vblk (λ v, Some (with_reqs (<[req := Req type sector (rq_head junk) (rq_len junk) (rq_status junk)]> (vq_reqs v)) v));;
  on_vk (sem_init (completion_sem req) 0);;
  submit_req req data size;;
  notify;;
  on_vk (sem_wait (completion_sem req));;
  v ← gets vs_v;
  q ← of_opt (vq_reqs v !! req);
  release_desc_chain (rq_head q);;
  v ← gets vs_v;
  q ← of_opt (vq_reqs v !! req);
  on_vblk (λ v, Some (with_reqs (delete req (vq_reqs v)) v));;
  if rq_status q =? VIRTIO_BLK_S_IOERR then panic "Block IO error" else
  if rq_status q =? VIRTIO_BLK_S_UNSUPP then panic "Unsupported Virtio Block operations" else
  mret (s32 (rq_len q)).
