(* ===== verification/VirtioThm.v ===== *)
(** * The queue of the block device: what the driver and the device share

    A transition system of the tasks that make requests, the device and the
    interrupt handler, each step a critical section of Virtio.v or an action of
    the device as the virtio specification describes it.  A step may happen
    whenever its guard holds, so tasks and device interleave freely; the
    interrupt controller does not hand out the interrupt again before the
    handler has finished.

    The invariant: the descriptors are shared out between the free list and
    the chains of the requests, and the head of every request that waits is in
    exactly one of the available ring, the device and the used ring. *)

From S2P Require Import Prelude Clist Sched Sync Virtio.

(** ** Arrays by index *)

Section Index.
Context {A : Type}.
Implicit Types l : list A.

Lemma at_idx_range l i : is_Some (at_idx l i) ↔ 0 ≤ i < Z.of_nat (length l).
Proof.
  unfold at_idx. destruct (Z.ltb_spec i 0); [split; [by intros []|lia]|].
  rewrite lookup_lt_is_Some. lia.
Qed.
Lemma set_idx_ok l i x : 0 ≤ i < Z.of_nat (length l) → is_Some (set_idx l i x).
Proof. intros [y Hy]%at_idx_range. unfold set_idx. rewrite Hy. by eexists. Qed.
Lemma set_idx_inv l i x l' :
  set_idx l i x = Some l' →
  length l' = length l ∧ 0 ≤ i < Z.of_nat (length l) ∧ ∀ j, at_idx l' j = if decide (j = i) then Some x else at_idx l j.
Proof.
  unfold set_idx. destruct (at_idx l i) as [y|] eqn:E; [|done]. simpl. intros [= <-].
  assert (0 ≤ i < Z.of_nat (length l)) by (apply at_idx_range; eauto).
  split_and!; [by rewrite length_insert|lia..|]. intros j. unfold at_idx. destruct (decide (j = i)) as [->|].
  - destruct (Z.ltb_spec i 0); [lia|]. apply list_lookup_insert_eq. lia.
  - destruct (Z.ltb_spec j 0); [done|]. apply list_lookup_insert_ne. lia.
Qed.
End Index.

(** ** Rings: [L] from the index [start] on *)

Definition ring_at {A} (l : list A) (num start : Z) (L : list A) : Prop :=
  ∀ j x, L !! j = Some x → at_idx l ((start + Z.of_nat j) mod num) = Some x.

Section Rings.
Context {A : Type} (num : Z) (Hnum : 0 < num) (Hdiv : (num | 2 ^ 16)).
Implicit Types l L : list A.

Lemma wrap_mod x : u16 x mod num = x mod num.
Proof. unfold wrap. by apply Z.mod_mod_divide. Qed.

Lemma ring_push l l' start L x :
  ring_at l num start L → Z.of_nat (length L) < num →
  set_idx l (u16 (start + Z.of_nat (length L)) mod num) x = Some l' → ring_at l' num start (L ++ [x]).
Proof.
  intros HL Hl (_ & _ & Hs)%set_idx_inv j y. rewrite Hs, wrap_mod.
  rewrite lookup_snoc_Some. intros [[Hj Hy]|[-> <-]]; [|by rewrite decide_True].
  rewrite decide_False; [by apply HL|]. intros E.
  assert (E' : (Z.of_nat (length L) - Z.of_nat j) mod num = 0).
  { replace (_ - _) with ((start + Z.of_nat (length L)) - (start + Z.of_nat j)) by lia.
    by rewrite Zminus_mod, E, Z.sub_diag, Z.mod_0_l by lia. }
  rewrite Z.mod_small in E' by lia. lia.
Qed.

Lemma ring_pop l start x L :
  ring_at l num start (x :: L) → at_idx l (start mod num) = Some x ∧ ring_at l num (u16 (start + 1)) L.
Proof.
  intros HL. split.
  - rewrite <- (HL 0%nat x); [|done]. f_equal. f_equal. lia.
  - intros j y Hj. rewrite <- (HL (S j) y) by done. f_equal.
    rewrite <- Z.add_mod_idemp_l, wrap_mod, Z.add_mod_idemp_l by lia. f_equal. lia.
Qed.

Lemma ring_empty start (L : list A) :
  0 ≤ start < 2 ^ 16 → Z.of_nat (length L) < 2 ^ 16 → u16 (start + Z.of_nat (length L)) = start ↔ L = [].
Proof.
  intros Hs Hl. split; [|intros ->; simpl; rewrite Z.add_0_r; by apply wrap_small].
  intros E. destruct L as [|x L]; [done|]. exfalso. unfold wrap in E.
  assert (E' : Z.of_nat (length (x :: L)) mod 2 ^ 16 = 0).
  { replace (Z.of_nat (length (x :: L))) with ((start + Z.of_nat (length (x :: L))) - start) by lia.
    by rewrite Zminus_mod, E, (Z.mod_small start), Z.sub_diag by lia. }
  rewrite Z.mod_small in E' by lia. simpl in E'. lia.
Qed.
End Rings.

(** ** The transition system *)

(** What a task that makes a request has done so far: taken a place, put its
    chain in the queue, been woken, reached the end of its chain. *)
Inductive phase := Reserved | Submitted | Completed | Walked (status : Z).
#[export] Instance phase_eq_dec : EqDecision phase.
Proof. solve_decision. Defined.

(** The driver, the value of [free_slots], the requests, whether the handler is
    between waking a task and counting the entry, the index of the device in
    the available ring and the chains it is working on. *)
Record vsys := VSys {
  y_v : vblk;
  y_slots : Z;
  y_reqs : gmap Z phase;
  y_mid : bool;
  y_avail : Z;
  y_dev : list Z;
}.

(** The device finishes the chain of head [h]: it writes the status where the
    last descriptor says, and an entry of the used ring. *)
Definition dev_complete (h len st : Z) (v : vblk) : option vblk :=
  d0 ← at_idx (vq_desc v) h;
  d1 ← at_idx (vq_desc v) (d_next d0);
  d2 ← at_idx (vq_desc v) (d_next d1);
  let req := d_addr d2 - OFFSETOF_STATUS in
  q ← vq_reqs v !! req;
  ring ← set_idx (us_ring v) (us_idx v mod vq_num v) (h, len);
  Some (with_used (u16 (us_idx v + 1)) ring (with_reqs (<[req := rq_set_status st q]> (vq_reqs v)) v)).

(** [sem_post] on the semaphore of a request. *)
Definition post (p : phase) : phase := match p with Submitted => Completed | p => p end.

(** The tasks that make requests. *)
Inductive tstep : vsys → vsys → Prop :=
| V_reserve v slots reqs mid av dev r type sector junk :
    0 < slots → reqs !! r = None →
    tstep (VSys v slots reqs mid av dev)
      (VSys (with_reqs (<[r := Req type sector (rq_head junk) (rq_len junk) (rq_status junk)]> (vq_reqs v)) v)
        (slots - 1) (<[r := Reserved]> reqs) mid av dev)
| V_submit v slots reqs mid av dev r data size v' :
    reqs !! r = Some Reserved → submit_queue r data size v = Some v' →
    tstep (VSys v slots reqs mid av dev) (VSys v' slots (<[r := Submitted]> reqs) mid av dev)
| V_walk v slots reqs mid av dev r q desc st :
    reqs !! r = Some Completed → vq_reqs v !! r = Some q →
    release_walk (S (length (vq_desc v))) (vq_desc v) (rq_head q) = Some (desc, st) →
    tstep (VSys v slots reqs mid av dev) (VSys (with_desc desc v) slots (<[r := Walked st]> reqs) mid av dev)
| V_push v slots reqs mid av dev r q st v' :
    reqs !! r = Some (Walked st) → vq_reqs v !! r = Some q → release_push (rq_head q) st v = Some v' →
    tstep (VSys v slots reqs mid av dev)
      (VSys (with_reqs (delete r (vq_reqs v')) v') (slots + 1) (delete r reqs) mid av dev).

(** The device and the interrupt handler. *)
Inductive dstep : vsys → vsys → Prop :=
| V_take v slots reqs mid av dev h :
    av ≠ av_idx v → at_idx (av_ring v) (av mod vq_num v) = Some h →
    dstep (VSys v slots reqs mid av dev) (VSys v slots reqs mid (u16 (av + 1)) (dev ++ [h]))
| V_complete v slots reqs mid av dev1 h dev2 len st v' :
    dev_complete h len st v = Some v' →
    dstep (VSys v slots reqs mid av (dev1 ++ h :: dev2)) (VSys v' slots reqs mid av (dev1 ++ dev2))
| V_ack v slots reqs av dev r v' :
    last_seen_used v ≠ us_idx v → irq_ack v = Some (r, v') →
    dstep (VSys v slots reqs false av dev) (VSys v' slots (alter post r reqs) true av dev)
| V_next v slots reqs av dev :
    dstep (VSys v slots reqs true av dev) (VSys (irq_next v) slots reqs false av dev).

Inductive vreach (n : Z) : vsys → Prop :=
| R_init v : init_free_desc (virtq_init n) = Some v → vreach n (VSys v (n / VIRTIO_REQ_NUM_DESC) ∅ false 0 [])
| R_step s s' : vreach n s → tstep s s' ∨ dstep s s' → vreach n s'.

(** ** The invariant *)

(** The free list from [i] on.  Its end is not marked: the semaphore keeps the
    driver from it. *)
Fixpoint fchain (desc : list virtq_desc) (i : Z) (fr : list Z) : Prop :=
  match fr with
  | [] => True
  | x :: fr => x = i ∧ ∃ d, at_idx desc i = Some d ∧ fchain desc (d_next d) fr
  end.

(** The chain of a request: it is linked, and until it is given back its
    descriptors are marked and point to the request. *)
Definition links (desc : list virtq_desc) (r : Z) (marked : bool) (c : Z * Z * Z) : Prop :=
  ∃ d0 d1 d2, at_idx desc c.1.1 = Some d0 ∧ d_next d0 = c.1.2 ∧ at_idx desc c.1.2 = Some d1 ∧ d_next d1 = c.2 ∧
    at_idx desc c.2 = Some d2 ∧
    (marked = true → has (d_flags d0) VIRTQ_DESC_F_NEXT = true ∧ has (d_flags d1) VIRTQ_DESC_F_NEXT = true ∧
      has (d_flags d2) VIRTQ_DESC_F_NEXT = false ∧ d_addr d0 = r ∧ d_addr d2 = r + OFFSETOF_STATUS).
Definition cells (c : Z * Z * Z) : list Z := [c.1.1; c.1.2; c.2].

Definition phase_ok (p : phase) (desc : list virtq_desc) (r : Z) (c : Z * Z * Z) : Prop :=
  match p with
  | Reserved => False
  | Submitted | Completed => links desc r true c
  | Walked st => links desc r false c ∧ st = c.2
  end.

Record VInv (n : Z) (s : vsys) (fr : list Z) (own : gmap Z (Z * Z * Z)) (La : list Z) (Lu : list (Z * Z)) : Prop := {
  v_num : vq_num (y_v s) = n;
  v_desc : Z.of_nat (length (vq_desc (y_v s))) = n;
  v_av : Z.of_nat (length (av_ring (y_v s))) = n;
  v_us : Z.of_nat (length (us_ring (y_v s))) = n;
  v_infl : length (inflight (y_v s)) = Z.to_nat VIRTIO_MAX_QUEUE_SIZE;
  v_free : fchain (vq_desc (y_v s)) (free_head_idx (y_v s)) fr;
  v_nodup : NoDup fr;
  v_count : Z.of_nat (length fr) + 3 * Z.of_nat (size own) = n;
  v_slots : 0 ≤ y_slots s ∧ y_slots s + Z.of_nat (size (y_reqs s)) = n / VIRTIO_REQ_NUM_DESC;
  v_live : ∀ r p, y_reqs s !! r = Some p → is_Some (vq_reqs (y_v s) !! r) ∧ (p = Reserved ∨ is_Some (own !! r));
  v_own : ∀ r c, own !! r = Some c →
    NoDup (cells c) ∧ (∀ x, x ∈ cells c → x ∉ fr) ∧ at_idx (inflight (y_v s)) c.1.1 = Some r ∧
    (∃ q, vq_reqs (y_v s) !! r = Some q ∧ rq_head q = c.1.1) ∧
    ∃ p, y_reqs s !! r = Some p ∧ phase_ok p (vq_desc (y_v s)) r c;
  v_disj : ∀ r r' c c' x, own !! r = Some c → own !! r' = Some c' → x ∈ cells c → x ∈ cells c' → r = r';
  v_avail : 0 ≤ y_avail s < 2 ^ 16 ∧ ring_at (av_ring (y_v s)) n (y_avail s) La ∧
    av_idx (y_v s) = u16 (y_avail s + Z.of_nat (length La));
  v_used : 0 ≤ last_seen_used (y_v s) < 2 ^ 16 ∧
    let start := u16 (last_seen_used (y_v s) + if y_mid s then 1 else 0) in
    ring_at (us_ring (y_v s)) n start Lu ∧ us_idx (y_v s) = u16 (start + Z.of_nat (length Lu));
  v_once : NoDup (La ++ y_dev s ++ Lu.*1);
  v_where : ∀ h, h ∈ La ++ y_dev s ++ Lu.*1 ↔ ∃ r c, own !! r = Some c ∧ c.1.1 = h ∧ y_reqs s !! r = Some Submitted;
}.

Lemma fchain_frame desc desc' i fr :
  (∀ x, x ∈ fr → at_idx desc' x = at_idx desc x) → fchain desc i fr → fchain desc' i fr.
Proof.
  revert i. induction fr as [|x fr IH]; simpl; intros i Hx; [done|].
  intros [-> (d & Hd & Hf)]. split; [done|]. exists d. split; [by rewrite Hx by set_solver|].
  apply IH; [|done]. intros y Hy. apply Hx. set_solver.
Qed.

Lemma phase_frame p desc desc' r c :
  (∀ x, x ∈ cells c → at_idx desc' x = at_idx desc x) → phase_ok p desc r c → phase_ok p desc' r c.
Proof.
  intros Hx. assert (Hl : ∀ b, links desc r b c → links desc' r b c).
  { intros b (d0 & d1 & d2 & H0 & E0 & H1 & E1 & H2 & Hm). exists d0, d1, d2.
    unfold cells in Hx. rewrite !Hx by set_solver. done. }
  destruct p; simpl; naive_solver.
Qed.

Lemma fchain_range desc i fr x : fchain desc i fr → x ∈ fr → 0 ≤ x < Z.of_nat (length desc).
Proof.
  revert i. induction fr as [|y fr IH]; simpl; intros i; [set_solver|].
  intros [-> (d & Hd & Hf)] [->|Hx]%elem_of_cons; [|by apply (IH (d_next d))]. apply at_idx_range. eauto.
Qed.

(** What [submit_queue] does when three descriptors are free. *)
Lemma submit_effect v r q data size a b c fr :
  fchain (vq_desc v) (free_head_idx v) (a :: b :: c :: fr) → NoDup (a :: b :: c :: fr) →
  vq_reqs v !! r = Some q → 0 < vq_num v → Z.of_nat (length (vq_desc v)) = vq_num v →
  Z.of_nat (length (av_ring v)) = vq_num v → vq_num v ≤ Z.of_nat (length (inflight v)) →
  ∃ desc ring infl f, submit_queue r data size v = Some (with_avail (u16 (av_idx v + 1)) ring
      (with_reqs (<[r := rq_set_head a q]> (vq_reqs v)) (with_inflight infl (with_free_head f (with_desc desc v))))) ∧
    length desc = length (vq_desc v) ∧ (∀ j, j ∉ [a; b; c] → at_idx desc j = at_idx (vq_desc v) j) ∧
    fchain desc f fr ∧ links desc r true (a, b, c) ∧
    set_idx (av_ring v) (av_idx v mod vq_num v) a = Some ring ∧ set_idx (inflight v) a r = Some infl.
Proof.
  intros Hf Hnd Hq Hn Hd Ha Hi. assert (Ra := fchain_range _ _ _ a Hf). assert (Rb := fchain_range _ _ _ b Hf). assert (Rc := fchain_range _ _ _ c Hf).
  rewrite !elem_of_cons in Ra, Rb, Rc.
  simpl in Hf. destruct Hf as [Ea (d0 & H0 & Eb & d1 & H1 & Ec & d2 & H2 & Hf)].
  unfold submit_queue. rewrite Hq. simpl. rewrite H0. simpl. rewrite H1. simpl. rewrite H2. simpl.
  rewrite <- Ea, <- Eb, <- Ec in *.
  destruct (set_idx_ok (vq_desc v) a (Desc r SIZEOF_REQ_HDR VIRTQ_DESC_F_NEXT b)) as [e1 E1]; [tauto|].
  rewrite E1. apply set_idx_inv in E1 as (L1 & _ & E1). simpl. match goal with |- context [Desc data size ?f c] => set (fl := f) end.
  destruct (set_idx_ok e1 b (Desc data size fl c)) as [e2 E2]; [rewrite L1; tauto|].
  rewrite E2. apply set_idx_inv in E2 as (L2 & _ & E2). simpl.
  destruct (set_idx_ok e2 c (Desc (r + OFFSETOF_STATUS) 1 VIRTQ_DESC_F_WRITE 0)) as [e3 E3]; [rewrite L2, L1; tauto|].
  rewrite E3. apply set_idx_inv in E3 as (L3 & _ & E3). simpl.
  destruct (set_idx_ok (av_ring v) (av_idx v mod vq_num v) a) as [ring Er]; [rewrite Ha; by apply Z.mod_pos_bound|].
  destruct (set_idx_ok (inflight v) a r) as [infl Ei]; [specialize (Ra ltac:(tauto)); lia|]. rewrite Er. simpl. rewrite Ei. simpl.
  rewrite !NoDup_cons, !not_elem_of_cons in Hnd. destruct Hnd as ((Hab & Hac & Naf) & (Hbc & Nbf) & Ncf & _).
  assert (Ho : ∀ j, j ∉ [a; b; c] → at_idx e3 j = at_idx (vq_desc v) j).
  { intros j. rewrite !not_elem_of_cons. intros (? & ? & ? & _). by rewrite E3, E2, E1, !decide_False. }
  exists e3, ring, infl, (d_next d2). split_and!; [done|lia|done| |  |done..].
  - apply (fchain_frame (vq_desc v)); [|done]. intros x Hx. apply Ho.
    clear -Hx Naf Nbf Ncf. set_solver.
  - exists (Desc r SIZEOF_REQ_HDR VIRTQ_DESC_F_NEXT b), (Desc data size fl c), (Desc (r + OFFSETOF_STATUS) 1 VIRTQ_DESC_F_WRITE 0).
    simpl. rewrite !E3, !E2, !E1. split_and!; try done; try (by repeat case_decide).
    intros _. split_and!; try done. subst fl. by destruct (_ =? _).
Qed.

Lemma NoDup_Permutation_cons {A} (a : A) (l k : list A) : a ∉ l ++ k → NoDup (l ++ k) → NoDup (l ++ [a] ++ k).
Proof. intros Ha Hk. simpl. rewrite <- Permutation_middle. by constructor. Qed.
Lemma elem_of_middle {A} (a h : A) (l k : list A) : h ∈ l ++ [a] ++ k ↔ h = a ∨ h ∈ l ++ k.
Proof. simpl. by rewrite <- Permutation_middle, elem_of_cons. Qed.

Lemma alter_insert_eq' (m : gmap Z phase) (r : Z) (p : phase) (f : phase → phase) :
  m !! r = Some p → alter f r m = <[r := f p]> m.
Proof.
  intros Hp. apply map_eq. intros i. destruct (decide (i = r)) as [->|].
  - by rewrite lookup_alter_eq, Hp, lookup_insert_eq.
  - by rewrite lookup_alter_ne, lookup_insert_ne.
Qed.

(** ** The steps keep the invariant *)

Section Steps.
Context (n : Z) (Hn : 0 < n ≤ VIRTIO_MAX_QUEUE_SIZE) (Hdiv : (n | 2 ^ 16)).
#[local] Set Default Proof Using "All".

Lemma own_reqs s fr own La Lu : VInv n s fr own La Lu → (size own ≤ size (y_reqs s))%nat.
Proof.
  intros I. rewrite <- !size_dom. apply subseteq_size. intros r. rewrite !elem_of_dom. intros [c Hc].
  destruct (v_own _ _ _ _ _ _ I r c Hc) as (_ & _ & _ & _ & p & Hp & _). by exists p.
Qed.

Lemma queue_own s fr own La Lu : VInv n s fr own La Lu → (length (La ++ y_dev s ++ Lu.*1) ≤ size own)%nat.
Proof.
  intros I. transitivity (length ((λ rc, rc.2.1.1) <$> map_to_list own)); [|by rewrite length_fmap, length_map_to_list].
  apply submseteq_length, NoDup_submseteq; [apply (v_once _ _ _ _ _ _ I)|].
  intros h (r & c & Hc & <- & _)%(v_where _ _ _ _ _ _ I). apply list_elem_of_fmap. exists (r, c).
  split; [done|]. by apply elem_of_map_to_list.
Qed.

Lemma third_lt : n / 3 < n.
Proof. apply Z.div_lt; lia. Qed.

(** The rings are never full. *)
Lemma rings_short s fr own La Lu : VInv n s fr own La Lu → Z.of_nat (length La) < n ∧ Z.of_nat (length Lu) < n.
Proof.
  intros I. pose proof (own_reqs _ _ _ _ _ I). pose proof (queue_own _ _ _ _ _ I) as Hq.
  rewrite !length_app, length_fmap in Hq. pose proof (v_slots _ _ _ _ _ _ I) as [? Hs].
  unfold VIRTIO_REQ_NUM_DESC in Hs. pose proof third_lt. lia.
Qed.

(** A request that has a place finds three free descriptors. *)
Lemma free_three s fr own La Lu r :
  VInv n s fr own La Lu → y_reqs s !! r = Some Reserved →
  own !! r = None ∧ ∃ a b c fr', fr = a :: b :: c :: fr'.
Proof.
  intros I Hr. assert (Ho : own !! r = None).
  { destruct (own !! r) as [c|] eqn:Hc; [|done]. exfalso.
    destruct (v_own _ _ _ _ _ _ I r c Hc) as (_ & _ & _ & _ & p & Hp & Hok). rewrite Hr in Hp. by simplify_eq. }
  split; [done|]. assert (size own < size (y_reqs s))%nat.
  { rewrite <- !size_dom. apply subset_size. split.
    - intros r'. rewrite !elem_of_dom. intros [c Hc].
      destruct (v_own _ _ _ _ _ _ I r' c Hc) as (_ & _ & _ & _ & p & Hp & _). by exists p.
    - intros Hs. specialize (Hs r). rewrite !elem_of_dom, Ho, Hr in Hs. destruct Hs; [by eexists|done]. }
  pose proof (v_count _ _ _ _ _ _ I). pose proof (v_slots _ _ _ _ _ _ I) as [? Hs]. unfold VIRTIO_REQ_NUM_DESC in Hs.
  pose proof (Z.mul_div_le n 3 ltac:(lia)). destruct fr as [|a [|b [|c fr]]]; [simpl in *; lia..|]. eauto 10.
Qed.

Lemma step_reserve s fr own La Lu r q :
  VInv n s fr own La Lu → 0 < y_slots s → y_reqs s !! r = None →
  VInv n (VSys (with_reqs (<[r := q]> (vq_reqs (y_v s))) (y_v s)) (y_slots s - 1) (<[r := Reserved]> (y_reqs s))
    (y_mid s) (y_avail s) (y_dev s)) fr own La Lu.
Proof.
  intros I Hs Hr. assert (Ho : ∀ r' c, own !! r' = Some c → r' ≠ r).
  { intros r' c Hc ->. destruct (v_own _ _ _ _ _ _ I r c Hc) as (_ & _ & _ & _ & p & Hp & _). congruence. }
  destruct I; split; simpl; try done.
  - rewrite map_size_insert_None by done. lia.
  - intros r' p. destruct (decide (r' = r)) as [->|]; [rewrite !lookup_insert_eq; naive_solver|].
    rewrite !lookup_insert_ne by done. apply v_live0.
  - intros r' c Hc. rewrite !lookup_insert_ne by (by apply not_eq_sym, (Ho r' c)). by apply v_own0.
  - intros h. rewrite v_where0. split; intros (r' & c & Hc & Hh & Hp); exists r', c;
      (split_and!; [done..|]); rewrite lookup_insert_ne in *; try done; by apply not_eq_sym, (Ho r' c).
Qed.

Lemma step_submit s fr own La Lu r data size v' :
  VInv n s fr own La Lu → y_reqs s !! r = Some Reserved → submit_queue r data size (y_v s) = Some v' →
  ∃ fr' own' La', VInv n (VSys v' (y_slots s) (<[r := Submitted]> (y_reqs s)) (y_mid s) (y_avail s) (y_dev s)) fr' own' La' Lu.
Proof.
  intros I Hr Hs. destruct (free_three _ _ _ _ _ _ I Hr) as (Ho & a & b & c & fr' & ->).
  destruct (v_live _ _ _ _ _ _ I r _ Hr) as [[q Hq] _]. pose proof (rings_short _ _ _ _ _ I) as [Hla _].
  pose proof (own_reqs _ _ _ _ _ I) as Hor.
  assert (Hfresh : ∀ r' c', own !! r' = Some c' → r' ≠ r) by (intros r' c' Hc' ->; congruence).
  destruct I. destruct (submit_effect (y_v s) r q data size a b c fr') as (desc & ring & infl & f & E & Ld & Hd & Hf & Hl & Er & Ei);
    try done; [lia..|rewrite v_infl0, v_num0; unfold VIRTIO_MAX_QUEUE_SIZE in *; lia|].
  rewrite Hs in E. injection E as ->. exists fr', (<[r := (a, b, c)]> own), (La ++ [a]).
  destruct (set_idx_inv _ _ _ _ Er) as (Lr & _ & _). destruct (set_idx_inv _ _ _ _ Ei) as (Li & _ & Hi).
  rewrite !NoDup_cons, !not_elem_of_cons in v_nodup0. destruct v_nodup0 as ((Hab & Hac & Naf) & (Hbc & Nbf) & Ncf & Nf).
  assert (Hcells : ∀ r' c' x, own !! r' = Some c' → x ∈ cells c' → (x ∉ [a; b; c]) ∧ x ∉ fr').
  { intros r' c' x Hc' Hx. destruct (v_own0 r' c' Hc') as (_ & Hnf & _). specialize (Hnf x Hx).
    clear -Hnf. set_solver. }
  split; simpl; try done; try lia.
  - rewrite map_size_insert_None by done. simpl in v_count0. lia.
  - rewrite map_size_insert_Some by eauto. done.
  - intros r' p. destruct (decide (r' = r)) as [->|]; [rewrite !lookup_insert_eq; naive_solver|].
    rewrite !lookup_insert_ne by done. apply v_live0.
  - intros r' c'. destruct (decide (r' = r)) as [->|Hne].
    + rewrite !lookup_insert_eq. intros [= <-]. simpl. split_and!.
      * unfold cells. simpl. rewrite !NoDup_cons, !not_elem_of_cons. clear -Hab Hac Hbc. split_and!; try done; try apply not_elem_of_nil. apply NoDup_nil_2.
      * unfold cells. simpl. clear -Naf Nbf Ncf. set_solver.
      * by rewrite Hi, decide_True.
      * by eexists.
      * by eexists.
    + rewrite !lookup_insert_ne by done. intros Hc'. destruct (v_own0 r' c' Hc') as (N & Hnf & Hin & Hq' & p & Hp & Hok).
      split_and!; [done| |rewrite Hi, decide_False; [done|]|done|].
      * intros x Hx. by apply (Hcells r' c').
      * intros E. destruct (Hcells r' c' c'.1.1 Hc') as [Hx _]; [apply elem_of_cons; by left|]. apply Hx. rewrite E. by left.
      * exists p. split; [done|]. apply (phase_frame _ (vq_desc (y_v s))); [|done].
        intros x Hx. apply Hd. by apply (Hcells r' c').
  - intros r1 r2 c1 c2 x. rewrite !lookup_insert_Some.
    intros [[<- <-]|[N1 H1]] [[<- <-]|[N2 H2]] X1 X2; [done| | |by apply (v_disj0 r1 r2 c1 c2 x)].
    + exfalso. by destruct (Hcells r2 c2 x H2 X2).
    + exfalso. by destruct (Hcells r1 c1 x H1 X1).
  - destruct v_avail0 as (Ra & HL & Hx). split_and!; [lia..| |].
    + apply (ring_push n ltac:(lia) Hdiv (av_ring (y_v s)) ring); [done|done|]. by rewrite <- Hx, <- v_num0.
    + rewrite Hx, wrap_add_l, length_app. simpl. f_equal. lia.
  - rewrite <- app_assoc. apply (NoDup_Permutation_cons a); [|done].
    intros (r' & c' & Hc' & Hh & _)%v_where0. destruct (Hcells r' c' a Hc') as [Hx _]; [rewrite <- Hh; by left|].
    apply Hx. by left.
  - intros h. rewrite <- app_assoc. rewrite (elem_of_middle a). rewrite v_where0. split.
    + intros [->|(r' & c' & Hc' & Hh & Hp)].
      * exists r, (a, b, c). by rewrite !lookup_insert_eq.
      * exists r', c'. pose proof (Hfresh r' c' Hc'). by rewrite !lookup_insert_ne.
    + intros (r' & c' & Hc' & Hh & Hp). destruct (decide (r' = r)) as [->|].
      * rewrite lookup_insert_eq in Hc'. left. by simplify_eq/=.
      * rewrite lookup_insert_ne in Hc' by done. rewrite lookup_insert_ne in Hp by done. right. by exists r', c'.
Qed.

(** The ends of the two rings. *)
Lemma avail_front s fr own La Lu :
  VInv n s fr own La Lu → y_avail s ≠ av_idx (y_v s) ↔ La ≠ [].
Proof.
  intros I. pose proof (rings_short _ _ _ _ _ I) as [? _]. destruct (v_avail _ _ _ _ _ _ I) as (Ha & _ & ->).
  rewrite <- (ring_empty (y_avail s) La) by (unfold VIRTIO_MAX_QUEUE_SIZE in *; lia). naive_solver.
Qed.
Lemma used_front s fr own La Lu :
  VInv n s fr own La Lu → y_mid s = false → last_seen_used (y_v s) ≠ us_idx (y_v s) ↔ Lu ≠ [].
Proof.
  intros I Hm. pose proof (rings_short _ _ _ _ _ I) as [_ ?]. destruct (v_used _ _ _ _ _ _ I) as (Ha & _ & Hu).
  rewrite Hm, Z.add_0_r, (wrap_small 16 (last_seen_used _)) in Hu by done. rewrite Hu.
  rewrite <- (ring_empty (last_seen_used (y_v s)) Lu) by (unfold VIRTIO_MAX_QUEUE_SIZE in *; lia). naive_solver.
Qed.

Lemma step_take s fr own La Lu h :
  VInv n s fr own La Lu → y_avail s ≠ av_idx (y_v s) → at_idx (av_ring (y_v s)) (y_avail s mod vq_num (y_v s)) = Some h →
  ∃ La', La = h :: La' ∧ VInv n (VSys (y_v s) (y_slots s) (y_reqs s) (y_mid s) (u16 (y_avail s + 1)) (y_dev s ++ [h])) fr own La' Lu.
Proof.
  intros I Hne Hh. apply (avail_front _ _ _ _ _ I) in Hne. destruct La as [|h' La]; [done|]. exists La.
  destruct (v_avail _ _ _ _ _ _ I) as (Ra & HL & Hx). apply (ring_pop n ltac:(lia) Hdiv) in HL as [Hh' HL].
  rewrite (v_num _ _ _ _ _ _ I), Hh' in Hh. injection Hh as ->. split; [done|].
  assert (HP : La ++ (y_dev s ++ [h]) ++ Lu.*1 ≡ₚ (h :: La) ++ y_dev s ++ Lu.*1) by solve_Permutation.
  destruct I; split; simpl; try done.
  - split_and!; [by apply (wrap_range 16)..|done|]. rewrite Hx, wrap_add_l. f_equal. simpl. lia.
  - by rewrite HP.
  - intros h'. by rewrite HP.
Qed.

Lemma step_next s fr own La Lu :
  VInv n s fr own La Lu → y_mid s = true →
  VInv n (VSys (irq_next (y_v s)) (y_slots s) (y_reqs s) false (y_avail s) (y_dev s)) fr own La Lu.
Proof.
  intros I Hm. destruct I; split; simpl; try done. rewrite Hm in v_used0. rewrite Z.add_0_r, (wrap_wrap 16) by lia.
  destruct v_used0 as (_ & ? & ?). split_and!; [by apply (wrap_range 16)..|done|done].
Qed.

(** A request changes, but for its head. *)
Lemma inv_reqs s fr own La Lu r q q' :
  VInv n s fr own La Lu → vq_reqs (y_v s) !! r = Some q → rq_head q' = rq_head q →
  VInv n (VSys (with_reqs (<[r := q']> (vq_reqs (y_v s))) (y_v s)) (y_slots s) (y_reqs s) (y_mid s) (y_avail s) (y_dev s)) fr own La Lu.
Proof.
  intros I Hq Hh. destruct I; split; simpl; try done.
  - intros r' p Hp. destruct (v_live0 r' p Hp) as [Hl Ho]. split; [|done].
    destruct (decide (r' = r)) as [->|]; [rewrite lookup_insert_eq; eauto|by rewrite lookup_insert_ne].
  - intros r' c Hc. destruct (v_own0 r' c Hc) as (? & ? & ? & (q0 & Hq0 & Hh0) & ?). split_and!; try done.
    destruct (decide (r' = r)) as [->|]; [|rewrite lookup_insert_ne by done; eauto].
    rewrite lookup_insert_eq. exists q'. split; [done|]. congruence.
Qed.

(** The request whose chain starts at a head that is in a ring or in the
    device: it waits. *)
Lemma head_owner s fr own La Lu h :
  VInv n s fr own La Lu → h ∈ La ++ y_dev s ++ Lu.*1 →
  ∃ r c q, own !! r = Some c ∧ c.1.1 = h ∧ y_reqs s !! r = Some Submitted ∧ at_idx (inflight (y_v s)) h = Some r ∧
    vq_reqs (y_v s) !! r = Some q ∧ rq_head q = h ∧ links (vq_desc (y_v s)) r true c.
Proof.
  intros I (r & c & Hc & <- & Hp)%(v_where _ _ _ _ _ _ I).
  destruct (v_own _ _ _ _ _ _ I r c Hc) as (_ & _ & Hi & (q & Hq & Hh) & p & Hp' & Hok).
  rewrite Hp in Hp'. injection Hp' as <-. by exists r, c, q.
Qed.

Lemma complete_effect s fr own La Lu h len st :
  VInv n s fr own La Lu → h ∈ La ++ y_dev s ++ Lu.*1 →
  ∃ r q ring, dev_complete h len st (y_v s) =
      Some (with_used (u16 (us_idx (y_v s) + 1)) ring (with_reqs (<[r := rq_set_status st q]> (vq_reqs (y_v s))) (y_v s))) ∧
    vq_reqs (y_v s) !! r = Some q ∧ rq_head q = h ∧ y_reqs s !! r = Some Submitted ∧
    set_idx (us_ring (y_v s)) (us_idx (y_v s) mod vq_num (y_v s)) (h, len) = Some ring.
Proof.
  intros I Hin. destruct (head_owner _ _ _ _ _ _ I Hin) as (r & c & q & Hc & Hh & Hp & Hi & Hq & Hhq & Hl).
  destruct Hl as (d0 & d1 & d2 & H0 & E0 & H1 & E1 & H2 & Hm). destruct (Hm eq_refl) as (_ & _ & _ & _ & Ha).
  destruct (set_idx_ok (us_ring (y_v s)) (us_idx (y_v s) mod vq_num (y_v s)) (h, len)) as [ring Er].
  { rewrite (v_us _ _ _ _ _ _ I), (v_num _ _ _ _ _ _ I). apply Z.mod_pos_bound. lia. }
  exists r, q, ring. split_and!; try done. unfold dev_complete. rewrite <- Hh, H0. simpl. rewrite E0, H1. simpl.
  rewrite E1, H2. simpl. rewrite Ha. replace (r + OFFSETOF_STATUS - OFFSETOF_STATUS) with r by lia.
  rewrite Hq. simpl. by rewrite Hh, Er.
Qed.

Lemma step_complete s fr own La Lu dev1 h dev2 len st v' :
  VInv n s fr own La Lu → y_dev s = dev1 ++ h :: dev2 → dev_complete h len st (y_v s) = Some v' →
  VInv n (VSys v' (y_slots s) (y_reqs s) (y_mid s) (y_avail s) (dev1 ++ dev2)) fr own La (Lu ++ [(h, len)]).
Proof.
  intros I Hdev Hd. assert (Hin : h ∈ La ++ y_dev s ++ Lu.*1) by (rewrite Hdev; clear; set_solver).
  destruct (complete_effect _ _ _ _ _ h len st I Hin) as (r & q & ring & E & Hq & Hh & _ & Er).
  rewrite Hd in E. injection E as ->. pose proof (rings_short _ _ _ _ _ I) as [_ Hlu].
  assert (HP : La ++ (dev1 ++ dev2) ++ (Lu ++ [(h, len)]).*1 ≡ₚ La ++ y_dev s ++ Lu.*1).
  { rewrite Hdev, fmap_app. simpl. solve_Permutation. }
  pose proof (inv_reqs _ _ _ _ _ r q (rq_set_status st q) I Hq eq_refl) as I'. clear I.
  destruct (set_idx_inv _ _ _ _ Er) as (Lr & _ & _).
  destruct I'; simpl in *; split; simpl; try done; [lia| | |].
  - destruct v_used0 as (R & HL & Hx). split_and!; [lia..| |].
    + apply (ring_push n ltac:(lia) Hdiv (us_ring (y_v s)) ring); [done|done|]. by rewrite <- Hx, <- v_num0.
    + rewrite Hx, wrap_add_l, length_app. simpl. f_equal. lia.
  - by rewrite HP.
  - intros h'. by rewrite HP.
Qed.

(** The entry the handler reads is that of a request that waits. *)
Lemma ack_effect s fr own La Lu :
  VInv n s fr own La Lu → y_mid s = false → last_seen_used (y_v s) ≠ us_idx (y_v s) →
  ∃ h len Lu' r q, Lu = (h, len) :: Lu' ∧
    irq_ack (y_v s) = Some (r, with_reqs (<[r := rq_set_len len q]> (vq_reqs (y_v s))) (y_v s)) ∧
    vq_reqs (y_v s) !! r = Some q ∧ rq_head q = h ∧ y_reqs s !! r = Some Submitted ∧
    ring_at (us_ring (y_v s)) n (u16 (last_seen_used (y_v s) + 1)) Lu'.
Proof.
  intros I Hm Hne. apply (used_front _ _ _ _ _ I Hm) in Hne. destruct Lu as [|[h len] Lu]; [done|].
  destruct (v_used _ _ _ _ _ _ I) as (R & HL & _). rewrite Hm, Z.add_0_r, (wrap_small 16 (last_seen_used _)) in HL by done.
  apply (ring_pop n ltac:(lia) Hdiv) in HL as [Hh HL].
  destruct (head_owner _ _ _ _ _ h I) as (r & c & q & _ & _ & Hp & Hi & Hq & Hhq & _); [clear; set_solver|].
  exists h, len, Lu, r, q. split_and!; try done. unfold irq_ack. rewrite (v_num _ _ _ _ _ _ I), Hh. simpl.
  rewrite Hi. simpl. by rewrite Hq.
Qed.

Lemma step_ack s fr own La Lu r v' :
  VInv n s fr own La Lu → y_mid s = false → last_seen_used (y_v s) ≠ us_idx (y_v s) → irq_ack (y_v s) = Some (r, v') →
  y_reqs s !! r = Some Submitted ∧
  ∃ e Lu', Lu = e :: Lu' ∧ VInv n (VSys v' (y_slots s) (alter post r (y_reqs s)) true (y_avail s) (y_dev s)) fr own La Lu'.
Proof.
  intros I Hm Hne Ha. destruct (ack_effect _ _ _ _ _ I Hm Hne) as (h & len & Lu' & r' & q & -> & E & Hq & Hh & Hp & HL).
  rewrite Ha in E. injection E as -> ->. split; [done|]. exists (h, len), Lu'. split; [done|].
  assert (HP : La ++ y_dev s ++ ((h, len) :: Lu').*1 ≡ₚ h :: La ++ y_dev s ++ Lu'.*1) by (simpl; solve_Permutation).
  pose proof (inv_reqs _ _ _ _ _ r' q (rq_set_len len q) I Hq eq_refl) as I'. clear I. rewrite (alter_insert_eq' _ _ _ post Hp).
  assert (Hr : ∀ c, own !! r' = Some c → c.1.1 = h).
  { intros c Hc. destruct (v_own _ _ _ _ _ _ I' r' c Hc) as (_ & _ & _ & (q' & Hq' & <-) & _).
    simpl in Hq'. rewrite lookup_insert_eq in Hq'. by injection Hq' as <-. }
  destruct I'; simpl in *; rewrite HP in v_once0; apply NoDup_cons in v_once0 as [Hnin Hnd]; split; simpl; try done.
  - by rewrite map_size_insert_Some by eauto.
  - intros r0 p. destruct (decide (r0 = r')) as [->|].
    + intros _. destruct (v_live0 r' Submitted Hp) as [? [?|?]]; [done|]. tauto.
    + rewrite lookup_insert_ne by done. apply v_live0.
  - intros r0 c Hc. destruct (v_own0 r0 c Hc) as (? & ? & ? & ? & p & Hp0 & Hok). split_and!; try done.
    destruct (decide (r0 = r')) as [->|]; [|rewrite lookup_insert_ne by done; eauto].
    rewrite lookup_insert_eq. exists Completed. split; [done|]. rewrite Hp in Hp0. by injection Hp0 as <-.
  - destruct v_used0 as (R & _ & Hx). split_and!; [lia..|done|]. rewrite Hx, Hm, Z.add_0_r, !wrap_add_l. f_equal. simpl. lia.
  - intros h'. specialize (v_where0 h'). rewrite HP, elem_of_cons in v_where0. split.
    + intros Hin. destruct v_where0 as [Hw _]. destruct Hw as (r0 & c & Hc & Hh0 & Hp0); [by right|].
      exists r0, c. split_and!; [done..|]. rewrite lookup_insert_ne; [done|]. intros <-. apply Hnin.
      by rewrite <- (Hr c Hc), Hh0.
    + intros (r0 & c & Hc & Hh0 & Hp0). destruct (decide (r0 = r')) as [->|]; [by rewrite lookup_insert_eq in Hp0|].
      rewrite lookup_insert_ne in Hp0 by done. destruct v_where0 as [_ [->|?]]; [by exists r0, c| |done].
      destruct (v_live0 r' Submitted Hp) as [_ [?|[c' Hc']]]; [done|]. exfalso.
      assert (r0 = r'); [|done]. apply (v_disj0 r0 r' c c' h Hc Hc'); [rewrite <- Hh0|rewrite <- (Hr c' Hc')]; by left.
Qed.

(** Clearing the marks of a chain leads to its last descriptor. *)
Lemma walk_effect desc r c m :
  links desc r true c → NoDup (cells c) →
  ∃ desc', release_walk (S (S (S m))) desc c.1.1 = Some (desc', c.2) ∧ length desc' = length desc ∧
    links desc' r false c ∧ ∀ j, j ∉ cells c → at_idx desc' j = at_idx desc j.
Proof.
  intros (d0 & d1 & d2 & H0 & E0 & H1 & E1 & H2 & Hm) Hnd. destruct (Hm eq_refl) as (F0 & F1 & F2 & _).
  destruct c as [[a b] e]; unfold cells in *; simpl in *. rewrite !NoDup_cons, !not_elem_of_cons in Hnd.
  destruct Hnd as ((Hab & Hae & _) & (Hbe & _) & _).
  destruct (set_idx_ok desc a (d_set_flags 0 d0)) as [x Ex]; [apply at_idx_range; eauto|].
  destruct (set_idx_inv _ _ _ _ Ex) as (Lx & _ & Hx).
  assert (Hxb : at_idx x b = Some d1) by (rewrite Hx, decide_False; done).
  destruct (set_idx_ok x b (d_set_flags 0 d1)) as [y Ey]; [apply at_idx_range; eauto|].
  destruct (set_idx_inv _ _ _ _ Ey) as (Ly & _ & Hy).
  assert (Hye : at_idx y e = Some d2) by (rewrite Hy, decide_False, Hx, decide_False; done).
  exists y. rewrite H0. simpl. rewrite F0, Ex. simpl. rewrite E0, Hxb. simpl. rewrite F1, Ey. simpl. rewrite E1, Hye. simpl.
  rewrite F2. split_and!; [done|lia| |].
  - exists (d_set_flags 0 d0), (d_set_flags 0 d1), d2. simpl.
    rewrite !Hy, !Hx. repeat case_decide; naive_solver.
  - intros j. rewrite !not_elem_of_cons. intros (? & ? & ? & _). by rewrite Hy, decide_False, Hx, decide_False.
Qed.

(** A chain and its request. *)
Lemma chain_of s fr own La Lu r p :
  VInv n s fr own La Lu → y_reqs s !! r = Some p → p ≠ Reserved →
  ∃ c q, own !! r = Some c ∧ vq_reqs (y_v s) !! r = Some q ∧ rq_head q = c.1.1 ∧ NoDup (cells c) ∧
    (∀ x, x ∈ cells c → x ∉ fr) ∧ phase_ok p (vq_desc (y_v s)) r c.
Proof.
  intros I Hp Hne. destruct (v_live _ _ _ _ _ _ I r p Hp) as [_ [?|[c Hc]]]; [done|].
  destruct (v_own _ _ _ _ _ _ I r c Hc) as (N & Hf & _ & (q & Hq & Hh) & p' & Hp' & Hok).
  rewrite Hp in Hp'. injection Hp' as <-. by exists c, q.
Qed.

Lemma walk_ok s fr own La Lu r :
  VInv n s fr own La Lu → y_reqs s !! r = Some Completed →
  ∃ c q desc, own !! r = Some c ∧ vq_reqs (y_v s) !! r = Some q ∧
    release_walk (S (length (vq_desc (y_v s)))) (vq_desc (y_v s)) (rq_head q) = Some (desc, c.2) ∧
    length desc = length (vq_desc (y_v s)) ∧ links desc r false c ∧ ∀ j, j ∉ cells c → at_idx desc j = at_idx (vq_desc (y_v s)) j.
Proof.
  intros I Hp. destruct (chain_of _ _ _ _ _ _ _ I Hp) as (c & q & Hc & Hq & Hh & N & _ & Hok); [done|].
  assert (size own ≠ 0)%nat by (intros ?%map_size_empty_inv; set_solver).
  pose proof (v_count _ _ _ _ _ _ I). pose proof (v_desc _ _ _ _ _ _ I).
  destruct (walk_effect _ _ _ (length (vq_desc (y_v s)) - 2) Hok N) as (desc & E & ? & ? & ?).
  exists c, q, desc. split_and!; try done. rewrite Hh, <- E. f_equal. lia.
Qed.

Lemma step_walk s fr own La Lu r q desc st :
  VInv n s fr own La Lu → y_reqs s !! r = Some Completed → vq_reqs (y_v s) !! r = Some q →
  release_walk (S (length (vq_desc (y_v s)))) (vq_desc (y_v s)) (rq_head q) = Some (desc, st) →
  VInv n (VSys (with_desc desc (y_v s)) (y_slots s) (<[r := Walked st]> (y_reqs s)) (y_mid s) (y_avail s) (y_dev s)) fr own La Lu.
Proof.
  intros I Hp Hq Hw. destruct (walk_ok _ _ _ _ _ _ I Hp) as (c & q' & desc' & Hc & Hq' & Hw' & Ld & Hl & Hd).
  rewrite Hq in Hq'. injection Hq' as <-. rewrite Hw in Hw'. injection Hw' as -> ->.
  destruct I; split; simpl; try done; try lia.
  - apply (fchain_frame (vq_desc (y_v s))); [|done]. intros x Hx. apply Hd. intros Hx'.
    destruct (v_own0 r c Hc) as (_ & Hf & _). by apply (Hf x).
  - by rewrite map_size_insert_Some by eauto.
  - intros r' p'. destruct (decide (r' = r)) as [->|]; [|rewrite lookup_insert_ne by done; apply v_live0].
    rewrite lookup_insert_eq, Hc. intros _. split; eauto.
  - intros r' c' Hc'. destruct (v_own0 r' c' Hc') as (? & ? & ? & ? & p' & Hp' & Hok). split_and!; try done.
    destruct (decide (r' = r)) as [->|].
    + rewrite lookup_insert_eq. rewrite Hc in Hc'. injection Hc' as <-. by exists (Walked c.2).
    + rewrite lookup_insert_ne by done. exists p'. split; [done|]. apply (phase_frame _ (vq_desc (y_v s))); [|done].
      intros x Hx. apply Hd. intros Hx'. by apply (v_disj0 r r' c c' x) in Hx'.
  - intros h. rewrite v_where0. split; intros (r' & c' & Hc' & Hh & Hs); exists r', c'; (split_and!; [done..|]);
      (destruct (decide (r' = r)) as [->|]; [|by rewrite lookup_insert_ne in *]).
    + congruence.
    + by rewrite lookup_insert_eq in Hs.
Qed.

Lemma push_ok s fr own La Lu r st :
  VInv n s fr own La Lu → y_reqs s !! r = Some (Walked st) →
  ∃ c q desc, own !! r = Some c ∧ vq_reqs (y_v s) !! r = Some q ∧
    release_push (rq_head q) st (y_v s) = Some (with_free_head c.1.1 (with_desc desc (y_v s))) ∧
    length desc = length (vq_desc (y_v s)) ∧ fchain desc c.1.1 (cells c ++ fr) ∧ NoDup (cells c ++ fr) ∧
    ∀ j, j ∉ cells c → at_idx desc j = at_idx (vq_desc (y_v s)) j.
Proof.
  intros I Hp. destruct (chain_of _ _ _ _ _ _ _ I Hp) as (c & q & Hc & Hq & Hh & N & Hf & Hok); [done|].
  destruct Hok as [(d0 & d1 & d2 & H0 & E0 & H1 & E1 & H2 & _) ->].
  destruct (set_idx_ok (vq_desc (y_v s)) c.2 (d_set_next (free_head_idx (y_v s)) d2)) as [x Ex]; [apply at_idx_range; eauto|].
  destruct (set_idx_inv _ _ _ _ Ex) as (Lx & _ & Hx). exists c, q, x. split_and!; try done.
  - unfold release_push. rewrite H2. simpl. by rewrite Ex, Hh.
  - unfold cells in N. rewrite !NoDup_cons, !not_elem_of_cons in N. destruct N as ((Hab & Hac & _) & (Hbc & _) & _).
    simpl. split; [done|]. exists d0. rewrite Hx, decide_False by done. split; [done|]. split; [done|].
    rewrite E0. exists d1. rewrite Hx, decide_False by done. split; [done|]. split; [done|]. rewrite E1.
    eexists. rewrite Hx, decide_True by done. split; [done|]. simpl.
    apply (fchain_frame (vq_desc (y_v s))); [|apply (v_free _ _ _ _ _ _ I)]. intros y Hy. rewrite Hx, decide_False; [done|].
    intros ->. apply (Hf c.2); [unfold cells; clear; set_solver|done].
  - apply NoDup_app. split_and!; [done|done|apply (v_nodup _ _ _ _ _ _ I)].
  - intros j Hj. rewrite Hx, decide_False; [done|]. intros ->. apply Hj. unfold cells. clear. set_solver.
Qed.

Lemma step_push s fr own La Lu r q st v' :
  VInv n s fr own La Lu → y_reqs s !! r = Some (Walked st) → vq_reqs (y_v s) !! r = Some q →
  release_push (rq_head q) st (y_v s) = Some v' →
  ∃ fr' own', VInv n (VSys (with_reqs (delete r (vq_reqs v')) v') (y_slots s + 1) (delete r (y_reqs s)) (y_mid s) (y_avail s) (y_dev s))
    fr' own' La Lu.
Proof.
  intros I Hp Hq Hw. destruct (push_ok _ _ _ _ _ _ _ I Hp) as (c & q' & desc & Hc & Hq' & Hw' & Ld & Hf & Hn' & Hd).
  rewrite Hq in Hq'. injection Hq' as <-. rewrite Hw in Hw'. injection Hw' as ->. exists (cells c ++ fr), (delete r own).
  assert (Hsz : ∀ A (m : gmap Z A) x, m !! r = Some x → Z.of_nat (size (delete r m)) = Z.of_nat (size m) - 1).
  { intros A m x Hx. rewrite map_size_delete, Hx. assert (size m ≠ 0)%nat by (intros ?%map_size_empty_inv; set_solver). lia. }
  destruct I; split; simpl; try done; try lia.
  - rewrite (Hsz _ own c) by done. simpl in *. lia.
  - rewrite (Hsz _ _ _ Hp). lia.
  - intros r' p'. rewrite lookup_delete_Some. intros [Hne Hp']. rewrite !lookup_delete_ne by done. by apply (v_live0 r' p').
  - intros r' c'. rewrite lookup_delete_Some. intros [Hne Hc']. rewrite !lookup_delete_ne by done.
    destruct (v_own0 r' c' Hc') as (? & Hf' & ? & ? & p' & Hp' & Hok).
    assert (Hx : ∀ x, x ∈ cells c' → x ∉ cells c) by (intros x X X'; by apply Hne, (v_disj0 r r' c c' x)).
    split_and!; try done.
    + intros x X. change (x ∉ cells c ++ fr). rewrite not_elem_of_app. split; [by apply Hx|by apply Hf'].
    + exists p'. split; [done|]. apply (phase_frame _ (vq_desc (y_v s))); [|done]. intros x X. by apply Hd, Hx.
  - intros r1 r2 c1 c2 x. rewrite !lookup_delete_Some. intros [_ H1] [_ H2]. by apply v_disj0.
  - intros h. rewrite v_where0. split; intros (r' & c' & Hc' & Hh & Hs); exists r', c'.
    + assert (r ≠ r') by (intros <-; congruence). by rewrite !lookup_delete_ne.
    + apply lookup_delete_Some in Hc' as [_ ?], Hs as [_ ?]. done.
Qed.
End Steps.

(** ** Reachable states *)

(** The sizes a queue can have. *)
Lemma queue_sizes n : 0 < n ≤ VIRTIO_MAX_QUEUE_SIZE → (n | 2 ^ 16) → n ∈ [1; 2; 4; 8; 16].
Proof.
  intros Hn Hd%Z.mod_divide; [|lia].
  assert (Hc : n ∈ filter (λ n, 2 ^ 16 mod n = 0) (seqZ 1 16)) by
    (apply list_elem_of_filter; rewrite elem_of_seqZ; unfold VIRTIO_MAX_QUEUE_SIZE in *; lia).
  exact Hc.
Qed.

Lemma init_inv n v :
  0 < n ≤ VIRTIO_MAX_QUEUE_SIZE → (n | 2 ^ 16) → init_free_desc (virtq_init n) = Some v →
  VInv n (VSys v (n / VIRTIO_REQ_NUM_DESC) ∅ false 0 []) (seqZ 0 n) ∅ [] [].
Proof.
  intros Hn Hd Hi. pose proof (queue_sizes n Hn Hd) as Hc.
  assert (Hf : vq_num v = n ∧ length (vq_desc v) = Z.to_nat n ∧ av_ring v = av_ring (virtq_init n) ∧
      us_ring v = us_ring (virtq_init n) ∧ inflight v = inflight (virtq_init n) ∧
      fchain (vq_desc v) (free_head_idx v) (seqZ 0 n) ∧ av_idx v = 0 ∧ us_idx v = 0 ∧ last_seen_used v = 0).
  { rewrite !elem_of_cons, elem_of_nil in Hc. destruct Hc as [->|[->|[->|[->|[->|[]]]]]];
      vm_compute in Hi; injection Hi as <-; (split_and!; try done); vm_compute;
      repeat (split; [done|]; eexists; split; [done|]); done. }
  destruct Hf as (E1 & E2 & E3 & E4 & E5 & E6 & E7 & E8 & E9).
  split; simpl; rewrite ?E3, ?E4, ?E5; simpl; rewrite ?length_replicate; try done; try lia.
  - apply NoDup_seqZ.
  - rewrite length_seqZ. by rewrite map_size_empty; lia.
  - rewrite map_size_empty. split; [apply Z.div_pos; unfold VIRTIO_REQ_NUM_DESC; lia|lia].
  - by rewrite E8, E9.
  - apply NoDup_nil_2.
  - intros h. split; [set_solver|]. intros (r & c & Hr & _). set_solver.
Qed.

Lemma reach_inv n s :
  0 < n ≤ VIRTIO_MAX_QUEUE_SIZE → (n | 2 ^ 16) → vreach n s → ∃ fr own La Lu, VInv n s fr own La Lu.
Proof.
  intros Hn Hd. induction 1 as [v Hv|s s' _ (fr & own & La & Lu & I) [Hs|Hs]].
  - do 4 eexists. by apply init_inv.
  - destruct Hs as [v slots reqs mid av dev r ty sec junk H1 H2|v slots reqs mid av dev r data size v' H1 H2|
      v slots reqs mid av dev r q desc st H1 H2 H3|v slots reqs mid av dev r q st v' H1 H2 H3]; set (s0 := VSys _ _ _ _ _ _) in I.
    + do 4 eexists. exact (step_reserve n Hn Hd s0 _ _ _ _ _ _ I H1 H2).
    + destruct (step_submit n Hn Hd s0 _ _ _ _ _ _ _ _ I H1 H2) as (? & ? & ? & ?). eauto.
    + do 4 eexists. exact (step_walk n Hn Hd s0 _ _ _ _ _ _ _ _ I H1 H2 H3).
    + destruct (step_push n Hn Hd s0 _ _ _ _ _ _ _ _ I H1 H2 H3) as (? & ? & ?). eauto.
  - destruct Hs as [v slots reqs mid av dev h H1 H2|v slots reqs mid av dev1 h dev2 len st v' H1|
      v slots reqs av dev r v' H1 H2|v slots reqs av dev]; set (s0 := VSys _ _ _ _ _ _) in I.
    + destruct (step_take n Hn Hd s0 _ _ _ _ _ I H1 H2) as (? & _ & ?). eauto.
    + do 4 eexists. exact (step_complete n Hn Hd s0 _ _ _ _ _ _ _ _ _ _ I eq_refl H1).
    + destruct (step_ack n Hn Hd s0 _ _ _ _ _ _ I eq_refl H1 H2) as (_ & ? & ? & _ & ?). eauto.
    + do 4 eexists. exact (step_next n Hn Hd s0 _ _ _ _ I eq_refl).
Qed.

(** The descriptors of the chain of head [h]. *)
Definition chain_cells (v : vblk) (h : Z) : option (list Z) :=
  d0 ← at_idx (vq_desc v) h;
  d1 ← at_idx (vq_desc v) (d_next d0);
  Some [h; d_next d0; d_next d1].

Lemma chain_cells_own n s fr own La Lu r p :
  VInv n s fr own La Lu → y_reqs s !! r = Some p → p ≠ Reserved →
  ∃ c q, own !! r = Some c ∧ vq_reqs (y_v s) !! r = Some q ∧ chain_cells (y_v s) (rq_head q) = Some (cells c).
Proof.
  intros I Hp Hne. destruct (v_live _ _ _ _ _ _ I r p Hp) as [_ [?|[c Hc]]]; [done|].
  destruct (v_own _ _ _ _ _ _ I r c Hc) as (_ & _ & _ & (q & Hq & Hh) & p' & Hp' & Hok).
  rewrite Hp in Hp'. injection Hp' as <-. exists c, q. split_and!; [done..|].
  assert (Hl : ∃ b, links (vq_desc (y_v s)) r b c) by (destruct p; simpl in Hok; naive_solver).
  destruct Hl as (b & d0 & d1 & d2 & H0 & E0 & H1 & E1 & _). unfold chain_cells. rewrite Hh, H0. simpl.
  rewrite E0, H1. simpl. by rewrite E1.
Qed.

(** C20: whatever the order in which the tasks, the device and the interrupt
    handler take their turns, a request that has a place finds the
    descriptors it needs; the chains of two requests share no descriptor; the
    device writes its status into a request that waits, the one whose chain it
    finishes; and the handler wakes a request that waits.  None of the critical
    sections leaves the arrays it works on. *)
Theorem virtio_completions_delivered n s :
  0 < n ≤ VIRTIO_MAX_QUEUE_SIZE → (n | 2 ^ 16) → vreach n s →
  (∀ r data size, y_reqs s !! r = Some Reserved → is_Some (submit_queue r data size (y_v s))) ∧
  (∀ r r' p p' q q' l l', y_reqs s !! r = Some p → y_reqs s !! r' = Some p' → p ≠ Reserved → p' ≠ Reserved → r ≠ r' →
    vq_reqs (y_v s) !! r = Some q → vq_reqs (y_v s) !! r' = Some q' →
    chain_cells (y_v s) (rq_head q) = Some l → chain_cells (y_v s) (rq_head q') = Some l' → NoDup (l ++ l')) ∧
  (∀ h len st, h ∈ y_dev s → ∃ r q v', dev_complete h len st (y_v s) = Some v' ∧ y_reqs s !! r = Some Submitted ∧
    vq_reqs (y_v s) !! r = Some q ∧ rq_head q = h ∧ vq_reqs v' = <[r := rq_set_status st q]> (vq_reqs (y_v s))) ∧
  (y_mid s = false → last_seen_used (y_v s) ≠ us_idx (y_v s) →
    ∃ r v', irq_ack (y_v s) = Some (r, v') ∧ y_reqs s !! r = Some Submitted) ∧
  (∀ r, y_reqs s !! r = Some Completed → ∃ q, vq_reqs (y_v s) !! r = Some q ∧
    is_Some (release_walk (S (length (vq_desc (y_v s)))) (vq_desc (y_v s)) (rq_head q))) ∧
  (∀ r st, y_reqs s !! r = Some (Walked st) → ∃ q, vq_reqs (y_v s) !! r = Some q ∧
    is_Some (release_push (rq_head q) st (y_v s))).
Proof.
  intros Hn Hd Hr. destruct (reach_inv n s Hn Hd Hr) as (fr & own & La & Lu & I). split_and!.
  - intros r data size Hp. destruct (free_three n Hn Hd _ _ _ _ _ _ I Hp) as (_ & a & b & c & fr' & ->).
    destruct (v_live _ _ _ _ _ _ I r _ Hp) as [[q Hq] _]. destruct I.
    destruct (submit_effect (y_v s) r q data size a b c fr') as (? & ? & ? & ? & -> & _); try done; lia.
  - intros r r' p p' q q' l l' Hp Hp' Np Np' Hne Hq Hq' Hl Hl'.
    destruct (chain_cells_own _ _ _ _ _ _ _ _ I Hp Np) as (c & q0 & Hc & Hq0 & E).
    destruct (chain_cells_own _ _ _ _ _ _ _ _ I Hp' Np') as (c' & q0' & Hc' & Hq0' & E').
    simplify_eq. apply NoDup_app. split_and!; [by apply (v_own _ _ _ _ _ _ I r c Hc)| |by apply (v_own _ _ _ _ _ _ I r' c' Hc')].
    intros x Hx Hx'. by apply Hne, (v_disj _ _ _ _ _ _ I r r' c c' x).
  - intros h len st Hh. destruct (complete_effect n Hn Hd _ _ _ _ _ h len st I) as (r & q & ring & E & Hq & Hhq & Hp & _);
      [clear -Hh; set_solver|]. exists r, q. eexists. by rewrite E.
  - intros Hm Hne. destruct (ack_effect n Hn Hd _ _ _ _ _ I Hm Hne) as (h & len & Lu' & r & q & _ & E & _ & _ & Hp & _). eauto.
  - intros r Hp. destruct (walk_ok n Hn Hd _ _ _ _ _ _ I Hp) as (c & q & desc & _ & Hq & E & _). exists q. rewrite E. eauto.
  - intros r st Hp. destruct (push_ok n Hn Hd _ _ _ _ _ _ _ I Hp) as (c & q & desc & _ & Hq & E & _). exists q. rewrite E. eauto.
Qed.

(** ** Every request is answered *)

(** [k] turns of the device and of the handler, in any order. *)
Inductive served : nat → vsys → vsys → Prop :=
| served_0 s : served 0 s s
| served_S k s s' s'' : served k s s' → dstep s' s'' → served (S k) s s''.

(** The turns that remain: for each chain in the available ring, in the device
    and in the used ring. *)
Definition todo (s : vsys) : Z :=
  4 * u16 (av_idx (y_v s) - y_avail s) + 3 * Z.of_nat (length (y_dev s)) +
  2 * u16 (us_idx (y_v s) - last_seen_used (y_v s)) - (if y_mid s then 1 else 0).

Lemma u16_dist a k : 0 ≤ k < 2 ^ 16 → u16 (u16 (a + k) - a) = k.
Proof.
  intros Hk. unfold wrap. rewrite Zminus_mod_idemp_l. replace (a + k - a) with k by lia. by apply Z.mod_small.
Qed.

Lemma todo_eq n s fr own La Lu :
  0 < n ≤ VIRTIO_MAX_QUEUE_SIZE → (n | 2 ^ 16) → VInv n s fr own La Lu →
  todo s = 4 * Z.of_nat (length La) + 3 * Z.of_nat (length (y_dev s)) + 2 * Z.of_nat (length Lu) + (if y_mid s then 1 else 0).
Proof.
  intros Hn Hd I. pose proof (rings_short n Hn Hd _ _ _ _ _ I) as [Ha Hu]. unfold VIRTIO_MAX_QUEUE_SIZE in Hn. unfold todo.
  destruct (v_avail _ _ _ _ _ _ I) as (_ & _ & ->). rewrite u16_dist by lia.
  destruct (v_used _ _ _ _ _ _ I) as (_ & _ & ->). rewrite wrap_add_l.
  rewrite <- (Z.add_assoc (last_seen_used _)), u16_dist; destruct (y_mid s); lia.
Qed.

(** A turn uses one of them, and keeps the requests that are waiting or
    answered. *)
Lemma dstep_todo n s s' fr own La Lu :
  0 < n ≤ VIRTIO_MAX_QUEUE_SIZE → (n | 2 ^ 16) → VInv n s fr own La Lu → dstep s s' →
  todo s' = todo s - 1 ∧ ∀ r, y_reqs s !! r = Some Submitted ∨ y_reqs s !! r = Some Completed →
    y_reqs s' !! r = Some Submitted ∨ y_reqs s' !! r = Some Completed.
Proof.
  intros Hn Hd I Hs. rewrite (todo_eq n s fr own La Lu) by done.
  destruct Hs as [v slots reqs mid av dev h H1 H2|v slots reqs mid av dev1 h dev2 len st v' H1|
    v slots reqs av dev r v' H1 H2|v slots reqs av dev]; set (s0 := VSys _ _ _ _ _ _) in I.
  - destruct (step_take n Hn Hd s0 _ _ _ _ _ I H1 H2) as (La' & -> & I'). apply (todo_eq _ _ _ _ _ _ Hn Hd) in I'; cbn [s0 y_v y_slots y_reqs y_mid y_avail y_dev] in I'; rewrite I'.
    simpl. rewrite length_app. simpl. split; [lia|done].
  - pose proof (step_complete n Hn Hd s0 _ _ _ _ _ _ _ _ _ _ I eq_refl H1) as I'. apply (todo_eq _ _ _ _ _ _ Hn Hd) in I'; cbn [s0 y_v y_slots y_reqs y_mid y_avail y_dev] in I'; rewrite I'.
    simpl. rewrite !length_app. simpl. split; [lia|done].
  - destruct (step_ack n Hn Hd s0 _ _ _ _ _ _ I eq_refl H1 H2) as (Hp & e & Lu' & -> & I'). apply (todo_eq _ _ _ _ _ _ Hn Hd) in I'; cbn [s0 y_v y_slots y_reqs y_mid y_avail y_dev] in I'; rewrite I'.
    simpl. split; [lia|]. intros r'. destruct (decide (r' = r)) as [->|]; [|by rewrite lookup_alter_ne].
    rewrite lookup_alter_eq. simpl in Hp. rewrite Hp. simpl. tauto.
  - pose proof (step_next n Hn Hd s0 _ _ _ _ I eq_refl) as I'. apply (todo_eq _ _ _ _ _ _ Hn Hd) in I'; cbn [s0 y_v y_slots y_reqs y_mid y_avail y_dev] in I'; rewrite I'. simpl. split; [lia|done].
Qed.

(** As long as some remain the device or the handler can take a turn. *)
Lemma dstep_progress n s fr own La Lu :
  0 < n ≤ VIRTIO_MAX_QUEUE_SIZE → (n | 2 ^ 16) → VInv n s fr own La Lu → 0 < todo s → ∃ s', dstep s s'.
Proof.
  intros Hn Hd I Ht. rewrite (todo_eq _ _ _ _ _ _ Hn Hd I) in Ht. destruct s as [v slots reqs mid av dev]. simpl in Ht.
  destruct La as [|h La].
  - destruct dev as [|h dev].
    + destruct mid; [eexists; apply V_next|]. destruct Lu as [|e Lu]; [simpl in Ht; lia|].
      assert (Hne : last_seen_used v ≠ us_idx v) by (by apply (used_front n Hn Hd _ _ _ _ _ I)).
      destruct (ack_effect n Hn Hd _ _ _ _ _ I eq_refl Hne) as (h & len & Lu' & r & q & _ & E & _). eexists. by eapply V_ack.
    + destruct (complete_effect n Hn Hd _ _ _ _ _ h 0 0 I) as (r & q & ring & E & _); [by left|].
      eexists. by apply (V_complete _ _ _ _ _ [] h dev 0 0).
  - destruct (v_avail _ _ _ _ _ _ I) as (_ & HL & _). apply (ring_pop n ltac:(lia) Hd) in HL as [Hh _]. simpl in Hh.
    eexists. apply (V_take v slots reqs mid av dev h); [by apply (avail_front n Hn Hd _ _ _ _ _ I)|].
    pose proof (v_num _ _ _ _ _ _ I) as E. simpl in E. by rewrite E.
Qed.

Lemma served_reach n k s s' : vreach n s → served k s s' → vreach n s'.
Proof.
  intros Hr Hk. revert Hr. induction Hk as [|k s s' s'' Hk IH Hd]; intros Hr; [done|].
  eapply R_step; [by apply IH|by right].
Qed.

Lemma served_todo n k s s' :
  0 < n ≤ VIRTIO_MAX_QUEUE_SIZE → (n | 2 ^ 16) → vreach n s → served k s s' →
  todo s' = todo s - Z.of_nat k ∧ ∀ r, y_reqs s !! r = Some Submitted →
    y_reqs s' !! r = Some Submitted ∨ y_reqs s' !! r = Some Completed.
Proof.
  intros Hn Hd Hr Hk. induction Hk as [s|k s s' s'' Hk IH Hs]; [split; [lia|tauto]|]. specialize (IH Hr) as [IH1 IH2].
  destruct (reach_inv n s' Hn Hd (served_reach _ _ _ _ Hr Hk)) as (fr & own & La & Lu & I).
  destruct (dstep_todo n s' s'' _ _ _ _ Hn Hd I Hs) as [E Hq]. split; [lia|]. intros r Hp. apply Hq. by apply IH2.
Qed.

(** C21: requests are answered.  From any reachable state, the device and the
    interrupt handler can go on taking turns until [todo] of them are taken, in
    whatever order, and no further; by then every task that was waiting for its
    request has been woken. *)
Theorem virtio_requests_answered n s k s' :
  0 < n ≤ VIRTIO_MAX_QUEUE_SIZE → (n | 2 ^ 16) → vreach n s → served k s s' →
  Z.of_nat k ≤ todo s ∧ (Z.of_nat k < todo s → ∃ s'', dstep s' s'') ∧
  (Z.of_nat k = todo s → ∀ r, y_reqs s !! r = Some Submitted → y_reqs s' !! r = Some Completed).
Proof.
  intros Hn Hd Hr Hk. destruct (served_todo n k s s' Hn Hd Hr Hk) as [E Hq].
  destruct (reach_inv n s' Hn Hd (served_reach _ _ _ _ Hr Hk)) as (fr & own & La & Lu & I).
  pose proof (todo_eq _ _ _ _ _ _ Hn Hd I) as Et. split_and!.
  - destruct (y_mid s'); lia.
  - intros Hlt. apply (dstep_progress n s' _ _ _ _ Hn Hd I). lia.
  - intros Hz r Hp. destruct (Hq r Hp) as [Hs|]; [|done]. exfalso.
    destruct (v_live _ _ _ _ _ _ I r _ Hs) as [_ [?|[c Hc]]]; [done|].
    assert (Hin : c.1.1 ∈ La ++ y_dev s' ++ Lu.*1) by (apply (v_where _ _ _ _ _ _ I); eauto).
    destruct La, (y_dev s'), Lu; simpl in *; try (destruct (y_mid s'); lia). by apply elem_of_nil in Hin.
Qed.

(** A queue of four entries, and one request on its way through it. *)
Definition demo_queue : vblk := default (virtq_init 4) (init_free_desc (virtq_init 4)).
Definition demo_req : virtio_blk_req := Req VIRTIO_BLK_T_IN 7 0 0 0.
Definition demo_reserved : vsys :=
  VSys (with_reqs {[ 4096 := demo_req ]} demo_queue) 0 {[ 4096 := Reserved ]} false 0 [].
Definition demo_submitted : vsys :=
  VSys (default demo_queue (submit_queue 4096 8192 1024 (y_v demo_reserved))) 0 {[ 4096 := Submitted ]} false 0 [].
Definition demo_used : vsys :=
  VSys (default demo_queue (dev_complete 0 1025 0 (y_v demo_submitted))) 0 {[ 4096 := Submitted ]} false 1 [].

Lemma step_eq (R : vsys → vsys → Prop) a b a' b' : R a b → a = a' → b = b' → R a' b'.
Proof. by intros ? -> ->. Qed.
Lemma demo_submitted_reach : vreach 4 demo_submitted.
Proof.
  apply (R_step 4 demo_reserved); [apply (R_step 4 (VSys demo_queue 1 ∅ false 0 [])); [by apply (R_init 4 demo_queue)|]|]; left.
  - eapply step_eq; [by apply (V_reserve demo_queue 1 ∅ false 0 [] 4096 VIRTIO_BLK_T_IN 7 demo_req)|..]; vm_compute; reflexivity.
  - eapply step_eq; [apply (V_submit (y_v demo_reserved) 0 {[ 4096 := Reserved ]} false 0 [] 4096 8192 1024 (y_v demo_submitted))|..];
      vm_compute; reflexivity.
Qed.
Lemma demo_served : served 2 demo_submitted demo_used.
Proof.
  eapply served_S; [eapply served_S; [apply served_0|]|].
  - apply (V_take (y_v demo_submitted) 0 {[ 4096 := Submitted ]} false 0 [] 0); [done|vm_compute; reflexivity].
  - apply (V_complete (y_v demo_submitted) 0 {[ 4096 := Submitted ]} false 1 [] 0 [] 1025 0). vm_compute; reflexivity.
Qed.

Lemma virtio_completions_delivered_witness :
  ∃ r v', irq_ack (y_v demo_used) = Some (r, v') ∧ y_reqs demo_used !! r = Some Submitted.
Proof.
  apply (virtio_completions_delivered 4 demo_used); [done|by exists 16384| |done|done].
  exact (served_reach 4 2 demo_submitted demo_used demo_submitted_reach demo_served).
Defined.

Lemma virtio_requests_answered_witness :
  todo demo_submitted = 4 ∧ ∃ s'', dstep demo_used s''.
Proof.
  split; [done|]. apply (virtio_requests_answered 4 demo_submitted 2 demo_used);
    [done|by exists 16384|exact demo_submitted_reach|exact demo_served|done].
Defined.
