(* ===== verification/Kenv.v ===== *)
(** * The kernel as the environment of the file system

    An instance of the interface of FsState.v: the mutexes and spinlocks are
    those of Sync.v on the scheduler's state, the user memory is reached
    through the page table of the running task, and the block device is an
    ideal disk.  The laws hold as long as no other task contends for the
    locks. *)

From S2P Require Import Prelude Clist Buf Mmio Uart Pci Console Virtio FsState Sched SchedInv Sync Pages Vpages.

(** The state of the drivers: the registers of the devices, the screen, the
    receive buffer of the uart, the queue of the block device and what its
    configuration found. *)
Record devs := Devs {
  dv_mmio : mmio;
  dv_con : con;
  dv_rx : uart_ring_buffer;
  dv_blk : vblk;
  dv_pci : pci_device;
  dv_irq_addr : Z;
  dv_notify_addr : Z;
}.
Definition devs0 : devs := Devs (MmioSt [] []) con0 ring0 (virtq_init 0) (PciDevice 0 0) 0 0.

Record kenv := KEnv { ke_k : kst; ke_m : pmem; ke_d : gmap Z bytes; ke_v : devs }.

(** Liftings of the two parts. *)
Fixpoint kzoom {A : Type} (e : kenv) (o : outcome kst A) : outcome kenv A :=
  match o with
  | Done a k => Done a (KEnv k (ke_m e) (ke_d e) (ke_v e))
  | Panic msg => Panic msg
  | Fault => Fault
  | NoFuel => NoFuel
  | Switch k c => Switch (KEnv k (ke_m e) (ke_d e) (ke_v e)) (λ e', kzoom e' (c (ke_k e')))
  end.
Definition on_kst {A} (m : M kst A) : M kenv A := λ e, kzoom e (m (ke_k e)).
Fixpoint mzoom {A : Type} (e : kenv) (o : outcome pmem A) : outcome kenv A :=
  match o with
  | Done a m => Done a (KEnv (ke_k e) m (ke_d e) (ke_v e))
  | Panic msg => Panic msg
  | Fault => Fault
  | NoFuel => NoFuel
  | Switch m c => Switch (KEnv (ke_k e) m (ke_d e) (ke_v e)) (λ e', mzoom e' (c (ke_m e')))
  end.
Definition on_pmem {A} (m : M pmem A) : M kenv A := λ e, mzoom e (m (ke_m e)).

(** The addresses of the locks. *)
Definition lid (l : lock) : Z := match l with LBuf i => 2 * i | LIno i => 2 * i + 1 end.
Definition sid (l : slock) : Z := match l with SBcache => 0 | SIcache => 1 end.

(** The page table of the running task. *)
Definition active_root : M kenv Z :=
  t ← on_kst task_active; t ← of_opt t; v ← on_kst (get_task t); mret (root_ptable v).

(** The disk answers a request with the size of the buffer and of the status
    byte it wrote. *)
#[export] Instance kenv_env : Env kenv := {|
  env_mutex_init l := on_kst (mutex_init (lid l));
  env_mutex_lock l := on_kst (mutex_lock (lid l));
  env_mutex_unlock l := on_kst (mutex_unlock (lid l));
  env_mutex_is_lock l := on_kst (mutex_is_lock (lid l));
  env_spinlock_lock l := on_kst (spinlock_lock (SpinL (sid l)));
  env_spinlock_unlock l := on_kst (spinlock_unlock (SpinL (sid l)));
  env_blk_read s := λ e, Done (FS_BLK_SIZE + 1, default ∅ (ke_d e !! s)) e;
  env_blk_write s b := λ e, Done 1 (KEnv (ke_k e) (ke_m e) (<[s := b]> (ke_d e)) (ke_v e));
  env_copyin va n := root ← active_root; on_pmem (vpage_copyin root va n);
  env_copyout va src := root ← active_root; on_pmem (vpage_copyout root va src);
|}.

(** ** What the running task sees of the locks *)

(** Whether a mutex is locked; [None] before it is initialised, and when other
    tasks wait for it. *)
Definition mutex_state (k : kst) (l : lock) : option bool :=
  match mutexes k !! lid l, clist_empty (NMutexWq (lid l)) (k_nodes k) with
  | Some v, Some true => if m_lock v =? 0 then Some (m_locked v) else None
  | _, _ => None
  end.
Definition all_locks : list lock :=
  (LBuf ∘ Z.of_nat <$> seq 0 64) ++ (LIno ∘ Z.of_nat <$> seq 0 64).
Definition spinning_of (k : kst) : option slock :=
  if decide (spins k !! sid SBcache = Some 1) then Some SBcache
  else if decide (spins k !! sid SIcache = Some 1) then Some SIcache else None.

(** No lock is contended, nor a reschedule pending. *)
Record kok (k : kst) : Prop := {
  ko_active : is_Some (active k);
  ko_resched : need_resched k = false;
  ko_count : preempt_count k = if spinning_of k is Some _ then 1 else 0;
  ko_spins : ∀ l, spins k !! sid l = Some (if decide (spinning_of k = Some l) then 1 else 0);
  ko_owner : ∀ l v, lock_ok l → mutex_state k l = Some true → mutexes k !! lid l = Some v → m_owner v = active k;
}.

#[export] Instance kenv_spec : EnvSpec kenv := {|
  env_ok e := kok (ke_k e);
  ready e := list_to_set (filter (λ l, is_Some (mutex_state (ke_k e) l)) all_locks);
  held e := list_to_set (filter (λ l, mutex_state (ke_k e) l = Some true) all_locks);
  spinning e := spinning_of (ke_k e);
  disk e n := default ∅ (ke_d e !! n);
|}.

Lemma all_locks_elem l : l ∈ all_locks ↔ lock_ok l.
Proof.
  unfold all_locks. rewrite elem_of_app, !list_elem_of_fmap. setoid_rewrite elem_of_seq. split.
  - intros [(i & -> & Hi)|(i & -> & Hi)]; simpl; lia.
  - destruct l as [i|i]; simpl; intros Hi; [left|right]; exists (Z.to_nat i); split; simpl; try lia; f_equal; lia.
Qed.

Lemma lid_inj l l' : lid l = lid l' → l = l'.
Proof. destruct l, l'; simpl; intros; first [f_equal; lia | exfalso; lia]. Qed.
Lemma sid_inj l l' : sid l = sid l' → l = l'.
Proof. by destruct l, l'. Qed.

Lemma ready_elem e l : l ∈ ready e ↔ lock_ok l ∧ is_Some (mutex_state (ke_k e) l).
Proof. simpl. rewrite elem_of_list_to_set, list_elem_of_filter, all_locks_elem. tauto. Qed.
Lemma held_elem e l : l ∈ held e ↔ lock_ok l ∧ mutex_state (ke_k e) l = Some true.
Proof. simpl. rewrite elem_of_list_to_set, list_elem_of_filter, all_locks_elem. tauto. Qed.

Lemma mutex_state_Some k l b :
  mutex_state k l = Some b ↔
  ∃ v, mutexes k !! lid l = Some v ∧ m_lock v = 0 ∧ m_locked v = b ∧
    clist_empty (NMutexWq (lid l)) (k_nodes k) = Some true.
Proof.
  unfold mutex_state. destruct (mutexes k !! lid l) as [v|]; [|naive_solver].
  destruct (clist_empty _ _) as [[]|]; [|naive_solver..].
  destruct (Z.eqb_spec (m_lock v) 0); naive_solver.
Qed.

(** The states that differ in the state of one mutex. *)
Lemma locks_after e e' m b :
  lock_ok m → (∀ l, l ≠ m → mutex_state (ke_k e') l = mutex_state (ke_k e) l) → mutex_state (ke_k e') m = Some b →
  ready e' = {[m]} ∪ ready e ∧ held e' = if b then {[m]} ∪ held e else held e ∖ {[m]}.
Proof.
  intros Hm Ho Hb. split.
  - apply set_eq. intros l. rewrite elem_of_union, elem_of_singleton, !ready_elem.
    destruct (decide (l = m)) as [->|Hl]; [rewrite Hb; naive_solver|]. rewrite Ho by done. tauto.
  - apply set_eq. intros l. destruct b.
    + rewrite elem_of_union, elem_of_singleton, !held_elem.
      destruct (decide (l = m)) as [->|Hl]; [rewrite Hb; tauto|]. rewrite Ho by done. tauto.
    + rewrite elem_of_difference, elem_of_singleton, !held_elem.
      destruct (decide (l = m)) as [->|Hl]; [rewrite Hb; naive_solver|]. rewrite Ho by done. tauto.
Qed.

Lemma locks_same e e' :
  (∀ l, mutex_state (ke_k e') l = mutex_state (ke_k e) l) → ready e' = ready e ∧ held e' = held e.
Proof.
  intros Ho. split; apply set_eq; intros l; rewrite ?ready_elem, ?held_elem, Ho; done.
Qed.

(** Setting the mutex of [m], whose queue is empty, and nothing else that
    matters here. *)
Definition set_mutex_at (m : lock) (v : mutex) (k : kst) : kst := with_mutexes (<[lid m := v]> (mutexes k)) k.

Lemma mutex_state_set m v k l b :
  mutex_state k m = Some b → m_lock v = 0 →
  mutex_state (set_mutex_at m v k) l = if decide (l = m) then Some (m_locked v) else mutex_state k l.
Proof.
  intros (w & Hw & _ & _ & He)%mutex_state_Some Hv. unfold mutex_state, set_mutex_at. simpl.
  destruct (decide (l = m)) as [->|Hl].
  - rewrite lookup_insert_eq, He, Hv. done.
  - rewrite lookup_insert_ne; [done|]. intros E. apply Hl. symmetry. by apply lid_inj.
Qed.

Lemma kok_set m v k b :
  kok k → mutex_state k m = Some b → m_lock v = 0 → (m_locked v = true → m_owner v = active k) →
  kok (set_mutex_at m v k).
Proof.
  intros [Ha Hr Hc Hs Ho] Hm Hv Hown. split; try done. intros l w Hl Hst Hw.
  rewrite (mutex_state_set m v k l b Hm Hv) in Hst. unfold set_mutex_at in Hw. simpl in *.
  destruct (decide (l = m)) as [->|Hne].
  - rewrite lookup_insert_eq in Hw. injection Hw as <-. injection Hst as Hst. by apply Hown.
  - rewrite lookup_insert_ne in Hw by (intros E; apply Hne; symmetry; by apply lid_inj). by apply (Ho l).
Qed.

(** ** Running the locks without contention *)

Lemma spin_state k (l : slock) : kok k → spinning_of k = None → flag_of (SpinL (sid l)) k = Some 0.
Proof. intros Hk Hn. simpl. rewrite (ko_spins _ Hk l), Hn. done. Qed.

Lemma count_zero k : kok k → spinning_of k = None → preempt_count k = 0.
Proof. intros Hk Hn. by rewrite (ko_count _ Hk), Hn. Qed.

Lemma set_mutex_at_twice m v w k : set_mutex_at m v (set_mutex_at m w k) = set_mutex_at m v k.
Proof. unfold set_mutex_at, with_mutexes. simpl. by rewrite insert_insert_eq. Qed.

Lemma with_count_id c k : preempt_count k = c → with_preempt_count c k = k.
Proof. intros <-. by destruct k. Qed.

(** The spinlock of a mutex around a critical section that changes the mutex. *)
Lemma mutex_enter m k v :
  kok k → spinning_of k = None → mutexes k !! lid m = Some v → m_lock v = 0 →
  spinlock_lock (SpinM (lid m)) k =
    Done tt (with_preempt_count 1 (set_mutex_at m (Mutex (m_locked v) (m_owner v) 1) k)).
Proof.
  intros Hk Hs Hv Hl. rewrite spinlock_lock_run by (simpl; rewrite Hv; simpl; by rewrite Hl).
  unfold locked. rewrite (count_zero k Hk Hs). change (u32 (0 + 1)) with 1. simpl.
  rewrite (alter_is_insert _ _ _ v) by done. done.
Qed.

Lemma mutex_leave m k v :
  kok k → spinning_of k = None →
  spinlock_unlock (SpinM (lid m)) (with_preempt_count 1 (set_mutex_at m v k)) =
    Done tt (set_mutex_at m (Mutex (m_locked v) (m_owner v) 0) k).
Proof.
  intros Hk Hs. unfold spinlock_unlock.
  set (k1 := with_preempt_count 1 _). assert (mutexes k1 !! lid m = Some v) as Hv by apply lookup_insert_eq.
  rewrite (bind_Done _ _ _ _ _ (set_flag_run (SpinM (lid m)) k1 (m_lock v) 0 ltac:(unfold flag_of; by rewrite Hv))).
  simpl flagged. rewrite (alter_is_insert _ _ _ v) by done.
  rewrite enable_preempt_quiet; [|simpl; apply (ko_resched _ Hk)|done]. f_equal.
  rewrite <-(with_count_id 0 (set_mutex_at m _ k)) by (simpl; by apply count_zero).
  unfold k1, set_mutex_at, with_mutexes, with_preempt_count. simpl. by rewrite insert_insert_eq.
Qed.

Lemma mutex_lock_free m k :
  kok k → spinning_of k = None → mutex_state k m = Some false →
  mutex_lock (lid m) k = Done tt (set_mutex_at m (Mutex true (active k) 0) k).
Proof.
  intros Hk Hs (v & Hv & Hl & Hb & He)%mutex_state_Some. unfold mutex_lock.
  mstep (mutex_enter m k v Hk Hs Hv Hl). set (k1 := with_preempt_count 1 _).
  assert (mutex_trylock_unlocked (lid m) k1 =
    Done 0 (with_preempt_count 1 (set_mutex_at m (Mutex true (active k) 1) k))) as Ht.
  { unfold mutex_trylock_unlocked. run (get_mutex_run k1 (lid m) (Mutex (m_locked v) (m_owner v) 1) ltac:(apply lookup_insert_eq)).
    rewrite Hb. cbn [m_locked m_lock]. erewrite bind_Done by reflexivity. cbn beta.
    unfold set_mutex, modify. erewrite bind_Done by reflexivity. cbn beta. unfold mret, M_ret. f_equal.
    unfold k1, set_mutex_at, with_mutexes, with_preempt_count. simpl. by rewrite insert_insert_eq. }
  mstep Ht. change (0 <? 0) with false. cbn iota. by apply (mutex_leave m k).
Qed.

Lemma mutex_unlock_held m k v :
  kok k → lock_ok m → spinning_of k = None → mutex_state k m = Some true → mutexes k !! lid m = Some v →
  mutex_unlock (lid m) k = Done tt (set_mutex_at m (Mutex false None 0) k).
Proof.
  intros Hk Hm Hs Hst Hv. pose proof (ko_owner _ Hk m v Hm Hst Hv) as Hown.
  apply mutex_state_Some in Hst as (w & Hw & Hl & Hb & He). assert (w = v) as -> by congruence. unfold mutex_unlock.
  mstep (mutex_enter m k v Hk Hs Hv Hl). set (k1 := with_preempt_count 1 _).
  erewrite bind_Done by reflexivity. cbn beta.
  run (get_mutex_run k1 (lid m) (Mutex (m_locked v) (m_owner v) 1) ltac:(apply lookup_insert_eq)).
  cbn [m_locked m_owner m_lock]. rewrite Hb. simpl active. rewrite bool_decide_false by (rewrite Hown; tauto). cbn [negb orb].
  erewrite bind_Done.
  2:{ erewrite bind_Done by (apply read_nodes_run; exact He). cbn beta iota. cbn [negb].
      unfold set_mutex, modify. reflexivity. }
  cbn beta. refine (eq_trans _ (mutex_leave m k (Mutex false None 1) Hk Hs)). f_equal.
  unfold k1, set_mutex_at, with_mutexes, with_preempt_count. simpl. by rewrite insert_insert_eq.
Qed.

Lemma spin_enter l k :
  kok k → spinning_of k = None →
  spinlock_lock (SpinL (sid l)) k = Done tt (with_preempt_count 1 (with_spins (<[sid l := 1]> (spins k)) k)).
Proof.
  intros Hk Hs. rewrite spinlock_lock_run by by apply spin_state.
  unfold locked. by rewrite (count_zero k Hk Hs).
Qed.

Lemma spinning_set l k b c :
  kok k → (∀ l', l' ≠ l → spinning_of k ≠ Some l') →
  spinning_of (with_preempt_count c (with_spins (<[sid l := b]> (spins k)) k)) =
    if decide (b = 1) then Some l else None.
Proof.
  intros Hk Ho. pose proof (ko_spins _ Hk) as Hs. unfold spinning_of at 1. simpl.
  assert (∀ l', l' ≠ l → spins k !! sid l' = Some 0) as H0.
  { intros l' Hl'. rewrite Hs, decide_False by by apply Ho. done. }
  destruct l; simpl; rewrite ?lookup_insert_eq.
  - destruct (decide (Some b = Some 1)), (decide (b = 1)); try congruence.
    rewrite lookup_insert_ne by done. pose proof (H0 SIcache ltac:(done)) as H1. simpl in H1. by rewrite H1.
  - rewrite lookup_insert_ne by done. pose proof (H0 SBcache ltac:(done)) as H1. simpl in H1. rewrite H1.
    rewrite decide_False by done. by destruct (decide (Some b = Some 1)), (decide (b = 1)); try congruence.
Qed.

Lemma kok_spin l k b :
  kok k → (∀ l', l' ≠ l → spinning_of k ≠ Some l') → b = 0 ∨ b = 1 →
  kok (with_preempt_count b (with_spins (<[sid l := b]> (spins k)) k)).
Proof.
  intros Hk Ho Hb. pose proof (spinning_set l k b b Hk Ho) as Hsp. destruct Hk as [Ha Hr Hc Hs Hown].
  split; [done|done| | |done].
  - rewrite Hsp. destruct Hb as [-> | ->]; done.
  - intros l'. rewrite Hsp. simpl. destruct (decide (l' = l)) as [->|Hl].
    + rewrite lookup_insert_eq. destruct Hb as [-> | ->]; simpl; [done|]. by rewrite decide_True.
    + rewrite lookup_insert_ne by (intros E; apply Hl; symmetry; by apply sid_inj).
      rewrite Hs, decide_False by by apply Ho. rewrite decide_False; [done|].
      destruct (decide (b = 1)); congruence.
Qed.

Lemma spin_leave l k :
  kok k → spinning_of k = Some l →
  spinlock_unlock (SpinL (sid l)) k = Done tt (with_preempt_count 0 (with_spins (<[sid l := 0]> (spins k)) k)).
Proof.
  intros Hk Hs. unfold spinlock_unlock. erewrite bind_Done by reflexivity. cbn beta.
  rewrite enable_preempt_quiet; [done|apply (ko_resched _ Hk)|simpl; by rewrite (ko_count _ Hk), Hs].
Qed.

(** Initialising a mutex that is not held. *)
Lemma mutex_init_state m k l :
  mutex_state k m ≠ Some true →
  mutex_state (with_nodes (clist_init_node (NMutexWq (lid m)) (k_nodes k)) (set_mutex_at m (Mutex false None 0) k)) l =
    if decide (l = m) then Some false else mutex_state k l.
Proof.
  intros _. unfold mutex_state, set_mutex_at, clist_empty, clist_init_node. simpl.
  destruct (decide (l = m)) as [->|Hl].
  - rewrite !lookup_insert_eq. simpl. by rewrite bool_decide_true.
  - assert (lid m ≠ lid l) as Hne by (intros E; apply Hl; symmetry; by apply lid_inj).
    rewrite lookup_insert_ne by done. rewrite lookup_insert_ne by congruence. done.
Qed.

Lemma kok_init m k :
  kok k → mutex_state k m ≠ Some true →
  kok (with_nodes (clist_init_node (NMutexWq (lid m)) (k_nodes k)) (set_mutex_at m (Mutex false None 0) k)).
Proof.
  intros Hk Hm. pose proof (λ l, mutex_init_state m k l Hm) as Hst. destruct Hk as [Ha Hr Hc Hs Ho].
  split; try done. intros l w Hl Hstl Hw. rewrite Hst in Hstl. destruct (decide (l = m)) as [->|Hne]; [done|].
  simpl in *. rewrite lookup_insert_ne in Hw by (intros E; apply Hne; symmetry; by apply lid_inj). by apply (Ho l).
Qed.

(** ** The laws *)

#[export] Instance kenv_laws : EnvLaws kenv.
Proof.
  split.
  - intros m e Hk Hm Hh. assert (mutex_state (ke_k e) m ≠ Some true) as Hst.
    { intros Hst. apply Hh, held_elem. done. }
    set (k' := with_nodes (clist_init_node (NMutexWq (lid m)) (k_nodes (ke_k e))) (set_mutex_at m (Mutex false None 0) (ke_k e))).
    assert (env_mutex_init m e = Done tt (KEnv k' (ke_m e) (ke_d e) (ke_v e))) as -> by done.
    destruct (locks_after e (KEnv k' (ke_m e) (ke_d e) (ke_v e)) m false Hm) as [Hr Hhe].
    { intros l Hl. unfold k'. simpl ke_k. rewrite mutex_init_state by done. by rewrite decide_False. }
    { unfold k'. simpl ke_k. rewrite mutex_init_state by done. by rewrite decide_True. }
    split_and!; [by apply kok_init|done| |done|done].
    rewrite Hhe. apply set_eq. intros l. rewrite elem_of_difference, elem_of_singleton. naive_solver.
  - intros m e Hk Hr Hs Hh. apply ready_elem in Hr as [Hm [b Hb]].
    assert (b = false) as ->. { destruct b; [|done]. exfalso. apply Hh, held_elem. done. }
    assert (env_mutex_lock m e = Done tt (KEnv (set_mutex_at m (Mutex true (active (ke_k e)) 0) (ke_k e)) (ke_m e) (ke_d e) (ke_v e))) as ->.
    { simpl. unfold on_kst. by rewrite mutex_lock_free. }
    set (k' := set_mutex_at _ _ _). destruct (locks_after e (KEnv k' (ke_m e) (ke_d e) (ke_v e)) m true Hm) as [Hr Hhe].
    { intros l Hl. unfold k'. simpl ke_k. rewrite (mutex_state_set _ _ _ _ false) by done. by rewrite decide_False. }
    { unfold k'. simpl ke_k. rewrite (mutex_state_set _ _ _ _ false) by done. by rewrite decide_True. }
    split_and!; [by apply (kok_set m _ _ false)| |done|done|done].
    rewrite Hr. apply set_eq. intros l. rewrite elem_of_union, elem_of_singleton, ready_elem. naive_solver.
  - intros m e Hk Hs Hh. apply held_elem in Hh as [Hm Hb].
    pose proof Hb as (v & Hv & _)%mutex_state_Some.
    assert (env_mutex_unlock m e = Done tt (KEnv (set_mutex_at m (Mutex false None 0) (ke_k e)) (ke_m e) (ke_d e) (ke_v e))) as ->.
    { simpl. unfold on_kst. by rewrite (mutex_unlock_held m _ v). }
    set (k' := set_mutex_at _ _ _). destruct (locks_after e (KEnv k' (ke_m e) (ke_d e) (ke_v e)) m false Hm) as [Hr Hhe].
    { intros l Hl. unfold k'. simpl ke_k. rewrite (mutex_state_set _ _ _ _ true) by done. by rewrite decide_False. }
    { unfold k'. simpl ke_k. rewrite (mutex_state_set _ _ _ _ true) by done. by rewrite decide_True. }
    split_and!; [by apply (kok_set m _ _ true)| |done|done|done].
    rewrite Hr. apply set_eq. intros l. rewrite elem_of_union, elem_of_singleton, ready_elem. naive_solver.
  - intros m e Hk Hh. apply held_elem in Hh as [Hm (v & Hv & _ & Hb & _)%mutex_state_Some].
    assert (env_mutex_is_lock m e = Done true e) as ->.
    { simpl. unfold on_kst, mutex_is_lock. run (get_mutex_run (ke_k e) (lid m) v). rewrite Hb. by destruct e. }
    split; [done|]. by split_and!.
  - intros l e Hk Hs.
    assert (env_spinlock_lock l e = Done tt (KEnv (with_preempt_count 1 (with_spins (<[sid l := 1]> (spins (ke_k e))) (ke_k e)))
      (ke_m e) (ke_d e) (ke_v e))) as -> by (simpl; unfold on_kst; by rewrite spin_enter).
    destruct (locks_same e (KEnv (with_preempt_count 1 (with_spins (<[sid l := 1]> (spins (ke_k e))) (ke_k e))) (ke_m e) (ke_d e) (ke_v e)))
      as [Hr Hh]; [done|].
    split_and!; [apply kok_spin; [done| |by right]; simpl in Hs; congruence|done|done| |done].
    simpl. rewrite spinning_set; [done|done|]. simpl in Hs. congruence.
  - intros l e Hk Hs.
    assert (env_spinlock_unlock l e = Done tt (KEnv (with_preempt_count 0 (with_spins (<[sid l := 0]> (spins (ke_k e))) (ke_k e)))
      (ke_m e) (ke_d e) (ke_v e))) as -> by (simpl; unfold on_kst; by rewrite spin_leave).
    destruct (locks_same e (KEnv (with_preempt_count 0 (with_spins (<[sid l := 0]> (spins (ke_k e))) (ke_k e))) (ke_m e) (ke_d e) (ke_v e)))
      as [Hr Hh]; [done|].
    split_and!; [apply kok_spin; [done| |by left]; simpl in Hs; congruence|done|done| |done].
    simpl. rewrite spinning_set; [done|done|]. simpl in Hs. congruence.
  - intros s e Hk Hs. simpl. split_and!; try done; by unfold FS_BLK_SIZE.
  - intros s b e Hk Hs. simpl. split_and!; try done.
    + cbn [ke_d]. by rewrite lookup_insert_eq.
    + intros s' Hs'. cbn [ke_d]. rewrite lookup_insert_ne by lia. done.
Qed.
