(* ===== verification/CacheThm.v ===== *)
(** * The block cache refines an array of blocks

    The contract of the cache for its clients, as a refinement: a client that
    reads, changes and writes back blocks through the cache sees an array of
    blocks, whatever the cache keeps, evicts and fetches. *)

From S2P Require Import Prelude Clist Buf FsState Bcache BcacheInv Sched Sync Pages Kenv.

(** ** Clients of the cache *)

(** Read a block; change its contents; write it back to the disk. *)
Inductive bop := BRead (n : Z) | BWrite (n : Z) (g : bytes → bytes) | BSync (n : Z).

Section Clients.
Context {E : Type} `{Env E}.

Definition bop_run (o : bop) : M (sys E) bytes :=
  let n := match o with BRead n | BWrite n _ | BSync n => n end in
  r ← bcache_read n;
  i ← of_opt r;
  match o with
  | BRead _ => mret tt
  | BWrite _ g => upd_buf i (λ b, cb_set_buf (g (cb_buf b)) b);; bcache_mark_dirty i
  | BSync _ => bcache_sync i;; mret tt
  end;;
  b ← get_buf i;
  bcache_release i;;
  mret (cb_buf b).

Fixpoint bops_run (os : list bop) : M (sys E) (list bytes) :=
  match os with
  | [] => mret []
  | o :: os => r ← bop_run o; rs ← bops_run os; mret (r :: rs)
  end.
End Clients.

(** The same on an array. *)
Definition bop_spec (o : bop) (d : Z → bytes) : bytes * (Z → bytes) :=
  match o with
  | BRead n | BSync n => (d n, d)
  | BWrite n g => (g (d n), λ m, if decide (m = n) then g (d n) else d m)
  end.
Fixpoint bops_spec (os : list bop) (d : Z → bytes) : list bytes * (Z → bytes) :=
  match os with
  | [] => ([], d)
  | o :: os => let '(r, d1) := bop_spec o d in let '(rs, d2) := bops_spec os d1 in (r :: rs, d2)
  end.

Definition bop_ok (o : bop) : Prop :=
  match o with
  | BRead n | BSync n => blk_ok n
  | BWrite n g => blk_ok n ∧ ∀ b, wf_bytes b → wf_bytes (g b)
  end.
Definition writes (o : bop) : Z := if o is BWrite _ _ then 1 else 0.
Definition nb_writes (os : list bop) : Z := foldr (λ o c, writes o + c) 0 os.

Section Refines.
Context {E : Type} `{EnvLaws E}.
Implicit Types (e : E) (f : fs).

(** The state between two operations of a client that holds no block. *)
Definition idle (s : sys E) (il : list Z) (hs : gset lock) (dk : Z → bytes) : Prop :=
  at_env (s_env s) hs None dk ∧ BInv (s_fs s) hs dk il ∧ ∀ i, LBuf i ∉ hs.

(** Releasing the block an operation worked on. *)
Lemma finish_op (Q : bytes → sys E → Prop) f e hs dk il i b :
  at_env e ({[LBuf i]} ∪ hs) None dk → BInv f ({[LBuf i]} ∪ hs) dk il → (∀ j, LBuf j ∉ hs) →
  bufs f !! i = Some b →
  (∀ s', idle s' il hs dk → (∀ m, lblk (s_fs s') dk m = lblk f dk m) → fs_frame f (s_fs s') →
    spare (s_fs s') = spare f + (if is_dirty_locked b then 0 else 1) → Q (cb_buf b) s') →
  runs ((b ← get_buf i; bcache_release i;; mret (cb_buf b)) (Sys f e)) Q.
Proof.
  intros He HB Hno Hb HQ. mstep (get_buf_run i f e b Hb). apply runs_bind.
  eapply runs_mono; [apply (release_runs f e _ dk il i He HB); [by eapply buf_range|set_solver]|].
  assert (({[LBuf i]} ∪ hs) ∖ {[LBuf i]} = hs) as Eh by set_solver.
  intros [] s' (e' & <- & He' & HB' & Hl & Hf & _ & b0 & Hb0 & _ & Hsp). rewrite Eh in *.
  assert (b0 = b) as -> by congruence. by apply HQ.
Qed.

Lemma bop_refines o s il hs dk :
  idle s il hs dk → bop_ok o → 1 ≤ spare (s_fs s) →
  runs (bop_run o s) (λ r s', ∃ dk', idle s' il hs dk' ∧ fs_frame (s_fs s) (s_fs s') ∧
    r = (bop_spec o (lblk (s_fs s) dk)).1 ∧
    (∀ m, blk_ok m → lblk (s_fs s') dk' m = (bop_spec o (lblk (s_fs s) dk)).2 m) ∧
    spare (s_fs s) - writes o ≤ spare (s_fs s') ∧ (if o is BSync n then dk' (sector n) = r else True)).
Proof.
  intros (He & HB & Hno) Hok Hsp. destruct s as [f e]. simpl in *.
  set (n := match o with BRead n | BWrite n _ | BSync n => n end).
  assert (blk_ok n) as Hn by (destruct o; apply Hok).
  unfold bop_run. fold n. apply runs_bind. eapply runs_mono; [apply (read_runs f e hs dk il n He HB Hn); [|done]|].
  { intros i b Hi. by destruct (Hno i). }
  intros r s1 (i & e1 & -> & <- & He1 & Hi & HB1 & (b & Hb & Hbn & Hv & Hc & Hs1) & Hl1 & Hf1 & _).
  erewrite bind_Done by reflexivity. cbn beta. destruct s1 as [f1 e1]. simpl in *.
  assert (LBuf i ∈ {[LBuf i]} ∪ hs) as Hin by set_solver.
  destruct o as [k|k g|k]; simpl in n; subst n.
  - rewrite bind_ret. apply (finish_op _ f1 e1 hs dk il i b He1 HB1 Hno Hb). intros s' Hid Hl Hf Hs'.
    exists dk. split_and!; try done; [by eapply fs_frame_trans|intros m _; by rewrite Hl|].
    destruct (is_dirty_locked b); simpl; lia.
  - destruct Hok as [_ Hg]. set (b1 := cb_set_buf (g (cb_buf b)) b).
    erewrite bind_Done; [|mstep (upd_buf_run i (λ b, cb_set_buf (g (cb_buf b)) b) f1 e1 b Hb);
      unfold bcache_mark_dirty; fold b1; rewrite (upd_buf_run i set_dirty_locked _ e1 _ (set_bufs_lookup i b1 f1)), set_bufs_twice; reflexivity].
    destruct (write_held f1 _ dk il i b (g (cb_buf b)) HB1 Hb Hin Hv) as (HB2 & Hl2 & Hf2 & Hsp2).
    { apply Hg. by apply (bo_wf _ _ _ _ (bi_buf _ _ _ _ HB1 i b Hb)). }
    apply (finish_op _ _ e1 hs dk il i _ He1 HB2 Hno (set_bufs_lookup i _ f1)). intros s' Hid Hl Hf Hs'.
    exists dk. split_and!; try done.
    + eapply fs_frame_trans; [exact Hf1|]. eapply fs_frame_trans; [exact Hf2|done].
    + simpl. by rewrite Hc.
    + intros m _. rewrite Hl, Hl2, Hbn, Hc. simpl. destruct (decide (m = k)); [done|]. by rewrite Hl1.
    + rewrite Hs', Hsp2, Hs1. destruct (is_dirty_locked (set_dirty_locked _)), (is_dirty_locked b); simpl; lia.
  - apply runs_bind, runs_bind.
    eapply runs_mono; [by apply (sync_runs f1 e1 _ dk il i b He1 HB1 Hb Hin Hv)|].
    intros _ [f2 e2] (dk2 & _ & He2 & HB2 & Hf2 & Hsp2 & Hl2 & Hd2 & b2 & Hb2 & Hcl & Hc2). simpl in *.
    apply (finish_op _ f2 e2 hs dk2 il i b2 He2 HB2 Hno Hb2). intros s' Hid Hl Hf Hs'.
    exists dk2. split_and!; try done.
    + eapply fs_frame_trans; [exact Hf1|]. eapply fs_frame_trans; [exact Hf2|done].
    + simpl. by rewrite Hc2.
    + intros m Hm. by rewrite Hl, Hl2, Hl1.
    + rewrite Hs', Hcl, Hsp2, Hs1. simpl. destruct (is_dirty_locked b); lia.
    + rewrite <-Hbn, Hd2. by rewrite Hc2.
Qed.

Lemma bops_spec_ext os d d' :
  Forall bop_ok os → (∀ m, blk_ok m → d m = d' m) →
  (bops_spec os d).1 = (bops_spec os d').1 ∧ ∀ m, blk_ok m → (bops_spec os d).2 m = (bops_spec os d').2 m.
Proof.
  intros Hos. revert d d'. induction Hos as [|o os Ho Hos IH]; intros d d' Hd; [done|]. simpl.
  assert ((bop_spec o d).1 = (bop_spec o d').1 ∧ ∀ m, blk_ok m → (bop_spec o d).2 m = (bop_spec o d').2 m) as [E1 E2].
  { destruct o as [n|n g|n]; simpl in *; [by split; [apply Hd|]| |by split; [apply Hd|]].
    destruct Ho as [Hn _]. rewrite (Hd n Hn). split; [done|]. intros m Hm. destruct (decide (m = n)); [done|by apply Hd]. }
  destruct (bop_spec o d) as [r d1], (bop_spec o d') as [r' d1']. simpl in *.
  destruct (IH d1 d1' E2) as [E3 E4].
  destruct (bops_spec os d1) as [rs d2], (bops_spec os d1') as [rs' d2']. simpl in *. by subst.
Qed.

Lemma bops_refine os s il hs dk :
  idle s il hs dk → Forall bop_ok os → nb_writes os < spare (s_fs s) →
  runs (bops_run os s) (λ rs s', ∃ dk', idle s' il hs dk' ∧ fs_frame (s_fs s) (s_fs s') ∧
    rs = (bops_spec os (lblk (s_fs s) dk)).1 ∧
    ∀ m, blk_ok m → lblk (s_fs s') dk' m = (bops_spec os (lblk (s_fs s) dk)).2 m).
Proof.
  intros Hid Hos. revert s dk Hid. induction Hos as [|o os Ho Hos IH]; intros s dk Hid Hsp.
  { exists dk. by split_and!. }
  assert (0 ≤ nb_writes os) as Hpos by (clear; induction os as [|[]]; simpl; lia).
  assert (0 ≤ writes o) by by destruct o. simpl in Hsp. cbn [bops_run]. apply runs_bind.
  eapply runs_mono; [apply (bop_refines o s il hs dk Hid Ho); lia|].
  intros r s1 (dk1 & Hid1 & Hf1 & Hr & Hl1 & Hsp1 & _). apply runs_bind.
  eapply runs_mono; [apply (IH s1 dk1 Hid1); lia|].
  intros rs s2 (dk2 & Hid2 & Hf2 & Hrs & Hl2).
  destruct (bops_spec_ext os (lblk (s_fs s1) dk1) (bop_spec o (lblk (s_fs s) dk)).2 Hos Hl1) as [E1 E2].
  exists dk2. split_and!; [done|by eapply fs_frame_trans| |].
  - simpl. destruct (bop_spec o _) as [r0 d1]. simpl in *. rewrite E1 in Hrs.
    destruct (bops_spec os d1) as [rs0 d2]. simpl in *. by subst.
  - intros m Hm. rewrite Hl2, E2 by done. simpl. destruct (bop_spec o _) as [r0 d1]. simpl.
    by destruct (bops_spec os d1).
Qed.

(** ** The cache is full *)

(** The code ends in a panic, however it is resumed. *)
Fixpoint panics {A} (o : outcome (sys E) A) : Prop :=
  match o with
  | Panic _ => True
  | Switch s k => ∀ s', resumes s s' → panics (k s')
  | _ => False
  end.

Lemma panics_bind {A B} (m : M (sys E) A) (k : A → M (sys E) B) s :
  runs (m s) (λ a s', panics (k a s')) → panics ((m ≫= k) s).
Proof.
  unfold mbind, M_bind, runs. induction (m s) as [| | | |s0 c IH]; simpl; try done.
  intros [_ Hc] s' Hs'. by apply IH, Hc.
Qed.

Lemma getblk_full f e hs dk il n :
  at_env e hs None dk → BInv f hs dk il → (∀ i b, bufs f !! i = Some b → cb_blkno b ≠ n) → spare f = 0 →
  panics (bcache_getblk n (Sys f e)).
Proof.
  intros He HB Hn Hsp. unfold bcache_getblk. apply panics_bind, (runs_spin SBcache f e hs dk _ He). intros e1 He1.
  destruct (cache_request_run f e1 hs dk il n HB) as (r & Hr & Hrs). mstep Hr.
  destruct r as [i|]; [destruct Hrs as (b & Hb & Hbn); by destruct (Hn i b Hb)|].
  destruct (find_reusable_run f e1 hs dk il HB) as (r & Hr2 & Hrs2). destruct r as [i|].
  - destruct Hrs2 as (b & Hb & Hp). exfalso.
    pose proof (ind_reusable f i b Hb) as Hi. unfold ind in Hi. rewrite Hp in Hi.
    destruct (decide (reusable f i)) as [Hre|]; [|lia]. unfold spare in Hsp.
    assert (i ∈ filter (reusable f) buf_idx) as Hin.
    { apply list_elem_of_filter. split; [done|]. apply buf_idx_elem. by eapply buf_range. }
    destruct (filter (reusable f) buf_idx); [by apply elem_of_nil in Hin|simpl in Hsp; lia].
  - unfold mbind, M_bind. rewrite Hr2. done.
Qed.
End Refines.

(** ** Properties *)

(** C26: a client that reads, changes and writes back blocks through the cache
    sees a plain array of blocks: every operation returns, with the contents
    the array has at that point, and the blocks it did not change keep
    theirs, however the cache evicts and fetches.  The client changes fewer
    blocks than the cache has spare buffers, since the cache never evicts a
    dirty one. *)
Theorem bcache_refines_array {E : Type} `{EnvLaws E} (os : list bop) (s : sys E) il hs dk :
  idle s il hs dk → Forall bop_ok os → nb_writes os < spare (s_fs s) →
  runs (bops_run os s) (λ rs s', ∃ dk', idle s' il hs dk' ∧ fs_frame (s_fs s) (s_fs s') ∧
    rs = (bops_spec os (lblk (s_fs s) dk)).1 ∧
    ∀ m, blk_ok m → lblk (s_fs s') dk' m = (bops_spec os (lblk (s_fs s) dk)).2 m).
Proof. apply bops_refine. Qed.

(** [bcache_sync] makes a block durable: afterwards the disk holds the
    contents the cache had for it, and no block changed. *)
Theorem bcache_sync_durable {E : Type} `{EnvLaws E} (n : Z) (s : sys E) il hs dk :
  idle s il hs dk → blk_ok n → 1 ≤ spare (s_fs s) →
  runs (bop_run (BSync n) s) (λ r s', ∃ dk', idle s' il hs dk' ∧ dk' (sector n) = lblk (s_fs s) dk n ∧
    ∀ m, blk_ok m → lblk (s_fs s') dk' m = lblk (s_fs s) dk m).
Proof.
  intros Hid Hn Hsp. eapply runs_mono; [by apply (bop_refines (BSync n) s il hs dk Hid Hn)|].
  intros r s' (dk' & Hid' & _ & -> & Hl & _ & Hd). exists dk'. by split_and!.
Qed.


(** ** Witnesses *)

Definition task0 : task := Task 1 1 [] RUNNING 0 false 0 0 0 None 0 NORMAL [].
Definition kst0 : kst := Kst ∅ {[1 := task0]} (Some 1) 2 1 0 false NORMAL 0 true ∅ ∅ {[0 := 0; 1 := 0]}.
Definition disk0 : gmap Z bytes := {[8 := of_list [10; 20; 30]; 16 := of_list [1; 2]]}.
Definition env0 : kenv := KEnv kst0 (Pmem ∅ ∅ ∅) disk0 devs0.
Definition fs0 : fs :=
  Fs {[FBufList := CNode FBufList FBufList false; FIcache := CNode FIcache FIcache false]}
    (list_to_map ((λ i, (i, blank)) <$> buf_idx)) ∅ ∅ ∅ (FsMeta 0 0 0 0 0 0 0 0 0 0 0) 0 None.
Definition boot : M (sys kenv) unit := each (λ l, env (env_mutex_init l)) all_locks;; bcache_init.
Definition end_of {S A} (o : outcome S A) (d : S) : S := match o with Done _ s => s | _ => d end.
Definition sys1 : sys kenv := end_of (boot (Sys fs0 env0)) (Sys fs0 env0).

(** Checkers of the invariants on concrete states. *)
Definition wfb (b : bytes) : bool := bool_decide (map_Forall (λ _ v, 0 ≤ v < 256) b).
Lemma wfb_wf b : wfb b = true → wf_bytes b.
Proof.
  intros Hb%bool_decide_eq_true_1 i. unfold byte_at. destruct (b !! i) as [v|] eqn:Ev; simpl; [|lia].
  by apply (Hb i v).
Qed.

Definition buf_okb (hs : gset lock) (dk : Z → bytes) (i : Z) (b : cblk) : bool :=
  (cb_refcnt b =? if decide (LBuf i ∈ hs) then 1 else 0) && wfb (cb_buf b) &&
  implb (is_dirty_locked b) (is_valid_locked b) &&
  implb (is_valid_locked b) (bool_decide (0 ≤ cb_blkno b < 2 ^ 28)) &&
  implb (is_valid_locked b && negb (is_dirty_locked b)) (bool_decide (cb_buf b = dk (sector (cb_blkno b)))).
Definition binvb (f : fs) (hs : gset lock) (d : gmap Z bytes) (bl il : list Z) : bool :=
  repb (fs_nodes f) (lists bl il) && bool_decide (bl ≡ₚ buf_idx) && bool_decide (dom (bufs f) = list_to_set buf_idx) &&
  forallb (λ p, forallb (λ q, implb (cb_blkno p.2 =? cb_blkno q.2) ((cb_blkno p.2 =? UINT32_MAX) || (p.1 =? q.1)))
    (map_to_list (bufs f))) (map_to_list (bufs f)) &&
  forallb (λ p, buf_okb hs (λ n, default ∅ (d !! n)) p.1 p.2) (map_to_list (bufs f)) &&
  forallb (λ p, wfb p.2) (map_to_list d).

Lemma buf_okb_ok hs dk i b : buf_okb hs dk i b = true → buf_ok hs dk i b.
Proof.
  unfold buf_okb. rewrite !andb_true_iff, !implb_true_iff. intros ((((Hr & Hw) & Hd) & Hv) & Hc). split.
  - by apply Z.eqb_eq.
  - by apply wfb_wf.
  - done.
  - intros Hvb. apply Hv in Hvb. by apply bool_decide_eq_true_1 in Hvb.
  - intros Hvb Hcl. rewrite Hvb, Hcl in Hc. specialize (Hc eq_refl). by apply bool_decide_eq_true_1 in Hc.
Qed.

Lemma binvb_inv f hs d bl il : binvb f hs d bl il = true → BInv f hs (λ n, default ∅ (d !! n)) il.
Proof.
  unfold binvb. rewrite !andb_true_iff. intros (((((HR & Hbl) & Hdom) & Hinj) & Hok) & Hd).
  apply bool_decide_eq_true_1 in Hbl, Hdom. rewrite forallb_forall in Hinj, Hok, Hd.
  assert (∀ i b, bufs f !! i = Some b → In (i, b) (map_to_list (bufs f))) as Hin.
  { intros i b Hb. by apply list_elem_of_In, elem_of_map_to_list. }
  split.
  - exists bl. split; [by apply repb_rep|]. intros i. by rewrite Hbl, buf_idx_elem.
  - intros i. rewrite <-elem_of_dom, Hdom, elem_of_list_to_set, buf_idx_elem. done.
  - intros i j bi bj Hi Hj Hbn Hne. pose proof (Hinj _ (Hin i bi Hi)) as Hp. rewrite forallb_forall in Hp.
    specialize (Hp _ (Hin j bj Hj)). simpl in Hp. rewrite Hbn, Z.eqb_refl in Hp. simpl in Hp.
    apply orb_true_iff in Hp as [Hp|Hp]; apply Z.eqb_eq in Hp; congruence.
  - intros i b Hb. apply buf_okb_ok, (Hok _ (Hin i b Hb)).
  - intros n _. destruct (d !! sector n) as [b|] eqn:Eb; simpl; [|apply wf_empty].
    apply wfb_wf. by apply (Hd (sector n, b)), list_elem_of_In, elem_of_map_to_list.
Qed.

Definition kokb (k : kst) : bool :=
  bool_decide (is_Some (active k)) && negb (need_resched k) &&
  (preempt_count k =? (if spinning_of k is Some _ then 1 else 0)) &&
  forallb (λ l, bool_decide (spins k !! sid l = Some (if decide (spinning_of k = Some l) then 1 else 0))) [SBcache; SIcache] &&
  forallb (λ l, implb (bool_decide (mutex_state k l = Some true)) (bool_decide ((m_owner <$> mutexes k !! lid l) = Some (active k))))
    all_locks.
Lemma kokb_kok k : kokb k = true → kok k.
Proof.
  unfold kokb. rewrite !andb_true_iff, !forallb_forall. intros ((((Ha & Hr) & Hc) & Hs) & Ho). split.
  - by apply bool_decide_eq_true_1 in Ha.
  - by apply negb_true_iff.
  - by apply Z.eqb_eq.
  - intros l. assert (In l [SBcache; SIcache]) as Hl by (destruct l; simpl; auto). specialize (Hs l Hl).
    by apply bool_decide_eq_true_1 in Hs.
  - intros l v Hl Hst Hv. assert (In l all_locks) as Hin by by apply list_elem_of_In, all_locks_elem.
    specialize (Ho l Hin). rewrite bool_decide_true in Ho by done. simpl in Ho.
    apply bool_decide_eq_true_1 in Ho. rewrite Hv in Ho. simpl in Ho. congruence.
Qed.

Definition at_envb (e : kenv) (hs : gset lock) : bool :=
  kokb (ke_k e) && bool_decide (spinning_of (ke_k e) = None) &&
  forallb (λ l, bool_decide (is_Some (mutex_state (ke_k e) l))) all_locks && bool_decide (held e = hs).
Lemma at_envb_at e hs : at_envb e hs = true → at_env e hs None (λ n, default ∅ (ke_d e !! n)).
Proof.
  unfold at_envb. rewrite !andb_true_iff, forallb_forall. intros (((Hk & Hs) & Hr) & Hh). split_and!.
  - by apply kokb_kok.
  - intros l Hl. apply ready_elem. split; [done|]. specialize (Hr l (proj1 (list_elem_of_In _ _) (proj2 (all_locks_elem l) Hl))).
    by apply bool_decide_eq_true_1 in Hr.
  - by apply bool_decide_eq_true_1 in Hh.
  - by apply bool_decide_eq_true_1 in Hs.
  - done.
Qed.

Definition dk_of (s : sys kenv) (n : Z) : bytes := default ∅ (ke_d (s_env s) !! n).
Lemma sys1_idle : idle sys1 [] ∅ (dk_of sys1).
Proof.
  split_and!.
  - apply at_envb_at. by vm_compute.
  - apply (binvb_inv _ ∅ _ (reverse buf_idx)). by vm_compute.
  - set_solver.
Qed.

Definition demo_ops : list bop := [BRead 1; BWrite 1 (λ b, <[1 := 99]> b); BWrite 2 (λ b, <[0 := 7]> b); BSync 1; BRead 1].

Lemma demo_ops_ok : Forall bop_ok demo_ops.
Proof.
  unfold demo_ops. rewrite !Forall_cons, Forall_nil. simpl. unfold blk_ok.
  split_and!; try lia; try done; intros b Hb; (apply wf_insert; [done|lia]).
Qed.

Lemma bcache_refines_array_witness :
  nb_writes demo_ops < spare (s_fs sys1) ∧ runs (bops_run demo_ops sys1) (λ rs _,
    rs = [of_list [10; 20; 30]; of_list [10; 99; 30]; of_list [7; 2]; of_list [10; 99; 30]; of_list [10; 99; 30]]).
Proof.
  assert (nb_writes demo_ops < spare (s_fs sys1)) as Hsp by by vm_compute. split; [exact Hsp|].
  eapply runs_mono; [apply (bcache_refines_array demo_ops sys1 [] ∅ (dk_of sys1) sys1_idle)|].
  - exact demo_ops_ok.
  - exact Hsp.
  - intros rs s' (dk' & _ & _ & -> & _). by vm_compute.
Defined.

Lemma bcache_sync_durable_witness :
  runs (bop_run (BSync 2) sys1) (λ r s', ∃ dk', dk' 16 = of_list [1; 2]).
Proof.
  eapply runs_mono; [apply (bcache_sync_durable 2 sys1 [] ∅ (dk_of sys1) sys1_idle)|].
  - by vm_compute.
  - by vm_compute.
  - intros r s' (dk' & _ & Hd & _). exists dk'. etrans; [exact Hd|]. by vm_compute.
Defined.

Lemma surjective_sys {E} (s : sys E) : s = Sys (s_fs s) (s_env s).
Proof. by destruct s. Qed.

(** Sixty-four blocks changed: the cache is full of dirty blocks. *)
Definition fill_ops : list bop := (λ i, BWrite (100 + i) (λ b, <[0 := 1]> b)) <$> buf_idx.
Definition sys2 : sys kenv := end_of (bops_run fill_ops sys1) sys1.

