(* ===== verification/Balloc.v ===== *)
(** * The block allocator (kernel/core/fs/balloc.c)

    A bitmap on disk, one bit per data block. *)

From S2P Require Import Prelude Clist Buf Bitmap FsState Bcache.

Section Balloc.
Context {E : Type} `{Env E}.

Definition bit_to_blkno (sbk : fs_meta) (bit_idx bbm_nb : Z) : Z :=
  u32 (bit_idx + bbm_nb * FS_BM_BITS_PER_BLK + data_start sbk).

(** The loop over the bitmap blocks, from block [i] on. *)
Fixpoint bbm_alloc_loop (fuel : nat) (i : Z) : M (sys E) Z :=
  match fuel with
  | O => nofuel
  | S fuel =>
    sbk ← get_sb;
    if i <? nb_dbm sbk then
      let bm_blk_no := u32 (dbm_start sbk + i) in
      bm_blk ← bcache_read bm_blk_no;
      match bm_blk with
      | None => mret (- EIO)
      | Some blk =>
        b ← get_buf blk;
        bit_idx ← bm_find_first_zero FS_BLK_SIZE (cb_buf b) FS_BM_BITS_PER_BLK;
        if 0 <=? bit_idx then
          let blkno := bit_to_blkno sbk bit_idx i in
          if nb_blk sbk <=? blkno then bcache_release blk;; mret (- ENOSPC) else
          buf ← bm_set_bit FS_BLK_SIZE (cb_buf b) bit_idx;
          upd_buf blk (cb_set_buf buf);;
          bcache_mark_dirty blk;;
          bcache_release blk;;
          mret (s32 blkno)
        else bcache_release blk;; bbm_alloc_loop fuel (i + 1)
      end
    else mret (- ENOSPC)
  end.
Definition bbm_alloc : M (sys E) Z :=
  sbk ← get_sb; bbm_alloc_loop (S (Z.to_nat (nb_dbm sbk))) 0.

Definition bbm_free (blkno : Z) : M (sys E) Z :=
  sbk ← get_sb;
  if (blkno <? data_start sbk) || (u32 (data_start sbk + nb_dblk sbk) <=? blkno) then mret (- EINVAL) else
  let idx := s32 (u32 (blkno - data_start sbk)) in
  let bm_blk_no := u32 (dbm_start sbk + Z.quot idx FS_BM_BITS_PER_BLK) in
  bm_blk ← bcache_read bm_blk_no;
  match bm_blk with
  | None => mret (- EIO)
  | Some blk =>
    let bit_idx := Z.rem idx FS_BM_BITS_PER_BLK in
    b ← get_buf blk;
    buf ← bm_clear_bit FS_BLK_SIZE (cb_buf b) bit_idx;
    upd_buf blk (cb_set_buf buf);;
    bcache_mark_dirty blk;;
    bcache_release blk;;
    mret 0
  end.

Definition balloc : M (sys E) Z :=
  blkno ← bbm_alloc;
  if blkno <? 0 then mret blkno else
  b ← bcache_read (u32 blkno);
  match b with
  | None => bbm_free (u32 blkno);; mret (- EIO)
  | Some i =>
    upd_buf i (cb_set_buf ∅);;
    bcache_mark_dirty i;;
    bcache_release i;;
    mret blkno
  end.

Definition bfree (blkno : Z) : M (sys E) Z :=
  bcache_invalidate blkno;; bbm_free blkno.
End Balloc.
