(* ===== verification/BallocInv.v ===== *)
(** * The block allocator is correct

    On a disk laid out as mkfs does, the data bitmap is a set of block numbers:
    allocation takes the lowest free block and gives it zeroed, freeing puts
    it back, and neither touches another block. *)

From S2P Require Import Prelude Clist Buf Bitmap FsState Bcache BcacheInv Balloc.

Abbreviation BITS := FS_BM_BITS_PER_BLK.

(** The regions follow each other and every data block and inode has a bit. *)
Record layout (m : fs_meta) : Prop := {
  lo_ibm : 2 ≤ ibm_start m ∧ 0 ≤ nb_ibm m;
  lo_dbm : ibm_start m + nb_ibm m ≤ dbm_start m ∧ 0 ≤ nb_dbm m;
  lo_itab : dbm_start m + nb_dbm m ≤ itab_start m ∧ 0 ≤ nb_itab m;
  lo_data : itab_start m + nb_itab m ≤ data_start m ∧ 0 ≤ nb_dblk m;
  lo_size : nb_blk m = data_start m + nb_dblk m ∧ nb_blk m < 2 ^ 28;
  lo_bits : nb_dblk m ≤ nb_dbm m * BITS ∧ nb_dbm m * BITS < 2 ^ 31;
  lo_ibits : nb_itab m * 64 ≤ nb_ibm m * BITS;
}.

Implicit Types d : Z → bytes.

(** The bit of data block [j] of the region. *)
Definition dbm_blk (m : fs_meta) (j : Z) : Z := dbm_start m + j / BITS.
Definition dbit (m : fs_meta) d (j : Z) : bool := bit (d (dbm_blk m j)) (j mod BITS).

(** [b] with the bit [k] set to [v]. *)
Definition bit_set (b b' : bytes) (k : Z) (v : bool) : Prop :=
  wf_bytes b' ∧ ∀ j, 0 ≤ j → bit b' j = if decide (j = k) then v else bit b j.

Lemma BITS_val : BITS = 32768.
Proof. done. Qed.

Lemma dbm_blk_range m j : layout m → 0 ≤ j < nb_dblk m → dbm_start m ≤ dbm_blk m j < dbm_start m + nb_dbm m.
Proof.
  intros [_ Hd _ _ _ [Hb _] _] Hj. rewrite BITS_val in Hb. unfold dbm_blk. rewrite BITS_val.
  assert (0 ≤ j / 32768) by (apply Z.div_pos; lia).
  assert (j / 32768 < nb_dbm m) by (apply Z.div_lt_upper_bound; lia). lia.
Qed.

Lemma dbit_upd m d j b' v k :
  0 ≤ j → 0 ≤ k → bit_set (d (dbm_blk m j)) b' (j mod BITS) v →
  dbit m (upd d (dbm_blk m j) b') k = if decide (k = j) then v else dbit m d k.
Proof.
  intros Hj Hk [_ Hb]. unfold dbit, upd. unfold dbm_blk in *. rewrite BITS_val in *.
  pose proof (Z.div_mod k 32768 ltac:(lia)). pose proof (Z.div_mod j 32768 ltac:(lia)).
  destruct (decide (dbm_start m + k / 32768 = dbm_start m + j / 32768)) as [E|E].
  - rewrite Hb by (apply Z.mod_pos_bound; lia).
    destruct (decide (k mod 32768 = j mod 32768)), (decide (k = j)); try lia; [done|]. by rewrite E.
  - rewrite decide_False; [done|]. intros ->. done.
Qed.

Lemma row_at m i z : 0 ≤ i → 0 ≤ z < BITS → dbm_blk m (i * BITS + z) = dbm_start m + i ∧ (i * BITS + z) mod BITS = z.
Proof.
  rewrite BITS_val. intros Hi Hz. unfold dbm_blk. rewrite BITS_val.
  rewrite <-(Z.div_unique (i * 32768 + z) 32768 i z), <-(Z.mod_unique (i * 32768 + z) 32768 i z) by lia. done.
Qed.

Lemma dbit_row m d i k :
  0 ≤ i → i * BITS ≤ k < i * BITS + BITS → dbit m d k = bit (d (dbm_start m + i)) (k - i * BITS).
Proof.
  intros Hi Hk. destruct (row_at m i (k - i * BITS)) as [E1 E2]; [lia..|].
  replace (i * BITS + (k - i * BITS)) with k in E1, E2 by lia. unfold dbit. by rewrite E1, E2.
Qed.

Section Spec.
Context {E : Type} `{EnvLaws E}.
Implicit Types (e : E) (f : fs).

(** The blocks the allocator works on are not held. *)
Definition allocatable f (hs : gset lock) : Prop :=
  (∀ n, dbm_start (sb f) ≤ n < dbm_start (sb f) + nb_dbm (sb f) → unheld f hs n).

(** What [bbm_alloc] does to the blocks. *)
Definition bbm_alloc_post (m : fs_meta) d (r : Z) d' : Prop :=
  (r = - ENOSPC ∧ (∀ n, d' n = d n) ∧ ∀ j, 0 ≤ j < nb_dblk m → dbit m d j = true) ∨
  (∃ j b', 0 ≤ j < nb_dblk m ∧ r = data_start m + j ∧ dbit m d j = false ∧
    (∀ k, 0 ≤ k < j → dbit m d k = true) ∧ bit_set (d (dbm_blk m j)) b' (j mod BITS) true ∧
    ∀ n, d' n = upd d (dbm_blk m j) b' n).

Lemma get_sb_run f e : get_sb (Sys f e) = Done (sb f) (Sys f e).
Proof. done. Qed.

(** The search went past every bit below [j]. *)
Definition passed (m : fs_meta) d (j : Z) : Prop := ∀ k, 0 ≤ k < j → k < nb_dblk m → dbit m d k = true.

Lemma passed_row m d i z :
  0 ≤ i → 0 ≤ z ≤ BITS → passed m d (i * BITS) → all_set (d (dbm_start m + i)) z → passed m d (i * BITS + z).
Proof.
  intros Hi Hz Hp Ha k Hk Hkn. destruct (decide (k < i * BITS)); [apply Hp; lia|].
  rewrite (dbit_row m d i) by lia. apply Ha. lia.
Qed.

Lemma alloc_post_ext m d d1 r d' : (∀ n, d1 n = d n) → bbm_alloc_post m d1 r d' → bbm_alloc_post m d r d'.
Proof.
  intros Hd [(-> & Hd' & Hdb)|(j & b' & Hj & -> & Hdb & Hlow & Hbs & Hd')]; unfold dbit in *.
  - left. split_and!; [done|intros n; by rewrite Hd', Hd|]. intros j Hj. unfold dbit. rewrite <-Hd. by apply Hdb.
  - right. exists j, b'. unfold dbit. split_and!; try lia; try done; try (by rewrite <-Hd).
    + intros k Hk. rewrite <-Hd. by apply Hlow.
    + intros n. rewrite Hd'. unfold upd. by rewrite Hd.
Qed.

(** A bitmap block with a zero bit [z] ends the search. *)
Lemma alloc_at f f1 e1 hs dk il i z blk b :
  BInv f hs dk il → layout (sb f) → 0 ≤ i < nb_dbm (sb f) → 0 ≤ z < BITS →
  at_env e1 ({[LBuf blk]} ∪ hs) None dk → got f hs dk il (dbm_start (sb f) + i) blk f1 → bufs f1 !! blk = Some b →
  cb_buf b = lblk f dk (dbm_start (sb f) + i) → bit (cb_buf b) z = false →
  passed (sb f) (lblk f dk) (i * BITS + z) →
  runs ((let blkno := bit_to_blkno (sb f) z i in
    if nb_blk (sb f) <=? blkno then bcache_release blk;; mret (- ENOSPC) else
    buf ← bm_set_bit FS_BLK_SIZE (cb_buf b) z;
    upd_buf blk (cb_set_buf buf);; bcache_mark_dirty blk;; bcache_release blk;; mret (s32 blkno)) (Sys f1 e1))
    (λ r s', ∃ d', at_env (s_env s') hs None dk ∧ step f hs dk il d' 1 (s_fs s') ∧ bbm_alloc_post (sb f) (lblk f dk) r d').
Proof.
  intros HB [[? ?] [? ?] [? ?] [? ?] [? ?] [? ?] ?] Hi Hz He1 Hg Hb Hc Hzb Hp. cbv zeta. rewrite BITS_val in *.
  assert (blk_ok (dbm_start (sb f) + i)) by (unfold blk_ok; lia).
  assert (wf_bytes (cb_buf b)) as Hwf by (rewrite Hc; by apply (lblk_wf f hs dk il)).
  pose proof (dbit_row (sb f) (lblk f dk) i (i * BITS + z)) as Hrow. rewrite BITS_val, Z.add_simpl_l in Hrow.
  unfold bit_to_blkno. rewrite BITS_val, (wrap_small 32) by lia.
  destruct (Z.leb_spec (nb_blk (sb f)) (z + i * 32768 + data_start (sb f))) as [Hbig|Hsm].
  - apply runs_bind. eapply runs_mono; [by apply (release_clean f f1 e1 hs dk il _ blk He1 Hg)|].
    intros _ [f2 e2] [He2 Hst]. exists (lblk f dk). split_and!; [done|by eapply step_weaken; [exact Hst|done|lia]|].
    left. split_and!; [done..|]. intros k Hk. apply Hp; lia.
  - destruct (set_bit_run FS_BLK_SIZE (cb_buf b) z (Sys f1 e1) Hwf) as (b' & Hb' & Hwf' & Hbit & _); [lia| |done|].
    { apply Z.div_lt_upper_bound; [lia|]. change FS_BLK_SIZE with 4096. lia. }
    mstep Hb'. rewrite sext_small by lia.
    apply (release_dirty _ _ f f1 e1 hs dk il _ blk b' He1 Hg Hwf'). intros s' He' Hst.
    destruct (row_at (sb f) i z) as [En Em]; [lia|rewrite BITS_val; lia|]. rewrite BITS_val in En, Em.
    exists (upd (lblk f dk) (dbm_start (sb f) + i) b'). split_and!; [done..|]. right. exists (i * 32768 + z), b'.
    rewrite En, BITS_val, Em. split_and!; try lia; try done.
    + rewrite Hrow by lia. by rewrite <-Hc.
    + intros k Hk. apply Hp; lia.
    + split; [done|]. intros k Hk. rewrite <-Hc. by apply Hbit.
Qed.

Lemma bbm_alloc_loop_runs (fuel : nat) f e hs dk il i :
  at_env e hs None dk → BInv f hs dk il → layout (sb f) → allocatable f hs → 1 ≤ spare f →
  0 ≤ i ≤ nb_dbm (sb f) → nb_dbm (sb f) - i < Z.of_nat fuel → passed (sb f) (lblk f dk) (i * BITS) →
  runs (bbm_alloc_loop fuel i (Sys f e)) (λ r s', ∃ d', at_env (s_env s') hs None dk ∧
    step f hs dk il d' 1 (s_fs s') ∧ bbm_alloc_post (sb f) (lblk f dk) r d').
Proof.
  intros He HB Hlo Hal Hsp. revert f e He HB Hlo Hal Hsp i.
  induction fuel as [|fuel IH]; intros f e He HB Hlo Hal Hsp i Hi Hf Hset; [lia|].
  cbn [bbm_alloc_loop]. mstep (get_sb_run f e).
  pose proof Hlo as [[? ?] [? ?] [? ?] [? ?] [? ?] [? ?] ?].
  destruct (Z.ltb_spec i (nb_dbm (sb f))) as [Hlt|Hge].
  2:{ exists (lblk f dk). split_and!; [done|by eapply step_weaken; [by apply step_refl|done|lia]|].
      left. split_and!; [done..|]. intros j Hj. rewrite BITS_val in *. apply Hset; lia. }
  rewrite (wrap_small 32) by lia. set (n := dbm_start (sb f) + i).
  assert (blk_ok n) as Hn by (unfold blk_ok, n; lia).
  apply runs_bind. eapply runs_mono; [apply (read_runs f e hs dk il n He HB Hn); [apply Hal; lia|done]|].
  intros r [f1 e1] (blk & e1' & -> & Ee & He1 & Hg). simpl in Ee, He1, Hg. subst e1'.
  pose proof Hg as (_ & _ & (b & Hb & _ & _ & Hc & _) & _).
  mstep (get_buf_run blk f1 e1 b Hb).
  assert (wf_bytes (cb_buf b)) as Hwf by (rewrite Hc; by apply (lblk_wf f hs dk il)).
  destruct (find_first_zero_run FS_BLK_SIZE (cb_buf b) BITS (Sys f1 e1) Hwf) as (z & Hz & Hzs); [done..|].
  mstep Hz. destruct Hzs as [[-> Hall]|(Hzr & Hzb & Hall)].
  - (* the whole bitmap block is in use *)
    change (0 <=? -1) with false. cbn iota. apply runs_bind.
    eapply runs_mono; [by apply (release_clean f f1 e1 hs dk il n blk He1 Hg)|].
    intros _ [f2 e2] [He2 Hst]. simpl in *. pose proof Hst as (HB2 & Hf2 & Hl2 & Hs2 & Hk2).
    pose proof Hf2 as (_ & _ & Esb & _).
    eapply runs_mono; [apply (IH f2 e2 He2 HB2); rewrite ?Esb; try done; try lia|].
    + intros k Hk. apply (step_unheld f hs dk il _ _ f2 k Hst), Hal. by rewrite Esb in Hk.
    + replace ((i + 1) * BITS) with (i * BITS + BITS) by ring. rewrite Hc in Hall.
      intros k Hk Hkn. unfold dbit. rewrite Hl2. by apply (passed_row (sb f) (lblk f dk) i BITS); [lia|rewrite BITS_val; lia|..].
    + intros r [f3 e3] (d' & He3 & Hst3 & Hpost). exists d'. rewrite Esb in Hpost.
      split_and!; [done|eapply step_weaken; [exact (step_trans _ _ _ _ _ _ _ _ _ _ Hst Hst3)|done|lia]|].
      by apply (alloc_post_ext _ _ (lblk f2 dk)).
  - (* a zero bit *)
    destruct (Z.leb_spec 0 z) as [_|]; [|lia].
    apply (alloc_at f f1 e1 hs dk il i z blk b); try done; [lia|].
    apply passed_row; [lia..|done|fold n; by rewrite <-Hc].
Qed.

Lemma bbm_alloc_runs f e hs dk il :
  at_env e hs None dk → BInv f hs dk il → layout (sb f) → allocatable f hs → 1 ≤ spare f →
  runs (bbm_alloc (Sys f e)) (λ r s', ∃ d', at_env (s_env s') hs None dk ∧
    step f hs dk il d' 1 (s_fs s') ∧ bbm_alloc_post (sb f) (lblk f dk) r d').
Proof.
  intros He HB Hlo Hal Hsp. unfold bbm_alloc. mstep (get_sb_run f e). pose proof (lo_dbm _ Hlo).
  apply bbm_alloc_loop_runs; try done; [lia..|]. intros k Hk. lia.
Qed.

(** What [bbm_free] does to the blocks. *)
Definition bbm_free_post (m : fs_meta) d (n r : Z) d' : Prop :=
  if decide (data_start m ≤ n < nb_blk m) then
    r = 0 ∧ ∃ b', bit_set (d (dbm_blk m (n - data_start m))) b' ((n - data_start m) mod BITS) false ∧
      ∀ k, d' k = upd d (dbm_blk m (n - data_start m)) b' k
  else r = - EINVAL ∧ ∀ k, d' k = d k.

Lemma bbm_free_runs f e hs dk il n :
  at_env e hs None dk → BInv f hs dk il → layout (sb f) → allocatable f hs → 1 ≤ spare f → 0 ≤ n < 2 ^ 32 →
  runs (bbm_free n (Sys f e)) (λ r s', ∃ d', at_env (s_env s') hs None dk ∧
    step f hs dk il d' 1 (s_fs s') ∧ bbm_free_post (sb f) (lblk f dk) n r d').
Proof.
  intros He HB Hlo Hal Hsp Hn. unfold bbm_free. mstep (get_sb_run f e).
  pose proof Hlo as [[? ?] [? ?] [? ?] [? ?] [? ?] [? ?] ?]. rewrite (wrap_small 32 (_ + _)) by lia.
  unfold bbm_free_post. destruct (decide _) as [Hin|Hout].
  2:{ assert ((n <? data_start (sb f)) || (data_start (sb f) + nb_dblk (sb f) <=? n) = true) as -> by lia.
      exists (lblk f dk). split_and!; [done|by eapply step_weaken; [by apply step_refl|done|lia]|done..]. }
  assert ((n <? data_start (sb f)) || (data_start (sb f) + nb_dblk (sb f) <=? n) = false) as -> by lia.
  rewrite (wrap_small 32 (n - _)), sext_small by lia. set (j := n - data_start (sb f)).
  pose proof (dbm_blk_range (sb f) j Hlo ltac:(lia)) as Hr. unfold dbm_blk in *. rewrite BITS_val in *.
  rewrite Z.quot_div_nonneg, Z.rem_mod_nonneg by lia. rewrite (wrap_small 32) by lia.
  set (q := dbm_start (sb f) + j / 32768). assert (blk_ok q) as Hq by (unfold blk_ok, q; lia).
  apply runs_bind. eapply runs_mono; [apply (read_runs f e hs dk il q He HB Hq); [apply Hal; lia|done]|].
  intros r [f1 e1] (blk & e1' & -> & Ee & He1 & Hg). simpl in Ee, He1, Hg. subst e1'.
  pose proof Hg as (_ & _ & (b & Hb & _ & _ & Hc & _) & _). mstep (get_buf_run blk f1 e1 b Hb).
  assert (wf_bytes (cb_buf b)) as Hwf by (rewrite Hc; by apply (lblk_wf f hs dk il)).
  pose proof (Z.mod_pos_bound j 32768 ltac:(lia)) as Hm.
  destruct (clear_bit_run FS_BLK_SIZE (cb_buf b) (j mod 32768) (Sys f1 e1) Hwf) as (b' & Hb' & Hwf' & Hbit & _); [lia| |done|].
  { apply Z.div_lt_upper_bound; [lia|]. change FS_BLK_SIZE with 4096. lia. }
  mstep Hb'. apply (release_dirty _ _ f f1 e1 hs dk il q blk b' He1 Hg Hwf'). intros s' He' Hst.
  exists (upd (lblk f dk) q b'). split_and!; [done..|]. exists b'. rewrite <-Hc. done.
Qed.

(** What [balloc] does to the blocks: block [data_start + j] of the lowest free
    bit [j] is taken and zeroed. *)
Definition takes (m : fs_meta) d (j : Z) d' : Prop :=
  0 ≤ j < nb_dblk m ∧ dbit m d j = false ∧ (∀ k, 0 ≤ k < j → dbit m d k = true) ∧
  d' (data_start m + j) = ∅ ∧ (∀ k, 0 ≤ k < nb_dblk m → dbit m d' k = (if decide (k = j) then true else dbit m d k)) ∧
  ∀ n, n ≠ data_start m + j → n ≠ dbm_blk m j → d' n = d n.
Definition balloc_post (m : fs_meta) d (r : Z) d' : Prop :=
  (r = - ENOSPC ∧ (∀ n, d' n = d n) ∧ ∀ j, 0 ≤ j < nb_dblk m → dbit m d j = true) ∨
  (∃ j, r = data_start m + j ∧ takes m d j d').

(** Free blocks are not held. *)
Definition free_unheld f (hs : gset lock) d : Prop :=
  ∀ j, 0 ≤ j < nb_dblk (sb f) → dbit (sb f) d j = false → unheld f hs (data_start (sb f) + j).

Lemma dbit_ext m d d' k : d (dbm_blk m k) = d' (dbm_blk m k) → dbit m d k = dbit m d' k.
Proof. unfold dbit. by intros ->. Qed.

Lemma takes_intro m d d1 j b' d' :
  layout m → 0 ≤ j < nb_dblk m → dbit m d j = false → (∀ k, 0 ≤ k < j → dbit m d k = true) →
  bit_set (d (dbm_blk m j)) b' (j mod BITS) true → (∀ n, d1 n = upd d (dbm_blk m j) b' n) →
  (∀ n, d' n = upd d1 (data_start m + j) ∅ n) →
  takes m d j d'.
Proof.
  intros Hlo Hj Hf Hlow Hbs Hd1 Hd'. split_and!; [lia..|done|done|by rewrite Hd', upd_eq| |].
  - intros k Hk. rewrite <-(dbit_upd m d j b' true k) by (done || lia). apply dbit_ext.
    rewrite Hd', upd_ne, Hd1; [done|].
    pose proof (dbm_blk_range m k Hlo Hk). pose proof (lo_itab _ Hlo). pose proof (lo_data _ Hlo). lia.
  - intros n Hn1 Hn2. by rewrite Hd', upd_ne, Hd1, upd_ne.
Qed.

Lemma balloc_runs f e hs dk il :
  at_env e hs None dk → BInv f hs dk il → layout (sb f) → allocatable f hs → free_unheld f hs (lblk f dk) → 2 ≤ spare f →
  runs (balloc (Sys f e)) (λ r s', ∃ d', at_env (s_env s') hs None dk ∧
    step f hs dk il d' 2 (s_fs s') ∧ balloc_post (sb f) (lblk f dk) r d').
Proof.
  intros He HB Hlo Hal Hfr Hsp. unfold balloc. apply runs_bind.
  eapply runs_mono; [by apply (bbm_alloc_runs f e hs dk il); [done..|lia]|].
  intros r [f1 e1] (d1 & He1 & Hst & Hpost). simpl in He1, Hst.
  pose proof Hlo as [[? ?] [? ?] [? ?] [? ?] [? ?] _ _].
  pose proof Hst as (HB1 & _ & Hl1 & Hs1 & _).
  destruct Hpost as [(-> & Hd & Hall)|(j & b' & Hj & -> & Hf & Hlow & Hbs & Hd)].
  { exists (lblk f dk). split_and!; [done|by eapply step_weaken; [exact Hst|done|lia]|by left]. }
  destruct (Z.ltb_spec (data_start (sb f) + j) 0) as [|_]; [lia|]. rewrite (wrap_small 32) by lia.
  assert (blk_ok (data_start (sb f) + j)) as Hq by (unfold blk_ok; lia).
  apply runs_bind. eapply runs_mono; [apply (read_runs f1 e1 hs dk il _ He1 HB1 Hq); [|lia]|].
  { apply (step_unheld f hs dk il _ _ f1 _ Hst). by apply Hfr. }
  intros r [f2 e2] (i & e2' & -> & Ee & He2 & Hg). simpl in Ee, He2, Hg. subst e2'.
  pose proof Hg as (_ & _ & (b & Hb & _) & _).
  apply (release_dirty _ _ f1 f2 e2 hs dk il _ i ∅ He2 Hg wf_empty). intros s' He' Hst'.
  exists (upd (lblk f1 dk) (data_start (sb f) + j) ∅).
  split_and!; [done|exact (step_trans _ _ _ _ _ _ _ _ _ _ Hst Hst')|]. right. exists j. split; [done|].
  apply (takes_intro _ _ d1 j b'); try done. intros n. unfold upd. by rewrite Hl1.
Qed.

(** What [bfree] does to the blocks: the cached copy of [n] is dropped, then its bit cleared. *)
Definition bfree_post (m : fs_meta) dk d (n r : Z) d' : Prop :=
  bbm_free_post m (upd d n (dk (sector n))) n r d'.

Lemma bfree_runs f e hs dk il n :
  at_env e hs None dk → BInv f hs dk il → layout (sb f) → allocatable f hs → unheld f hs n → 1 ≤ spare f →
  0 ≤ n < UINT32_MAX →
  runs (bfree n (Sys f e)) (λ r s', ∃ d', at_env (s_env s') hs None dk ∧
    step f hs dk il d' 1 (s_fs s') ∧ bfree_post (sb f) dk (lblk f dk) n r d').
Proof.
  intros He HB Hlo Hal Hun Hsp Hn. unfold bfree. apply runs_bind. change UINT32_MAX with (2 ^ 32 - 1) in Hn.
  eapply runs_mono; [apply (invalidate_runs f e hs dk il n He HB Hun); change UINT32_MAX with (2 ^ 32 - 1); lia|].
  intros _ [f1 e1] (e1' & Ee & He1 & HB1 & Hf1 & Hs1 & Hne & Heq & Hk1). simpl in *. subst e1'.
  pose proof Hf1 as (_ & _ & Esb & _).
  assert (step f hs dk il (upd (lblk f dk) n (dk (sector n))) 0 f1) as Hst.
  { split_and!; [done..| |lia|done]. intros m. unfold upd. destruct (decide _) as [->|]; [done|by apply Hne]. }
  eapply runs_mono; [apply (bbm_free_runs f1 e1 hs dk il n He1 HB1); rewrite ?Esb; try done; try lia|].
  { intros k Hk. apply (step_unheld f hs dk il _ _ f1 k Hst), Hal. by rewrite Esb in Hk. }
  intros r [f2 e2] (d' & He2 & Hst2 & Hp). exists d'. rewrite Esb in Hp.
  split_and!; [done|by eapply step_weaken; [exact (step_trans _ _ _ _ _ _ _ _ _ _ Hst Hst2)|done|lia]|].
  unfold bfree_post. revert Hp. unfold bbm_free_post. pose proof Hst as (_ & _ & Hl & _).
  destruct (decide _); [|intros [-> Hd]; split; [done|intros k; by rewrite Hd]].
  intros (-> & b' & Hb' & Hd). split; [done|]. exists b'. rewrite <-Hl. split; [done|].
  intros k. rewrite Hd. unfold upd at 1 2. by rewrite Hl.
Qed.
End Spec.
