(* ===== verification/AllocThm.v ===== *)
(** * What the block allocator promises

    Claims over any environment that keeps the laws, with witnesses on a small
    disk of the kernel's environment. *)

From S2P Require Import Prelude Clist Sched Sync Pages Vpages Buf Bitmap FsState Layout Mkfs Bcache BcacheInv Kenv CacheThm Balloc BallocInv.

(** The disks mkfs makes have the layout. *)
Lemma superblock_layout m : 1 ≤ m ≤ 256 → layout (superblock m).
Proof.
  intros Hm. assert (FS_NB_BLK m = m * 256) as Hb.
  { unfold FS_NB_BLK, FS_BLK_SIZE. rewrite Z.shiftl_mul_pow2 by lia. change (2 ^ 20) with (256 * 4096).
    by rewrite Z.mul_assoc, Z.div_mul. }
  split; unfold superblock, FS_NB_DBLK, FS_BM_BITS_PER_BLK; simpl; rewrite ?Hb; unfold FS_NB_DBM, FS_NB_IBM, FS_NB_ITAB,
    FS_NB_SUPERBLK, FS_NB_RESERVED, FS_SUPERBLK, FS_BLK_SIZE; lia.
Qed.

Section Claims.
Context {E : Type} `{EnvLaws E}.

Lemma idle_unheld (s : sys E) il hs dk n : idle s il hs dk → unheld (s_fs s) hs n.
Proof. intros (_ & _ & Hno) i b Hi. by destruct (Hno i). Qed.

Lemma step_idle (s s' : sys E) il hs dk d c :
  idle s il hs dk → at_env (s_env s') hs None dk → step (s_fs s) hs dk il d c (s_fs s') → idle s' il hs dk.
Proof. intros (_ & _ & Hno) He (HB & _). done. Qed.

(** C28: On a disk with mkfs's layout, balloc takes the data block of the lowest
    clear bit of the data bitmap: it returns the number of that block, the bit
    is then set and no other one changed, the block reads as zeroes, and all
    other blocks of the disk but the bitmap's read as before.  It fails with
    -ENOSPC exactly when every data block is in use, changing nothing. *)
Theorem balloc_takes_lowest_free (s : sys E) il hs dk :
  idle s il hs dk → layout (sb (s_fs s)) → 2 ≤ spare (s_fs s) →
  runs (balloc s) (λ r s', idle s' il hs dk ∧ fs_frame (s_fs s) (s_fs s') ∧
    ((r = - ENOSPC ∧ (∀ j, 0 ≤ j < nb_dblk (sb (s_fs s)) → dbit (sb (s_fs s)) (lblk (s_fs s) dk) j = true) ∧
      ∀ n, lblk (s_fs s') dk n = lblk (s_fs s) dk n) ∨
     ∃ j, r = data_start (sb (s_fs s)) + j ∧ takes (sb (s_fs s)) (lblk (s_fs s) dk) j (lblk (s_fs s') dk))).
Proof.
  intros Hid Hlo Hsp. pose proof Hid as (He & HB & _). destruct s as [f e]. simpl in *.
  eapply runs_mono; [apply (balloc_runs f e hs dk il He HB Hlo); [|by intros ???; apply (idle_unheld _ _ _ _ _ Hid)|done]|].
  { intros n _. by apply (idle_unheld _ _ _ _ _ Hid). }
  intros r s' (d' & He' & Hst & Hp). split; [by eapply (step_idle (Sys f e))|].
  destruct Hst as (_ & Hf & Hl & _). split; [done|].
  destruct Hp as [(-> & Hd & Hall)|(j & -> & Hj & Hjf & Hlow & Hz & Hb & Ho)].
  - left. split_and!; [done..|]. intros n. by rewrite Hl.
  - right. exists j. split; [done|]. split_and!; [lia..|done|done|by rewrite Hl| |].
    + intros k Hk. rewrite (dbit_ext _ _ d') by apply Hl. by apply Hb.
    + intros n Hn1 Hn2. rewrite Hl. by apply Ho.
Qed.

(** Freeing a data block gives it back: when blocks 0..j of the data region
    are in use, bfree of block j succeeds and the next balloc returns the same
    block, zeroed, with every bit of the bitmap as it was before the two calls. *)
Theorem bfree_balloc_roundtrip (s : sys E) il hs dk j :
  idle s il hs dk → layout (sb (s_fs s)) → 3 ≤ spare (s_fs s) → 0 ≤ j < nb_dblk (sb (s_fs s)) →
  (∀ k, 0 ≤ k ≤ j → dbit (sb (s_fs s)) (lblk (s_fs s) dk) k = true) →
  runs ((r ← bfree (data_start (sb (s_fs s)) + j); b ← balloc; mret (r, b)) s) (λ p s', idle s' il hs dk ∧
    p = (0, data_start (sb (s_fs s)) + j) ∧ lblk (s_fs s') dk (data_start (sb (s_fs s)) + j) = ∅ ∧
    ∀ k, 0 ≤ k < nb_dblk (sb (s_fs s)) →
      dbit (sb (s_fs s)) (lblk (s_fs s') dk) k = dbit (sb (s_fs s)) (lblk (s_fs s) dk) k).
Proof.
  intros Hid Hlo Hsp Hj Hused. pose proof Hid as (He & HB & _). destruct s as [f e]. simpl in *.
  set (m := sb f) in *. set (n := data_start m + j). pose proof Hlo as [[? ?] [? ?] [? ?] [? ?] [? ?] _ _].
  apply runs_bind. eapply runs_mono; [apply (bfree_runs f e hs dk il n He HB Hlo); [| |lia|]|].
  { intros k _. by apply (idle_unheld _ _ _ _ _ Hid). }
  { by apply (idle_unheld _ _ _ _ _ Hid). }
  { change UINT32_MAX with (2 ^ 32 - 1). lia. }
  intros r s1 (d1 & He1 & Hst1 & Hp1). pose proof (step_idle (Sys f e) s1 il hs dk d1 1 Hid He1 Hst1) as Hid1.
  unfold bfree_post, bbm_free_post in Hp1. fold m n in Hp1. rewrite decide_True in Hp1 by lia.
  replace (n - data_start m) with j in Hp1 by lia. destruct Hp1 as (-> & b' & Hb' & Hd1).
  pose proof Hst1 as (HB1 & (_ & _ & Esb & _) & Hl1 & Hs1 & _). destruct s1 as [f1 e1]. simpl in *. fold m in Esb.
  assert (∀ k, 0 ≤ k < nb_dblk m → dbm_blk m k ≠ n) as Hap.
  { intros k Hk. pose proof (dbm_blk_range m k Hlo Hk). lia. }
  assert (∀ k, 0 ≤ k < nb_dblk m → dbit m (lblk f1 dk) k = if decide (k = j) then false else dbit m (lblk f dk) k) as Hbits.
  { intros k Hk. rewrite (dbit_ext m (lblk f1 dk) (upd (upd (lblk f dk) n (dk (sector n))) (dbm_blk m j) b')) by by rewrite Hl1.
    rewrite (dbit_upd m _ j b' false k) by (done || lia). destruct (decide _); [done|].
    apply dbit_ext, upd_ne. by apply Hap. }
  apply runs_bind. eapply runs_mono; [apply (balloc_runs f1 e1 hs dk il He1 HB1); rewrite ?Esb; try done; try lia|].
  { intros k _. by apply (idle_unheld _ _ _ _ _ Hid1). }
  { intros ???. by apply (idle_unheld _ _ _ _ _ Hid1). }
  intros r s2 (d2 & He2 & Hst2 & Hp2). rewrite Esb in Hp2. unfold runs; simpl. split; [by eapply (step_idle (Sys f1 e1))|].
  destruct Hp2 as [(-> & _ & Hall)|(k & -> & Hk & Hkf & Hlow & Hz & Hb & Ho)].
  { specialize (Hall j Hj). rewrite Hbits, decide_True in Hall by lia. done. }
  assert (k = j) as ->.
  { destruct (Z.lt_trichotomy k j) as [Hlt|[?|Hgt]]; [|done|].
    - rewrite Hbits, decide_False, Hused in Hkf by lia. done.
    - specialize (Hlow j ltac:(lia)). rewrite Hbits, decide_True in Hlow by lia. done. }
  destruct Hst2 as (_ & _ & Hl2 & _). split_and!; [done|by rewrite Hl2|].
  intros k' Hk'. rewrite (dbit_ext _ _ d2), Hb by (done || apply Hl2). rewrite Hbits by done.
  destruct (decide (k' = j)) as [->|]; [by rewrite Hused by lia|done].
Qed.
End Claims.

(** A disk of one megabyte, nine data blocks of which are in use. *)
Definition mb_disk : gmap Z bytes := {[32 := of_list [255; 1]; 88 := of_list [42]]}.
Definition mb_start : sys kenv := Sys (with_sb (superblock 1) fs0) (KEnv kst0 (Pmem ∅ ∅ ∅) mb_disk devs0).
Definition mb_sys : sys kenv := end_of (boot mb_start) mb_start.

Lemma mb_idle : idle mb_sys [] ∅ (dk_of mb_sys).
Proof.
  split_and!.
  - apply at_envb_at. by vm_compute.
  - apply (binvb_inv _ ∅ _ (reverse buf_idx)). by vm_compute.
  - set_solver.
Qed.
Lemma mb_layout : layout (sb (s_fs mb_sys)).
Proof. assert (sb (s_fs mb_sys) = superblock 1) as -> by by vm_compute. apply superblock_layout. lia. Qed.

(** Block 9 of the data region, number 20 of the disk, is the first free one. *)
Lemma balloc_takes_lowest_free_witness : runs (balloc mb_sys) (λ r _, r = 20).
Proof.
  eapply runs_mono; [apply (balloc_takes_lowest_free mb_sys [] ∅ (dk_of mb_sys) mb_idle mb_layout)|].
  - by vm_compute.
  - intros r s' (_ & _ & Hr). assert (data_start (sb (s_fs mb_sys)) = 11) as Ed by by vm_compute.
    assert (dbit (sb (s_fs mb_sys)) (lblk (s_fs mb_sys) (dk_of mb_sys)) 9 = false) as H9 by by vm_compute.
    assert (forallb (dbit (sb (s_fs mb_sys)) (lblk (s_fs mb_sys) (dk_of mb_sys))) (Z.of_nat <$> seq 0 9) = true) as H0
      by by vm_compute.
    rewrite forallb_forall in H0. destruct Hr as [(_ & Hall & _)|(j & -> & Hj & Hf & Hlow & _)].
    + assert (nb_dblk (sb (s_fs mb_sys)) = 245) as En by (vm_compute; reflexivity).
      rewrite En in Hall. rewrite (Hall 9) in H9; [discriminate H9|]. split; [discriminate|reflexivity].
    + rewrite Ed. destruct (decide (j = 9)) as [->|Hne]; [done|]. destruct (decide (j < 9)) as [Hlt|Hge].
      * rewrite (H0 j) in Hf; [discriminate Hf|]. apply list_elem_of_In, list_elem_of_fmap. exists (Z.to_nat j).
        rewrite elem_of_seq. lia.
      * rewrite Hlow in H9; [discriminate H9|]. split; [discriminate|lia].
Defined.

Lemma bfree_balloc_roundtrip_witness :
  runs ((r ← bfree (data_start (sb (s_fs mb_sys)) + 5); b ← balloc; mret (r, b)) mb_sys) (λ p _, p = (0, 16)).
Proof.
  eapply runs_mono; [apply (bfree_balloc_roundtrip mb_sys [] ∅ (dk_of mb_sys) 5 mb_idle mb_layout)|].
  - by vm_compute.
  - by vm_compute.
  - intros k Hk. assert (forallb (dbit (sb (s_fs mb_sys)) (lblk (s_fs mb_sys) (dk_of mb_sys))) (Z.of_nat <$> seq 0 6) = true) as H0
      by by vm_compute.
    rewrite forallb_forall in H0. apply H0, list_elem_of_In, list_elem_of_fmap. exists (Z.to_nat k). rewrite elem_of_seq. lia.
  - intros p s' (_ & -> & _). by vm_compute.
Defined.
