(* ===== verification/Inode.v ===== *)
(** * Inodes (kernel/core/fs/inode.c)

    A cache of sixty-four inode slots, the inode bitmap, and the data of a
    file: twelve direct blocks and one indirect block of block numbers. *)

From S2P Require Import Prelude Clist Buf Bitmap FsState Layout Bcache Balloc.

Definition INODE_CACHE_SIZE : Z := 64.
Definition INODES_PER_BLK : Z := FS_BLK_SIZE / SIZEOF_DINODE.

(** A pointer result that may be an error (include/lib/err.h). *)
Inductive eptr := ERR_PTR (err : Z) | PTR (p : Z).

(** Where the bytes of a write come from and those of a read go to: an address
    of the user, or a buffer of the kernel, given by its contents. *)
Inductive wsrc := UserSrc (va : Z) | KernSrc (l : list Z).
Inductive rdst := UserDst (va : Z) | KernDst.

Definition get_itab_blkno (sbk : fs_meta) (ino : Z) : Z :=
  let tab_blkno := u32 (itab_start sbk + ino / INODES_PER_BLK) in
  if u32 (nb_itab sbk + itab_start sbk) <=? tab_blkno then - EINVAL else s32 tab_blkno.
Definition get_tab_idx (id : Z) : Z := id mod INODES_PER_BLK.
Definition bit_to_inode_id (bit_idx bm_nb : Z) : Z := u32 (bit_idx + bm_nb * FS_BM_BITS_PER_BLK).
Definition nb_inodes (sbk : fs_meta) : Z := u32 (nb_itab sbk * INODES_PER_BLK).

Definition i_is_valid_locked (i : inode) : bool := i_valid i.
Definition i_set_valid_locked (i : inode) : inode := i_set_valid true i.
Definition i_clear_valid_locked (i : inode) : inode := i_set_valid false i.

Definition slot_pred (f : fs) (p : inode → bool) (n : fnode) : bool :=
  match n with
  | FIno i => match islots f !! i with Some b => p b | None => false end
  | _ => false
  end.
Definition match_id_cb_locked (id : Z) (i : inode) : bool := i_ino i =? id.
Definition i_find_by_refcnt_cb_locked (i : inode) : bool := i_refcnt i =? 0.

(** The content of a slot. *)
Definition on_content (g : dinode → dinode) (i : inode) : inode := i_set_content (g (i_content i)) i.
Definition set_dirblkno (nth blkno : Z) (d : dinode) : dinode :=
  di_set_dirblkno (<[Z.to_nat nth := blkno]> (di_dirblkno d)) d.

Section Inode.
Context {E : Type} `{Env E}.

Definition slot_of_node (n : option fnode) : M (sys E) (option Z) :=
  match n with
  | None => mret None
  | Some (FIno i) => mret (Some i)
  | Some _ => fault
  end.

Definition inode_init : M (sys E) Z :=
  each (λ i,
    upd_slot i (i_set_ino UINT32_MAX);;
    env (env_mutex_init (LIno i));;
    on_nodes (λ s, Some (clist_init_node (FIno i) s));;
    on_nodes (clist_push_front FIcache (FIno i))) (Z.of_nat <$> seq 0 (Z.to_nat INODE_CACHE_SIZE));;
  mret 0.

(** The loop over the blocks of the inode bitmap, from block [i] on. *)
Fixpoint ibm_alloc_loop (fuel : nat) (i : Z) : M (sys E) Z :=
  match fuel with
  | O => nofuel
  | S fuel =>
    sbk ← get_sb;
    if i <? nb_ibm sbk then
      let bm_blk_no := u32 (ibm_start sbk + i) in
      bm_blk ← bcache_read bm_blk_no;
      match bm_blk with
      | None => mret (- EIO)
      | Some blk =>
        b ← get_buf blk;
        bit_idx ← bm_find_first_zero FS_BLK_SIZE (cb_buf b) FS_BM_BITS_PER_BLK;
        if 0 <=? bit_idx then
          let id := bit_to_inode_id bit_idx i in
          if nb_inodes sbk <=? id then bcache_release blk;; mret (- ENOSPC) else
          buf ← bm_set_bit FS_BLK_SIZE (cb_buf b) bit_idx;
          upd_buf blk (cb_set_buf buf);;
          bcache_mark_dirty blk;;
          bcache_release blk;;
          mret (s32 (u32 (bit_idx + i * FS_BM_BITS_PER_BLK)))
        else bcache_release blk;; ibm_alloc_loop fuel (i + 1)
      end
    else mret (- ENOSPC)
  end.
Definition ibm_alloc : M (sys E) Z :=
  sbk ← get_sb; ibm_alloc_loop (S (Z.to_nat (nb_ibm sbk))) 0.

Definition ibm_free (id : Z) : M (sys E) Z :=
  sbk ← get_sb;
  if nb_inodes sbk <=? id then mret (- EINVAL) else
  let bm_blk_no := u32 (ibm_start sbk + id / FS_BM_BITS_PER_BLK) in
  bm_blk ← bcache_read bm_blk_no;
  match bm_blk with
  | None => mret (- EIO)
  | Some blk =>
    let bit_idx := id mod FS_BM_BITS_PER_BLK in
    b ← get_buf blk;
    buf ← bm_clear_bit FS_BLK_SIZE (cb_buf b) bit_idx;
    upd_buf blk (cb_set_buf buf);;
    bcache_mark_dirty blk;;
    bcache_release blk;;
    mret 0
  end.

Definition icache_request_locked (id : Z) : M (sys E) (option Z) :=
  f ← get_fs;
  i_node ← read_nodes (clist_find FIcache (slot_pred f (match_id_cb_locked id)));
  slot_of_node i_node.

Definition i_find_reusable_locked : M (sys E) (option Z) :=
  f ← get_fs;
  i_node ← read_nodes (clist_find_rev FIcache (slot_pred f i_find_by_refcnt_cb_locked));
  slot_of_node i_node.

Definition inode_get (id : Z) : M (sys E) Z :=
  env (env_spinlock_lock SIcache);;
  hit ← icache_request_locked id;
  match hit with
  | Some i =>
    upd_slot i (λ v, i_set_refcnt (s32 (i_refcnt v + 1)) v);;
    on_nodes (clist_remove (Some (FIno i)));;
    on_nodes (clist_push_front FIcache (FIno i));;
    env (env_spinlock_unlock SIcache);;
    mret i
  | None =>
    r ← i_find_reusable_locked;
    match r with
    | None => panic "BUFFER OVERFLOW: buffer all used"
    | Some i =>
      upd_slot i (i_set_ino id);;
      upd_slot i (i_set_refcnt 1);;
      upd_slot i i_clear_valid_locked;;
      env (env_spinlock_unlock SIcache);;
      mret i
    end
  end.

Definition inode_lock (i : Z) : M (sys E) Z :=
  env (env_mutex_lock (LIno i));;
  v ← get_slot i;
  if i_is_valid_locked v then mret 0 else
  sbk ← get_sb;
  let itab_blkno := get_itab_blkno sbk (i_ino v) in
  if itab_blkno <? 0 then mret itab_blkno else
  tab_blk ← bcache_read (u32 itab_blkno);
  match tab_blk with
  | None => env (env_mutex_unlock (LIno i));; mret (- EIO)
  | Some blk =>
    b ← get_buf blk;
    let idx := get_tab_idx (i_ino v) in
    upd_slot i (i_set_content (dinode_get (cb_buf b) (SIZEOF_DINODE * idx)));;
    bcache_release blk;;
    upd_slot i i_set_valid_locked;;
    mret 0
  end.

Definition inode_unlock (i : Z) : M (sys E) unit := env (env_mutex_unlock (LIno i)).

Definition mark_dirty_locked (i : Z) : M (sys E) Z :=
  v ← get_slot i;
  sbk ← get_sb;
  let itab_blkno := get_itab_blkno sbk (i_ino v) in
  if itab_blkno <? 0 then mret itab_blkno else
  tab_blk ← bcache_read (u32 itab_blkno);
  match tab_blk with
  | None => mret (- EIO)
  | Some blk =>
    b ← get_buf blk;
    let idx := get_tab_idx (i_ino v) in
    v ← get_slot i;
    upd_buf blk (cb_set_buf (dinode_put (cb_buf b) (SIZEOF_DINODE * idx) (i_content v)));;
    bcache_mark_dirty blk;;
    bcache_release blk;;
    mret 0
  end.

Definition inode_mark_dirty (i : Z) : M (sys E) Z :=
  l ← env (env_mutex_is_lock (LIno i));
  if negb l then panic "Trying to mark dirty without lock aquired" else
  mark_dirty_locked i.

(** The loop over the direct blocks [ks]; it stops at the first error. *)
Fixpoint release_dir_loop (i : Z) (ks : list Z) : M (sys E) Z :=
  match ks with
  | [] => mret 0
  | idx :: ks =>
    v ← get_slot i;
    blkno ← of_opt (di_dirblkno (i_content v) !! Z.to_nat idx);
    if blkno =? 0 then release_dir_loop i ks else
    upd_slot i (on_content (set_dirblkno idx 0));;
    res ← bfree blkno;
    if res <? 0 then mret res else release_dir_loop i ks
  end.
Definition release_dir_blk_locked (i : Z) : M (sys E) Z :=
  release_dir_loop i (Z.of_nat <$> seq 0 (Z.to_nat FS_INODE_DIR_DBLKNO)).

Definition release_indir_locked (i : Z) : M (sys E) Z :=
  v ← get_slot i;
  indir_blk ← bcache_read (di_indir (i_content v));
  match indir_blk with
  | None => mret (- EIO)
  | Some blk =>
    each (λ k,
      b ← get_buf blk;
      let blkno := le_get (cb_buf b) (4 * k) 4 in
      if blkno =? 0 then mret tt else
      upd_buf blk (cb_set_buf (le_put (cb_buf b) (4 * k) 4 0));;
      bfree blkno;;
      mret tt) (Z.of_nat <$> seq 0 (Z.to_nat FS_INODE_INDIR_DBLKNO));;
    bcache_mark_dirty blk;;
    bcache_release blk;;
    mret 0
  end.

(** The number a block gets is unsigned: the test for an error never holds. *)
Definition get_dir_blk (i nth : Z) : M (sys E) Z :=
  v ← get_slot i;
  blkno ← of_opt (di_dirblkno (i_content v) !! Z.to_nat nth);
  if blkno =? 0 then
    r ← balloc;
    let blkno := u32 r in
    if blkno <? 0 then mret (s32 blkno) else
    upd_slot i (on_content (set_dirblkno nth blkno));;
    mret (s32 blkno)
  else mret (s32 blkno).

Definition get_indir_blk (i nth : Z) : M (sys E) Z :=
  let nth := u32 (nth - FS_INODE_DIR_DBLKNO) in
  v ← get_slot i;
  indir_blk ← bcache_read (di_indir (i_content v));
  match indir_blk with
  | None => mret (- EIO)
  | Some blk =>
    b ← get_buf blk;
    let blkno := le_get (cb_buf b) (4 * nth) 4 in
    if blkno =? 0 then
      r ← balloc;
      let blkno := u32 r in
      if blkno <? 0 then bcache_release blk;; mret (s32 blkno) else
      b ← get_buf blk;
      upd_buf blk (cb_set_buf (le_put (cb_buf b) (4 * nth) 4 blkno));;
      bcache_mark_dirty blk;;
      bcache_release blk;;
      mret (s32 blkno)
    else bcache_release blk;; mret (s32 blkno)
  end.

Definition _get_data_locked (i nth : Z) : M (sys E) Z :=
  if FS_INODE_DIR_DBLKNO + FS_INODE_INDIR_DBLKNO <=? nth then mret (- EFBIG) else
  if nth <? FS_INODE_DIR_DBLKNO then get_dir_blk i nth else get_indir_blk i nth.

Definition inode_truncate_locked (i : Z) : M (sys E) Z :=
  res ← release_dir_blk_locked i;
  if res <? 0 then mret res else
  res ← release_indir_locked i;
  if res <? 0 then mret res else
  upd_slot i (on_content (di_set_size 0));;
  mret 0.

Definition inode_truncate (i : Z) : M (sys E) Z :=
  res ← inode_lock i;
  if res <? 0 then mret res else
  res ← inode_truncate_locked i;
  res ← (if res <? 0 then mret res else mark_dirty_locked i);
  inode_unlock i;;
  mret res.

Definition inode_put (i : Z) : M (sys E) unit :=
  env (env_spinlock_lock SIcache);;
  v ← get_slot i;
  (if i_refcnt v =? 1 then
    env (env_spinlock_unlock SIcache);;
    env (env_mutex_lock (LIno i));;
    v ← get_slot i;
    (if i_is_valid_locked v && (di_nblink (i_content v) =? 0) then
      res ← inode_truncate_locked i;
      if res <? 0 then panic "truncate failed" else
      upd_slot i (on_content (di_set_type INODE_FREE));;
      res ← mark_dirty_locked i;
      if res <? 0 then panic "dirty failed" else
      v ← get_slot i;
      ibm_free (i_ino v);;
      upd_slot i i_clear_valid_locked
    else mret tt);;
    env (env_mutex_unlock (LIno i));;
    env (env_spinlock_lock SIcache)
  else mret tt);;
  upd_slot i (λ v, i_set_refcnt (s32 (i_refcnt v - 1)) v);;
  env (env_spinlock_unlock SIcache).

Definition inode_create (type : Z) : M (sys E) eptr :=
  id ← ibm_alloc;
  if id <? 0 then mret (ERR_PTR id) else
  i ← inode_get (u32 id);
  let err_put (res : Z) := inode_put i;; ibm_free (u32 id);; mret (ERR_PTR res) in
  res ← inode_lock i;
  if res <? 0 then err_put res else
  upd_slot i (on_content (di_set_type (u8 type)));;
  upd_slot i (on_content (di_set_nblink 1));;
  res ← mark_dirty_locked i;
  if res <? 0 then
    upd_slot i i_clear_valid_locked;;
    inode_unlock i;;
    err_put res
  else
  inode_unlock i;;
  mret (PTR i).

(** ** Reading and writing

    The loops end: an iteration moves to the next block, and past block 1036
    of the file [_get_data_locked] fails. *)
Definition rw_fuel : nat := 1040.

(** The bytes [done ..] of the source. *)
Definition fetch (src : wsrc) (done m : Z) : M (sys E) (Z * list Z) :=
  match src with
  | UserSrc va => env (env_copyin (u64 (va + done)) m)
  | KernSrc l =>
    let s := take (Z.to_nat m) (drop (Z.to_nat done) l) in
    if Z.of_nat (length s) =? m then mret (0, s) else fault
  end.

(** The result: [done], [offset] and [res] when the loop is left. *)
Fixpoint inode_write_loop (fuel : nat) (i : Z) (src : wsrc) (done offset count : Z) : M (sys E) (Z * Z * Z) :=
  match fuel with
  | O => nofuel
  | S fuel =>
    if done <? count then
      let blk_off := offset mod FS_BLK_SIZE in
      let m := Z.min (count - done) (FS_BLK_SIZE - blk_off) in
      dblkno ← _get_data_locked i (offset / FS_BLK_SIZE);
      if dblkno <? 0 then mret (done, offset, dblkno) else
      dblk ← bcache_read (u32 dblkno);
      match dblk with
      | None => mret (done, offset, - EIO)
      | Some blk =>
        r ← fetch src done m;
        if r.1 <? 0 then bcache_release blk;; mret (done, offset, r.1) else
        b ← get_buf blk;
        upd_buf blk (cb_set_buf (put_list (cb_buf b) blk_off r.2));;
        bcache_mark_dirty blk;;
        bcache_release blk;;
        inode_write_loop fuel i src (done + m) (u32 (offset + m)) count
      end
    else mret (done, offset, 0)
  end.

Definition inode_write (i : Z) (src : wsrc) (offset count : Z) : M (sys E) Z :=
  v ← get_slot i;
  if di_size (i_content v) <? offset then mret (- EINVAL) else
  if FS_MAX_FILE_SIZE <? u64 (offset + count) then mret (- EFBIG) else
  r ← inode_write_loop rw_fuel i src 0 offset count;
  let '(done, offset, res) := r in
  v ← get_slot i;
  (if di_size (i_content v) <? offset then
    upd_slot i (on_content (di_set_size offset));;
    inode_mark_dirty i;; mret tt
  else mret tt);;
  mret (if done =? 0 then res else s64 done).

(** Bytes of a block that go to the user or to the kernel buffer. *)
Definition deliver (dst : rdst) (done : Z) (s : list Z) : M (sys E) Z :=
  match dst with
  | UserDst va => env (env_copyout (u64 (va + done)) s)
  | KernDst => mret 0
  end.

(** [acc] are the bytes of the kernel buffer so far. *)
Fixpoint inode_read_loop (fuel : nat) (i : Z) (dst : rdst) (done offset count : Z) (acc : list Z) :
    M (sys E) (Z * Z * list Z) :=
  match fuel with
  | O => nofuel
  | S fuel =>
    if done <? count then
      let blk_off := offset mod FS_BLK_SIZE in
      let m := Z.min (count - done) (FS_BLK_SIZE - blk_off) in
      dblkno ← _get_data_locked i (offset / FS_BLK_SIZE);
      if dblkno <? 0 then mret (done, dblkno, acc) else
      dblk ← bcache_read (u32 dblkno);
      match dblk with
      | None => mret (done, - EIO, acc)
      | Some blk =>
        b ← get_buf blk;
        let s := slice (cb_buf b) blk_off (Z.to_nat m) in
        res ← deliver dst done s;
        if res <? 0 then bcache_release blk;; mret (done, res, acc) else
        bcache_release blk;;
        inode_read_loop fuel i dst (done + m) (u32 (offset + m)) count (acc ++ s)
      end
    else mret (done, 0, acc)
  end.

(** The result and the bytes delivered. *)
Definition inode_read (i : Z) (dst : rdst) (offset count : Z) : M (sys E) (Z * list Z) :=
  v ← get_slot i;
  if di_size (i_content v) <? u64 (offset + count) then mret (- EINVAL, []) else
  r ← inode_read_loop rw_fuel i dst 0 offset count [];
  let '(done, res, acc) := r in
  mret (if done =? 0 then res else s64 done, acc).
End Inode.
