(* ===== verification/FileMap.v ===== *)
(** * The blocks of a file

    A file as the function from block index to block number, and what an
    allocation and a write do to its bytes. *)

From S2P Require Import Prelude Clist Buf Bitmap FsState Layout Bcache BcacheInv Balloc BallocInv Inode.

Implicit Types (d : Z → bytes) (B : Z → Z) (m : fs_meta).

(** Block number [b] is a data block in use. *)
Definition used m d (b : Z) : Prop := data_start m ≤ b < nb_blk m ∧ dbit m d (b - data_start m) = true.

(** The first [N] entries of [B] and the indirect block [ind] are distinct
    blocks in use. *)
Record bmap_ok m d (N : Z) B (ind : Z) : Prop := {
  bm_used : ∀ n, 0 ≤ n < N → B n ≠ 0 → used m d (B n);
  bm_inj : ∀ n n', 0 ≤ n < N → 0 ≤ n' < N → B n ≠ 0 → B n = B n' → n = n';
  bm_ind : ind ≠ 0 → used m d ind ∧ ∀ n, 0 ≤ n < N → B n ≠ ind;
}.

(** The byte at an offset; a block that is not there reads as zeroes. *)
Definition fget d B (off : Z) : Z :=
  if B (off / FS_BLK_SIZE) =? 0 then 0 else byte_at (d (B (off / FS_BLK_SIZE))) (off mod FS_BLK_SIZE).

(** [B] with block [nth] set. *)
Definition bset B (nth b : Z) : Z → Z := λ n, if decide (n = nth) then b else B n.

(** The bitmap of the data blocks is the same. *)
Definition same_bitmap m d d' : Prop := ∀ n, dbm_start m ≤ n < dbm_start m + nb_dbm m → d' n = d n.

Lemma used_ext m d d' b : layout m → same_bitmap m d d' → used m d b → used m d' b.
Proof.
  intros Hlo Hs [Hb Hd]. split; [done|]. rewrite (dbit_ext m d' d); [done|]. apply Hs, dbm_blk_range; [done|].
  pose proof (lo_size _ Hlo). lia.
Qed.

Lemma bmap_ext m d d' N B B' ind :
  layout m → same_bitmap m d d' → (∀ n, 0 ≤ n < N → B' n = B n) → bmap_ok m d N B ind → bmap_ok m d' N B' ind.
Proof.
  intros Hlo Hs HB [Hu Hi Hd]. split.
  - intros n Hn. rewrite HB by done. intros H0. by apply (used_ext m d), Hu.
  - intros n n' Hn Hn'. rewrite !HB by done. by apply Hi.
  - intros H0. destruct (Hd H0) as [Hu' Hne]. split; [by apply (used_ext m d)|]. intros n Hn. rewrite HB by done. by apply Hne.
Qed.

(** A block in use is neither the block an allocation takes nor one of the
    bitmap. *)
Lemma used_apart m d j d' b : layout m → takes m d j d' → used m d b → b ≠ data_start m + j ∧ d' b = d b.
Proof.
  intros Hlo (Hj & Hf & _ & _ & _ & Ho) [Hb Hd].
  assert (b ≠ data_start m + j) as Hne.
  { intros ->. rewrite Z.add_simpl_l in Hd. congruence. }
  split; [done|]. apply Ho; [done|]. pose proof (dbm_blk_range m j Hlo Hj). pose proof (lo_itab _ Hlo).
  pose proof (lo_data _ Hlo). lia.
Qed.

Lemma used_takes m d j d' b : layout m → takes m d j d' → used m d b → used m d' b.
Proof.
  intros Hlo (Hj & Hf & _ & _ & Hb & _) [Hr Hd]. split; [done|]. pose proof (lo_size _ Hlo).
  rewrite Hb by lia. by destruct (decide _).
Qed.
Lemma taken_used m d j d' : layout m → takes m d j d' → used m d' (data_start m + j).
Proof.
  intros Hlo (Hj & _ & _ & _ & Hb & _). pose proof (lo_size _ Hlo). split; [lia|].
  rewrite Z.add_simpl_l, Hb, decide_True by lia. done.
Qed.

(** The block an allocation takes becomes block [nth] of the file. *)
Lemma bmap_alloc m d N B ind j d' nth :
  layout m → bmap_ok m d N B ind → takes m d j d' → 0 ≤ nth < N → B nth = 0 →
  bmap_ok m d' N (bset B nth (data_start m + j)) ind.
Proof.
  intros Hlo [Hu Hi Hd] Ht Hn H0. unfold bset. pose proof (λ b, used_apart m d j d' b Hlo Ht) as Hap. split.
  - intros n Hn'. destruct (decide (n = nth)); [intros _; by eapply taken_used|]. intros Hne. by apply (used_takes m d j), Hu.
  - intros n n' Hn1 Hn2. destruct (decide (n = nth)) as [->|], (decide (n' = nth)) as [->|]; try done.
    + intros _ Heq. destruct (decide (B n' = 0)) as [E|E].
      * rewrite E in Heq. destruct Ht as (? & _). pose proof (lo_ibm _ Hlo). pose proof (lo_dbm _ Hlo).
        pose proof (lo_itab _ Hlo). pose proof (lo_data _ Hlo). lia.
      * destruct (Hap (B n') (Hu n' Hn2 E)). congruence.
    + intros Hne Heq. destruct (Hap (B n) (Hu n Hn1 Hne)). congruence.
    + by apply Hi.
  - intros Hi0. destruct (Hd Hi0) as [Hui Hnei]. split; [by apply (used_takes m d j)|].
    intros n Hn'. destruct (decide (n = nth)); [|by apply Hnei]. destruct (Hap ind Hui). congruence.
Qed.

Lemma fget_alloc m d N B ind j d' nth off :
  layout m → bmap_ok m d N B ind → takes m d j d' → B nth = 0 → 0 ≤ off / FS_BLK_SIZE < N →
  fget d' (bset B nth (data_start m + j)) off = fget d B off.
Proof.
  intros Hlo [Hu _ _] Ht H0 Hoff. unfold fget, bset. destruct (decide (off / FS_BLK_SIZE = nth)) as [->|Hne].
  - rewrite H0, Z.eqb_refl. destruct Ht as (_ & _ & _ & Hz & _). rewrite Hz, byte_at_empty. by destruct (_ =? 0).
  - destruct (Z.eqb_spec (B (off / FS_BLK_SIZE)) 0) as [|Hb]; [done|].
    by destruct (used_apart m d j d' _ Hlo Ht (Hu _ Hoff Hb)) as [_ ->].
Qed.

(** Bytes written into block [nth] at [bo]. *)
Lemma fget_write m d N B ind nth bo s off :
  bmap_ok m d N B ind → 0 ≤ nth < N → B nth ≠ 0 → 0 ≤ bo → bo + Z.of_nat (length s) ≤ FS_BLK_SIZE → 0 ≤ off / FS_BLK_SIZE < N →
  fget (upd d (B nth) (put_list (d (B nth)) bo s)) B off =
    if decide (nth * FS_BLK_SIZE + bo ≤ off < nth * FS_BLK_SIZE + bo + Z.of_nat (length s))
    then default 0 (s !! Z.to_nat (off - (nth * FS_BLK_SIZE + bo))) else fget d B off.
Proof.
  change FS_BLK_SIZE with 4096. intros [_ Hinj _] Hn Hne Hbo Hlen Hoff. unfold fget, upd. change FS_BLK_SIZE with 4096.
  pose proof (Z.div_mod off 4096 ltac:(lia)) as Hdm. pose proof (Z.mod_pos_bound off 4096 ltac:(lia)).
  destruct (decide (off / 4096 = nth)) as [Eq|Hnq].
  - rewrite Eq. destruct (Z.eqb_spec (B nth) 0) as [|_]; [done|]. rewrite decide_True by done.
    rewrite put_list_spec. destruct (decide (bo ≤ off mod 4096 < bo + Z.of_nat (length s))) as [Hin|Hout].
    + rewrite decide_True by lia. f_equal. f_equal. f_equal. lia.
    + by rewrite decide_False by lia.
  - rewrite (decide_False (P := _ ≤ off < _)) by (intros ?; apply Hnq; symmetry; apply (Z.div_unique off 4096 nth (off - nth * 4096)); lia).
    destruct (Z.eqb_spec (B (off / 4096)) 0) as [|Hb]; [done|].
    rewrite decide_False; [done|]. intros Heq. apply Hnq, Hinj; (done || lia).
Qed.

(** ** The map of an inode *)

Definition blkno_of d (c : dinode) (n : Z) : Z :=
  if n <? FS_INODE_DIR_DBLKNO then default 0 (di_dirblkno c !! Z.to_nat n)
  else le_get (d (di_indir c)) (4 * (n - FS_INODE_DIR_DBLKNO)) 4.
(** Without an indirect block the file has the direct ones only. *)
Definition nmax (c : dinode) : Z :=
  if di_indir c =? 0 then FS_INODE_DIR_DBLKNO else FS_INODE_DIR_DBLKNO + FS_INODE_INDIR_DBLKNO.

Record file_ok m d (c : dinode) : Prop := {
  fo_wf : dinode_wf c;
  fo_map : bmap_ok m d (nmax c) (blkno_of d c) (di_indir c);
  fo_dense : ∀ n, 0 ≤ n → n * FS_BLK_SIZE < di_size c → n < nmax c ∧ blkno_of d c n ≠ 0;
}.

(** The contents of a file. *)
Definition contents d (c : dinode) : list Z := (λ k, fget d (blkno_of d c) (Z.of_nat k)) <$> seq 0 (Z.to_nat (di_size c)).

Lemma nmax_range c : FS_INODE_DIR_DBLKNO ≤ nmax c ≤ 1036.
Proof. unfold nmax. change FS_INODE_DIR_DBLKNO with 12. change FS_INODE_INDIR_DBLKNO with 1024. destruct (_ =? _); lia. Qed.

Lemma nmax_indir c n : 12 ≤ n < nmax c → di_indir c ≠ 0.
Proof.
  intros Hn E0. unfold nmax in Hn. rewrite E0 in Hn. change FS_INODE_DIR_DBLKNO with 12 in Hn. simpl in Hn. lia.
Qed.

Lemma used_range m d b : layout m → used m d b → 0 < b < 2 ^ 28 ∧ itab_start m + nb_itab m ≤ b.
Proof. intros [[? ?] [? ?] [? ?] [? ?] [? ?] _ _] [? _]. lia. Qed.

Lemma blkno_direct d c nth b n : length (di_dirblkno c) = 12%nat → 0 ≤ nth < 12 → 0 ≤ n →
  blkno_of d (set_dirblkno nth b c) n = bset (blkno_of d c) nth b n.
Proof.
  intros Hl Hn H0. unfold blkno_of, bset, set_dirblkno. change FS_INODE_DIR_DBLKNO with 12. simpl.
  destruct (Z.ltb_spec n 12) as [Hlt|Hge].
  - destruct (decide (n = nth)) as [->|Hne]; [by rewrite list_lookup_insert_eq by lia|].
    rewrite list_lookup_insert_ne by lia. done.
  - by rewrite decide_False by lia.
Qed.

Lemma blkno_indirect d c nth b n : 12 ≤ nth < 1036 → is_u32 b → 0 ≤ n →
  blkno_of (upd d (di_indir c) (le_put (d (di_indir c)) (4 * (nth - 12)) 4 b)) c n = bset (blkno_of d c) nth b n.
Proof.
  intros Hn Hb H0. unfold blkno_of, bset. change FS_INODE_DIR_DBLKNO with 12.
  destruct (Z.ltb_spec n 12) as [Hlt|Hge]; [by rewrite decide_False by lia|]. rewrite upd_eq.
  destruct (decide (n = nth)) as [->|Hne]; [by apply le_get_put_u32|]. apply le_get_put_other. lia.
Qed.

Lemma blkno_ext d d' c n : d' (di_indir c) = d (di_indir c) → blkno_of d' c n = blkno_of d c n.
Proof. unfold blkno_of. by intros ->. Qed.

Lemma blkno_ext_range d d' c n :
  (di_indir c ≠ 0 → d' (di_indir c) = d (di_indir c)) → 0 ≤ n < nmax c → blkno_of d' c n = blkno_of d c n.
Proof.
  unfold nmax, blkno_of. change FS_INODE_DIR_DBLKNO with 12. intros Hd Hn.
  destruct (Z.ltb_spec n 12); [done|]. destruct (Z.eqb_spec (di_indir c) 0) as [|H0]; [lia|]. by rewrite (Hd H0).
Qed.

Lemma fget_ext d d' B B' off :
  B' (off / FS_BLK_SIZE) = B (off / FS_BLK_SIZE) →
  (B (off / FS_BLK_SIZE) ≠ 0 → d' (B (off / FS_BLK_SIZE)) = d (B (off / FS_BLK_SIZE))) → fget d' B' off = fget d B off.
Proof. unfold fget. intros -> Hd. destruct (Z.eqb_spec (B (off / FS_BLK_SIZE)) 0) as [|Hb]; [done|]. by rewrite Hd. Qed.

Lemma same_bitmap_data m d b x : layout m → used m d b → ∀ d1, same_bitmap m d1 (upd d1 b x).
Proof.
  intros Hlo Hu d1 n Hn. apply upd_ne. destruct (used_range m d b Hlo Hu). pose proof (lo_itab _ Hlo). lia.
Qed.
