(* ===== verification/InodeInv.v ===== *)
(** * Reading and writing files is correct

    With the inode locked and its content loaded, a file is a list of bytes:
    [inode_write] overwrites a part of it and may extend it, [inode_read]
    returns a part of it. *)

From S2P Require Import Prelude Clist Buf Bitmap FsState Layout Bcache BcacheInv Balloc BallocInv Inode FileMap.

Section Spec.
Context {E : Type} {HEnv : Env E} {HSpec : EnvSpec E} {HLaws : EnvLaws E}.
Implicit Types (e : E) (f : fs) (d : Z → bytes) (c : dinode) (v : inode).

Lemma get_slot_run i f e v : islots f !! i = Some v → get_slot i (Sys f e) = Done v (Sys f e).
Proof. intros Hv. unfold get_slot, get_fs, gets, mbind, M_bind. simpl. by rewrite Hv. Qed.
Lemma upd_slot_run i g f e v :
  islots f !! i = Some v → upd_slot i g (Sys f e) = Done tt (Sys (with_islots (<[i := g v]> (islots f)) f) e).
Proof. intros Hv. unfold upd_slot. by mstep (get_slot_run i f e v Hv). Qed.

(** The task holds the lock of inode slot [i], whose value is [v], and no
    buffer. *)
Record iat f e (hs : gset lock) dk il (i : Z) v : Prop := {
  ia_env : at_env e hs None dk;
  ia_inv : BInv f hs dk il;
  ia_layout : layout (sb f);
  ia_bufs : ∀ j, LBuf j ∉ hs;
  ia_lock : LIno i ∈ hs;
  ia_slot : islots f !! i = Some v;
}.

(** The work leads to [f2], where the slot has content [c'] and the blocks are [d']. *)
Definition goes f hs dk il i v c' d' (n : Z) f2 : Prop :=
  step (with_islots (<[i := i_set_content c' v]> (islots f)) f) hs dk il d' n f2.

Lemma unheld_none f hs n : (∀ j, LBuf j ∉ hs) → unheld f hs n.
Proof. intros Hno j b Hj. by destruct (Hno j). Qed.

Lemma goes_iat f e e2 hs dk il i v c' d' n f2 :
  iat f e hs dk il i v → goes f hs dk il i v c' d' n f2 → at_env e2 hs None dk → iat f2 e2 hs dk il i (i_set_content c' v).
Proof.
  intros [_ _ ? ? ? ?] (HB & (Hsl & _ & Hsb & _) & _) He2. split; try done; [by rewrite Hsb|].
  rewrite Hsl. apply lookup_insert_eq.
Qed.

Lemma goes_refl f e hs dk il i v : iat f e hs dk il i v → goes f hs dk il i v (i_content v) (lblk f dk) 0 f.
Proof.
  intros Hat. unfold goes. assert (<[i := i_set_content (i_content v) v]> (islots f) = islots f) as ->.
  { apply insert_id. rewrite (ia_slot _ _ _ _ _ _ _ Hat). by destruct v. }
  replace (with_islots (islots f) f) with f by by destruct f. apply step_refl, Hat.
Qed.

Lemma goes_trans f hs dk il i v c1 d1 n1 f1 c2 d2 n2 f2 :
  goes f hs dk il i v c1 d1 n1 f1 → goes f1 hs dk il i (i_set_content c1 v) c2 d2 n2 f2 →
  goes f hs dk il i v c2 d2 (n1 + n2) f2.
Proof.
  unfold goes. intros H1 H2. pose proof H1 as (_ & (Hsl & _) & _). simpl in Hsl.
  replace (i_set_content c2 (i_set_content c1 v)) with (i_set_content c2 v) in H2 by done.
  rewrite Hsl, insert_insert_eq in H2.
  eapply step_trans; [|exact H2]. by apply (step_slots (<[i := i_set_content c2 v]> (islots f))) in H1.
Qed.

Lemma goes_weaken f hs dk il i v c d d' n n' f2 :
  goes f hs dk il i v c d n f2 → (∀ m, d m = d' m) → n ≤ n' → goes f hs dk il i v c d' n' f2.
Proof. apply step_weaken. Qed.

(** Work that leaves the slots alone. *)
Lemma step_goes f e hs dk il i v d n f2 :
  iat f e hs dk il i v → step f hs dk il d n f2 → goes f hs dk il i v (i_content v) d n f2.
Proof.
  intros Hat Hst. replace n with (0 + n) by lia. unfold goes.
  assert (<[i := i_set_content (i_content v) v]> (islots f) = islots f) as ->.
  { apply insert_id. rewrite (ia_slot _ _ _ _ _ _ _ Hat). by destruct v. }
  by replace (with_islots (islots f) f) with f by by destruct f.
Qed.

(** What asking for block [nth] of a file gives: the block it has, a new one,
    or an error, whose code is stored where the block number belongs. *)
Definition placed (c : dinode) d (nth b : Z) c' d1 d' : Prop :=
  if nth <? FS_INODE_DIR_DBLKNO then c' = set_dirblkno nth b c ∧ ∀ n, d' n = d1 n
  else c' = c ∧ ∀ n, d' n = upd d1 (di_indir c) (le_put (d (di_indir c)) (4 * (nth - FS_INODE_DIR_DBLKNO)) 4 b) n.
Definition gives m d c (nth r : Z) c' d' : Prop :=
  (blkno_of d c nth ≠ 0 ∧ r = blkno_of d c nth ∧ c' = c ∧ ∀ n, d' n = d n) ∨
  (blkno_of d c nth = 0 ∧ ∃ j d1, takes m d j d1 ∧ r = data_start m + j ∧ placed c d nth r c' d1 d') ∨
  (blkno_of d c nth = 0 ∧ r = - ENOSPC ∧ (∀ j, 0 ≤ j < nb_dblk m → dbit m d j = true) ∧ placed c d nth (u32 r) c' d d').

Lemma dir_lookup_dirblk c nth : dinode_wf c → 0 ≤ nth < 12 → di_dirblkno c !! Z.to_nat nth = Some (default 0 (di_dirblkno c !! Z.to_nat nth)).
Proof.
  intros Hwf Hn. destruct (lookup_lt_is_Some_2 (di_dirblkno c) (Z.to_nat nth)) as [b ->]; [|done].
  destruct (dw_dir _ Hwf) as [_ ->]. lia.
Qed.

Lemma allocatable_none f hs : (∀ j, LBuf j ∉ hs) → allocatable f hs.
Proof. intros Hno n _. by apply unheld_none. Qed.

Lemma get_dir_blk_runs f e hs dk il i v nth :
  iat f e hs dk il i v → file_ok (sb f) (lblk f dk) (i_content v) → 0 ≤ nth < 12 → 2 ≤ spare f →
  runs (get_dir_blk i nth (Sys f e)) (λ r s', ∃ c' d', at_env (s_env s') hs None dk ∧
    goes f hs dk il i v c' d' (if blkno_of (lblk f dk) (i_content v) nth =? 0 then 2 else 0) (s_fs s') ∧
    gives (sb f) (lblk f dk) (i_content v) nth r c' d').
Proof.
  intros Hat [Hwf Hmap _] Hn Hsp. pose proof Hat as [He HB Hlo Hno _ Hv]. unfold get_dir_blk.
  mstep (get_slot_run i f e v Hv). rewrite (dir_lookup_dirblk _ _ Hwf Hn).
  assert (blkno_of (lblk f dk) (i_content v) nth = default 0 (di_dirblkno (i_content v) !! Z.to_nat nth)) as Eb.
  { unfold blkno_of. change FS_INODE_DIR_DBLKNO with 12. destruct (Z.ltb_spec nth 12); [done|lia]. }
  rewrite <-Eb. unfold of_opt. rewrite bind_ret. pose proof (nmax_range (i_content v)) as Hnm.
  change FS_INODE_DIR_DBLKNO with 12 in Hnm.
  destruct (Z.eqb_spec (blkno_of (lblk f dk) (i_content v) nth) 0) as [H0|H0].
  - apply runs_bind. eapply runs_mono; [apply (balloc_runs f e hs dk il He HB Hlo);
      [by apply allocatable_none|by intros ???; apply unheld_none|done]|].
    intros r [f1 e1] (d1 & He1 & Hst & Hp). simpl in He1, Hst.
    pose proof Hst as (_ & (Hsl & _) & _). assert (islots f1 !! i = Some v) as Hv1 by by rewrite Hsl.
    destruct (Z.ltb_spec (u32 r) 0) as [Hneg|_].
    { pose proof (Z.mod_pos_bound r (2 ^ 32) ltac:(lia)). unfold wrap in Hneg. lia. }
    mstep (upd_slot_run i (on_content (set_dirblkno nth (u32 r))) f1 e1 v Hv1).
    unfold mret, M_ret, runs, wpr. eexists (set_dirblkno nth (u32 r) (i_content v)), d1. split_and!; [done| |].
    + unfold goes. rewrite <-Hsl. by apply (step_slots (<[i := i_set_content (set_dirblkno nth (u32 r) (i_content v)) v]> (islots f1))) in Hst.
    + assert ((nth <? FS_INODE_DIR_DBLKNO) = true) as Elt by (change FS_INODE_DIR_DBLKNO with 12; lia).
      right. destruct Hp as [(-> & Hd & Hall)|(j & -> & Ht)].
      * right. split_and!; [done|done|done|]. unfold placed. by rewrite Elt.
      * left. split; [done|]. pose proof Ht as (Hj & _). destruct Hlo as [[? ?] [? ?] [? ?] [? ?] [? ?] _ _].
        rewrite (wrap_small 32), sext_small by lia. exists j, d1. split_and!; [done|done|]. unfold placed. by rewrite Elt.
  - destruct (used_range _ _ _ Hlo (bm_used _ _ _ _ _ Hmap nth ltac:(lia) H0)) as [Hr _].
    rewrite sext_small by lia. unfold mret, M_ret, runs, wpr. exists (i_content v), (lblk f dk). split_and!; [done| |by left; split_and!].
    apply (goes_weaken _ _ _ _ _ _ _ (lblk f dk) _ 0); [by eapply goes_refl|done|lia].
Qed.

(** Allocating while the indirect block is held. *)
Lemma balloc_holding f f1 e1 hs dk il blk ind :
  layout (sb f) → (∀ j, LBuf j ∉ hs) → used (sb f) (lblk f dk) ind → 3 ≤ spare f →
  at_env e1 ({[LBuf blk]} ∪ hs) None dk → got f hs dk il ind blk f1 →
  runs (balloc (Sys f1 e1)) (λ r s', ∃ d', at_env (s_env s') ({[LBuf blk]} ∪ hs) None dk ∧
    holding f hs dk il d' 2 ind blk (s_fs s') ∧ balloc_post (sb f) (lblk f dk) r d').
Proof.
  intros Hlo Hno Hu Hsp He1 Hg. pose proof Hg as (Hnb & HB1 & (b & Hb & Hbn & _ & _ & Hs1) & Hl1 & (_ & _ & Esb & _) & _).
  assert (∀ k, k ≠ ind → unheld f1 ({[LBuf blk]} ∪ hs) k) as Hun.
  { intros k Hk j bj Hj Hbj. assert (j = blk) as -> by (pose proof (Hno j); set_solver). congruence. }
  pose proof (used_range _ _ _ Hlo Hu) as [_ Hr]. pose proof (lo_itab _ Hlo).
  assert (∀ j, dbit (sb f1) (lblk f1 dk) j = dbit (sb f) (lblk f dk) j) as Hbits.
  { intros j. rewrite Esb. apply dbit_ext. by rewrite Hl1. }
  eapply runs_mono; [apply (balloc_runs f1 e1 _ dk il He1 HB1); [by rewrite Esb| | |]|].
  - intros k Hk. rewrite Esb in Hk. apply Hun. lia.
  - intros j Hj Hf. rewrite Hbits in Hf. apply Hun. rewrite Esb. intros <-. destruct Hu as [_ Hd].
    rewrite Z.add_simpl_l in Hd. congruence.
  - destruct (is_dirty_locked b); lia.
  - intros r [f2 e2] (d2 & He2 & Hst & Hp). simpl in He2, Hst. rewrite Esb in Hp. simpl.
    assert (balloc_post (sb f) (lblk f dk) r d2) as Hp'.
    { destruct Hp as [(-> & Hd & Hall)|(j & -> & Hj & Hf & Hlow & Hz & Hbt & Ho)]; rewrite Esb in Hbits.
      - left. split_and!; [done|intros n; by rewrite Hd|]. intros j Hj. rewrite <-Hbits. by apply Hall.
      - right. exists j. split; [done|]. split_and!; try done; [lia..|by rewrite <-Hbits| | |].
        + intros k Hk. rewrite <-Hbits. by apply Hlow.
        + intros k Hk. rewrite Hbt by done. by rewrite Hbits.
        + intros n Hn1 Hn2. by rewrite Ho, Hl1. }
    exists d2. split_and!; [done| |done].
    change 2 with (0 + 2). apply (holding_step _ _ _ _ (lblk f dk) _ _ _ f1); [by apply got_holding|done|].
    destruct Hp' as [(_ & Hd & _)|(j & _ & Ht)]; [done|]. by apply (used_apart (sb f) (lblk f dk) j).
Qed.

Lemma get_indir_blk_runs f e hs dk il i v nth :
  iat f e hs dk il i v → file_ok (sb f) (lblk f dk) (i_content v) → di_indir (i_content v) ≠ 0 →
  12 ≤ nth < 1036 → 3 ≤ spare f →
  runs (get_indir_blk i nth (Sys f e)) (λ r s', ∃ c' d', at_env (s_env s') hs None dk ∧
    goes f hs dk il i v c' d' (if blkno_of (lblk f dk) (i_content v) nth =? 0 then 3 else 0) (s_fs s') ∧
    gives (sb f) (lblk f dk) (i_content v) nth r c' d').
Proof.
  intros Hat [Hwf Hmap _] Hind Hn Hsp. pose proof Hat as [He HB Hlo Hno _ Hv]. unfold get_indir_blk.
  change FS_INODE_DIR_DBLKNO with 12. rewrite (wrap_small 32) by lia.
  mstep (get_slot_run i f e v Hv). set (c := i_content v) in *. set (ind := di_indir c) in *.
  destruct (bm_ind _ _ _ _ _ Hmap Hind) as [Hui Hne]. fold ind in Hui, Hne.
  destruct (used_range _ _ _ Hlo Hui) as [Hir _]. assert (blk_ok ind) as Hok by (unfold blk_ok; lia).
  apply runs_bind. eapply runs_mono; [apply (read_runs f e hs dk il ind He HB Hok); [by apply unheld_none|lia]|].
  intros r [f1 e1] (blk & e1' & -> & Ee & He1 & Hg). simpl in Ee, He1, Hg. subst e1'.
  pose proof Hg as (_ & _ & (b & Hb & _ & _ & Hc & _) & _). mstep (get_buf_run blk f1 e1 b Hb).
  assert (le_get (cb_buf b) (4 * (nth - 12)) 4 = blkno_of (lblk f dk) c nth) as Eb.
  { unfold blkno_of. change FS_INODE_DIR_DBLKNO with 12. rewrite Hc. destruct (Z.ltb_spec nth 12); [lia|done]. }
  rewrite Eb. assert (nmax c = 1036) as Enm by (unfold nmax; fold ind; by destruct (Z.eqb_spec ind 0)).
  destruct (Z.eqb_spec (blkno_of (lblk f dk) c nth) 0) as [H0|H0].
  - apply runs_bind. eapply runs_mono; [by apply (balloc_holding f f1 e1 hs dk il blk ind)|].
    intros r [f2 e2] (d2 & He2 & Hh & Hp). simpl in He2, Hh.
    destruct (Z.ltb_spec (u32 r) 0) as [Hneg|_].
    { pose proof (Z.mod_pos_bound r (2 ^ 32) ltac:(lia)). unfold wrap in Hneg. lia. }
    pose proof Hh as (_ & _ & (b2 & Hb2 & _ & _ & Hc2 & _) & _). mstep (get_buf_run blk f2 e2 b2 Hb2).
    assert (d2 ind = lblk f dk ind) as Ed.
    { destruct Hp as [(_ & Hd & _)|(j & _ & Ht)]; [done|]. by apply (used_apart (sb f) (lblk f dk) j). }
    rewrite Hc2, Ed. set (nb := le_put _ _ _ _).
    apply (holding_write _ _ f f2 e2 hs dk il d2 2 ind blk nb He2 Hh).
    { apply wf_le_put. by apply (lblk_wf f hs dk il). }
    intros s' He' Hst. unfold mret, M_ret, runs, wpr. exists c, (upd d2 ind nb). split_and!; [done|by eapply step_goes|].
    assert ((nth <? FS_INODE_DIR_DBLKNO) = false) as Elt by (change FS_INODE_DIR_DBLKNO with 12; lia).
    right. destruct Hp as [(-> & Hd & Hall)|(j & -> & Ht)].
    + right. split_and!; [done|done|done|]. unfold placed. rewrite Elt. split; [done|]. intros n. fold ind. unfold upd. by destruct (decide _).
    + left. split; [done|]. pose proof Ht as (Hj & _). destruct Hlo as [[? ?] [? ?] [? ?] [? ?] [? ?] _ _].
      unfold nb. rewrite (wrap_small 32), sext_small by lia. exists j, d2. split_and!; [done|done|]. unfold placed. by rewrite Elt.
  - destruct (used_range _ _ _ Hlo (bm_used _ _ _ _ _ Hmap nth ltac:(lia) H0)) as [Hr _]. rewrite sext_small by lia.
    apply runs_bind. eapply runs_mono; [by apply (release_clean f f1 e1 hs dk il ind blk)|].
    intros _ [f2 e2] [He2 Hst]. unfold mret, M_ret, runs, wpr. exists c, (lblk f dk). split_and!; [done| |by left; split_and!].
    eapply goes_weaken; [by eapply step_goes|done|lia].
Qed.

Lemma get_data_runs f e hs dk il i v nth :
  iat f e hs dk il i v → file_ok (sb f) (lblk f dk) (i_content v) → 0 ≤ nth < nmax (i_content v) → 3 ≤ spare f →
  runs (_get_data_locked i nth (Sys f e)) (λ r s', ∃ c' d', at_env (s_env s') hs None dk ∧
    goes f hs dk il i v c' d' (if blkno_of (lblk f dk) (i_content v) nth =? 0 then 3 else 0) (s_fs s') ∧
    gives (sb f) (lblk f dk) (i_content v) nth r c' d').
Proof.
  intros Hat Hfo Hn Hsp. pose proof (nmax_range (i_content v)) as Hnm. change FS_INODE_DIR_DBLKNO with 12 in Hnm.
  unfold _get_data_locked. change FS_INODE_INDIR_DBLKNO with 1024. change FS_INODE_DIR_DBLKNO with 12.
  destruct (Z.leb_spec (12 + 1024) nth) as [|_]; [lia|]. destruct (Z.ltb_spec nth 12) as [Hlt|Hge].
  - eapply runs_mono; [apply (get_dir_blk_runs f e hs dk il i v); try done; lia|].
    intros r s' (c' & d' & ? & ? & ?). exists c', d'. split_and!; [done| |done].
    eapply goes_weaken; [done|done|destruct (_ =? 0); lia].
  - apply get_indir_blk_runs; try done; [apply (nmax_indir _ nth); lia|lia].
Qed.

(** The map of the file after an allocation. *)
Definition block_added m d c (nth r : Z) c' d' : Prop :=
  dinode_wf c' ∧ nmax c' = nmax c ∧ di_size c' = di_size c ∧ di_indir c' = di_indir c ∧
  bmap_ok m d' (nmax c) (blkno_of d' c') (di_indir c) ∧
  (∀ n, 0 ≤ n < nmax c → blkno_of d' c' n = bset (blkno_of d c) nth r n) ∧
  (∀ off, 0 ≤ off / FS_BLK_SIZE < nmax c → fget d' (blkno_of d' c') off = fget d (blkno_of d c) off).

Lemma added_direct m d c nth j d1 c' d' :
  layout m → file_ok m d c → 0 ≤ nth < 12 → blkno_of d c nth = 0 → takes m d j d1 →
  c' = set_dirblkno nth (data_start m + j) c → (∀ n, d' n = d1 n) → block_added m d c nth (data_start m + j) c' d'.
Proof.
  intros Hlo [Hwf Hmap _] Hn H0 Ht -> Hd. pose proof (nmax_range c) as Hnm. change FS_INODE_DIR_DBLKNO with 12 in Hnm.
  pose proof Hwf as [? ? ? ? [Hall Hlen] ?]. pose proof (taken_used m d j d1 Hlo Ht) as Htu.
  assert (∀ n, 0 ≤ n < nmax c → blkno_of d' (set_dirblkno nth (data_start m + j) c) n = bset (blkno_of d c) nth (data_start m + j) n) as HB.
  { intros k Hk. rewrite blkno_direct by (done || lia). unfold bset. destruct (decide (k = nth)); [done|].
    apply blkno_ext_range; [|done]. intros Hi. rewrite Hd. by apply (used_apart m d j), (bm_ind _ _ _ _ _ Hmap). }
  split_and!; try done.
  - split; try done. simpl. rewrite length_insert. split; [|done]. apply Forall_insert; [done|].
    destruct (used_range _ _ _ Hlo Htu). unfold is_u32. lia.
  - apply (bmap_ext m d1 d' _ (bset (blkno_of d c) nth (data_start m + j))); try done; [intros k _; apply Hd|].
    apply (bmap_alloc m d); (done || lia).
  - intros off Hoff. rewrite <-(fget_alloc m d _ _ _ j d1 nth off Hlo Hmap Ht H0 Hoff).
    apply fget_ext; [by apply HB|]. intros _. apply Hd.
Qed.

Lemma added_indirect m d c nth j d1 d' :
  layout m → file_ok m d c → 12 ≤ nth < nmax c → blkno_of d c nth = 0 → takes m d j d1 →
  (∀ n, d' n = upd d1 (di_indir c) (le_put (d (di_indir c)) (4 * (nth - 12)) 4 (data_start m + j)) n) →
  block_added m d c nth (data_start m + j) c d'.
Proof.
  intros Hlo [Hwf Hmap _] Hn H0 Ht Hd. pose proof (nmax_range c) as Hnm. change FS_INODE_DIR_DBLKNO with 12 in Hnm.
  pose proof (nmax_indir c nth ltac:(lia)) as Hi.
  destruct (bm_ind _ _ _ _ _ Hmap Hi) as [Hui Hne]. destruct (used_apart m d j d1 _ Hlo Ht Hui) as [Hia Hid].
  pose proof (taken_used m d j d1 Hlo Ht) as Htu. destruct (used_range _ _ _ Hlo Htu) as [Hjr _].
  rewrite <-Hid in Hd. set (nb := le_put _ _ _ _) in Hd.
  assert (∀ n, 0 ≤ n < nmax c → blkno_of d' c n = bset (blkno_of d c) nth (data_start m + j) n) as HB.
  { intros k Hk. rewrite (blkno_ext (upd d1 (di_indir c) nb)) by apply Hd. unfold nb.
    rewrite blkno_indirect by (unfold is_u32; lia). unfold bset. destruct (decide (k = nth)); [done|]. by apply blkno_ext. }
  pose proof (bmap_alloc m d _ _ _ j d1 nth Hlo Hmap Ht ltac:(lia) H0) as Hmap1. split_and!; try done.
  - apply (bmap_ext m d1 d' _ (bset (blkno_of d c) nth (data_start m + j))); try done.
    intros k Hk. rewrite Hd. by apply (same_bitmap_data m d1 _ nb Hlo (used_takes m d j d1 _ Hlo Ht Hui)).
  - intros off Hoff. rewrite <-(fget_alloc m d _ _ _ j d1 nth off Hlo Hmap Ht H0 Hoff).
    apply fget_ext; [by apply HB|]. intros _. rewrite Hd. apply upd_ne. by apply (bm_ind _ _ _ _ _ Hmap1).
Qed.

Lemma gives_added m d c nth r c' d' :
  layout m → file_ok m d c → 0 ≤ nth < nmax c → gives m d c nth r c' d' → 0 ≤ r →
  block_added m d c nth r c' d' ∧ used m d' r.
Proof.
  intros Hlo Hfo Hn Hg Hr. pose proof Hfo as [Hwf Hmap _]. destruct Hg as [(H0 & -> & -> & Hd)|[(H0 & j & d1 & Ht & -> & Hp)|(_ & -> & _)]].
  - assert (∀ n, blkno_of d' c n = blkno_of d c n) as HB by (intros n; by apply blkno_ext).
    split; [|apply (used_ext m d); [done|intros k _; apply Hd|by apply (bm_used _ _ _ _ _ Hmap)]]. split_and!; try done.
    + by apply (bmap_ext m d d' _ (blkno_of d c)); [done|intros k _; apply Hd|..].
    + intros n _. unfold bset. destruct (decide (n = nth)) as [->|]; apply HB.
    + intros off _. apply fget_ext; [apply HB|intros _; apply Hd].
  - unfold placed in Hp. change FS_INODE_DIR_DBLKNO with 12 in Hp. pose proof (taken_used m d j d1 Hlo Ht) as Htu.
    destruct (Z.ltb_spec nth 12) as [Hlt|Hge]; destruct Hp as [-> Hd].
    + split; [by eapply added_direct; try done; lia|]. apply (used_ext m d1); [done|intros k _; apply Hd|done].
    + split; [by eapply added_indirect; try done; lia|].
      pose proof (nmax_indir c nth ltac:(lia)) as Hi.
      destruct (bm_ind _ _ _ _ _ Hmap Hi) as [Hui _].
      apply (used_ext m d1); [done| |done]. intros k Hk. rewrite Hd.
      by apply (same_bitmap_data m d1 _ _ Hlo (used_takes m d j d1 _ Hlo Ht Hui)).
  - change ENOSPC with 28 in Hr. lia.
Qed.

(** Writing the bytes [s] into block [nth], which is [r], at [bo]. *)
Lemma block_written m d c nth r bo s d' :
  layout m → file_ok m d c → 0 ≤ nth < nmax c → blkno_of d c nth = r → used m d r →
  0 ≤ bo → bo + Z.of_nat (length s) ≤ FS_BLK_SIZE → (∀ n, d' n = upd d r (put_list (d r) bo s) n) →
  file_ok m d' c ∧ (∀ n, 0 ≤ n < nmax c → blkno_of d' c n = blkno_of d c n) ∧
  ∀ off, 0 ≤ off / FS_BLK_SIZE < nmax c → fget d' (blkno_of d' c) off =
    if decide (nth * FS_BLK_SIZE + bo ≤ off < nth * FS_BLK_SIZE + bo + Z.of_nat (length s))
    then default 0 (s !! Z.to_nat (off - (nth * FS_BLK_SIZE + bo))) else fget d (blkno_of d c) off.
Proof.
  intros Hlo [Hwf Hmap Hden] Hn Hb Hu Hbo Hlen Hd. pose proof (used_range _ _ _ Hlo Hu) as [Hr _].
  assert (∀ n, 0 ≤ n < nmax c → blkno_of d' c n = blkno_of d c n) as HB.
  { intros n Hnn. apply blkno_ext_range; [|done]. intros Hi. rewrite Hd. apply upd_ne.
    destruct (bm_ind _ _ _ _ _ Hmap Hi) as [_ Hne]. specialize (Hne nth Hn). congruence. }
  split_and!; [|done|].
  - split; [done| |].
    + apply (bmap_ext m d d' _ (blkno_of d c)); try done. intros k Hk. rewrite Hd. by apply (same_bitmap_data m d r _ Hlo Hu).
    + intros n H0 Hs. destruct (Hden n H0 Hs) as [? ?]. split; [done|]. by rewrite HB by lia.
  - intros off Hoff. rewrite <-(fget_write m d _ _ _ nth bo s off Hmap Hn) by (lia || done).
    rewrite Hb. apply fget_ext; [by apply HB|]. intros _. apply Hd.
Qed.

(** What a write of the bytes of [l] from [done] to [count] at [offset] does. *)
Definition wrote_all m d c (l : list Z) (done offset count : Z) (res : Z * Z * Z) c' d' : Prop :=
  res = (count, offset + (count - done), 0) ∧ file_ok m d' c' ∧ di_size c' = di_size c ∧ nmax c' = nmax c ∧
  (∀ n, 0 ≤ n < nmax c → done < count → offset / FS_BLK_SIZE ≤ n → n * FS_BLK_SIZE < offset + (count - done) → blkno_of d' c' n ≠ 0) ∧
  (∀ n, 0 ≤ n < nmax c → blkno_of d c n ≠ 0 → blkno_of d' c' n ≠ 0) ∧
  (∀ off, 0 ≤ off / FS_BLK_SIZE < nmax c → fget d' (blkno_of d' c') off =
    if decide (offset ≤ off < offset + (count - done)) then default 0 (l !! Z.to_nat (done + (off - offset)))
    else fget d (blkno_of d c) off).
(** No data block is free. *)
Definition full m d : Prop := ∀ j, 0 ≤ j < nb_dblk m → dbit m d j = true.
Definition wrote_part m (done offset count : Z) (res : Z * Z * Z) d' : Prop :=
  ∃ k, done ≤ k < count ∧ res = (k, offset + (k - done), - ENOSPC) ∧ full m d'.

Lemma gives_full m d c nth r c' d' :
  layout m → file_ok m d c → 0 ≤ nth < nmax c → gives m d c nth r c' d' → r < 0 → r = - ENOSPC ∧ full m d'.
Proof.
  intros Hlo [_ Hmap _] Hn Hg Hr. destruct Hg as [(H0 & -> & _)|[(_ & j & d1 & Ht & -> & _)|(_ & -> & Hall & Hp)]].
  - destruct (used_range _ _ _ Hlo (bm_used _ _ _ _ _ Hmap nth Hn H0)). lia.
  - destruct (used_range _ _ _ Hlo (taken_used m d j d1 Hlo Ht)). lia.
  - split; [done|]. intros j Hj. rewrite (dbit_ext m d' d); [by apply Hall|]. unfold placed in Hp.
    change FS_INODE_DIR_DBLKNO with 12 in Hp. destruct (Z.ltb_spec nth 12); destruct Hp as [_ Hd]; rewrite Hd; [done|].
    pose proof (nmax_indir c nth ltac:(lia)) as Hi. destruct (bm_ind _ _ _ _ _ Hmap Hi) as [Hui _].
    apply (same_bitmap_data m d _ _ Hlo Hui). by apply dbm_blk_range.
Qed.

(** The fields of a file that an allocation leaves well-formed. *)
Lemma added_file_ok m d c nth r c' d' :
  file_ok m d c → 0 ≤ nth < nmax c → used m d' r → layout m → block_added m d c nth r c' d' → file_ok m d' c'.
Proof.
  intros [_ _ Hden] Hn Hu Hlo (Hwf & Hnm & Hsz & Hi & Hmap & HB & _). destruct (used_range _ _ _ Hlo Hu) as [Hr _].
  split; [done|by rewrite Hnm, Hi|]. rewrite Hsz, Hnm. intros n H0 Hs. destruct (Hden n H0 Hs) as [? ?]. split; [done|].
  rewrite HB by lia. unfold bset. destruct (decide (n = nth)); [lia|done].
Qed.

Definition is_bytes (l : list Z) : Prop := Forall (λ x, 0 ≤ x < 256) l.

Lemma fetch_run l done m (s : sys E) :
  0 ≤ done → 0 ≤ m → done + m ≤ Z.of_nat (length l) →
  fetch (KernSrc l) done m s = Done (0, take (Z.to_nat m) (drop (Z.to_nat done) l)) s ∧
  Z.of_nat (length (take (Z.to_nat m) (drop (Z.to_nat done) l))) = m.
Proof.
  intros Hd Hm Hl. assert (Z.of_nat (length (take (Z.to_nat m) (drop (Z.to_nat done) l))) = m) as Hlen.
  { rewrite length_take, length_drop. lia. }
  split; [|done]. unfold fetch. by rewrite Hlen, Z.eqb_refl.
Qed.

(** The part of a round after the block was found. *)
Lemma write_block_runs {A} (k : M (sys E) A) (err : Z → M (sys E) A) (Q : A → sys E → Prop) f e hs dk il i v l done m r bo :
  iat f e hs dk il i v → used (sb f) (lblk f dk) r → is_bytes l → 0 ≤ done → 0 ≤ m → done + m ≤ Z.of_nat (length l) →
  0 ≤ bo → 1 ≤ spare f →
  (∀ s', at_env (s_env s') hs None dk → goes f hs dk il i v (i_content v)
    (upd (lblk f dk) r (put_list (lblk f dk r) bo (take (Z.to_nat m) (drop (Z.to_nat done) l)))) 1 (s_fs s') → runs (k s') Q) →
  runs ((dblk ← bcache_read (u32 r);
    match dblk with
    | None => err (- EIO)
    | Some blk =>
      r ← fetch (KernSrc l) done m;
      if r.1 <? 0 then bcache_release blk;; err r.1 else
      b ← get_buf blk;
      upd_buf blk (cb_set_buf (put_list (cb_buf b) bo r.2));; bcache_mark_dirty blk;; bcache_release blk;; k
    end) (Sys f e)) Q.
Proof.
  intros Hat Hu Hl Hd Hm Hlen Hbo Hsp Hk. pose proof Hat as [He HB Hlo Hno _ Hv].
  destruct (used_range _ _ _ Hlo Hu) as [Hr _]. rewrite (wrap_small 32) by lia.
  assert (blk_ok r) as Hok by (unfold blk_ok; lia).
  apply runs_bind. eapply runs_mono; [apply (read_runs f e hs dk il r He HB Hok); [by apply unheld_none|lia]|].
  intros r' [f1 e1] (blk & e1' & -> & Ee & He1 & Hg). simpl in Ee, He1, Hg. subst e1'.
  destruct (fetch_run l done m (Sys f1 e1) Hd Hm Hlen) as [Hft _]. mstep Hft. cbn [fst snd].
  change (0 <? 0) with false. cbn iota.
  pose proof Hg as (_ & _ & (b & Hb & _ & _ & Hc & _) & _). mstep (get_buf_run blk f1 e1 b Hb). rewrite Hc.
  apply (release_dirty _ _ f f1 e1 hs dk il r blk _ He1 Hg).
  - apply wf_put_list; [by apply (lblk_wf f hs dk il)|]. by apply Forall_take, Forall_drop.
  - intros s' He' Hst. apply Hk; [done|]. by eapply step_goes.
Qed.

(** The arithmetic of a round. *)
Lemma round_arith offset rem K :
  0 ≤ offset → 0 < rem → offset + rem ≤ (offset / 4096 + Z.of_nat K) * 4096 →
  let bo := offset mod 4096 in let m := Z.min rem (4096 - bo) in
  0 ≤ bo ∧ 0 < m ≤ rem ∧ bo + m ≤ 4096 ∧ offset = offset / 4096 * 4096 + bo ∧ (1 ≤ K)%nat ∧
  (rem - m = 0 ∨ (offset + m + (rem - m) ≤ ((offset + m) / 4096 + Z.of_nat (K - 1)) * 4096 ∧ (offset + m) / 4096 = offset / 4096 + 1)) ∧
  offset / 4096 ≤ (offset + m) / 4096.
Proof.
  intros H0 Hr HK bo m. pose proof (Z.div_mod offset 4096 ltac:(lia)) as Hdm. pose proof (Z.mod_pos_bound offset 4096 ltac:(lia)).
  fold bo in Hdm, H. assert (1 ≤ K)%nat as HK1 by lia.
  assert (offset / 4096 ≤ (offset + m) / 4096) as Hle by (apply Z.div_le_mono; lia).
  split_and!; try lia. destruct (decide (rem - m = 0)) as [|Hne]; [by left|right].
  assert (m = 4096 - bo) as Em by lia. assert ((offset + m) / 4096 = offset / 4096 + 1) as ->.
  { symmetry. apply (Z.div_unique _ _ _ 0); lia. }
  lia.
Qed.

Lemma gives_ext m d c nth r c' d1 d2 : (∀ n, d2 n = d1 n) → gives m d c nth r c' d1 → gives m d c nth r c' d2.
Proof.
  intros Hd [(? & ? & ? & Hn)|[(? & j & d0 & ? & ? & Hp)|(? & ? & ? & Hp)]].
  - left. split_and!; try done. intros n. by rewrite Hd.
  - right. left. split; [done|]. exists j, d0. split_and!; try done. revert Hp. unfold placed.
    destruct (_ <? _); intros [? Hn]; (split; [done|]); intros n; by rewrite Hd.
  - right. right. split_and!; try done. revert Hp. unfold placed.
    destruct (_ <? _); intros [? Hn]; (split; [done|]); intros n; by rewrite Hd.
Qed.

(** A round of the write, from the state [d], [c] to [d2], [c2], and the rest of the loop. *)
Lemma wrote_compose m d c c1 d1 d2 c' d' l done offset count res mm :
  let nth := offset / 4096 in let bo := offset mod 4096 in
  let s := take (Z.to_nat mm) (drop (Z.to_nat done) l) in
  file_ok m d c → 0 ≤ nth < nmax c → layout m → block_added m d c nth (blkno_of d1 c1 nth) c1 d1 → used m d1 (blkno_of d1 c1 nth) →
  (∀ n, d2 n = upd d1 (blkno_of d1 c1 nth) (put_list (d1 (blkno_of d1 c1 nth)) bo s) n) →
  0 ≤ done → 0 < mm ≤ count - done → bo + mm ≤ 4096 → 0 ≤ offset → Z.of_nat (length s) = mm →
  (count - done - mm = 0 ∨ (offset + mm) / 4096 = nth + 1) →
  wrote_all m d2 c1 l (done + mm) (offset + mm) count res c' d' → wrote_all m d c l done offset count res c' d'.
Proof.
  intros nth bo s Hfo Hn Hlo Hadd Hu Hd2 Hd0 Hmm Hbo H0 Hls Hnext (-> & Hfo' & Hsz' & Hnm' & Hnz & Hkeep & Hget).
  pose proof (added_file_ok _ _ _ _ _ _ _ Hfo Hn Hu Hlo Hadd) as Hfo1.
  destruct Hadd as (_ & Hnm & Hsz & _ & _ & HB & Hfg).
  destruct (block_written m d1 c1 nth _ bo s d2 Hlo Hfo1 ltac:(lia) eq_refl Hu ltac:(apply Z.mod_pos_bound; lia)
    ltac:(change FS_BLK_SIZE with 4096; lia) Hd2) as (_ & HB2 & Hfg2).
  rewrite Hnm in *. pose proof (Z.div_mod offset 4096 ltac:(lia)) as Hdm. fold nth bo in Hdm.
  destruct (used_range _ _ _ Hlo Hu) as [Hr _]. unfold wrote_all. change FS_BLK_SIZE with 4096 in *.
  split_and!; try done; try congruence; [f_equal; f_equal; lia| | |].
  - intros n Hnn _ Hge Hlt. fold nth in Hge. destruct (decide (n = nth)) as [->|Hne].
    + apply Hkeep; [done|]. rewrite HB2 by done. lia.
    + destruct Hnext as [Hz|Hx]; [lia|]. apply Hnz; [done|lia..].
  - intros n Hnn Hb. apply Hkeep; [done|]. rewrite HB2, HB by done. unfold bset. destruct (decide _); [lia|done].
  - intros off Hoff. rewrite Hget, Hfg2, Hfg by done. replace (nth * 4096 + bo) with offset by lia. rewrite Hls.
    destruct (decide (offset + mm ≤ off < offset + mm + (count - (done + mm)))) as [Hin|Hout].
    + rewrite decide_True by lia. f_equal. f_equal. f_equal. lia.
    + destruct (decide (offset ≤ off < offset + mm)) as [Hin2|Hout2].
      * rewrite decide_True by lia. f_equal. unfold s. rewrite lookup_take_lt, lookup_drop by lia. f_equal. lia.
      * by rewrite decide_False by lia.
Qed.

Lemma write_loop_runs (fuel K : nat) f e hs dk il i v l done offset count :
  iat f e hs dk il i v → file_ok (sb f) (lblk f dk) (i_content v) → is_bytes l → Z.of_nat (length l) = count →
  0 ≤ done ≤ count → 0 ≤ offset → offset + (count - done) ≤ nmax (i_content v) * 4096 →
  (count - done = 0 ∨ offset + (count - done) ≤ (offset / 4096 + Z.of_nat K) * 4096) → (K < fuel)%nat → 4 * Z.of_nat K ≤ spare f →
  runs (inode_write_loop fuel i (KernSrc l) done offset count (Sys f e)) (λ res s', ∃ c' d', at_env (s_env s') hs None dk ∧
    goes f hs dk il i v c' d' (4 * Z.of_nat K) (s_fs s') ∧
    (wrote_all (sb f) (lblk f dk) (i_content v) l done offset count res c' d' ∨ wrote_part (sb f) done offset count res d')).
Proof.
  revert K f e v done offset. induction fuel as [|fuel IH]; intros K f e v done offset Hat Hfo Hl Hlen Hd H0 Hend HK Hf Hsp; [lia|].
  cbn [inode_write_loop]. change FS_BLK_SIZE with 4096. pose proof Hat as [He HB Hlo _ _ _].
  destruct (Z.ltb_spec done count) as [Hlt|Hge].
  2:{ unfold mret, M_ret, runs, wpr. exists (i_content v), (lblk f dk). split_and!; [done|by eapply goes_weaken; [by eapply goes_refl|done|lia]|].
      left. split_and!; try done; [f_equal; f_equal; lia| |].
      - intros n _ Hx. lia.
      - intros off Hoff. by rewrite decide_False by lia. }
  destruct HK as [|HK]; [lia|].
  destruct (round_arith offset (count - done) K H0 ltac:(lia) HK) as (Hbo & Hm & Hbm & Hdm & HK1 & Hnext & Hmono).
  set (bo := offset mod 4096) in *. set (m := Z.min (count - done) (4096 - bo)) in *. set (nth := offset / 4096) in *.
  assert (0 ≤ nth < nmax (i_content v)) as Hn by (split; [by apply Z.div_pos; lia|lia]).
  apply runs_bind. eapply runs_mono; [apply (get_data_runs f e hs dk il i v nth Hat Hfo Hn); lia|].
  intros r [f1 e1] (c1 & d1 & He1 & Hg1 & Hgv). simpl in He1, Hg1.
  assert (∀ n, lblk f1 dk n = d1 n) as Hl1 by apply Hg1.
  apply (gives_ext _ _ _ _ _ _ _ _ Hl1) in Hgv. apply (goes_weaken _ _ _ _ _ _ _ _ (lblk f1 dk) _ 3) in Hg1; [|done|destruct (_ =? 0); lia].
  pose proof (goes_iat _ _ e1 _ _ _ _ _ _ _ _ _ Hat Hg1 He1) as Hat1.
  pose proof Hg1 as (_ & (_ & _ & Esb & _) & _ & Hsp1 & _). simpl in Esb, Hsp1.
  destruct (Z.ltb_spec r 0) as [Hneg|Hpos].
  { destruct (gives_full _ _ _ _ _ _ _ Hlo Hfo Hn Hgv Hneg) as [-> Hfull]. unfold mret, M_ret, runs, wpr.
    exists c1, (lblk f1 dk). split_and!; [done|by eapply goes_weaken; [exact Hg1|done|lia]|]. right. exists done. split_and!; try lia; [|done].
    f_equal. f_equal. lia. }
  destruct (gives_added _ _ _ _ _ _ _ Hlo Hfo Hn Hgv Hpos) as [Hadd Hu].
  pose proof (added_file_ok _ _ _ _ _ _ _ Hfo Hn Hu Hlo Hadd) as Hfo1. rewrite <-Esb in Hfo1, Hu, Hlo.
  assert (r = blkno_of (lblk f1 dk) c1 nth) as Er.
  { destruct Hadd as (_ & _ & _ & _ & _ & HBs & _). rewrite HBs by done. unfold bset. by rewrite decide_True. }
  change (spare (with_islots (<[i:=i_set_content c1 v]> (islots f)) f)) with (spare f) in Hsp1.
  apply (write_block_runs _ (λ x, mret (done, offset, x)) _ f1 e1 hs dk il i (i_set_content c1 v) l done m r bo Hat1 Hu Hl); try lia.
  intros [f2 e2] He2 Hg2. simpl in He2, Hg2.
  pose proof (goes_iat _ _ e2 _ _ _ _ _ _ _ _ _ Hat1 Hg2 He2) as Hat2. change (i_set_content c1 (i_set_content c1 v)) with (i_set_content c1 v) in Hat2.
  set (s := take (Z.to_nat m) (drop (Z.to_nat done) l)) in *.
  assert (Z.of_nat (length s) = m) as Hls by (unfold s; rewrite length_take, length_drop; lia).
  assert (∀ n, lblk f2 dk n = upd (lblk f1 dk) r (put_list (lblk f1 dk r) bo s) n) as Hl2 by apply Hg2.
  pose proof Hadd as (_ & Hnm & _). pose proof (nmax_range (i_content v)) as Hnmr.
  destruct (block_written (sb f1) (lblk f1 dk) c1 nth r bo s (lblk f2 dk) Hlo Hfo1 ltac:(lia) (eq_sym Er) Hu Hbo
    ltac:(change FS_BLK_SIZE with 4096; lia) Hl2) as (Hfo2 & _).
  pose proof Hg2 as (_ & (_ & _ & Esb2 & _) & _ & Hsp2 & _). simpl in Esb2, Hsp2.
  change (spare (with_islots _ f1)) with (spare f1) in Hsp2.
  rewrite (wrap_small 32) by (unfold m, bo in *; lia).
  eapply runs_mono; [apply (IH (K - 1)%nat f2 e2 (i_set_content c1 v) (done + m) (offset + m) Hat2); try done; try lia|].
  - by rewrite Esb2.
  - simpl. rewrite Hnm. lia.
  - intros res s' (c' & d' & He' & Hg' & Hw). exists c', d'. split_and!; [done| |].
    + eapply goes_weaken; [exact (goes_trans _ _ _ _ _ _ _ _ _ _ _ _ _ _ Hg1 (goes_trans _ _ _ _ _ _ _ _ _ _ _ _ _ _ Hg2 Hg'))|done|lia].
    + rewrite Esb2, Esb in Hw. simpl in Hw. destruct Hw as [Hw|(k & Hk & -> & Hfull)].
      * left. rewrite Esb in Hu, Hlo. rewrite Er in Hadd, Hu, Hl2.
        apply (wrote_compose (sb f) (lblk f dk) (i_content v) c1 (lblk f1 dk) (lblk f2 dk) c' d' l done offset count res m); try done; try lia.
      * right. exists k. split_and!; [lia..| |done]. f_equal. f_equal. lia.
Qed.

(** ** The inode table *)

(** The block and the offset of inode [ino]. *)
Definition itab_blk m (ino : Z) : Z := itab_start m + ino / 64.
Definition itab_off (ino : Z) : Z := 64 * (ino mod 64).
Definition ino_ok m (ino : Z) : Prop := 0 ≤ ino < nb_itab m * 64.

Lemma itab_blk_range m ino : layout m → ino_ok m ino → itab_start m ≤ itab_blk m ino < itab_start m + nb_itab m.
Proof.
  intros _ Hi. unfold ino_ok in Hi. unfold itab_blk.
  assert (0 ≤ ino / 64) by (apply Z.div_pos; lia). assert (ino / 64 < nb_itab m) by (apply Z.div_lt_upper_bound; lia). lia.
Qed.
Lemma get_itab_blkno_run m ino : layout m → ino_ok m ino → get_itab_blkno m ino = itab_blk m ino ∧ blk_ok (itab_blk m ino).
Proof.
  intros Hlo Hi. pose proof (itab_blk_range m ino Hlo Hi) as Hr. destruct Hlo as [[? ?] [? ?] [? ?] [? ?] [? ?] _ _].
  unfold get_itab_blkno. change INODES_PER_BLK with 64. change (itab_start m + ino / 64) with (itab_blk m ino).
  rewrite !(wrap_small 32) by lia. destruct (Z.leb_spec (nb_itab m + itab_start m) (itab_blk m ino)); [lia|].
  rewrite sext_small by lia. split; [done|]. unfold blk_ok. lia.
Qed.

(** Storing an inode in the table. *)
Definition stored m d (ino : Z) c : Z → bytes :=
  upd d (itab_blk m ino) (dinode_put (d (itab_blk m ino)) (itab_off ino) c).

Lemma wf_dinode_put b off c : wf_bytes b → wf_bytes (dinode_put b off c).
Proof. intros Hb. unfold dinode_put. by apply wf_le_put, wf_words_put, wf_le_put, wf_le_put, wf_le_put, wf_le_put. Qed.

Lemma mark_dirty_runs f e hs dk il i v :
  iat f e hs dk il i v → ino_ok (sb f) (i_ino v) → 1 ≤ spare f →
  runs (mark_dirty_locked i (Sys f e)) (λ r s', r = 0 ∧ at_env (s_env s') hs None dk ∧
    goes f hs dk il i v (i_content v) (stored (sb f) (lblk f dk) (i_ino v) (i_content v)) 1 (s_fs s')).
Proof.
  intros Hat Hino Hsp. pose proof Hat as [He HB Hlo Hno _ Hv]. unfold mark_dirty_locked.
  mstep (get_slot_run i f e v Hv). mstep (get_sb_run f e).
  destruct (get_itab_blkno_run (sb f) (i_ino v) Hlo Hino) as [-> Hok].
  destruct (Z.ltb_spec (itab_blk (sb f) (i_ino v)) 0) as [|_]; [unfold blk_ok in Hok; lia|].
  rewrite (wrap_small 32) by (unfold blk_ok in Hok; lia).
  apply runs_bind. eapply runs_mono; [apply (read_runs f e hs dk il _ He HB Hok); [by apply unheld_none|lia]|].
  intros r [f1 e1] (blk & e1' & -> & Ee & He1 & Hg). simpl in Ee, He1, Hg. subst e1'.
  pose proof Hg as (_ & _ & (b & Hb & _ & _ & Hc & _) & _ & (Hsl & _) & _). mstep (get_buf_run blk f1 e1 b Hb).
  mstep (get_slot_run i f1 e1 v ltac:(by rewrite Hsl)). unfold get_tab_idx. change INODES_PER_BLK with 64.
  change (SIZEOF_DINODE * (i_ino v mod 64)) with (itab_off (i_ino v)). rewrite Hc.
  apply (release_dirty _ _ f f1 e1 hs dk il _ blk _ He1 Hg).
  - by apply wf_dinode_put, (lblk_wf f hs dk il).
  - intros s' He' Hst. unfold mret, M_ret, runs, wpr. split_and!; [done..|]. by eapply step_goes.
Qed.

(** A change outside the data region and its bitmap does not touch files. *)
Lemma file_ok_meta m d d' c :
  layout m → same_bitmap m d d' → (∀ n, data_start m ≤ n → d' n = d n) → file_ok m d c →
  file_ok m d' c ∧ ∀ off, 0 ≤ off / FS_BLK_SIZE < nmax c → fget d' (blkno_of d' c) off = fget d (blkno_of d c) off.
Proof.
  intros Hlo Hsb Hd [Hwf Hmap Hden].
  assert (∀ n, 0 ≤ n < nmax c → blkno_of d' c n = blkno_of d c n) as HB.
  { intros n Hn. apply blkno_ext_range; [|done]. intros Hi. apply Hd. by apply (bm_ind _ _ _ _ _ Hmap Hi). }
  split; [split; [done| |]|].
  - by apply (bmap_ext m d d' _ (blkno_of d c)).
  - intros n H0 Hs. destruct (Hden n H0 Hs). split; [done|]. by rewrite HB by lia.
  - intros off Hoff. apply fget_ext; [by apply HB|]. intros Hb. apply Hd. by apply (bm_used _ _ _ _ _ Hmap _ Hoff Hb).
Qed.

Lemma stored_meta m d ino c : layout m → ino_ok m ino →
  same_bitmap m d (stored m d ino c) ∧ ∀ n, data_start m ≤ n → stored m d ino c n = d n.
Proof.
  intros Hlo Hi. pose proof (itab_blk_range m ino Hlo Hi). pose proof (lo_itab _ Hlo). pose proof (lo_data _ Hlo).
  unfold stored. split; intros n Hn; apply upd_ne; lia.
Qed.

Lemma file_ok_ext m d d' c : (∀ n, d' n = d n) → file_ok m d c → file_ok m d' c.
Proof.
  intros Hd [Hwf [Hu Hi Hx] Hden]. assert (∀ n, blkno_of d' c n = blkno_of d c n) as HB by (intros n; by apply blkno_ext).
  assert (∀ b, used m d b → used m d' b) as Hus.
  { intros b [Hr Hb]. split; [done|]. by rewrite (dbit_ext m d' d). }
  split; [done|split|].
  - intros n Hn. rewrite HB. intros. by apply Hus, Hu.
  - intros n n' Hn Hn'. rewrite !HB. by apply Hi.
  - intros Hi0. destruct (Hx Hi0) as [? Hne]. split; [by apply Hus|]. intros n Hn. rewrite HB. by apply Hne.
  - intros n. rewrite HB. apply Hden.
Qed.

Lemma wrote_all_ext m d c l done offset count res c' d1 d2 :
  (∀ n, d2 n = d1 n) → wrote_all m d c l done offset count res c' d1 → wrote_all m d c l done offset count res c' d2.
Proof.
  intros Hd (? & ? & ? & ? & Hnz & Hk & Hg). assert (∀ n, blkno_of d2 c' n = blkno_of d1 c' n) as HB by (intros n; by apply blkno_ext).
  split_and!; try done.
  - by apply (file_ok_ext m d1).
  - intros n. rewrite HB. apply Hnz.
  - intros n. rewrite HB. apply Hk.
  - intros off Hoff. rewrite <-Hg by done. apply fget_ext; [apply HB|intros _; apply Hd].
Qed.

(** ** Writing *)

Lemma upd_slot_goes f e hs dk il i v g :
  iat f e hs dk il i v →
  goes f hs dk il i v (g (i_content v)) (lblk f dk) 0
    (with_islots (<[i := on_content g v]> (islots f)) f).
Proof. intros Hat. apply (step_refl (with_islots _ f)), binv_slots, Hat. Qed.

Lemma inode_mark_dirty_runs f e hs dk il i v :
  iat f e hs dk il i v → ino_ok (sb f) (i_ino v) → 1 ≤ spare f →
  runs (inode_mark_dirty i (Sys f e)) (λ r s', r = 0 ∧ at_env (s_env s') hs None dk ∧
    goes f hs dk il i v (i_content v) (stored (sb f) (lblk f dk) (i_ino v) (i_content v)) 1 (s_fs s')).
Proof.
  intros Hat Hino Hsp. unfold inode_mark_dirty. apply runs_bind.
  apply (runs_is_lock (LIno i) f e hs dk _ (ia_env _ _ _ _ _ _ _ Hat) (ia_lock _ _ _ _ _ _ _ Hat)).
  intros e1 He1. simpl. apply mark_dirty_runs; [|done..]. by destruct Hat; split.
Qed.

(** Growing the file: the new size and the table. *)
Definition grown m d c (ino offset : Z) c' d' : Prop :=
  (offset ≤ di_size c ∧ c' = c ∧ d' = d) ∨
  (di_size c < offset ∧ c' = di_set_size offset c ∧ d' = stored m d ino (di_set_size offset c)).

Lemma grow_runs {A} (x : A) f e hs dk il i v offset :
  iat f e hs dk il i v → ino_ok (sb f) (i_ino v) → 1 ≤ spare f →
  runs ((v ← get_slot i;
    (if di_size (i_content v) <? offset then
      upd_slot i (on_content (di_set_size offset));; inode_mark_dirty i;; mret tt
    else mret tt);; mret x) (Sys f e)) (λ y s', y = x ∧ ∃ c' d', at_env (s_env s') hs None dk ∧
    goes f hs dk il i v c' d' 1 (s_fs s') ∧ grown (sb f) (lblk f dk) (i_content v) (i_ino v) offset c' d').
Proof.
  intros Hat Hino Hsp. pose proof Hat as [He HB Hlo _ _ Hv]. mstep (get_slot_run i f e v Hv).
  destruct (Z.ltb_spec (di_size (i_content v)) offset) as [Hlt|Hge].
  - apply runs_bind. mstep (upd_slot_run i (on_content (di_set_size offset)) f e v Hv).
    pose proof (upd_slot_goes f e hs dk il i v (di_set_size offset) Hat) as Hg.
    pose proof (goes_iat _ _ e _ _ _ _ _ _ _ _ _ Hat Hg He) as Hat1.
    apply runs_bind. eapply runs_mono; [by apply (inode_mark_dirty_runs _ e hs dk il i _ Hat1)|].
    intros r s' (_ & He' & Hg'). unfold mret, M_ret, runs, wpr. split; [done|]. eexists _, _. split_and!; [done| |].
    + replace 1 with (0 + 1) by lia. exact (goes_trans _ _ _ _ _ _ _ _ _ _ _ _ _ _ Hg Hg').
    + right. done.
  - unfold mret, M_ret, runs, wpr. simpl. split; [done|]. eexists _, _. split_and!; [done| |by left].
    by eapply goes_weaken; [by eapply goes_refl|done|lia].
Qed.

Definition overwrite (old : list Z) (off : nat) (l : list Z) : list Z := take off old ++ l ++ drop (off + length l) old.

Lemma contents_lookup d c k : 0 ≤ k < di_size c → contents d c !! Z.to_nat k = Some (fget d (blkno_of d c) k).
Proof.
  intros Hk. unfold contents. rewrite list_lookup_fmap, lookup_seq_lt by lia. simpl. do 2 f_equal. lia.
Qed.
Lemma contents_length d c : length (contents d c) = Z.to_nat (di_size c).
Proof. unfold contents. by rewrite length_fmap, length_seq. Qed.

(** The file has grown to hold what was written. *)
Lemma contents_overwrite d c d' c' off l :
  0 ≤ off ≤ di_size c → di_size c' = Z.max (di_size c) (off + Z.of_nat (length l)) →
  (∀ k, 0 ≤ k < di_size c' → fget d' (blkno_of d' c') k =
    if decide (off ≤ k < off + Z.of_nat (length l)) then default 0 (l !! Z.to_nat (k - off)) else fget d (blkno_of d c) k) →
  contents d' c' = overwrite (contents d c) (Z.to_nat off) l.
Proof.
  intros Hoff Hsz Hget. apply list_eq. intros k. unfold overwrite.
  assert (length (take (Z.to_nat off) (contents d c)) = Z.to_nat off) as Hl1 by (rewrite length_take, contents_length; lia).
  destruct (decide (Z.of_nat k < di_size c')) as [Hk|Hk].
  - rewrite <-(Nat2Z.id k), contents_lookup, Hget by lia. rewrite Nat2Z.id.
    destruct (decide (off ≤ Z.of_nat k < off + Z.of_nat (length l))) as [Hin|Hout].
    + rewrite lookup_app_r, Hl1, lookup_app_l by lia. replace (k - Z.to_nat off)%nat with (Z.to_nat (Z.of_nat k - off)) by lia.
      destruct (lookup_lt_is_Some_2 l (Z.to_nat (Z.of_nat k - off)) ltac:(lia)) as [x ->]. done.
    + rewrite <-contents_lookup by lia. rewrite Nat2Z.id. destruct (decide (Z.of_nat k < off)).
      * rewrite lookup_app_l, lookup_take_lt by lia. done.
      * rewrite lookup_app_r, Hl1, lookup_app_r, lookup_drop by lia. f_equal. lia.
  - rewrite !lookup_ge_None_2; [done| |rewrite contents_length; lia].
    rewrite !length_app, Hl1, length_drop, contents_length. lia.
Qed.

(** What a write does to the file. *)
Definition file_written m d c (off : Z) (l : list Z) c' d' : Prop :=
  file_ok m d' c' ∧ di_size c' = Z.max (di_size c) (off + Z.of_nat (length l)) ∧
  contents d' c' = overwrite (contents d c) (Z.to_nat off) l.

Lemma range_blk c off : 0 ≤ off < nmax c * 4096 → 0 ≤ off / FS_BLK_SIZE < nmax c.
Proof.
  change FS_BLK_SIZE with 4096. intros. split; [apply Z.div_pos; lia|apply Z.div_lt_upper_bound; lia].
Qed.

Lemma size_nmax m d c : file_ok m d c → di_size c ≤ nmax c * 4096.
Proof.
  intros Hfo. pose proof (nmax_range c) as Hnr. change FS_INODE_DIR_DBLKNO with 12 in Hnr.
  destruct (decide (di_size c ≤ 0)) as [|Hpos]; [lia|].
  destruct (fo_dense _ _ _ Hfo ((di_size c - 1) / 4096)) as [Hlt _].
  - apply Z.div_pos; lia.
  - change FS_BLK_SIZE with 4096. pose proof (Z.mul_div_le (di_size c - 1) 4096). lia.
  - pose proof (Z.div_mod (di_size c - 1) 4096). pose proof (Z.mod_pos_bound (di_size c - 1) 4096). lia.
Qed.
Lemma size_max m d c : file_ok m d c → di_size c ≤ 1036 * 4096.
Proof. intros Hfo. pose proof (size_nmax m d c Hfo). pose proof (nmax_range c). lia. Qed.

Lemma written_intro m d c l off count c1 d1 ino c2 d2 r1 r2 r3 :
  layout m → file_ok m d c → ino_ok m ino → Z.of_nat (length l) = count → 0 ≤ off ≤ di_size c → off + count ≤ nmax c * 4096 →
  wrote_all m d c l 0 off count (r1, r2, r3) c1 d1 → grown m d1 c1 ino r2 c2 d2 → file_written m d c off l c2 d2.
Proof.
  intros Hlo Hfo Hino Hlen Hoff Hend (Hres & Hfo1 & Hsz & Hnm & Hnz & Hkeep & Hget) Hgr.
  injection Hres as -> -> ->. pose proof (nmax_range c) as Hnr. change FS_BLK_SIZE with 4096 in *.
  pose proof (size_nmax m d c Hfo) as Hszr.
  assert (∀ n, 0 ≤ n → n * 4096 < Z.max (di_size c) (off + count) → n < nmax c ∧ blkno_of d1 c1 n ≠ 0) as Hden.
  { intros n Hn Hlt. destruct (decide (n * 4096 < di_size c)) as [Hs|Hs].
    - destruct (fo_dense _ _ _ Hfo n Hn Hs) as [? ?]. split; [done|]. by apply Hkeep.
    - assert (n < nmax c) by lia. split; [done|]. apply Hnz; [lia..| |lia].
      apply Z.div_le_upper_bound; lia. }
  destruct Hgr as [(Hge & -> & ->)|(Hlt & -> & ->)].
  - split_and!; [done|lia|]. apply contents_overwrite; [done|lia|]. intros k Hk. rewrite Hget by (apply range_blk; lia).
    rewrite Z.sub_0_r, Hlen, Z.add_0_l. done.
  - set (c2 := di_set_size (off + (count - 0)) c1). pose proof (stored_meta m d1 ino c2 Hlo Hino) as [Hsb Hdd].
    assert (file_ok m d1 c2) as Hfo2.
    { destruct Hfo1 as [Hwf1 Hmap1 _]. split; [|done|].
      - destruct Hwf1. split; try done. unfold is_u32. simpl. change FS_INODE_DIR_DBLKNO with 12 in Hnr. lia.
      - intros n Hn Hs. change (nmax c2) with (nmax c1). rewrite Hnm. simpl in Hs. change FS_BLK_SIZE with 4096 in Hs.
        apply Hden; lia. }
    destruct (file_ok_meta m d1 (stored m d1 ino c2) c2 Hlo Hsb Hdd Hfo2) as [Hfo3 Hfg].
    split_and!; [done|simpl; lia|]. apply contents_overwrite; [done|simpl; lia|]. intros k Hk. simpl in Hk.
    assert (0 ≤ k / FS_BLK_SIZE < nmax c1) as Hr by (apply range_blk; rewrite Hnm; lia).
    rewrite Hfg by done. change (blkno_of d1 c2) with (blkno_of d1 c1). rewrite Hget by by rewrite <-Hnm.
    rewrite Z.sub_0_r, Hlen, Z.add_0_l. done.
Qed.

Lemma inode_write_runs f e hs dk il i v l offset :
  iat f e hs dk il i v → file_ok (sb f) (lblk f dk) (i_content v) → ino_ok (sb f) (i_ino v) → is_bytes l →
  0 ≤ offset ≤ di_size (i_content v) → offset + Z.of_nat (length l) ≤ nmax (i_content v) * FS_BLK_SIZE →
  4 * (Z.of_nat (length l) / FS_BLK_SIZE + 2) < spare f →
  runs (inode_write i (KernSrc l) offset (Z.of_nat (length l)) (Sys f e)) (λ r s', ∃ c' d', at_env (s_env s') hs None dk ∧
    goes f hs dk il i v c' d' (4 * (Z.of_nat (length l) / FS_BLK_SIZE + 2) + 1) (s_fs s') ∧
    ((r = Z.of_nat (length l) ∧ file_written (sb f) (lblk f dk) (i_content v) offset l c' d') ∨
     (r < Z.of_nat (length l) ∧ full (sb f) d'))).
Proof.
  set (count := Z.of_nat (length l)). change FS_BLK_SIZE with 4096. intros Hat Hfo Hino Hl Hoff Hend Hsp.
  pose proof Hat as [He HB Hlo _ _ Hv]. pose proof (nmax_range (i_content v)) as Hnr.
  pose proof (Z.div_mod count 4096 ltac:(lia)). pose proof (Z.mod_pos_bound count 4096 ltac:(lia)).
  assert (0 ≤ count / 4096) by (apply Z.div_pos; lia).
  unfold inode_write. mstep (get_slot_run i f e v Hv).
  destruct (Z.ltb_spec (di_size (i_content v)) offset) as [|_]; [lia|]. change FS_MAX_FILE_SIZE with 4243456.
  rewrite (wrap_small 64) by lia. destruct (Z.ltb_spec 4243456 (offset + count)) as [|_]; [lia|].
  set (K := Z.to_nat (count / 4096 + 2)). assert (Z.of_nat K = count / 4096 + 2) as HK by lia.
  apply runs_bind. eapply runs_mono; [apply (write_loop_runs rw_fuel K f e hs dk il i v l 0 offset count); try done; try lia|].
  { right. pose proof (Z.div_mod offset 4096 ltac:(lia)). pose proof (Z.mod_pos_bound offset 4096 ltac:(lia)). lia. }
  { unfold rw_fuel. lia. }
  intros [[done off'] res] [f1 e1] (c1 & d1 & He1 & Hg1 & Hw). simpl in He1, Hg1.
  assert (∀ n, lblk f1 dk n = d1 n) as Hl1 by apply Hg1.
  pose proof (goes_iat _ _ e1 _ _ _ _ _ _ _ _ _ Hat Hg1 He1) as Hat1.
  pose proof Hg1 as (_ & (_ & _ & Esb & _) & _ & Hsp1 & _). simpl in Esb, Hsp1.
  change (spare (with_islots _ f)) with (spare f) in Hsp1.
  eapply runs_mono; [apply (grow_runs (if done =? 0 then res else s64 done) f1 e1 hs dk il i _ off' Hat1)|].
  { by rewrite Esb. } { lia. }
  intros r s' (-> & c2 & d2 & He2 & Hg2 & Hgr). exists c2, d2. split_and!; [done| |].
  { eapply goes_weaken; [exact (goes_trans _ _ _ _ _ _ _ _ _ _ _ _ _ _ Hg1 Hg2)|done|lia]. }
  rewrite Esb in Hgr. destruct Hw as [Hw|(k & Hk & [= -> -> ->] & Hfull)].
  - left. split.
    + destruct Hw as ([= -> _ ->] & _). destruct (Z.eqb_spec count 0); [lia|]. rewrite sext_small; lia.
    + assert (wrote_all (sb f) (lblk f dk) (i_content v) l 0 offset count (done, off', res) c1 (lblk f1 dk)) as Hw' by
        by apply (wrote_all_ext _ _ _ _ _ _ _ _ _ d1).
      by apply (written_intro (sb f) (lblk f dk) (i_content v) l offset count c1 (lblk f1 dk) (i_ino v) c2 d2 done off' res).
  - right. split.
    + destruct (Z.eqb_spec k 0); [change ENOSPC with 28; lia|]. rewrite sext_small; lia.
    + intros j Hj. rewrite (dbit_ext _ d2 (lblk f1 dk)).
      * rewrite (dbit_ext _ _ d1) by apply Hl1. by apply Hfull.
      * destruct Hgr as [(_ & _ & ->)|(_ & _ & ->)]; [done|].
        destruct (stored_meta (sb f) (lblk f1 dk) (i_ino v) (di_set_size (offset + (k - 0)) c1) Hlo Hino) as [Hsm _].
        by apply Hsm, dbm_blk_range.
Qed.

(** ** Reading *)

Lemma deliver_kern done s (st : sys E) : deliver KernDst done s st = Done 0 st.
Proof. done. Qed.

(** The bytes of one round and those of the rest are the bytes of both. *)
Lemma read_chunk d c b offset m rem g :
  let nth := offset / 4096 in let bo := offset mod 4096 in
  0 ≤ offset → 0 ≤ m ≤ rem → bo + m ≤ 4096 → blkno_of d c nth ≠ 0 → b = d (blkno_of d c nth) →
  (∀ k, g k = fget d (blkno_of d c) k) →
  slice b bo (Z.to_nat m) ++ ((λ k, g (offset + m + Z.of_nat k)) <$> seq 0 (Z.to_nat (rem - m))) =
  (λ k, fget d (blkno_of d c) (offset + Z.of_nat k)) <$> seq 0 (Z.to_nat rem).
Proof.
  intros nth bo H0 Hm Hbm Hb -> Hg. replace (Z.to_nat rem) with (Z.to_nat m + Z.to_nat (rem - m))%nat by lia.
  rewrite seq_app, fmap_app. pose proof (Z.div_mod offset 4096 ltac:(lia)) as Hdm. fold nth bo in Hdm.
  assert (0 ≤ bo < 4096) as Hbo by (apply Z.mod_pos_bound; lia). f_equal.
  - unfold slice. apply list_fmap_ext. intros i k Hk. apply lookup_seq in Hk as [-> Hk]. simpl. unfold fget.
    change FS_BLK_SIZE with 4096.
    rewrite <-(Z.div_unique (offset + Z.of_nat i) 4096 nth (bo + Z.of_nat i)) by lia.
    rewrite <-(Z.mod_unique (offset + Z.of_nat i) 4096 nth (bo + Z.of_nat i)) by lia.
    by destruct (Z.eqb_spec (blkno_of d c nth) 0).
  - replace (0 + Z.to_nat m)%nat with (Z.to_nat m + 0)%nat by lia. rewrite <-fmap_add_seq, <-list_fmap_compose. apply list_fmap_ext. intros i k Hk. simpl. rewrite Hg. f_equal. lia.
Qed.

Lemma read_loop_runs (fuel K : nat) f e hs dk il i v done offset count acc :
  iat f e hs dk il i v → file_ok (sb f) (lblk f dk) (i_content v) → 0 ≤ done ≤ count → 0 ≤ offset →
  offset + (count - done) ≤ di_size (i_content v) →
  (count - done = 0 ∨ offset + (count - done) ≤ (offset / 4096 + Z.of_nat K) * 4096) → (K < fuel)%nat → 3 ≤ spare f →
  runs (inode_read_loop fuel i KernDst done offset count acc (Sys f e)) (λ res s', at_env (s_env s') hs None dk ∧
    goes f hs dk il i v (i_content v) (lblk f dk) 0 (s_fs s') ∧
    res = (count, 0, acc ++ ((λ k, fget (lblk f dk) (blkno_of (lblk f dk) (i_content v)) (offset + Z.of_nat k)) <$> seq 0 (Z.to_nat (count - done))))).
Proof.
  revert K f e done offset acc. induction fuel as [|fuel IH]; intros K f e done offset acc Hat Hfo Hd H0 Hend HK Hf Hsp; [lia|].
  cbn [inode_read_loop]. change FS_BLK_SIZE with 4096. pose proof Hat as [He HB Hlo Hno _ _].
  set (c := i_content v) in *. set (d := lblk f dk) in *.
  destruct (Z.ltb_spec done count) as [Hlt|Hge].
  2:{ unfold mret, M_ret, runs, wpr. split_and!; [done|by eapply goes_refl|]. replace (Z.to_nat (count - done)) with 0%nat by lia.
      simpl. rewrite app_nil_r. do 2 f_equal. lia. }
  destruct HK as [|HK]; [lia|].
  destruct (round_arith offset (count - done) K H0 ltac:(lia) HK) as (Hbo & Hm & Hbm & Hdm & HK1 & Hnext & Hmono).
  set (bo := offset mod 4096) in *. set (m := Z.min (count - done) (4096 - bo)) in *. set (nth := offset / 4096) in *.
  assert (0 ≤ nth) as Hn0 by (apply Z.div_pos; lia).
  destruct (fo_dense _ _ _ Hfo nth Hn0 ltac:(change FS_BLK_SIZE with 4096; lia)) as [Hnm Hb0].
  apply runs_bind. eapply runs_mono; [apply (get_data_runs f e hs dk il i v nth Hat Hfo); [done|lia]|].
  intros r [f1 e1] (c1 & d1 & He1 & Hg1 & Hgv). simpl in He1, Hg1.
  destruct Hgv as [(_ & -> & -> & Hd1)|[(Hbz & _)|(Hbz & _)]]; [|by destruct (Hb0 Hbz)..]. fold c d in Hd1, Hg1 |- *.
  pose proof (bm_used _ _ _ _ _ (fo_map _ _ _ Hfo) nth ltac:(lia) Hb0) as Hu. set (r := blkno_of d c nth) in *.
  destruct (used_range _ _ _ Hlo Hu) as [Hr _]. destruct (Z.ltb_spec r 0) as [|_]; [lia|]. rewrite (wrap_small 32 r) by lia.
  assert ((r =? 0) = false) as Er0 by (apply Z.eqb_neq; lia). fold r in Hg1. rewrite Er0 in Hg1.
  pose proof (goes_iat _ _ e1 _ _ _ _ _ _ _ _ _ Hat Hg1 He1) as Hat1. pose proof Hat1 as [_ HB1 _ _ _ _].
  assert (∀ n, lblk f1 dk n = d n) as Hl1 by (intros n; rewrite <-Hd1; apply Hg1).
  pose proof Hg1 as (_ & (_ & _ & Esb & _) & _ & Hsp1 & _). simpl in Esb, Hsp1. change (spare (with_islots _ f)) with (spare f) in Hsp1.
  assert (blk_ok r) as Hok by (unfold blk_ok; lia).
  apply runs_bind. eapply runs_mono; [apply (read_runs f1 e1 hs dk il r He1 HB1 Hok); [by apply unheld_none|lia]|].
  intros r' [f2 e2] (blk & e2' & -> & Ee & He2 & Hg). simpl in Ee, He2, Hg. subst e2'.
  pose proof Hg as (_ & _ & (b & Hb & _ & _ & Hc & _) & _). mstep (get_buf_run blk f2 e2 b Hb).
  mstep (deliver_kern done (slice (cb_buf b) bo (Z.to_nat m)) (Sys f2 e2)). change (0 <? 0) with false. cbn iota.
  apply runs_bind. eapply runs_mono; [by apply (release_clean f1 f2 e2 hs dk il r blk)|].
  intros _ [f3 e3] [He3 Hst3]. simpl in He3, Hst3. change (i_set_content c v) with (on_content (λ _, c) v) in Hat1.
  assert (i_set_content c v = v) as Ev by by destruct v. unfold on_content in Hat1. rewrite Ev in Hat1.
  pose proof (step_goes _ _ _ _ _ _ _ _ _ _ Hat1 Hst3) as Hg3.
  pose proof (goes_iat _ _ e3 _ _ _ _ _ _ _ _ _ Hat1 Hg3 He3) as Hat3. fold c in Hat3, Hg3. rewrite Ev in Hat3.
  assert (∀ n, lblk f3 dk n = d n) as Hl3 by (intros n; rewrite <-Hl1; apply Hst3).
  pose proof Hst3 as (_ & (_ & _ & Esb3 & _) & _ & Hsp3 & _).
  pose proof (nmax_range c) as Hnr. change FS_INODE_DIR_DBLKNO with 12 in Hnr.
  assert (di_size c < 2 ^ 32) as Hszr by apply (dw_size _ (fo_wf _ _ _ Hfo)).
  rewrite (wrap_small 32) by lia.
  eapply runs_mono; [apply (IH (K - 1)%nat f3 e3 (done + m) (offset + m)); try done; try lia|].
  - rewrite Esb3, Esb. by apply (file_ok_ext _ d).
  - intros res s' (He' & Hg' & ->). split_and!; [done| |].
    + apply (goes_weaken _ _ _ _ _ _ _ (lblk f3 dk) _ (0 + (0 + 0))); [|done|lia]. fold c in Hg'.
      replace v with (i_set_content c v) in Hg' at 1 by done.
      refine (goes_trans _ _ _ _ _ _ _ _ _ _ _ _ _ _ Hg1 _). rewrite Ev.
      refine (goes_trans _ _ _ _ _ _ _ _ _ _ _ _ _ _ Hg3 _). by rewrite Ev in Hg' |- *.
    + f_equal. rewrite <-app_assoc. f_equal. replace (count - (done + m)) with (count - done - m) by lia.
      apply (read_chunk d c (cb_buf b) offset m (count - done) (fget (lblk f3 dk) (blkno_of (lblk f3 dk) c))); try done; try lia.
      * by rewrite Hc, Hl1.
      * intros k. apply fget_ext; [by apply blkno_ext|done].
Qed.

Lemma inode_read_runs f e hs dk il i v offset count :
  iat f e hs dk il i v → file_ok (sb f) (lblk f dk) (i_content v) → 0 ≤ offset → 0 ≤ count →
  offset + count ≤ di_size (i_content v) → 3 ≤ spare f →
  runs (inode_read i KernDst offset count (Sys f e)) (λ res s', at_env (s_env s') hs None dk ∧
    goes f hs dk il i v (i_content v) (lblk f dk) 0 (s_fs s') ∧
    res = (count, take (Z.to_nat count) (drop (Z.to_nat offset) (contents (lblk f dk) (i_content v))))).
Proof.
  intros Hat Hfo H0 Hc Hend Hsp. pose proof Hat as [He HB Hlo _ _ Hv]. unfold inode_read. mstep (get_slot_run i f e v Hv).
  pose proof (dw_size _ (fo_wf _ _ _ Hfo)) as Hsz. unfold is_u32 in Hsz. rewrite (wrap_small 64) by lia.
  destruct (Z.ltb_spec (di_size (i_content v)) (offset + count)) as [|_]; [lia|].
  assert (di_size (i_content v) ≤ 1036 * 4096) as Hmax by by apply (size_max (sb f) (lblk f dk)).
  apply runs_bind. eapply runs_mono; [apply (read_loop_runs rw_fuel 1037 f e hs dk il i v 0 offset count []); try done; try lia|].
  - right. pose proof (Z.div_mod offset 4096). pose proof (Z.mod_pos_bound offset 4096). lia.
  - unfold rw_fuel. lia.
  - intros res s' (He' & Hg' & ->). unfold mret, M_ret, runs, wpr. split_and!; [done..|]. f_equal.
    + destruct (Z.eqb_spec count 0); [done|]. apply sext_small; lia.
    + simpl. apply list_eq. intros k. rewrite Z.sub_0_r, list_lookup_fmap. destruct (decide (k < Z.to_nat count)%nat).
      * rewrite lookup_seq_lt, lookup_take_lt, lookup_drop by lia. simpl.
        replace (Z.to_nat offset + k)%nat with (Z.to_nat (offset + Z.of_nat k)) by lia. by rewrite contents_lookup by lia.
      * rewrite lookup_seq_ge, lookup_take_ge by lia. done.
Qed.
End Spec.
