(* ===== verification/Str.v ===== *)
(** * Strings by value

    What string.c computes, on the lists of bytes that C strings stand for
    (without their terminator).  [StringLib] shows that the functions on
    memory compute these. *)

From S2P Require Import Prelude.

(** The bytes before the first one in [delim], and the rest after it. *)
Fixpoint break_at (delim s : list Z) : list Z * option (list Z) :=
  match s with
  | [] => ([], None)
  | c :: s =>
    if bool_decide (c ∈ delim) then ([], Some s)
    else let '(t, r) := break_at delim s in (c :: t, r)
  end.

(** [strsep]: the token and the string that is left. *)
Definition strsep_val (delim : list Z) (h : option (list Z)) : option (list Z) * option (list Z) :=
  match h with
  | None => (None, None)
  | Some s => let '(t, r) := break_at delim s in (Some t, r)
  end.

(** [strtok]: the first token that is not empty. *)
Fixpoint strtok_loop (fuel : nat) (delim : list Z) (h : option (list Z)) : option (list Z) * option (list Z) :=
  match fuel with
  | O => (None, None)
  | S fuel =>
    let '(t, h) := strsep_val delim h in
    match t with
    | Some [] => strtok_loop fuel delim h
    | _ => (t, h)
    end
  end.
Definition strtok_val (delim : list Z) (h : option (list Z)) : option (list Z) * option (list Z) :=
  strtok_loop (S (S (length (default [] h)))) delim h.

(** All the tokens of a string. *)
Fixpoint tokens_loop (fuel : nat) (delim : list Z) (h : option (list Z)) : list (list Z) :=
  match fuel with
  | O => []
  | S fuel =>
    match strtok_val delim h with
    | (Some t, h) => t :: tokens_loop fuel delim h
    | (None, _) => []
    end
  end.
Definition tokens (delim s : list Z) : list (list Z) := tokens_loop (S (length s)) delim (Some s).

(** [strncmp] of two arrays; [None] when it reads past the end of one. *)
Fixpoint strncmp_val (n : nat) (a b : list Z) : option Z :=
  match n with
  | O => Some 0
  | S n =>
    match a, b with
    | x :: a, y :: b => if negb (x - y =? 0) || (x =? 0) then Some (x - y) else strncmp_val n a b
    | _, _ => None
    end
  end.

(** The string an array holds. *)
Fixpoint cstr (a : list Z) : list Z :=
  match a with
  | [] => []
  | x :: a => if x =? 0 then [] else x :: cstr a
  end.
