(* ===== verification/StringLib.v ===== *)
(** * Strings and memory (lib/string.c)

    The library on a memory of bytes: a load or a store of an address that is
    not mapped faults.  Pointers are addresses; 0 is the null pointer.  The
    loops on strings run on at most as many bytes as are mapped. *)

From S2P Require Import Prelude Str.

(** The mapped bytes and the static variable of [strtok]. *)
Record cmem := Cmem { cells : gmap Z Z; tok_holder : Z }.

Definition ld (a : Z) : M cmem Z := s ← get; of_opt (cells s !! a).
Definition st (a v : Z) : M cmem unit :=
  s ← get;
  match cells s !! a with
  | Some _ => modify (λ s, Cmem (<[a := u8 v]> (cells s)) (tok_holder s))
  | None => fault
  end.
(** The bound of the loops that look for a terminator. *)
Definition scan : M cmem nat := s ← get; mret (S (size (cells s))).

(** ** Blocks of memory *)

Fixpoint memccpy (dst src c : Z) (n : nat) : M cmem Z :=
  match n with
  | O => mret 0
  | S n => ch ← ld src; st dst ch;; if ch =? u8 c then mret (dst + 1) else memccpy (dst + 1) (src + 1) c n
  end.

Fixpoint memchr (s c : Z) (n : nat) : M cmem Z :=
  match n with
  | O => mret 0
  | S n => x ← ld s; if x =? u8 c then mret s else memchr (s + 1) c n
  end.

Fixpoint memrchr_loop (sp c : Z) (n : nat) : M cmem Z :=
  match n with
  | O => mret 0
  | S n => x ← ld sp; if x =? u8 c then mret sp else memrchr_loop (sp - 1) c n
  end.
Definition memrchr (s c : Z) (n : nat) : M cmem Z := memrchr_loop (s + Z.of_nat n - 1) c n.

Fixpoint memcmp (s1 s2 : Z) (n : nat) : M cmem Z :=
  match n with
  | O => mret 0
  | S n => x ← ld s1; y ← ld s2; if negb (x - y =? 0) then mret (x - y) else memcmp (s1 + 1) (s2 + 1) n
  end.

Fixpoint copy_up (q p : Z) (n : nat) : M cmem unit :=
  match n with
  | O => mret tt
  | S n => x ← ld p; st q x;; copy_up (q + 1) (p + 1) n
  end.
Fixpoint copy_down (q p : Z) (n : nat) : M cmem unit :=
  match n with
  | O => mret tt
  | S n => x ← ld (p - 1); st (q - 1) x;; copy_down (q - 1) (p - 1) n
  end.
Definition memcpy (dst src : Z) (n : nat) : M cmem Z := copy_up dst src n;; mret dst.
Definition memmove (dst src : Z) (n : nat) : M cmem Z :=
  (if dst <? src then copy_up dst src n else copy_down (dst + Z.of_nat n) (src + Z.of_nat n) n);; mret dst.

Fixpoint set_loop (q c : Z) (n : nat) : M cmem unit :=
  match n with
  | O => mret tt
  | S n => st q c;; set_loop (q + 1) c n
  end.
Definition memset (dst c : Z) (n : nat) : M cmem Z := set_loop dst c n;; mret dst.

Fixpoint memswap (p q : Z) (n : nat) : M cmem unit :=
  match n with
  | O => mret tt
  | S n => x ← ld p; y ← ld q; st p y;; st q x;; memswap (p + 1) (q + 1) n
  end.

(** The search of a needle of one byte, and of a longer one from position [j]. *)
Fixpoint memmem1 (y x : Z) (n : nat) : M cmem Z :=
  match n with
  | O => mret 0
  | S n => a ← ld y; b ← ld x; if a =? b then mret y else memmem1 (y + 1) x n
  end.
Fixpoint memmem_loop (fuel : nat) (y x n m k l j : Z) : M cmem Z :=
  match fuel with
  | O => nofuel
  | S fuel =>
    if j <=? n - m then
      x1 ← ld (x + 1); y1 ← ld (y + j + 1);
      if negb (x1 =? y1) then memmem_loop fuel y x n m k l (j + k) else
      d ← memcmp (x + 2) (y + j + 2) (Z.to_nat (m - 2));
      if d =? 0 then
        x0 ← ld x; y0 ← ld (y + j);
        if x0 =? y0 then mret (y + j) else memmem_loop fuel y x n m k l (j + l)
      else memmem_loop fuel y x n m k l (j + l)
    else mret 0
  end.
Definition memmem (haystack n needle m : Z) : M cmem Z :=
  if (n <? m) || (m =? 0) || (n =? 0) then mret 0 else
  if negb (m =? 1) then
    x0 ← ld needle; x1 ← ld (needle + 1);
    let '(k, l) := if x0 =? x1 then (2, 1) else (1, 2) in
    memmem_loop (S (Z.to_nat n)) haystack needle n m k l 0
  else memmem1 haystack needle (Z.to_nat n).

(** ** Strings *)

Fixpoint strlen_loop (fuel : nat) (ss : Z) : M cmem Z :=
  match fuel with
  | O => nofuel
  | S fuel => x ← ld ss; if x =? 0 then mret ss else strlen_loop fuel (ss + 1)
  end.
Definition strlen (s : Z) : M cmem Z := fuel ← scan; e ← strlen_loop fuel s; mret (e - s).

Fixpoint strnlen_loop (ss : Z) (maxlen : nat) : M cmem Z :=
  match maxlen with
  | O => mret ss
  | S n => x ← ld ss; if x =? 0 then mret ss else strnlen_loop (ss + 1) n
  end.
Definition strnlen (s : Z) (maxlen : nat) : M cmem Z := e ← strnlen_loop s maxlen; mret (e - s).

Fixpoint strchr_loop (fuel : nat) (s c : Z) : M cmem Z :=
  match fuel with
  | O => nofuel
  | S fuel => x ← ld s; if x =? u8 c then mret s else if x =? 0 then mret 0 else strchr_loop fuel (s + 1) c
  end.
Definition strchr (s c : Z) : M cmem Z := fuel ← scan; strchr_loop fuel s c.

Fixpoint strrchr_loop (fuel : nat) (s c found : Z) : M cmem Z :=
  match fuel with
  | O => nofuel
  | S fuel =>
    x ← ld s;
    if x =? 0 then mret found else strrchr_loop fuel (s + 1) c (if x =? u8 c then s else found)
  end.
Definition strrchr (s c : Z) : M cmem Z := fuel ← scan; strrchr_loop fuel s c 0.

Fixpoint strcmp_loop (fuel : nat) (c1 c2 : Z) : M cmem Z :=
  match fuel with
  | O => nofuel
  | S fuel =>
    x ← ld c1; y ← ld c2;
    if negb (x - y =? 0) || (x =? 0) then mret (x - y) else strcmp_loop fuel (c1 + 1) (c2 + 1)
  end.
Definition strcmp (s1 s2 : Z) : M cmem Z := fuel ← scan; strcmp_loop fuel s1 s2.

Fixpoint strncmp (c1 c2 : Z) (n : nat) : M cmem Z :=
  match n with
  | O => mret 0
  | S n =>
    x ← ld c1; y ← ld c2;
    if negb (x - y =? 0) || (x =? 0) then mret (x - y) else strncmp (c1 + 1) (c2 + 1) n
  end.

Fixpoint strcpy_loop (fuel : nat) (q p : Z) : M cmem unit :=
  match fuel with
  | O => nofuel
  | S fuel => ch ← ld p; st q ch;; if ch =? 0 then mret tt else strcpy_loop fuel (q + 1) (p + 1)
  end.
Definition strcpy (dst src : Z) : M cmem Z := fuel ← scan; strcpy_loop fuel dst src;; mret dst.

Definition strcat (dst src : Z) : M cmem Z := e ← strchr dst 0; strcpy e src;; mret dst.

(** The copy of at most [n] bytes up to a terminator: where it stopped and
    what is left of [n]; [None] once the terminator was copied. *)
Fixpoint strncat_loop (q p : Z) (n : nat) : M cmem (option Z) :=
  match n with
  | O => mret (Some q)
  | S n => ch ← ld p; st q ch;; if ch =? 0 then mret None else strncat_loop (q + 1) (p + 1) n
  end.
Definition strncat (dst src : Z) (n : nat) : M cmem Z :=
  q ← strchr dst 0;
  r ← strncat_loop q src n;
  match r with
  | Some q => st q 0;; mret dst
  | None => mret dst
  end.

Fixpoint strlcat_skip (fuel : nat) (q bytes size : Z) : M cmem (Z * Z) :=
  match fuel with
  | O => nofuel
  | S fuel =>
    if bytes <? size then
      x ← ld q; if x =? 0 then mret (q, bytes) else strlcat_skip fuel (q + 1) (bytes + 1) size
    else mret (q, bytes)
  end.
Fixpoint strlcat_copy (fuel : nat) (q p bytes size : Z) : M cmem (Z * Z) :=
  match fuel with
  | O => nofuel
  | S fuel =>
    ch ← ld p;
    if ch =? 0 then mret (q, bytes) else
    if bytes + 1 <? size then st q ch;; strlcat_copy fuel (q + 1) (p + 1) (bytes + 1) size
    else strlcat_copy fuel q (p + 1) (bytes + 1) size
  end.
Definition strlcat (dst src size : Z) : M cmem Z :=
  fuel ← scan;
  r ← strlcat_skip fuel dst 0 size;
  let '(q, bytes) := r in
  if bytes =? size then l ← strlen src; mret (bytes + l) else
  fuel ← scan;
  r ← strlcat_copy fuel q src bytes size;
  let '(q, bytes) := r in
  st q 0;; mret bytes.

Fixpoint strncpy_loop (q p : Z) (n : nat) : M cmem (Z * nat) :=
  match n with
  | O => mret (q, O)
  | S n => ch ← ld p; st q ch;; if ch =? 0 then mret (q + 1, n) else strncpy_loop (q + 1) (p + 1) n
  end.
Definition strncpy (dst src : Z) (n : nat) : M cmem Z :=
  r ← strncpy_loop dst src n; memset r.1 0 r.2;; mret dst.

(** [matchmap] is an array on the stack: the bytes it marks. *)
Fixpoint mark_loop (fuel : nat) (map : Z) (mm : gmap Z Z) : M cmem (gmap Z Z) :=
  match fuel with
  | O => nofuel
  | S fuel => x ← ld map; if x =? 0 then mret mm else mark_loop fuel (map + 1) (<[x := 1]> mm)
  end.
Fixpoint span_loop (fuel : nat) (s : Z) (mm : gmap Z Z) (parity n : Z) : M cmem Z :=
  match fuel with
  | O => nofuel
  | S fuel =>
    x ← ld s;
    if Z.lxor (default 0 (mm !! x)) parity =? 0 then mret n else span_loop fuel (s + 1) mm parity (n + 1)
  end.
Definition __strxspn (s map parity : Z) : M cmem Z :=
  fuel ← scan;
  mm ← mark_loop fuel map ∅;
  span_loop fuel s (<[0 := parity]> mm) parity 0.
Definition strcspn (s reject : Z) : M cmem Z := __strxspn s reject 1.
Definition strspn (s accept : Z) : M cmem Z := __strxspn s accept 0.
Definition strpbrk (s accept : Z) : M cmem Z :=
  n ← __strxspn s accept 1; x ← ld (s + n); if x =? 0 then mret 0 else mret (s + n).

(** The token and the new value of [*stringp]. *)
Definition strsep (stringp delim : Z) : M cmem (Z * Z) :=
  if stringp =? 0 then mret (0, stringp) else
  e ← strpbrk stringp delim;
  if e =? 0 then mret (stringp, 0) else st e 0;; mret (stringp, e + 1).

Definition strstr (haystack needle : Z) : M cmem Z :=
  n ← strlen haystack; m ← strlen needle; memmem haystack n needle m.

Fixpoint strtok_scan (fuel : nat) (delim : Z) : M cmem Z :=
  match fuel with
  | O => nofuel
  | S fuel =>
    s ← get;
    r ← strsep (tok_holder s) delim;
    let '(tok, h) := r in
    modify (λ s, Cmem (cells s) h);;
    if tok =? 0 then mret tok else
    x ← ld tok;
    if x =? 0 then strtok_scan fuel delim else mret tok
  end.
Definition c_strtok (s delim : Z) : M cmem Z :=
  (if s =? 0 then mret tt else modify (λ m, Cmem (cells m) s));;
  fuel ← scan; strtok_scan fuel delim.
