(* ===== verification/StringThm.v ===== *)
(** * The string library is correct

    What the functions of string.c compute, on arrays and strings that lie in
    mapped memory. *)

From S2P Require Import Prelude Str StringLib.

Implicit Types (m : gmap Z Z) (s : cmem).

(** Memory holds bytes. *)
Definition bytes_ok m : Prop := map_Forall (λ _ v, 0 ≤ v < 256) m.
(** The array [l] lies at [a]. *)
Definition arr m (a : Z) (l : list Z) : Prop := ∀ k x, l !! k = Some x → m !! (a + Z.of_nat k) = Some x.
(** The string [t] lies at [a]. *)
Definition str m (a : Z) (t : list Z) : Prop := arr m a (t ++ [0]) ∧ Forall (λ x, x ≠ 0) t.
(** The [n] bytes from [a] on are mapped. *)
Definition mapped m (a n : Z) : Prop := ∀ b, a ≤ b < a + n → is_Some (m !! b).

(** ** Loads and stores *)

Lemma ld_run a v s : cells s !! a = Some v → ld a s = Done v s.
Proof. intros Ha. unfold ld, get, mbind, M_bind. simpl. by rewrite Ha. Qed.
Lemma st_run a v s : is_Some (cells s !! a) → st a v s = Done tt (Cmem (<[a := u8 v]> (cells s)) (tok_holder s)).
Proof. intros [x Ha]. unfold st, get, mbind, M_bind. simpl. by rewrite Ha. Qed.
Lemma scan_run s : scan s = Done (S (size (cells s))) s.
Proof. done. Qed.

Lemma bytes_ok_insert m a v : bytes_ok m → 0 ≤ v < 256 → bytes_ok (<[a := v]> m).
Proof. intros. by apply map_Forall_insert_2. Qed.

Lemma arr_nil m a : arr m a [].
Proof. intros k x Hk. by rewrite lookup_nil in Hk. Qed.
Lemma arr_cons m a x l : arr m a (x :: l) ↔ m !! a = Some x ∧ arr m (a + 1) l.
Proof.
  split.
  - intros Ha. split; [rewrite <-(Ha 0%nat x eq_refl); f_equal; lia|].
    intros k y Hk. rewrite <-(Ha (S k) y Hk). f_equal. lia.
  - intros [Hx Hl] [|k] y Hk; simpl in Hk.
    + injection Hk as ->. rewrite <-Hx. f_equal. lia.
    + rewrite <-(Hl k y Hk). f_equal. lia.
Qed.
Lemma arr_app m a l1 l2 : arr m a (l1 ++ l2) ↔ arr m a l1 ∧ arr m (a + Z.of_nat (length l1)) l2.
Proof.
  revert a. induction l1 as [|x l1 IH]; intros a; simpl.
  - rewrite Z.add_0_r. split; [by intros; split; [apply arr_nil|]|by intros [_ ?]].
  - rewrite !arr_cons, IH. replace (a + 1 + Z.of_nat (length l1)) with (a + Z.of_nat (S (length l1))) by lia. tauto.
Qed.
Lemma arr_ext m m' a l : (∀ b, a ≤ b < a + Z.of_nat (length l) → m' !! b = m !! b) → arr m a l → arr m' a l.
Proof. intros Hm Ha k x Hk. rewrite Hm; [by apply Ha|]. apply lookup_lt_Some in Hk. lia. Qed.
Lemma arr_mapped m a l : arr m a l → mapped m a (Z.of_nat (length l)).
Proof.
  intros Ha b Hb. destruct (lookup_lt_is_Some_2 l (Z.to_nat (b - a)) ltac:(lia)) as [x Hx].
  exists x. rewrite <-(Ha _ _ Hx). f_equal. lia.
Qed.

(** An array takes as many mapped bytes as it is long. *)
Lemma arr_size m a l : arr m a l → (length l ≤ size m)%nat.
Proof.
  intros Ha. rewrite <-size_dom. set (X := list_to_set (C := gset Z) ((λ k, a + Z.of_nat k) <$> seq 0 (length l))).
  assert (size X = length l) as <-.
  { unfold X. rewrite size_list_to_set, length_fmap, length_seq; [done|].
    apply NoDup_fmap_2; [intros i j; lia|apply NoDup_seq]. }
  apply subseteq_size. intros b. unfold X. rewrite elem_of_list_to_set, list_elem_of_fmap.
  intros (k & -> & Hk%elem_of_seq). destruct (lookup_lt_is_Some_2 l k ltac:(lia)) as [x Hx].
  apply elem_of_dom. exists x. by apply Ha.
Qed.

Lemma str_cons m a x t : str m a (x :: t) ↔ m !! a = Some x ∧ x ≠ 0 ∧ str m (a + 1) t.
Proof. unfold str. simpl. rewrite arr_cons, Forall_cons. tauto. Qed.
Lemma str_nil m a : str m a [] ↔ m !! a = Some 0.
Proof. unfold str. simpl. rewrite arr_cons, Forall_nil. split; [tauto|]. intros. split_and!; [done|apply arr_nil|done]. Qed.
Lemma str_size m a t : str m a t → (length t < size m)%nat.
Proof. intros [Ha _]. apply arr_size in Ha. rewrite length_app in Ha. simpl in Ha. lia. Qed.

(** ** Copies *)

Lemma copy_up_run (n : nat) q p s :
  q < p → bytes_ok (cells s) → mapped (cells s) p (Z.of_nat n) → mapped (cells s) q (Z.of_nat n) →
  ∃ m', copy_up q p n s = Done tt (Cmem m' (tok_holder s)) ∧ bytes_ok m' ∧
    ∀ a, m' !! a = if decide (q ≤ a < q + Z.of_nat n) then cells s !! (p + (a - q)) else cells s !! a.
Proof.
  revert q p s. induction n as [|n IH]; intros q p [m h] Hqp Hb Hp Hq; simpl in *.
  { exists m. split_and!; [done..|]. intros a. by rewrite decide_False by lia. }
  destruct (Hp p ltac:(lia)) as [x Hx]. mstep (ld_run p x (Cmem m h) Hx).
  rewrite (bind_Done _ _ _ _ _ (st_run q x (Cmem m h) (Hq q ltac:(lia)))). cbn beta iota. simpl.
  rewrite wrap_small by by apply (Hb p).
  destruct (IH (q + 1) (p + 1) (Cmem (<[q := x]> m) h)) as (m' & Hr & Hb' & Hm'); simpl in *.
  - lia.
  - apply bytes_ok_insert; [done|by apply (Hb p)].
  - intros b Hb0. rewrite lookup_insert_ne by lia. apply Hp. lia.
  - intros b Hb0. rewrite lookup_insert_ne by lia. apply Hq. lia.
  - exists m'. split_and!; [done..|]. intros a. rewrite Hm'. destruct (decide (q ≤ a < q + Z.of_nat (S n))) as [Ha|Ha].
    + destruct (decide (a = q)) as [->|Hne].
      * rewrite decide_False, lookup_insert_eq by lia. replace (p + (q - q)) with p by lia. done.
      * rewrite decide_True, lookup_insert_ne by lia. f_equal. lia.
    + by rewrite decide_False, lookup_insert_ne by lia.
Qed.

Lemma copy_down_run (n : nat) q p s :
  p ≤ q → bytes_ok (cells s) → mapped (cells s) (p - Z.of_nat n) (Z.of_nat n) → mapped (cells s) (q - Z.of_nat n) (Z.of_nat n) →
  ∃ m', copy_down q p n s = Done tt (Cmem m' (tok_holder s)) ∧ bytes_ok m' ∧
    ∀ a, m' !! a = if decide (q - Z.of_nat n ≤ a < q) then cells s !! (p + (a - q)) else cells s !! a.
Proof.
  revert q p s. induction n as [|n IH]; intros q p [m h] Hqp Hb Hp Hq; simpl in *.
  { exists m. split_and!; [done..|]. intros a. by rewrite decide_False by lia. }
  destruct (Hp (p - 1) ltac:(lia)) as [x Hx]. mstep (ld_run (p - 1) x (Cmem m h) Hx).
  rewrite (bind_Done _ _ _ _ _ (st_run (q - 1) x (Cmem m h) (Hq (q - 1) ltac:(lia)))). cbn beta iota. simpl.
  rewrite wrap_small by by apply (Hb (p - 1)).
  destruct (IH (q - 1) (p - 1) (Cmem (<[q - 1 := x]> m) h)) as (m' & Hr & Hb' & Hm'); simpl in *.
  - lia.
  - apply bytes_ok_insert; [done|by apply (Hb (p - 1))].
  - intros b Hb0. rewrite lookup_insert_is_Some. destruct (decide (q - 1 = b)); [by left|]. right. split; [done|]. apply Hp. lia.
  - intros b Hb0. rewrite lookup_insert_is_Some. destruct (decide (q - 1 = b)); [by left|]. right. split; [done|]. apply Hq. lia.
  - exists m'. split_and!; [done..|]. intros a. rewrite Hm'. destruct (decide (q - Z.of_nat (S n) ≤ a < q)) as [Ha|Ha].
    + destruct (decide (a = q - 1)) as [->|Hne].
      * rewrite decide_False, lookup_insert_eq by lia. replace (p + (q - 1 - q)) with (p - 1) by lia. done.
      * rewrite decide_True, lookup_insert_ne by lia. f_equal. lia.
    + by rewrite decide_False, lookup_insert_ne by lia.
Qed.

(** Memmove copies [n] bytes from [src] to [dst] however the two areas
    overlap: afterwards each byte of the destination is the byte the source had
    before the call, and no byte outside the destination has changed. *)
Theorem memmove_overlap (n : nat) dst src s :
  bytes_ok (cells s) → mapped (cells s) src (Z.of_nat n) → mapped (cells s) dst (Z.of_nat n) →
  ∃ m', memmove dst src n s = Done dst (Cmem m' (tok_holder s)) ∧
    ∀ a, m' !! a = if decide (dst ≤ a < dst + Z.of_nat n) then cells s !! (src + (a - dst)) else cells s !! a.
Proof.
  intros Hb Hs Hd. unfold memmove. destruct (Z.ltb_spec dst src) as [Hlt|Hge].
  - destruct (copy_up_run n dst src s Hlt Hb Hs Hd) as (m' & Hr & _ & Hm'). exists m'. by mstep Hr.
  - destruct (copy_down_run n (dst + Z.of_nat n) (src + Z.of_nat n) s) as (m' & Hr & _ & Hm').
    1: lia. 1: done. 1,2: by rewrite Z.add_simpl_r.
    exists m'. mstep Hr. split; [done|]. intros a. rewrite Hm', Z.add_simpl_r. destruct (decide _); [|done]. f_equal. lia.
Qed.

Definition demo_mem : cmem := Cmem (list_to_map (zip (seqZ 100 8) [1; 2; 3; 4; 5; 6; 7; 8])) 0.

Lemma memmove_overlap_witness :
  ∃ m', memmove 102 100 5 demo_mem = Done 102 (Cmem m' 0) ∧ m' !! 104 = Some 3 ∧ m' !! 101 = Some 2.
Proof.
  assert (bytes_ok (cells demo_mem)) as Hb.
  { apply (bool_decide_eq_true_1 (map_Forall (λ _ v, 0 ≤ v < 256) _)). by vm_compute. }
  assert (∀ b, 100 ≤ b < 108 → is_Some (cells demo_mem !! b)) as Hm.
  { intros b Hb0. assert (forallb (λ b, bool_decide (is_Some (cells demo_mem !! b))) (seqZ 100 8) = true) as Hf by by vm_compute.
    rewrite forallb_forall in Hf. specialize (Hf b). rewrite <-list_elem_of_In, elem_of_seqZ in Hf.
    specialize (Hf ltac:(lia)). by apply bool_decide_eq_true_1 in Hf. }
  destruct (memmove_overlap 5 102 100 demo_mem Hb) as (m' & Hr & Hm'); [intros b Hb0; apply Hm; lia..|].
  exists m'. split; [exact Hr|]. rewrite !Hm'. by vm_compute.
Defined.

(** ** Comparisons *)

(** The first difference of two arrays of the same length. *)
Fixpoint diff (l1 l2 : list Z) : Z :=
  match l1, l2 with
  | x :: l1, y :: l2 => if x - y =? 0 then diff l1 l2 else x - y
  | _, _ => 0
  end.

Lemma diff_0 l1 l2 : length l1 = length l2 → diff l1 l2 = 0 ↔ l1 = l2.
Proof.
  revert l2. induction l1 as [|x l1 IH]; intros [|y l2] Hl; try done; simpl in *.
  destruct (Z.eqb_spec (x - y) 0) as [Hd|Hd].
  - rewrite IH by lia. split; [intros ->; f_equal; lia|by intros [= -> ->]].
  - split; [lia|]. intros [= -> ->]. lia.
Qed.

Lemma memcmp_run l1 l2 a b s :
  length l1 = length l2 → arr (cells s) a l1 → arr (cells s) b l2 → memcmp a b (length l1) s = Done (diff l1 l2) s.
Proof.
  revert l2 a b. induction l1 as [|x l1 IH]; intros [|y l2] a b Hl Ha Hb; try done; simpl in *.
  apply arr_cons in Ha as [Hx Ha], Hb as [Hy Hb]. mstep (ld_run a x s Hx). mstep (ld_run b y s Hy).
  destruct (x - y =? 0); [|done]. simpl. apply IH; [lia|done..].
Qed.

(** ** The search of a block of bytes *)

Definition occurs (hay needle : list Z) (j : nat) : Prop := take (length needle) (drop j hay) = needle.

Lemma occurs_iff hay needle j :
  occurs hay needle j ↔ ∀ k x, needle !! k = Some x → hay !! (j + k)%nat = Some x.
Proof.
  unfold occurs. split.
  - intros Ho k x Hk. rewrite <-Ho in Hk. rewrite lookup_take_Some, lookup_drop in Hk. tauto.
  - intros Ho. apply list_eq. intros k. destruct (decide (k < length needle)%nat) as [Hk|Hk].
    + destruct (lookup_lt_is_Some_2 needle k Hk) as [x Hx]. by rewrite lookup_take_lt, lookup_drop, (Ho k x Hx).
    + rewrite lookup_take_ge by lia. symmetry. apply lookup_ge_None_2. lia.
Qed.

(** [r] is the address of the first occurrence, or null when there is none. *)
Definition first_occurrence (hay needle : list Z) (y r : Z) : Prop :=
  (∃ j : nat, r = y + Z.of_nat j ∧ occurs hay needle j ∧ ∀ i, (i < j)%nat → ¬ occurs hay needle i) ∨
  (r = 0 ∧ ∀ i, ¬ occurs hay needle i).

Lemma occurs_range hay needle i : needle ≠ [] → occurs hay needle i → (i + length needle ≤ length hay)%nat.
Proof.
  intros Hn Ho. assert (length (take (length needle) (drop i hay)) = length needle) as Hl by by rewrite Ho.
  rewrite length_take, length_drop in Hl. assert (length needle ≠ 0)%nat by by rewrite length_zero_iff_nil. lia.
Qed.

(** The tests of one round decide whether the needle is at [j]. *)
Lemma occurs_round x0 x1 rest hay (j : nat) y0 y1 :
  hay !! j = Some y0 → hay !! S j = Some y1 →
  occurs hay (x0 :: x1 :: rest) j ↔ x0 = y0 ∧ x1 = y1 ∧ take (length rest) (drop (S (S j)) hay) = rest.
Proof.
  intros H0 H1. unfold occurs. rewrite (drop_S _ _ _ H0), (drop_S _ _ _ H1). simpl. split.
  - intros [= -> -> ?]. done.
  - by intros (-> & -> & ->).
Qed.

Section Search.
Context (y x : Z) (hay : list Z) (x0 x1 : Z) (rest : list Z) (s : cmem).
Context (Hy : arr (cells s) y hay) (Hx : arr (cells s) x (x0 :: x1 :: rest)).
Let needle : list Z := x0 :: x1 :: rest.
Let k : Z := if x0 =? x1 then 2 else 1.
Let l : Z := if x0 =? x1 then 1 else 2.

Lemma memmem_loop_run (fuel j : nat) :
  (length needle ≤ length hay)%nat → (length hay < fuel + j)%nat → (j ≤ length hay - length needle + 2)%nat →
  (∀ i, (i < j)%nat → ¬ occurs hay needle i) →
  ∃ r, memmem_loop fuel y x (Z.of_nat (length hay)) (Z.of_nat (length needle)) k l (Z.of_nat j) s = Done r s ∧
    first_occurrence hay needle y r.
Proof.
  intros Hlen. revert j. induction fuel as [|fuel IH]; intros j Hf Hjb Hno.
  { simpl in *. lia. }
  cbn [memmem_loop]. destruct (Z.leb_spec (Z.of_nat j) (Z.of_nat (length hay) - Z.of_nat (length needle))) as [Hj|Hj].
  2:{ exists 0. split; [done|]. right. split; [done|]. intros i Ho. apply (Hno i); [|done].
      apply occurs_range in Ho; [|done]. lia. }
  assert (2 ≤ length needle)%nat as H2 by (simpl; lia).
  destruct (lookup_lt_is_Some_2 hay j) as [y0 E0]; [lia|]. destruct (lookup_lt_is_Some_2 hay (S j)) as [y1 E1]; [lia|].
  apply arr_cons in Hx as [Hx0 [Hx1 Hxr]%arr_cons]. mstep (ld_run (x + 1) x1 s Hx1).
  assert (cells s !! (y + Z.of_nat j + 1) = Some y1) as Hy1 by (rewrite <-(Hy _ _ E1); f_equal; lia).
  mstep (ld_run _ y1 s Hy1). pose proof (occurs_round x0 x1 rest hay j y0 y1 E0 E1) as Hocc. fold needle in Hocc.
  assert (∀ y2, hay !! S (S j) = Some y2 → occurs hay needle (S j) ↔ x0 = y1 ∧ x1 = y2 ∧ take (length rest) (drop (S (S (S j))) hay) = rest)
    as Hnext by (intros y2 E2; by apply occurs_round).
  assert (occurs hay needle (S j) → x0 = y1) as Hskip.
  { intros Ho. pose proof (occurs_range hay needle (S j) ltac:(done) Ho).
    destruct (lookup_lt_is_Some_2 hay (S (S j))) as [y2 E2]; [lia|]. by apply (Hnext y2 E2) in Ho as [-> _]. }
  (* going on by a step that passes no occurrence *)
  assert (∀ st : Z, st = 1 ∨ (st = 2 ∧ x0 ≠ y1) → ¬ occurs hay needle j →
    ∃ r, memmem_loop fuel y x (Z.of_nat (length hay)) (Z.of_nat (length needle)) k l (Z.of_nat j + st) s = Done r s ∧
      first_occurrence hay needle y r) as Hgo.
  { intros st Hst Hnj. replace (Z.of_nat j + st) with (Z.of_nat (j + Z.to_nat st)) by lia. apply IH; [lia..|].
    intros i Hi. destruct (decide (i < j)%nat); [by apply Hno|]. destruct (decide (i = j)) as [->|]; [done|].
    assert (i = S j) as -> by lia. intros Ho. apply Hskip in Ho. destruct Hst as [->|[_ ?]]; [lia|done]. }
  destruct (Z.eqb_spec x1 y1) as [->|Hne]; cbn [negb].
  2:{ apply Hgo; [unfold k; destruct (Z.eqb_spec x0 x1) as [->|]; [right; done|by left]|]. rewrite Hocc. tauto. }
  set (seg := take (length rest) (drop (S (S j)) hay)).
  assert (length seg = length rest) as Hseg.
  { unfold seg. rewrite length_take, length_drop. simpl in *. lia. }
  assert (arr (cells s) (y + Z.of_nat j + 2) seg) as Hys.
  { intros i z Hz. unfold seg in Hz. apply lookup_take_Some in Hz as [Hz _]. rewrite lookup_drop in Hz.
    rewrite <-(Hy _ _ Hz). f_equal. lia. }
  replace (Z.to_nat (Z.of_nat (length needle) - 2)) with (length rest) by (simpl; lia).
  replace (x + 1 + 1) with (x + 2) in Hxr by lia.
  mstep (memcmp_run rest seg (x + 2) (y + Z.of_nat j + 2) s ltac:(lia) Hxr Hys).
  assert (¬ occurs hay needle j → ∃ r, memmem_loop fuel y x (Z.of_nat (length hay)) (Z.of_nat (length needle)) k l (Z.of_nat j + l) s
    = Done r s ∧ first_occurrence hay needle y r) as Hgo2.
  { intros Hnj. apply Hgo; [|done]. unfold l. destruct (Z.eqb_spec x0 y1); [by left|by right]. }
  destruct (Z.eqb_spec (diff rest seg) 0) as [Hd|Hd].
  - apply diff_0 in Hd; [|lia]. mstep (ld_run x x0 s Hx0).
    mstep (ld_run (y + Z.of_nat j) y0 s (Hy _ _ E0)). destruct (Z.eqb_spec x0 y0) as [->|Hne].
    + eexists. split; [done|]. left. exists j. split_and!; [done| |done]. apply Hocc. done.
    + apply Hgo2. rewrite Hocc. tauto.
  - apply Hgo2. rewrite Hocc. intros (_ & _ & Hr). apply Hd, diff_0; [lia|]. done.
Qed.
End Search.

Lemma memmem1_run y x c hay s (n : nat) j :
  arr (cells s) y hay → cells s !! x = Some c → (j + n = length hay)%nat → (∀ i, (i < j)%nat → ¬ occurs hay [c] i) →
  ∃ r, memmem1 (y + Z.of_nat j) x n s = Done r s ∧ first_occurrence hay [c] y r.
Proof.
  intros Hy Hx. revert j. induction n as [|n IH]; intros j Hl Hno; cbn [memmem1].
  { exists 0. split; [done|]. right. split; [done|]. intros i Ho. apply (Hno i); [|done].
    apply occurs_range in Ho; [|done]. simpl in Ho. lia. }
  destruct (lookup_lt_is_Some_2 hay j) as [z Ez]; [lia|]. mstep (ld_run _ z s (Hy _ _ Ez)). mstep (ld_run x c s Hx).
  assert (occurs hay [c] j ↔ z = c) as Hocc.
  { unfold occurs. rewrite (drop_S _ _ _ Ez). simpl. rewrite take_0. split; [by intros [= ->]|by intros ->]. }
  destruct (Z.eqb_spec z c) as [->|Hne].
  - eexists. split; [done|]. left. exists j. split_and!; [done|by apply Hocc|done].
  - replace (y + Z.of_nat j + 1) with (y + Z.of_nat (S j)) by lia. apply IH; [lia|].
    intros i Hi. destruct (decide (i = j)) as [->|]; [by rewrite Hocc|]. apply Hno. lia.
Qed.

(** C37: memmem, the "not so naive" search that skips two bytes when it can,
    returns what the plain search does: the address of the first occurrence of
    a non-empty needle in the haystack, or NULL when it does not occur. *)
Theorem memmem_first_occurrence hay needle y x s :
  arr (cells s) y hay → arr (cells s) x needle → needle ≠ [] →
  ∃ r, memmem y (Z.of_nat (length hay)) x (Z.of_nat (length needle)) s = Done r s ∧ first_occurrence hay needle y r.
Proof.
  intros Hy Hx Hne. unfold memmem.
  destruct (Z.ltb_spec (Z.of_nat (length hay)) (Z.of_nat (length needle))) as [Hlt|Hge].
  { exists 0. split; [done|]. right. split; [done|]. intros i Ho. apply occurs_range in Ho; [lia|done]. }
  destruct needle as [|x0 [|x1 rest]]; [done| |].
  - destruct hay as [|z hay]; [simpl in *; lia|]. apply arr_cons in Hx as [Hx _]. simpl (Z.of_nat (length [x0])).
    destruct (memmem1_run y x x0 (z :: hay) s (length (z :: hay)) 0 Hy Hx) as (r & Hr & Hf); [done|lia|].
    exists r. split; [|done]. rewrite Z.add_0_r in Hr. by rewrite <-Hr, Nat2Z.id.
  - destruct (memmem_loop_run y x hay x0 x1 rest s Hy Hx (S (Z.to_nat (Z.of_nat (length hay)))) 0) as (r & Hr & Hf); [lia..|].
    exists r. split; [|done]. rewrite <-Hr. apply arr_cons in Hx as [Hx0 [Hx1 _]%arr_cons].
    assert (2 ≤ length (x0 :: x1 :: rest))%nat by (cbn; lia).
    destruct (Z.eqb_spec (Z.of_nat (length (x0 :: x1 :: rest))) 0) as [|_]; [lia|].
    destruct (Z.eqb_spec (Z.of_nat (length hay)) 0) as [|_]; [lia|].
    destruct (Z.eqb_spec (Z.of_nat (length (x0 :: x1 :: rest))) 1) as [|_]; [lia|]. cbn [orb negb].
    mstep (ld_run x x0 s Hx0). mstep (ld_run (x + 1) x1 s Hx1). by destruct (x0 =? x1).
Qed.

Definition search_mem : cmem :=
  Cmem (list_to_map (zip (seqZ 100 8) [1; 1; 2; 1; 1; 3; 9; 9]) ∪ list_to_map (zip (seqZ 200 3) [1; 1; 3])) 0.
Definition arrb (m : gmap Z Z) (a : Z) (l : list Z) : bool :=
  forallb (λ p, bool_decide (m !! p.1 = Some p.2)) (zip (seqZ a (Z.of_nat (length l))) l).
Lemma arrb_arr m a l : arrb m a l = true → arr m a l.
Proof.
  unfold arrb. revert a. induction l as [|x l IH]; intros a Hf; [apply arr_nil|]. apply arr_cons.
  change (length (x :: l)) with (S (length l)) in Hf. rewrite Nat2Z.inj_succ, seqZ_cons in Hf by lia. simpl in Hf.
  rewrite Z.pred_succ in Hf. apply andb_true_iff in Hf as [H1 H2]. apply bool_decide_eq_true_1 in H1.
  split; [done|]. apply IH. by rewrite <-Z.add_1_r in H2.
Qed.

Lemma memmem_first_occurrence_witness :
  ∃ r, memmem 100 8 200 3 search_mem = Done r search_mem ∧ r = 103.
Proof.
  destruct (memmem_first_occurrence [1; 1; 2; 1; 1; 3; 9; 9] [1; 1; 3] 100 200 search_mem) as (r & Hr & _).
  - apply arrb_arr. by vm_compute.
  - apply arrb_arr. by vm_compute.
  - done.
  - exists r. split; [exact Hr|]. assert (memmem 100 8 200 3 search_mem = Done 103 search_mem) as E by (vm_compute; reflexivity).
    pose proof (eq_trans (eq_sym Hr) E) as Heq. by injection Heq.
Defined.

(** ** Comparison of strings *)

Fixpoint str_diff (t1 t2 : list Z) : Z :=
  match t1, t2 with
  | [], [] => 0
  | [], y :: _ => - y
  | x :: _, [] => x
  | x :: t1, y :: t2 => if x =? y then str_diff t1 t2 else x - y
  end.

(** The order of the dictionary. *)
Definition lex_lt (t1 t2 : list Z) : Prop :=
  ∃ p, (∃ y r, t1 = p ∧ t2 = p ++ y :: r) ∨ (∃ x y r1 r2, t1 = p ++ x :: r1 ∧ t2 = p ++ y :: r2 ∧ x < y).

Lemma lex_lt_cons x t1 t2 : lex_lt (x :: t1) (x :: t2) ↔ lex_lt t1 t2.
Proof.
  split.
  - intros ([|z p] & [(y & r & E1 & E2)|(a & b & r1 & r2 & E1 & E2 & Hab)]); simpl in *; simplify_eq; try lia.
    + exists p. left. by eexists _, _.
    + exists p. right. by eexists _, _, _, _.
  - intros (p & [(y & r & -> & ->)|(a & b & r1 & r2 & -> & -> & Hab)]); exists (x :: p).
    + left. by eexists _, _.
    + right. by eexists _, _, _, _.
Qed.
Lemma lex_lt_head x y t1 t2 : x ≠ y → lex_lt (x :: t1) (y :: t2) ↔ x < y.
Proof.
  intros Hne. split.
  - intros ([|z p] & [(? & ? & E1 & E2)|(a & b & r1 & r2 & E1 & E2 & Hab)]); simpl in *; by simplify_eq.
  - intros Hlt. exists []. right. by eexists _, _, _, _.
Qed.
Lemma lex_lt_nil t2 : lex_lt [] t2 ↔ t2 ≠ [].
Proof.
  split.
  - intros ([|z p] & [(? & ? & E1 & E2)|(a & b & r1 & r2 & E1 & E2 & Hab)]); simpl in *; by simplify_eq.
  - destruct t2 as [|y r]; [done|]. intros _. exists []. left. by eexists _, _.
Qed.
Lemma lex_lt_nil_r t1 : ¬ lex_lt t1 [].
Proof. intros (p & [(? & ? & E1 & E2)|(a & b & r1 & r2 & E1 & E2 & Hab)]); by destruct p. Qed.

Lemma str_diff_lex t1 t2 : Forall (λ x, 0 < x) t1 → Forall (λ x, 0 < x) t2 →
  (str_diff t1 t2 = 0 ↔ t1 = t2) ∧ (str_diff t1 t2 < 0 ↔ lex_lt t1 t2).
Proof.
  intros H1. revert t2. induction H1 as [|x t1 Hx H1 IH]; intros [|y t2] H2; simpl.
  - split; [done|]. rewrite lex_lt_nil. naive_solver lia.
  - apply Forall_cons in H2 as [Hy _]. rewrite lex_lt_nil. split; (split; [try lia; done|]); [done|lia].
  - split; (split; [lia|]); [done|]. intros []%lex_lt_nil_r.
  - apply Forall_cons in H2 as [Hy H2]. destruct (Z.eqb_spec x y) as [->|Hne].
    + rewrite lex_lt_cons. destruct (IH t2 H2) as [-> ->]. split; [|done]. split; [by intros ->|by intros [= ->]].
    + rewrite lex_lt_head by done. split; [|lia]. split; [lia|]. by intros [= -> _].
Qed.

Lemma strcmp_loop_run (fuel : nat) t1 t2 a b s :
  (length t1 < fuel)%nat → str (cells s) a t1 → str (cells s) b t2 → strcmp_loop fuel a b s = Done (str_diff t1 t2) s.
Proof.
  revert t1 t2 a b. induction fuel as [|fuel IH]; intros t1 t2 a b Hf Ha Hb; [lia|]. cbn [strcmp_loop].
  destruct t1 as [|x t1], t2 as [|y t2]; rewrite ?str_nil, ?str_cons in Ha; rewrite ?str_nil, ?str_cons in Hb.
  - mstep (ld_run a 0 s Ha). by mstep (ld_run b 0 s Hb).
  - destruct Hb as (Hb & Hy & _). mstep (ld_run a 0 s Ha). mstep (ld_run b y s Hb).
    rewrite orb_true_r. simpl. by rewrite Z.sub_0_l.
  - destruct Ha as (Ha & Hx & _). mstep (ld_run a x s Ha). mstep (ld_run b 0 s Hb). rewrite Z.sub_0_r.
    by destruct (Z.eqb_spec x 0).
  - destruct Ha as (Ha & Hx & Ha'), Hb as (Hb & Hy & Hb'). mstep (ld_run a x s Ha). mstep (ld_run b y s Hb).
    simpl. destruct (Z.eqb_spec x 0) as [|_]; [done|]. destruct (Z.eqb_spec (x - y) 0), (Z.eqb_spec x y); try lia; [|done].
    apply IH; [simpl in Hf; lia|done..].
Qed.

(** Strcmp terminates on any two strings and orders them as the dictionary
    does on unsigned bytes: the result is zero exactly for equal strings and
    negative exactly when the first comes before the second. *)
Theorem strcmp_lexicographic t1 t2 a b s :
  bytes_ok (cells s) → str (cells s) a t1 → str (cells s) b t2 →
  ∃ d, strcmp a b s = Done d s ∧ (d = 0 ↔ t1 = t2) ∧ (d < 0 ↔ lex_lt t1 t2).
Proof.
  intros Hok Ha Hb. exists (str_diff t1 t2). split.
  - unfold strcmp. mstep (scan_run s). apply strcmp_loop_run; [|done..]. apply str_size in Ha. lia.
  - assert (∀ c t, str (cells s) c t → Forall (λ x, 0 < x) t) as Hpos.
    { intros c t [Hc Hn]. apply Forall_forall. intros x Hx. rewrite Forall_forall in Hn. specialize (Hn x Hx).
      apply list_elem_of_lookup in Hx as [k Hk]. specialize (Hc k x ltac:(by apply lookup_app_l_Some)).
      apply (Hok (c + Z.of_nat k)) in Hc. lia. }
    by apply str_diff_lex; [apply (Hpos a)|apply (Hpos b)].
Qed.

Definition two_strings : cmem :=
  Cmem (list_to_map (zip (seqZ 100 4) [97; 98; 200; 0]) ∪ list_to_map (zip (seqZ 200 3) [97; 99; 0])) 0.
Definition strb (m : gmap Z Z) (a : Z) (t : list Z) : bool := arrb m a (t ++ [0]) && forallb (λ x, negb (x =? 0)) t.
Lemma strb_str m a t : strb m a t = true → str m a t.
Proof.
  unfold strb. rewrite andb_true_iff, forallb_forall. intros [Ha Hf]. split; [by apply arrb_arr|].
  apply Forall_forall. intros x Hx ->. specialize (Hf 0 ltac:(by apply list_elem_of_In)). done.
Qed.

Lemma strcmp_lexicographic_witness : ∃ d, strcmp 100 200 two_strings = Done d two_strings ∧ d < 0.
Proof.
  destruct (strcmp_lexicographic [97; 98; 200] [97; 99] 100 200 two_strings) as (d & Hd & _ & Hlt).
  - apply (bool_decide_eq_true_1 (map_Forall (λ _ v, 0 ≤ v < 256) _)). by vm_compute.
  - apply strb_str. by vm_compute.
  - apply strb_str. by vm_compute.
  - exists d. split; [exact Hd|]. apply Hlt. exists [97]. right. exists 98, 99, [200], []. split_and!; [reflexivity..|lia].
Defined.
