(* ===== verification/StrtokThm.v ===== *)
(** * Tokens

    [strtok] on memory splits the string in place; on the contents it is
    [Str.strtok_val], which the file system uses for paths. *)

From S2P Require Import Prelude Str StringLib StringThm.

Implicit Types (m : gmap Z Z) (delim t w : list Z).

(** ** On lists *)

Lemma break_at_spec delim t :
  let '(p, r) := break_at delim t in Forall (λ c, c ∉ delim) p ∧
  match r with Some r => ∃ c, c ∈ delim ∧ t = p ++ c :: r | None => t = p end.
Proof.
  induction t as [|c t IH]; simpl; [done|]. case_bool_decide as Hc.
  - split; [done|]. by exists c.
  - destruct (break_at delim t) as [p r]. destruct IH as [Hp Hr]. split; [by apply Forall_cons|].
    destruct r as [r|]; [|by rewrite Hr]. destruct Hr as (d & Hd & ->). by exists d.
Qed.

(** What a call of [strtok] takes off the string [t]: delimiters, a token, and
    the delimiter after it if there is one. *)
Definition takes_token delim t (tok h : option (list Z)) : Prop :=
  match tok with
  | None => Forall (λ c, c ∈ delim) t ∧ h = None
  | Some w => w ≠ [] ∧ Forall (λ c, c ∉ delim) w ∧ ∃ pre, Forall (λ c, c ∈ delim) pre ∧
      match h with Some r => ∃ c, c ∈ delim ∧ t = pre ++ w ++ c :: r | None => t = pre ++ w end
  end.

Lemma strtok_loop_spec (fuel : nat) delim t :
  (length t + 2 ≤ fuel)%nat → takes_token delim t (strtok_loop fuel delim (Some t)).1 (strtok_loop fuel delim (Some t)).2.
Proof.
  revert t. induction fuel as [|fuel IH]; intros t Hf; [lia|]. simpl.
  pose proof (break_at_spec delim t) as Hb. destruct (break_at delim t) as [p r]. destruct Hb as [Hp Hr].
  destruct p as [|x p].
  - destruct r as [r|].
    + destruct Hr as (c & Hc & ->). simpl in Hf. specialize (IH r ltac:(lia)).
      destruct (strtok_loop fuel delim (Some r)) as [[w|] h]; simpl in *.
      * destruct IH as (Hw & Hwd & pre & Hpre & Hh). split_and!; [done..|]. exists (c :: pre).
        split; [by apply Forall_cons|]. destruct h as [h|]; [|by rewrite Hh]. destruct Hh as (d & Hd & ->). by exists d.
      * destruct IH as [Hall ->]. split; [by apply Forall_cons|done].
    + simpl in *. subst t. destruct fuel as [|fuel]; [simpl in Hf; lia|]. done.
  - simpl. split_and!; [done..|]. exists []. split; [done|]. destruct r as [r|]; [|done]. by destruct Hr as (c & ? & ->); exists c.
Qed.

(** ** On memory *)

(** The set of delimiters, as [__strxspn] builds it. *)
Definition marks (mm : gmap Z Z) delim : Prop := ∀ x, default 0 (mm !! x) = if bool_decide (x ∈ delim) then 1 else 0.

Lemma mark_loop_run (fuel : nat) delim d mm pre s :
  (length delim < fuel)%nat → str (cells s) d delim → marks mm pre →
  ∃ mm', mark_loop fuel d mm s = Done mm' s ∧ marks mm' (pre ++ delim).
Proof.
  revert delim d mm pre. induction fuel as [|fuel IH]; intros delim d mm pre Hf Hd Hm; [lia|]. cbn [mark_loop].
  destruct delim as [|x delim].
  - apply str_nil in Hd. mstep (ld_run d 0 s Hd). exists mm. by rewrite app_nil_r.
  - apply str_cons in Hd as (Hx & Hn & Hd). mstep (ld_run d x s Hx). destruct (Z.eqb_spec x 0) as [|_]; [done|].
    destruct (IH delim (d + 1) (<[x := 1]> mm) (pre ++ [x])) as (mm' & Hr & Hm'); [simpl in Hf; lia|done| |].
    + intros y. rewrite lookup_insert. destruct (decide (x = y)) as [->|Hne].
      * simpl. by rewrite bool_decide_true by set_solver.
      * rewrite Hm. do 2 case_bool_decide; set_solver.
    + exists mm'. split; [done|]. by rewrite <-app_assoc in Hm'.
Qed.

Lemma span_loop_run (fuel : nat) delim t a mm n s :
  (length t < fuel)%nat → str (cells s) a t → marks mm (0 :: delim) →
  span_loop fuel a mm 1 n s = Done (n + Z.of_nat (length (break_at delim t).1)) s.
Proof.
  revert t a n. induction fuel as [|fuel IH]; intros t a n Hf Ha Hm; [lia|]. cbn [span_loop].
  destruct t as [|x t].
  - apply str_nil in Ha. mstep (ld_run a 0 s Ha). rewrite Hm, bool_decide_true by set_solver. simpl. by rewrite Z.add_0_r.
  - apply str_cons in Ha as (Hx & Hn & Ha). mstep (ld_run a x s Hx). rewrite Hm. simpl.
    case_bool_decide as H1; case_bool_decide as H2; try (exfalso; set_solver).
    + simpl. by rewrite Z.add_0_r.
    + change (Z.lxor 0 1 =? 0) with false. cbn iota. rewrite (IH t) by (done || (simpl in Hf; lia)).
      destruct (break_at delim t) as [p r]. simpl. f_equal. lia.
Qed.

Lemma strxspn_run delim t a d s :
  str (cells s) a t → str (cells s) d delim →
  __strxspn a d 1 s = Done (Z.of_nat (length (break_at delim t).1)) s.
Proof.
  intros Ha Hd. unfold __strxspn. mstep (scan_run s).
  destruct (mark_loop_run (S (size (cells s))) delim d ∅ [] s) as (mm & Hr & Hm); [|done..|].
  { apply str_size in Hd. lia. }
  mstep Hr. rewrite (span_loop_run _ delim t) by
    ((apply str_size in Ha; lia) || done || (intros x; rewrite lookup_insert; destruct (decide (0 = x)) as [<-|];
      [by rewrite bool_decide_true by set_solver|rewrite Hm; do 2 case_bool_decide; set_solver])).
  done.
Qed.

Lemma str_at m a t p c r : str m a t → t = p ++ c :: r → m !! (a + Z.of_nat (length p)) = Some c.
Proof. intros [Ha _] ->. apply Ha. rewrite <-app_assoc. by apply list_lookup_middle. Qed.
Lemma str_end m a t : str m a t → m !! (a + Z.of_nat (length t)) = Some 0.
Proof. intros [Ha _]. apply Ha. by apply list_lookup_middle. Qed.

Lemma strpbrk_run delim t a d s :
  str (cells s) a t → str (cells s) d delim → 0 < a →
  strpbrk a d s = Done (match (break_at delim t).2 with Some _ => a + Z.of_nat (length (break_at delim t).1) | None => 0 end) s.
Proof.
  intros Ha Hd Hpos. unfold strpbrk. mstep (strxspn_run delim t a d s Ha Hd).
  pose proof (break_at_spec delim t) as Hb. destruct (break_at delim t) as [p r]. simpl. destruct Hb as [Hp Hr].
  destruct r as [r|].
  - destruct Hr as (c & Hc & Et). mstep (ld_run _ c s (str_at _ _ _ _ _ _ Ha Et)).
    assert (c ≠ 0) as Hc0. { destruct Ha as [_ Hf]. rewrite Forall_forall in Hf. apply Hf. rewrite Et. set_solver. }
    by destruct (Z.eqb_spec c 0).
  - subst t. by mstep (ld_run _ 0 s (str_end _ _ _ Ha)).
Qed.

(** Cutting the string at a delimiter. *)
Lemma str_cut m a p c r :
  str m a (p ++ c :: r) → let e := a + Z.of_nat (length p) in
  str (<[e := 0]> m) a p ∧ str (<[e := 0]> m) (e + 1) r.
Proof.
  intros [Ha Hf] e. rewrite <-app_assoc in Ha. apply arr_app in Ha as [Hp [Hc Hr]%arr_cons]. fold e in Hc, Hr.
  apply Forall_app in Hf as [Hfp [Hc0 Hfr]%Forall_cons]. split; (split; [|done]).
  - apply arr_app. split.
    + apply (arr_ext m); [|done]. intros b Hb. by rewrite lookup_insert_ne by lia.
    + apply arr_cons. fold e. split; [by rewrite lookup_insert_eq|apply arr_nil].
  - apply (arr_ext m); [|done]. intros b Hb. by rewrite lookup_insert_ne by lia.
Qed.

(** What the static variable holds. *)
Definition holds m (h : Z) (hv : option (list Z)) : Prop :=
  match hv with None => h = 0 | Some t => 0 < h ∧ str m h t end.

(** Every byte that was mapped is. *)
Definition keeps (m m' : gmap Z Z) : Prop := ∀ b, is_Some (m !! b) → is_Some (m' !! b).

Lemma strsep_run delim t h d s :
  str (cells s) h t → 0 < h → str (cells s) d delim →
  ∃ m' h', strsep h d s = Done (h, h') (Cmem m' (tok_holder s)) ∧
    str m' h (break_at delim t).1 ∧ holds m' h' (break_at delim t).2 ∧ keeps (cells s) m' ∧
    match (break_at delim t).2 with
    | Some r => h' = h + Z.of_nat (length (break_at delim t).1) + 1 ∧ h' + Z.of_nat (length r) = h + Z.of_nat (length t)
    | None => True
    end ∧
    ∀ b, b < h ∨ h + Z.of_nat (length t) ≤ b → m' !! b = cells s !! b.
Proof.
  intros Ha Hpos Hd. unfold strsep. destruct (Z.eqb_spec h 0) as [|_]; [lia|].
  mstep (strpbrk_run delim t h d s Ha Hd Hpos).
  pose proof (break_at_spec delim t) as Hb. destruct (break_at delim t) as [p r]. simpl. destruct Hb as [Hp Hr].
  destruct r as [r|].
  - destruct Hr as (c & Hc & Et). destruct (Z.eqb_spec (h + Z.of_nat (length p)) 0) as [|_]; [lia|].
    pose proof (str_at _ _ _ _ _ _ Ha Et) as Hcell.
    mstep (st_run (h + Z.of_nat (length p)) 0 s (mk_is_Some _ _ Hcell)). change (u8 0) with 0.
    subst t. destruct (str_cut _ _ _ _ _ Ha) as [H1 H2]. eexists _, _. split; [done|].
    rewrite length_app. simpl length. split_and!; [done|split; [lia|done]| |lia|lia|].
    + intros b Hb. apply lookup_insert_is_Some'. by right.
    + intros b Hb. by rewrite lookup_insert_ne by lia.
  - subst t. exists (cells s), 0. destruct s. split_and!; done || by intros b ?.
Qed.

(** The bytes of the delimiters are not those of the string. *)
Definition apart (a n b k : Z) : Prop := a + n < b ∨ b + k < a.

Lemma str_apart m m' d delim h n :
  str m d delim → apart d (Z.of_nat (length delim)) h n → (∀ b, b < h ∨ h + n ≤ b → m' !! b = m !! b) → str m' d delim.
Proof.
  intros [Hd Hf] Hap Hm. split; [|done]. apply (arr_ext m); [|done]. rewrite length_app. simpl. intros b Hb.
  apply Hm. unfold apart in Hap. lia.
Qed.

(** What is left after a token lies behind its terminator, up to the end of the
    string. *)
Definition follows (h : Z) (t : list Z) (tok h' : Z) (r : option (list Z) * option (list Z)) : Prop :=
  match r with
  | (Some w, Some l) => tok + Z.of_nat (length w) + 1 = h' ∧ h' + Z.of_nat (length l) = h + Z.of_nat (length t)
  | (Some w, None) => tok + Z.of_nat (length w) = h + Z.of_nat (length t)
  | _ => True
  end.

Lemma strtok_scan_run (fuel fuel' : nat) delim t h d s :
  (length t + 2 ≤ fuel)%nat → (length t + 2 ≤ fuel')%nat → tok_holder s = h →
  str (cells s) h t → 0 < h → str (cells s) d delim → apart d (Z.of_nat (length delim)) h (Z.of_nat (length t)) →
  ∃ tok m' h', strtok_scan fuel d s = Done tok (Cmem m' h') ∧
    match (strtok_loop fuel' delim (Some t)).1 with None => tok = 0 | Some w => h ≤ tok ∧ str m' tok w end ∧
    holds m' h' (strtok_loop fuel' delim (Some t)).2 ∧
    follows h t tok h' (strtok_loop fuel' delim (Some t)) ∧ keeps (cells s) m' ∧
    ∀ b, b < h ∨ h + Z.of_nat (length t) ≤ b → m' !! b = cells s !! b.
Proof.
  revert fuel' t h s. induction fuel as [|fuel IH]; intros fuel' t h s Hf Hf' Eh Ht Hpos Hd Hap; [lia|].
  destruct fuel' as [|fuel']; [lia|]. cbn [strtok_scan strtok_loop]. unfold get at 1. unfold mbind at 1, M_bind at 1. cbn [obind].
  rewrite Eh. destruct (strsep_run delim t h d s Ht Hpos Hd) as (m' & h' & Hr & Htok & Hh & Hsz & Hpos' & Hfr).
  mstep Hr. unfold modify. unfold mbind at 1, M_bind at 1. cbn [obind cells]. simpl strsep_val.
  pose proof (break_at_spec delim t) as Hb. destruct (break_at delim t) as [p r]. simpl in *. destruct Hb as [Hp Hbr].
  destruct (Z.eqb_spec h 0) as [|_]; [lia|]. destruct p as [|x p].
  - apply str_nil in Htok. mstep (ld_run h 0 (Cmem m' h') Htok). destruct r as [r|].
    + destruct Hh as [Hh0 Hh]. destruct Hpos' as [Eh' El]. destruct Hbr as (c & Hc & ->). cbn [length app] in Hf, Hf', Eh', El, Hfr, Hap |- *.
      destruct (IH fuel' r h' (Cmem m' h')) as (tok & m2 & h2 & Hr2 & Htok2 & Hh2 & Hpo2 & Hk2 & Hfr2); try done; try lia.
      * apply (str_apart (cells s) m' d delim h (Z.of_nat (S (length r)))); [done|done|]. intros b Hb. apply Hfr. lia.
      * unfold apart in *. lia.
      * exists tok, m2, h2. split_and!; [done| |done| |by intros b ?%Hsz%Hk2|].
        -- destruct (strtok_loop fuel' delim (Some r)).1; [|done]. destruct Htok2. split; [lia|done].
        -- unfold follows in *. destruct (strtok_loop fuel' delim (Some r)) as [[w|] [l|]]; try done; simpl length; lia.
        -- intros b Hb. rewrite Hfr2 by lia. apply Hfr. lia.
    + simpl in Hh. subst h'. destruct fuel as [|fuel]; [lia|]. cbn [strtok_scan]. unfold get, strsep, modify, mbind, M_bind. simpl.
      destruct fuel' as [|fuel']; [lia|]. exists 0, m', 0. split_and!; done.
  - pose proof Htok as Htok'. apply str_cons in Htok' as (Hx & Hx0 & _). mstep (ld_run h x (Cmem m' h') Hx).
    destruct (Z.eqb_spec x 0) as [|_]; [done|]. exists h, m', h'. split_and!; [done|split; [lia|done]|done| |done|done].
    unfold follows. destruct r as [r|]; [cbn [length] in *; lia|]. simpl in Hbr. by rewrite Hbr.
Qed.

(** C38: A call of strtok on the string that the static variable holds (the first
    call of a split, or a later one) terminates and takes the next token off
    it: leading delimiters are skipped, the returned address holds the longest
    run of other bytes, which is not empty and ends in a terminator, and what
    follows the delimiter is kept for the next call; NULL is returned exactly
    when only delimiters are left.  Nothing outside the string is written, so
    tokens returned before stay as they are. *)
Theorem strtok_takes_token delim t h d s :
  str (cells s) h t → 0 < h → str (cells s) d delim → apart d (Z.of_nat (length delim)) h (Z.of_nat (length t)) →
  (∃ tok m' h' tv hv, c_strtok h d s = Done tok (Cmem m' h') ∧ takes_token delim t tv hv ∧
    (tv, hv) = strtok_val delim (Some t) ∧
    match tv with None => tok = 0 | Some w => h ≤ tok ∧ str m' tok w end ∧ holds m' h' hv ∧
    ∀ b, b < h ∨ h + Z.of_nat (length t) ≤ b → m' !! b = cells s !! b) ∧
  (tok_holder s = h → c_strtok 0 d s = c_strtok h d s).
Proof.
  intros Ht Hpos Hd Hap. split.
  - pose proof (strtok_loop_spec (S (S (length t))) delim t ltac:(lia)) as Hspec.
    destruct (strtok_scan_run (S (size (cells s))) (S (S (length t))) delim t h d (Cmem (cells s) h))
      as (tok & m' & h' & Hr & Htok & Hh & _ & _ & Hfr); try done; try lia.
    { apply str_size in Ht. lia. }
    exists tok, m', h', (strtok_val delim (Some t)).1, (strtok_val delim (Some t)).2. split_and!; try done.
    + unfold c_strtok. destruct (Z.eqb_spec h 0) as [|_]; [lia|]. done.
    + by destruct (strtok_val delim (Some t)).
  - intros <-. unfold c_strtok. destruct (Z.eqb_spec (tok_holder s) 0) as [|_]; [lia|]. by destruct s.
Qed.

(** The path "/bin//ls" cut at the slashes. *)
Definition path_mem : cmem :=
  Cmem (list_to_map (zip (seqZ 100 9) [47; 98; 105; 110; 47; 47; 108; 115; 0]) ∪ list_to_map (zip (seqZ 200 2) [47; 0])) 0.

Lemma strtok_takes_token_witness :
  ∃ tok m' h', c_strtok 100 200 path_mem = Done tok (Cmem m' h') ∧ tok = 101 ∧ str m' 101 [98; 105; 110].
Proof.
  destruct (strtok_takes_token [47] [47; 98; 105; 110; 47; 47; 108; 115] 100 200 path_mem)
    as [(tok & m' & h' & tv & hv & Hr & _ & Hv & Htok & _) _].
  - apply strb_str. by vm_compute.
  - lia.
  - apply strb_str. by vm_compute.
  - right. simpl. lia.
  - exists tok, m', h'. split; [exact Hr|].
    assert (strtok_val [47] (Some [47; 98; 105; 110; 47; 47; 108; 115]) = (Some [98; 105; 110], Some [47; 108; 115])) as E
      by (vm_compute; reflexivity).
    rewrite E in Hv. injection Hv as -> ->. destruct Htok as [_ Hs].
    assert (match c_strtok 100 200 path_mem with Done t _ => Some t | _ => None end = Some 101) as E2 by (vm_compute; reflexivity).
    rewrite Hr in E2. injection E2 as ->. split; [reflexivity|exact Hs].
Defined.

Lemma wp_check {S A} (P : A → S → bool) (o : outcome S A) :
  match o with Done a s => P a s | _ => false end = true → wp o (λ a s, P a s = true).
Proof. by destruct o. Qed.

(** The variable strtok keeps its place in is shared by all callers: when a
    second string is split between two calls, the next call with NULL goes on
    in the second string.  Here a task that walks the path /a/b gets, for its
    second component, the second component of the path /c/d that another task
    began to walk in between, as the path walk of the file system allows: it
    calls strtok again after directory reads that can block. *)
Theorem strtok_shared_between_callers :
  let s := Cmem (list_to_map (zip (seqZ 100 5) [47; 97; 47; 98; 0]) ∪ list_to_map (zip (seqZ 150 5) [47; 99; 47; 100; 0]) ∪
    list_to_map (zip (seqZ 200 2) [47; 0])) 0 in
  wp ((t1 ← c_strtok 100 200; t2 ← c_strtok 150 200; t3 ← c_strtok 0 200; mret (t1, t2, t3)) s) (λ r s',
    r = (101, 151, 153) ∧ str (cells s') 153 [100]) ∧
  wp ((t1 ← c_strtok 100 200; t3 ← c_strtok 0 200; mret (t1, t3)) s) (λ r s', r = (101, 103) ∧ str (cells s') 103 [98]).
Proof.
  cbv zeta. split.
  - eapply wp_mono; [apply (wp_check (λ r s', bool_decide (r = (101, 151, 153)) && strb (cells s') 153 [100])); vm_compute; reflexivity|].
    intros r s' [Hr%bool_decide_eq_true_1 Hs%strb_str]%andb_true_iff. split; [exact Hr|exact Hs].
  - eapply wp_mono; [apply (wp_check (λ r s', bool_decide (r = (101, 103)) && strb (cells s') 103 [98])); vm_compute; reflexivity|].
    intros r s' [Hr%bool_decide_eq_true_1 Hs%strb_str]%andb_true_iff. split; [exact Hr|exact Hs].
Qed.
