(* ===== verification/Doprnt.v ===== *)
(** * Formatted output (lib/doprnt.c, lib/printf.c, lib/sprintf.c, lib/strtoul.c)

    [_doprnt] over the character output it is given; [printf] collects the
    characters in a buffer for the console, [sprintf] and [snprintf] store
    them; [strtoul] reads a number back.  A format and the strings among the
    arguments are lists of characters without their terminator.  DOPRNT_FLOATS
    is not defined.  Arithmetic on [int] that leaves its range faults. *)

From Stdlib Require Import Ascii.
From S2P Require Import Prelude StringLib.

Definition chr (a : ascii) : Z := Z.of_N (N_of_ascii a).
Definition codes (s : string) : list Z := chr <$> Stdlib.Strings.String.list_ascii_of_string s.

(** A slot of the argument list: a number of 64 bits, or a pointer to a string
    ([None] is the null pointer). *)
Inductive varg := VNum (x : Z) | VStr (s : option (list Z)).

Definition MAXBUF : nat := 64.
Definition MAXINT : Z := 2 ^ 31 - 1.
Definition digs : list Z := codes "0123456789abcdef" ++ [0].
Definition is_digit (c : Z) : bool := (chr "0" <=? c) && (c <=? chr "9").
Definition Ctod (c : Z) : Z := c - chr "0".
Definition _doprnt_truncates : bool := false.

(** What a conversion is asked for between its % and its letter. *)
Record fields := Fields {
  f_length : Z;
  f_prec : Z;
  f_ladjust : bool;
  f_padc : Z;
  f_plus_sign : Z;
  f_altfmt : bool
}.

Section Doprnt.
Context {S : Type} (putc : Z → M S unit).

Definition va_num (args : list varg) : M S (Z * list varg) :=
  match args with VNum x :: args => mret (x, args) | _ => fault end.
Definition va_str (args : list varg) : M S (option (list Z) * list varg) :=
  match args with VStr s :: args => mret (s, args) | _ => fault end.

Definition puts_ (l : list Z) : M S unit := each putc l.

(** ** Digits *)

(** Digits are built from the last one at the end of [buf] on. *)
Fixpoint digits_loop (room : nat) (u base : Z) (acc : list Z) : M S (list Z) :=
  match room with
  | O => fault
  | Datatypes.S room =>
    if base =? 0 then fault else
    d ← of_opt (digs !! Z.to_nat (u mod base));
    let u := u / base in
    if negb (u =? 0) then digits_loop room u base (d :: acc) else mret (d :: acc)
  end.

Definition printnum (u base : Z) : M S unit := ds ← digits_loop MAXBUF u (u64 base) []; puts_ ds.

(** [while (--length >= 0) putc(c)], and the length it leaves. *)
Definition pad (c length : Z) : M S Z := puts_ (replicate (Z.to_nat length) c);; mret (Z.min length 0 - 1).

Definition print_num (f : fields) (truncate : bool) (u base sign_char : Z) : M S unit :=
  let u := if truncate then u64 (s32 u) else u in
  let prefix := if negb (u =? 0) && f_altfmt f then
      if base =? 8 then codes "0" else if base =? 16 then codes "0x" else []
    else [] in
  ds ← digits_loop MAXBUF u (u64 base) [];
  let prec := f_prec f - Z.of_nat (length ds) in
  let len := f_length f - Z.of_nat (length ds) in
  let len := if negb (sign_char =? 0) then len - 1 else len in
  let len := len - Z.of_nat (length prefix) in
  let len := if 0 <? prec then len - prec else len in
  if (prec <? - MAXINT) || (len <? - MAXINT) then fault else
  len ← (if (f_padc f =? chr " ") && negb (f_ladjust f) then pad (chr " ") len else mret len);
  (if negb (sign_char =? 0) then putc sign_char else mret tt);;
  puts_ prefix;;
  pad (chr "0") prec;;
  len ← (if f_padc f =? chr "0" then pad (chr "0") len else mret len);
  puts_ ds;;
  if f_ladjust f then pad (chr " ") len;; mret tt else mret tt.

(** ** The other conversions *)

(** The name of a bit: the characters above the blank. *)
Fixpoint put_name (p : list Z) : M S (list Z) :=
  match p with
  | c :: p' => if 32 <? c then putc c;; put_name p' else mret p
  | [] => mret []
  end.
Fixpoint skip_name (p : list Z) : list Z :=
  match p with c :: p' => if 32 <? c then skip_name p' else p | [] => [] end.

Definition open_or_comma (any : bool) : M S unit := putc (if any then chr "," else chr "<").

Fixpoint bits_loop (fuel : nat) (u base : Z) (any : bool) (p : list Z) : M S unit :=
  match fuel with
  | O => nofuel
  | Datatypes.S fuel =>
    match p with
    | [] => if any then putc (chr ">") else mret tt
    | i :: p =>
      if default 0 (head p) <=? 32 then
        open_or_comma any;;
        match p with
        | [] => fault
        | j :: p =>
          p ← put_name p;
          if (j =? 0) || (i <? j) || (30 <=? i - j) then fault else
          printnum (u32 (Z.land (Z.shiftr u (j - 1)) (Z.shiftl 2 (i - j) - 1))) base;;
          bits_loop fuel u base true p
        end
      else if 32 <=? i then fault
      else if has u (Z.shiftl 1 (i - 1)) then
        open_or_comma any;;
        p ← put_name p;
        bits_loop fuel u base true p
      else bits_loop fuel u base any (skip_name p)
    end
  end.

Definition print_bits (u : Z) (p : list Z) : M S unit :=
  match p with
  | [] => fault
  | base :: p =>
    printnum u base;;
    if u =? 0 then mret tt else bits_loop (Datatypes.S (length p)) u base false p
  end.

(** [for (; *p != '\0' && n < prec; p++) n++;] *)
Fixpoint count_chars (p : list Z) (n prec : Z) : Z :=
  match p with _ :: p => if n <? prec then count_chars p (n + 1) prec else n | [] => n end.

(** [while ( *p != '\0') { if (++n > prec) break; putc( *p++); }] *)
Fixpoint put_chars (p : list Z) (n prec : Z) : M S Z :=
  match p with
  | c :: p => if prec <? n + 1 then mret (n + 1) else putc c;; put_chars p (n + 1) prec
  | [] => mret n
  end.

Definition blanks (n length : Z) : M S unit := puts_ (replicate (Z.to_nat (length - n)) (chr " ")).

Definition print_str (f : fields) (s : option (list Z)) : M S unit :=
  let prec := if f_prec f =? -1 then MAXINT else f_prec f in
  let p := default [] s in
  (if (0 <? f_length f) && negb (f_ladjust f) then blanks (count_chars p 0 prec) (f_length f) else mret tt);;
  n ← put_chars p 0 prec;
  if (n <? f_length f) && f_ladjust f then blanks n (f_length f) else mret tt.

Definition print_signed (f : fields) (truncate : bool) (base : Z) (args : list varg) : M S (list varg) :=
  a ← va_num args;
  let n := s64 a.1 in
  (if 0 <=? n then print_num f truncate n base (f_plus_sign f)
   else if n =? - 2 ^ 63 then fault
   else print_num f truncate (- n) base (chr "-"));;
  mret a.2.

Definition print_unsigned (f : fields) (truncate : bool) (base : Z) (args : list varg) : M S (list varg) :=
  a ← va_num args;
  print_num f truncate (u64 a.1) base 0;;
  mret a.2.

(** ** A conversion *)

Definition one_of (c : Z) (s : string) : bool := bool_decide (c ∈ codes s).

(** The letter [c] with the arguments left; returns those it does not use. *)
Definition convert (c radix : Z) (f : fields) (args : list varg) : M S (list varg) :=
  if one_of c "bB" then
    u ← va_num args; p ← va_str u.2; s ← of_opt p.1; print_bits (u64 u.1) s;; mret p.2
  else if one_of c "c" then a ← va_num args; putc (u8 a.1);; mret a.2
  else if one_of c "s" then a ← va_str args; print_str f a.1;; mret a.2
  else if one_of c "o" then print_unsigned f _doprnt_truncates 8 args
  else if one_of c "O" then print_unsigned f false 8 args
  else if one_of c "di" then print_signed f _doprnt_truncates 10 args
  else if one_of c "D" then print_signed f false 10 args
  else if one_of c "u" then print_unsigned f _doprnt_truncates 10 args
  else if one_of c "U" then print_unsigned f false 10 args
  else if one_of c "p" then
    puts_ (codes "0x");;
    print_unsigned (Fields 8 (f_prec f) (f_ladjust f) (chr "0") (f_plus_sign f) (f_altfmt f)) _doprnt_truncates 16 args
  else if one_of c "x" then print_unsigned f _doprnt_truncates 16 args
  else if one_of c "X" then print_unsigned f false 16 args
  else if one_of c "z" then print_signed f _doprnt_truncates 16 args
  else if one_of c "Z" then print_signed f false 16 args
  else if one_of c "r" then print_signed f _doprnt_truncates radix args
  else if one_of c "R" then print_signed f false radix args
  else if one_of c "n" then print_unsigned f _doprnt_truncates radix args
  else if one_of c "N" then print_unsigned f false radix args
  else putc c;; mret args.

(** ** The format *)

(** The flags [#], [-], [+] and blank. *)
Fixpoint flags_loop (altfmt ladjust : bool) (plus_sign : Z) (fmt : list Z) : bool * bool * Z * list Z :=
  match fmt with
  | c :: fmt' =>
    if c =? chr "#" then flags_loop true ladjust plus_sign fmt'
    else if c =? chr "-" then flags_loop altfmt true plus_sign fmt'
    else if c =? chr "+" then flags_loop altfmt ladjust (chr "+") fmt'
    else if c =? chr " " then flags_loop altfmt ladjust (if plus_sign =? 0 then chr " " else plus_sign) fmt'
    else (altfmt, ladjust, plus_sign, fmt)
  | [] => (altfmt, ladjust, plus_sign, fmt)
  end.

(** [while (isdigit( *fmt)) n = 10 * n + Ctod( *fmt++);] *)
Fixpoint number_loop (n : Z) (fmt : list Z) : M S (Z * list Z) :=
  match fmt with
  | c :: fmt' =>
    if is_digit c then
      if MAXINT <? 10 * n + Ctod c then fault else number_loop (10 * n + Ctod c) fmt'
    else mret (n, fmt)
  | [] => mret (n, fmt)
  end.

Definition next (fmt : list Z) : Z := default 0 (head fmt).

Definition read_width (ladjust : bool) (fmt : list Z) (args : list varg) : M S (Z * bool * list Z * list varg) :=
  if is_digit (next fmt) then r ← number_loop 0 fmt; mret (r.1, ladjust, r.2, args)
  else if next fmt =? chr "*" then
    a ← va_num args;
    let length := s32 a.1 in
    if length =? - 2 ^ 31 then fault
    else if length <? 0 then mret (- length, negb ladjust, tail fmt, a.2)
    else mret (length, ladjust, tail fmt, a.2)
  else mret (0, ladjust, fmt, args).

Definition read_prec (fmt : list Z) (args : list varg) : M S (Z * list Z * list varg) :=
  if next fmt =? chr "." then
    let fmt := tail fmt in
    if is_digit (next fmt) then r ← number_loop 0 fmt; mret (r.1, r.2, args)
    else if next fmt =? chr "*" then a ← va_num args; mret (s32 a.1, tail fmt, a.2)
    else mret (-1, fmt, args)
  else mret (-1, fmt, args).

(** All of a conversion behind its %; what is left of the format and of the
    arguments. *)
Definition conversion (radix : Z) (fmt : list Z) (args : list varg) : M S (list Z * list varg) :=
  let '(altfmt, ladjust, plus_sign, fmt) := flags_loop false false 0 fmt in
  let '(padc, fmt) := if next fmt =? chr "0" then (chr "0", tail fmt) else (chr " ", fmt) in
  w ← read_width ladjust fmt args;
  let '(length, ladjust, fmt, args) := w in
  p ← read_prec fmt args;
  let '(prec, fmt, args) := p in
  let fmt := if next fmt =? chr "l" then tail fmt else fmt in
  match fmt with
  | [] => mret ([], args)
  | c :: fmt => args ← convert c radix (Fields length prec ladjust padc plus_sign altfmt) args; mret (fmt, args)
  end.

Fixpoint doprnt_loop (fuel : nat) (radix : Z) (fmt : list Z) (args : list varg) : M S unit :=
  match fuel with
  | O => nofuel
  | Datatypes.S fuel =>
    match fmt with
    | [] => mret tt
    | c :: fmt =>
      if negb (c =? chr "%") then putc c;; doprnt_loop fuel radix fmt args
      else r ← conversion radix fmt args; doprnt_loop fuel radix r.1 r.2
    end
  end.

Definition _doprnt (fmt : list Z) (args : list varg) (radix : Z) : M S unit :=
  doprnt_loop (Datatypes.S (length fmt)) radix fmt args.
End Doprnt.

(** ** printf.c *)

Definition PRINTF_BUFMAX : Z := 128.

(** The buffer of a call and what the console was sent. *)
Record printf_state := Pstate { p_buf : gmap Z Z; p_index : Z; p_console : list Z }.

Definition buf_prefix (b : gmap Z Z) (n : Z) : list Z := (λ i, default 0 (b !! i)) <$> seqZ 0 n.
Definition console_putbytes (n : Z) : M printf_state unit :=
  modify (λ p, Pstate (p_buf p) (p_index p) (p_console p ++ buf_prefix (p_buf p) n)).

Definition flush : M printf_state unit :=
  p ← get; console_putbytes (p_index p);; modify (λ p, Pstate (p_buf p) 0 (p_console p)).

Definition printf_char (c : Z) : M printf_state unit :=
  p ← get;
  if (c =? 0) || (c =? chr "010") || (PRINTF_BUFMAX <=? p_index p) then
    flush;;
    modify (λ p, Pstate (<[0 := u8 c]> (p_buf p)) (p_index p) (p_console p));;
    console_putbytes 1
  else modify (λ p, Pstate (<[p_index p := u8 c]> (p_buf p)) (u32 (p_index p + 1)) (p_console p)).

(** [console]: what the console had been sent; [junk]: the buffer on the stack. *)
Definition vprintf (fmt : list Z) (args : list varg) : M printf_state Z :=
  modify (λ p, Pstate (p_buf p) 0 (p_console p));;
  _doprnt printf_char fmt args 0;;
  p ← get;
  (if negb (p_index p =? 0) then flush else mret tt);;
  mret 0.
Definition printf (fmt : list Z) (args : list varg) : M printf_state Z := vprintf fmt args.

Definition putchar (c : Z) : M printf_state Z :=
  modify (λ p, Pstate (p_buf p) (p_index p) (p_console p ++ [u8 c]));; mret (u8 c).
Definition puts (s : list Z) : M printf_state Z :=
  each (λ c, putchar c;; mret tt) s;; putchar (chr "010");; mret 0.

(** ** sprintf.c *)

Record sprintf_state := Sstate { s_mem : cmem; s_buf : Z; s_len : Z; s_max : Z }.
Definition SPRINTF_UNLIMITED : Z := 2 ^ 32 - 1.

Definition on_mem {A} (m : M cmem A) : M sprintf_state A := λ s,
  match m (s_mem s) with
  | Done a c => Done a (Sstate c (s_buf s) (s_len s) (s_max s))
  | Panic msg => Panic msg
  | NoFuel => NoFuel
  | _ => Fault
  end.

Definition savechar (c : Z) : M sprintf_state unit :=
  s ← get;
  if negb (s_max s =? SPRINTF_UNLIMITED) && (s_len s =? s_max s) then mret tt else
  modify (λ s, Sstate (s_mem s) (s_buf s) (u32 (s_len s + 1)) (s_max s));;
  on_mem (st (s_buf s) c);;
  modify (λ s, Sstate (s_mem s) (s_buf s + 1) (s_len s) (s_max s)).

(** Run the formatting with a fresh state on the stack. *)
Definition with_sprintf {A} (s max : Z) (m : M sprintf_state A) : M cmem A := λ c,
  match m (Sstate c s 0 max) with
  | Done a st => Done a (s_mem st)
  | Panic msg => Panic msg
  | NoFuel => NoFuel
  | _ => Fault
  end.

Definition finish_sprintf (fmt : list Z) (args : list varg) : M sprintf_state Z :=
  _doprnt savechar fmt args 0;;
  s ← get;
  on_mem (st (s_buf s) 0);;
  mret (s32 (s_len s)).

Definition vsprintf (s : Z) (fmt : list Z) (args : list varg) : M cmem Z :=
  with_sprintf s SPRINTF_UNLIMITED (finish_sprintf fmt args).
Definition vsnprintf (s size : Z) (fmt : list Z) (args : list varg) : M cmem Z :=
  with_sprintf s (u32 size) (finish_sprintf fmt args).
Definition sprintf (s : Z) (fmt : list Z) (args : list varg) : M cmem Z := vsprintf s fmt args.
Definition snprintf (s size : Z) (fmt : list Z) (args : list varg) : M cmem Z := vsnprintf s size fmt args.

(** ** strtoul.c *)

Definition isspace (c : Z) : bool :=
  (c =? chr " ") || (c =? 12) || (c =? 10) || (c =? 13) || (c =? 9) || (c =? 11).

(** The value of a digit in [base], if the character is one. *)
Definition digit_value (base c : Z) : option Z :=
  if (chr "0" <=? c) && (c <=? chr "9") && (c - chr "0" <? base) then Some (c - chr "0")
  else if (chr "a" <=? c) && (c <=? chr "z") && (c - chr "a" + 10 <? base) then Some (c - chr "a" + 10)
  else if (chr "A" <=? c) && (c <=? chr "Z") && (c - chr "A" + 10 <? base) then Some (c - chr "A" + 10)
  else None.

Fixpoint skip_spaces (fuel : nat) (p : Z) : M cmem Z :=
  match fuel with
  | O => nofuel
  | S fuel => c ← ld p; if isspace c then skip_spaces fuel (p + 1) else mret p
  end.

Fixpoint strtoul_loop (fuel : nat) (base v p : Z) : M cmem (Z * Z) :=
  match fuel with
  | O => nofuel
  | S fuel =>
    c ← ld p;
    match digit_value base c with
    | Some d => strtoul_loop fuel base (u64 (v * base + d)) (p + 1)
    | None => mret (v, p)
    end
  end.

(** The value and the end of the number. *)
Definition strtoul (p base : Z) : M cmem (Z * Z) :=
  fuel ← scan;
  p ← skip_spaces fuel p;
  c ← ld p;
  c1 ← (if ((base =? 16) || (base =? 0)) && (c =? chr "0") then ld (p + 1) else mret 0);
  let '(p, base) := if (c1 =? chr "x") || (c1 =? chr "X") then (p + 2, 16) else (p, base) in
  c ← ld p;
  let base := if base =? 0 then if c =? chr "0" then 8 else 10 else base in
  strtoul_loop fuel base 0 p.
