(* ===== verification/DoprntThm.v ===== *)
(** * What formatted output promises

    [_doprnt] never looks at what its character output does: its text is the
    one it gives to an output that only collects characters, and printf,
    sprintf and snprintf deliver that text.  Numbers that are printed are read
    back by strtoul. *)

From Stdlib Require Import Ascii.
From S2P Require Import Prelude StringLib StringThm Doprnt.

(** The output that collects. *)
Definition collect (c : Z) : M (list Z) unit := modify (λ l, l ++ [c]).

(** [text fmt args radix t]: the characters of a format with its arguments. *)
Definition text (fmt : list Z) (args : list varg) (radix : Z) (t : list Z) : Prop := _doprnt collect fmt args radix [] = Done tt t.

(** ** The output is only told characters *)

Section Tracks.
Context {S : Type} (putc : Z → M S unit).

(** When the collecting run returns, the other one does the same after giving
    the characters collected to its output. *)
Definition tracks {A} (m : M S A) (m0 : M (list Z) A) : Prop :=
  ∀ l l' a, m0 l = Done a l' → ∃ t, l' = l ++ t ∧ ∀ s s', each putc t s = Done tt s' → m s = Done a s'.

Lemma each_app_inv (t1 t2 : list Z) s s' :
  each putc (t1 ++ t2) s = Done tt s' → ∃ s1, each putc t1 s = Done tt s1 ∧ each putc t2 s1 = Done tt s'.
Proof.
  revert s. induction t1 as [|c t1 IH]; intros s; simpl; [by exists s|].
  unfold mbind, M_bind. destruct (putc c s) as [[] s1| | | |]; simpl; try done. apply IH.
Qed.

Lemma tracks_ret {A} (a : A) : tracks (mret a) (mret a).
Proof. intros l l' b [= <- <-]. exists []. rewrite app_nil_r. split; [done|]. by intros s s' [= ->]. Qed.
Lemma tracks_fault {A} : tracks (A := A) fault fault.
Proof. by intros l l' a. Qed.
Lemma tracks_nofuel {A} : tracks (A := A) nofuel nofuel.
Proof. by intros l l' a. Qed.
Lemma tracks_of_opt {A} (o : option A) : tracks (of_opt o) (of_opt o).
Proof. destruct o; [apply tracks_ret|apply tracks_fault]. Qed.
Lemma tracks_putc c : tracks (putc c) (collect c).
Proof.
  intros l l' [] [= <-]. exists [c]. split; [done|]. intros s s'. simpl. unfold mbind, M_bind.
  destruct (putc c s) as [[] s1| | | |]; simpl; try done.
Qed.
Lemma tracks_bind {A B} (m : M S A) m0 (f : A → M S B) f0 :
  tracks m m0 → (∀ a, tracks (f a) (f0 a)) → tracks (m ≫= f) (m0 ≫= f0).
Proof.
  intros Hm Hf l l' b. unfold mbind, M_bind. destruct (m0 l) as [a l1| | | |] eqn:E1; simpl; try done. intros E2.
  destruct (Hm _ _ _ E1) as (t1 & -> & H1). destruct (Hf a _ _ _ E2) as (t2 & -> & H2). exists (t1 ++ t2). split; [by rewrite app_assoc|].
  intros s s' (s1 & Hs1 & Hs2)%each_app_inv. rewrite (H1 _ _ Hs1). simpl. by apply H2.
Qed.
Lemma tracks_each (l : list Z) : tracks (each putc l) (each collect l).
Proof. induction l as [|c l IH]; simpl; [apply tracks_ret|]. apply tracks_bind; [apply tracks_putc|]. by intros []. Qed.
End Tracks.

Create HintDb tracks.
#[export] Hint Resolve tracks_ret tracks_fault tracks_nofuel tracks_of_opt tracks_putc tracks_each : tracks.

(** Follow the structure of a piece of formatting code. *)
Ltac track :=
  repeat match goal with
  | |- tracks _ (_ ≫= _) (_ ≫= _) => apply tracks_bind; [|intros]
  | |- tracks _ (if ?b then _ else _) _ => destruct b
  | |- tracks _ (match ?x with _ => _ end) _ => destruct x
  | |- tracks _ (let '(_, _) := ?x in _) _ => destruct x
  | _ => progress eauto with tracks
  end.

Section Text.
Context {S : Type} (putc : Z → M S unit).

Lemma va_num_tracks args : tracks putc (va_num args) (va_num args).
Proof. unfold va_num. track. Qed.
Lemma va_str_tracks args : tracks putc (va_str args) (va_str args).
Proof. unfold va_str. track. Qed.
Lemma puts_tracks l : tracks putc (puts_ putc l) (puts_ collect l).
Proof. apply tracks_each. Qed.
Hint Resolve va_num_tracks va_str_tracks puts_tracks : tracks.

Lemma digits_tracks n u base acc : tracks putc (digits_loop n u base acc) (digits_loop n u base acc).
Proof. revert u acc. induction n as [|n IH]; intros u acc; cbn [digits_loop]; track. Qed.
Hint Resolve digits_tracks : tracks.
Lemma printnum_tracks u base : tracks putc (printnum putc u base) (printnum collect u base).
Proof. unfold printnum. track. Qed.
Lemma pad_tracks c n : tracks putc (pad putc c n) (pad collect c n).
Proof. unfold pad. track. Qed.
Hint Resolve printnum_tracks pad_tracks : tracks.
Lemma print_num_tracks f t u base sg : tracks putc (print_num putc f t u base sg) (print_num collect f t u base sg).
Proof. unfold print_num. track. Qed.
Lemma put_name_tracks p : tracks putc (put_name putc p) (put_name collect p).
Proof. induction p as [|c p IH]; cbn [put_name]; track. Qed.
Hint Resolve print_num_tracks put_name_tracks : tracks.
Lemma bits_tracks n u base any p : tracks putc (bits_loop putc n u base any p) (bits_loop collect n u base any p).
Proof. revert any p. induction n as [|n IH]; intros any p; cbn [bits_loop]; unfold open_or_comma; track. Qed.
Hint Resolve bits_tracks : tracks.
Lemma print_bits_tracks u p : tracks putc (print_bits putc u p) (print_bits collect u p).
Proof. unfold print_bits. track. Qed.
Lemma put_chars_tracks p n prec : tracks putc (put_chars putc p n prec) (put_chars collect p n prec).
Proof. revert n. induction p as [|c p IH]; intros n; cbn [put_chars]; track. Qed.
Hint Resolve print_bits_tracks put_chars_tracks : tracks.
Lemma print_str_tracks f s : tracks putc (print_str putc f s) (print_str collect f s).
Proof. unfold print_str, blanks. track. Qed.
Lemma print_signed_tracks f t base args : tracks putc (print_signed putc f t base args) (print_signed collect f t base args).
Proof. unfold print_signed. track. Qed.
Lemma print_unsigned_tracks f t base args : tracks putc (print_unsigned putc f t base args) (print_unsigned collect f t base args).
Proof. unfold print_unsigned. track. Qed.
Hint Resolve print_str_tracks print_signed_tracks print_unsigned_tracks : tracks.
Lemma convert_tracks c radix f args : tracks putc (convert putc c radix f args) (convert collect c radix f args).
Proof. unfold convert. track. Qed.
Lemma number_tracks n fmt : tracks putc (number_loop n fmt) (number_loop n fmt).
Proof. revert n. induction fmt as [|c fmt IH]; intros n; cbn [number_loop]; track. Qed.
Hint Resolve convert_tracks number_tracks : tracks.
Lemma read_width_tracks la fmt args : tracks putc (read_width la fmt args) (read_width la fmt args).
Proof. unfold read_width. cbv zeta. track. Qed.
Lemma read_prec_tracks fmt args : tracks putc (read_prec fmt args) (read_prec fmt args).
Proof. unfold read_prec. cbv zeta. track. Qed.
Hint Resolve read_width_tracks read_prec_tracks : tracks.
Lemma conversion_tracks radix fmt args : tracks putc (conversion putc radix fmt args) (conversion collect radix fmt args).
Proof. unfold conversion. cbv zeta. track. Qed.
Hint Resolve conversion_tracks : tracks.
Lemma doprnt_loop_tracks n radix fmt args : tracks putc (doprnt_loop putc n radix fmt args) (doprnt_loop collect n radix fmt args).
Proof. revert fmt args. induction n as [|n IH]; intros fmt args; cbn [doprnt_loop]; track. Qed.

(** [_doprnt] gives its output the characters of its text, in order. *)
Lemma doprnt_text fmt args radix t s s' :
  text fmt args radix t → each putc t s = Done tt s' → _doprnt putc fmt args radix s = Done tt s'.
Proof.
  intros Ht Hs. destruct (doprnt_loop_tracks _ radix fmt args [] t tt Ht) as (t' & -> & Hr). by apply Hr.
Qed.
End Text.

(** ** printf *)

(** Everything sent and everything in the buffer. *)
Definition delivered (p : printf_state) : list Z := p_console p ++ buf_prefix (p_buf p) (p_index p).

Lemma buf_prefix_0 b : buf_prefix b 0 = [].
Proof. done. Qed.
Lemma buf_prefix_snoc b n c : 0 ≤ n → buf_prefix (<[n := c]> b) (n + 1) = buf_prefix b n ++ [c].
Proof.
  intros Hn. unfold buf_prefix. rewrite seqZ_app by lia. rewrite fmap_app. f_equal.
  - apply list_fmap_ext. intros i x Hx%lookup_seqZ. rewrite lookup_insert_ne by lia. done.
  - simpl. change (seqZ (0 + n) 1) with [0 + n]. simpl. by rewrite lookup_insert_eq.
Qed.

Lemma printf_char_run c p :
  0 ≤ p_index p ≤ PRINTF_BUFMAX → 0 ≤ c < 256 →
  ∃ p', printf_char c p = Done tt p' ∧ delivered p' = delivered p ++ [c] ∧ 0 ≤ p_index p' ≤ PRINTF_BUFMAX.
Proof.
  intros Hi Hc. unfold printf_char. rewrite (bind_Done get _ _ _ _ eq_refl).
  destruct ((c =? 0) || (c =? chr "010") || (PRINTF_BUFMAX <=? p_index p)) eqn:E.
  - eexists. split; [reflexivity|]. unfold delivered. simpl. rewrite wrap_small by lia. rewrite buf_prefix_0, app_nil_r.
    split; [|unfold PRINTF_BUFMAX; lia]. change (buf_prefix (<[0 := c]> (p_buf p)) 1) with (buf_prefix (<[0 := c]> (p_buf p)) (0 + 1)). by rewrite buf_prefix_snoc.
  - rewrite !orb_false_iff in E. destruct E as [_ E]. apply Z.leb_gt in E. eexists. split; [reflexivity|]. unfold delivered. simpl.
    unfold PRINTF_BUFMAX in *. rewrite !wrap_small by lia. rewrite buf_prefix_snoc, app_assoc by lia. split; [done|lia].
Qed.

Lemma printf_chars_run t p :
  0 ≤ p_index p ≤ PRINTF_BUFMAX → Forall (λ c, 0 ≤ c < 256) t →
  ∃ p', each printf_char t p = Done tt p' ∧ delivered p' = delivered p ++ t.
Proof.
  intros Hi Ht. revert p Hi. induction Ht as [|c t Hc Ht IH]; intros p Hi; simpl.
  - exists p. by rewrite app_nil_r.
  - destruct (printf_char_run c p Hi Hc) as (p1 & H1 & Hd1 & Hi1). destruct (IH p1 Hi1) as (p2 & H2 & Hd2).
    exists p2. rewrite (bind_Done _ _ _ _ _ H1). split; [done|]. by rewrite Hd2, Hd1, <-app_assoc.
Qed.

Lemma printf_run fmt args t p :
  text fmt args 0 t → Forall (λ c, 0 ≤ c < 256) t →
  wp (printf fmt args p) (λ r p', r = 0 ∧ p_console p' = p_console p ++ t).
Proof.
  intros Ht Hb. unfold printf, vprintf. rewrite (bind_Done (modify _) _ _ _ _ eq_refl). cbv beta.
  set (p0 := Pstate (p_buf p) 0 (p_console p)).
  destruct (printf_chars_run t p0 ltac:(unfold PRINTF_BUFMAX; simpl; lia) Hb) as (p1 & H1 & Hd).
  rewrite (bind_Done _ _ _ _ _ (doprnt_text printf_char fmt args 0 t p0 p1 Ht H1)).
  rewrite (bind_Done get _ _ _ _ eq_refl). unfold delivered in Hd. simpl in Hd. rewrite buf_prefix_0, app_nil_r in Hd.
  destruct (Z.eqb_spec (p_index p1) 0) as [E|E]; simpl.
  - rewrite E, buf_prefix_0, app_nil_r in Hd. done.
  - done.
Qed.

(** ** sprintf and snprintf *)

(** The characters [t] that fit before [max], in memory at [s]. *)
Definition stored_at (m m' : cmem) (s : Z) (l : list Z) : Prop :=
  arr (cells m') s l ∧ (∀ b, ¬ s ≤ b < s + Z.of_nat (length l) → cells m' !! b = cells m !! b) ∧ tok_holder m' = tok_holder m.

Lemma stored_snoc m m' s l c :
  stored_at m m' s l → stored_at m (Cmem (<[s + Z.of_nat (length l) := c]> (cells m')) (tok_holder m')) s (l ++ [c]).
Proof.
  intros (Ha & Hk & Hh). split_and!; simpl.
  - apply arr_app. split.
    + eapply arr_ext; [|exact Ha]. intros b Hb. rewrite lookup_insert_ne by lia. done.
    + apply arr_cons. split; [apply lookup_insert_eq|apply arr_nil].
  - intros b Hb. rewrite length_app in Hb. simpl in Hb. rewrite lookup_insert_ne by lia. apply Hk. lia.
  - done.
Qed.

Definition fitting (max : Z) (t : list Z) : list Z := if max =? SPRINTF_UNLIMITED then t else take (Z.to_nat max) t.

(** The state after the characters [t]. *)
Definition saved (m : cmem) (s max : Z) (t : list Z) (st : sprintf_state) : Prop :=
  stored_at m (s_mem st) s (fitting max t) ∧ s_len st = Z.of_nat (length (fitting max t)) ∧
  s_buf st = s + Z.of_nat (length (fitting max t)) ∧ s_max st = max.

Lemma savechar_run m s max t c st :
  saved m s max t st → 0 ≤ c < 256 → 0 ≤ max < 2 ^ 32 → Z.of_nat (length t) < 2 ^ 31 →
  mapped (cells m) s (Z.of_nat (length (fitting max (t ++ [c])))) → ∃ st', savechar c st = Done tt st' ∧ saved m s max (t ++ [c]) st'.
Proof.
  intros (Hs & Hl & Hb & Hm) Hc Hmax Hlen Hmp. unfold savechar. rewrite (bind_Done get _ _ _ _ eq_refl).
  assert (negb (s_max st =? SPRINTF_UNLIMITED) && (s_len st =? s_max st) = bool_decide (fitting max (t ++ [c]) = fitting max t)) as ->.
  { rewrite Hm, Hl. unfold fitting in *. destruct (Z.eqb_spec max SPRINTF_UNLIMITED) as [->|Hne]; cbn [negb andb].
    - symmetry. apply bool_decide_eq_false_2. intros Heq%(f_equal length). rewrite length_app in Heq. simpl in Heq. lia.
    - apply eq_true_iff_eq. rewrite Z.eqb_eq, bool_decide_eq_true, length_take. destruct (decide (Z.to_nat max ≤ length t)%nat).
      + rewrite take_app_le by lia. split; [done|]. intros _. lia.
      + split; [lia|]. intros Heq%(f_equal length). rewrite !length_take, length_app in Heq. simpl in Heq. lia. }
  destruct (bool_decide_reflect (fitting max (t ++ [c]) = fitting max t)) as [Heq|Hne].
  { exists st. split; [done|]. unfold saved. by rewrite Heq. }
  assert (fitting max (t ++ [c]) = fitting max t ++ [c] ∧ fitting max t = t) as [Heq Heq'].
  { unfold fitting in *. destruct (max =? SPRINTF_UNLIMITED); [done|]. destruct (decide (Z.to_nat max ≤ length t)%nat).
    - exfalso. apply Hne. by rewrite take_app_le by lia.
    - rewrite !take_ge by (rewrite ?length_app; simpl; lia). done. }
  rewrite (bind_Done (modify _) _ _ _ _ eq_refl). cbv beta.
  assert (is_Some (cells (s_mem st) !! s_buf st)) as Hso.
  { destruct Hs as (_ & Hk & _). rewrite Hb, Hk by lia. apply Hmp. rewrite Heq, length_app. simpl. lia. }
  set (st1 := Sstate (s_mem st) (s_buf st) (u32 (s_len st + 1)) (s_max st)).
  assert (on_mem (StringLib.st (s_buf st) c) st1 = Done tt (Sstate (Cmem (<[s_buf st := c]> (cells (s_mem st))) (tok_holder (s_mem st))) (s_buf st) (u32 (s_len st + 1)) (s_max st))) as Hst.
  { unfold on_mem. simpl. rewrite (st_run (s_buf st) c (s_mem st) Hso), (wrap_small 8 c) by lia. done. }
  rewrite (bind_Done _ _ _ _ _ Hst). eexists. split; [reflexivity|]. rewrite Heq' in *.
  unfold saved. rewrite Heq. simpl. rewrite length_app. simpl. split_and!; [|rewrite wrap_small; lia|lia|done].
  rewrite Hb. by apply stored_snoc.
Qed.

Lemma fitting_prefix max t t' : ∃ u, fitting max (t ++ t') = fitting max t ++ u.
Proof.
  unfold fitting. destruct (max =? SPRINTF_UNLIMITED); [by exists t'|]. rewrite take_app. eauto.
Qed.

Lemma savechars_run m s max t st : 
  Forall (λ c, 0 ≤ c < 256) t → 0 ≤ max < 2 ^ 32 → Z.of_nat (length t) < 2 ^ 31 → mapped (cells m) s (Z.of_nat (length (fitting max t))) →
  saved m s max [] st → ∃ st', each savechar t st = Done tt st' ∧ saved m s max t st'.
Proof.
  intros Hc Hmax Hlen Hmp Hst.
  enough (∀ t1 t2 st1, t = t1 ++ t2 → saved m s max t1 st1 → ∃ st', each savechar t2 st1 = Done tt st' ∧ saved m s max t st') as Hg.
  { by apply (Hg [] t). }
  intros t1 t2. revert t1. induction t2 as [|c t2 IH]; intros t1 st1 -> Hst1; simpl.
  - rewrite app_nil_r in *. eauto.
  - destruct (savechar_run m s max t1 c st1 Hst1) as (st2 & H2 & Hst2); try done.
    + apply Forall_app in Hc as [_ Hc]. by apply Forall_cons in Hc as [? _].
    + rewrite length_app in Hlen. lia.
    + destruct (fitting_prefix max (t1 ++ [c]) t2) as [u Hu]. rewrite <-app_assoc in Hu. simpl in Hu.
      intros b Hb. apply Hmp. rewrite Hu, length_app. lia.
    + rewrite (bind_Done _ _ _ _ _ H2). apply (IH (t1 ++ [c])); [by rewrite <-app_assoc|done].
Qed.

(** The text is stored up to the limit, and terminated behind the last
    character stored. *)
Lemma sprintf_at_run m s max fmt args t :
  text fmt args 0 t → Forall (λ c, 0 ≤ c < 256) t → 0 ≤ max < 2 ^ 32 → Z.of_nat (length t) < 2 ^ 31 →
  mapped (cells m) s (Z.of_nat (length (fitting max t)) + 1) →
  wp (with_sprintf s max (finish_sprintf fmt args) m) (λ r m', r = Z.of_nat (length (fitting max t)) ∧ stored_at m m' s (fitting max t ++ [0])).
Proof.
  intros Ht Hc Hmax Hlen Hmp. assert (fitting max [] = []) as E0 by (unfold fitting; by destruct (max =? _); rewrite ?take_nil).
  destruct (savechars_run m s max t (Sstate m s 0 max) Hc Hmax Hlen) as (st1 & H1 & (Hs & Hl & Hb & Hm)).
  { intros b Hb. apply Hmp. lia. }
  { unfold saved. rewrite E0. simpl. split_and!; [|done|lia|done]. split_and!; [apply arr_nil|done|done]. }
  unfold with_sprintf, finish_sprintf.
  rewrite (bind_Done _ _ _ _ _ (doprnt_text savechar fmt args 0 t _ _ Ht H1)). rewrite (bind_Done get _ _ _ _ eq_refl).
  assert (is_Some (cells (s_mem st1) !! s_buf st1)) as Hso.
  { destruct Hs as (_ & Hk & _). rewrite Hb, Hk by lia. apply Hmp. lia. }
  erewrite (bind_Done (on_mem _)) by (unfold on_mem; rewrite (st_run (s_buf st1) 0 (s_mem st1) Hso); reflexivity).
  simpl. split.
  - rewrite Hl. apply sext_small; [|lia]. split; [lia|]. unfold fitting. destruct (max =? _); [lia|]. rewrite length_take. lia.
  - rewrite Hb. by apply stored_snoc.
Qed.

(** ** Numbers *)

(** The number the digits [ds] stand for behind the value [v]. *)
Definition number (base v : Z) (ds : list Z) : Z := foldl (λ v c, v * base + default 0 (digit_value base c)) v ds.
Definition is_numeral (base c : Z) : Prop := is_Some (digit_value base c).

Lemma number_app base v l1 l2 : number base v (l1 ++ l2) = number base (number base v l1) l2.
Proof. apply foldl_app. Qed.

Lemma digs_value base d :
  2 ≤ base ≤ 16 → 0 ≤ d < base → ∃ c, digs !! Z.to_nat d = Some c ∧ digit_value base c = Some d ∧ 0 < c < 256.
Proof.
  intros Hb Hd.
  assert (forallb (λ b, forallb (λ d, match digs !! Z.to_nat d with
    | Some c => bool_decide (digit_value b c = Some d ∧ 0 < c < 256) | None => false end) (seqZ 0 b)) (seqZ 2 15) = true) as Hall by (vm_compute; done).
  rewrite forallb_forall in Hall. specialize (Hall base ltac:(apply list_elem_of_In, elem_of_seqZ; lia)). rewrite forallb_forall in Hall.
  specialize (Hall d ltac:(apply list_elem_of_In, elem_of_seqZ; lia)). destruct (digs !! Z.to_nat d) as [c|].
  - exists c. split; [done|]. by apply bool_decide_eq_true in Hall.
  - done.
Qed.

Lemma digits_run {S} room u base acc (s : S) :
  2 ≤ base ≤ 16 → 0 ≤ u < base ^ Z.of_nat room → (0 < room)%nat →
  ∃ ds, digits_loop room u base acc s = Done (ds ++ acc) s ∧ ds ≠ [] ∧ (length ds ≤ room)%nat ∧
    Forall (λ c, is_numeral base c ∧ 0 < c < 256) ds ∧ ∀ v, number base v ds = v * base ^ Z.of_nat (length ds) + u.
Proof.
  intros Hb. revert u acc. induction room as [|room IH]; intros u acc Hu Hr; [lia|]. cbn [digits_loop].
  destruct (Z.eqb_spec base 0); [lia|]. pose proof (Z.mod_pos_bound u base ltac:(lia)) as Hmod. pose proof (Z.div_mod u base ltac:(lia)) as Hdm.
  destruct (digs_value base (u mod base) Hb Hmod) as (c & Hc & Hv & Hcr). rewrite Hc. cbn [of_opt]. rewrite bind_ret.
  destruct (Z.eqb_spec (u / base) 0) as [Hz|Hnz]; cbn [negb].
  - exists [c]. split_and!; [done|done|simpl; lia| |].
    + apply Forall_singleton. split; [by exists (u mod base)|done].
    + intros v. unfold number. simpl. rewrite Hv. simpl. nia.
  - assert (0 ≤ u / base) by (apply Z.div_pos; lia).
    assert (u / base < base ^ Z.of_nat room) as Hlt.
    { apply Z.div_lt_upper_bound; [lia|]. rewrite Nat2Z.inj_succ, Z.pow_succ_r in Hu by lia. lia. }
    assert (0 < room)%nat. { destruct room; [simpl in Hlt; lia|lia]. }
    destruct (IH (u / base) (c :: acc)) as (ds & -> & Hne & Hlen & Hnum & Hval); [lia|lia|].
    exists (ds ++ [c]). rewrite <-app_assoc. split_and!; [done|by destruct ds|rewrite length_app; simpl; lia| |].
    + apply Forall_app. split; [done|]. apply Forall_singleton. split; [by exists (u mod base)|done].
    + intros v. rewrite number_app, Hval, length_app. unfold number. simpl. rewrite Hv. simpl.
      rewrite Nat2Z.inj_add, Z.pow_add_r by lia. change (Z.of_nat 1) with 1. rewrite Z.pow_1_r. nia.
Qed.

(** ** strtoul reads it back *)

Lemma number_wrap base v ds : u64 (number base (u64 v) ds) = u64 (number base v ds).
Proof.
  revert v. induction ds as [|c ds IH]; intros v; [apply wrap_wrap; lia|]. unfold number in *. simpl.
  rewrite <-IH. rewrite <-(IH (v * base + _)). do 2 f_equal. rewrite <-wrap_add_l, wrap_mul_l, wrap_add_l. done.
Qed.

Lemma strtoul_loop_run fuel base v p ds c m :
  arr (cells m) p (ds ++ [c]) → Forall (is_numeral base) ds → digit_value base c = None → (length ds < fuel)%nat → 0 ≤ v < 2 ^ 64 →
  strtoul_loop fuel base v p m = Done (u64 (number base v ds), p + Z.of_nat (length ds)) m.
Proof.
  revert v p ds. induction fuel as [|fuel IH]; intros v p ds Ha Hn Hc Hf Hv; [lia|]. cbn [strtoul_loop].
  destruct ds as [|d ds]; simpl in Ha, Hf; apply arr_cons in Ha as [H0 Ha].
  - mstep (ld_run p c m H0). rewrite Hc. simpl. rewrite Z.add_0_r, wrap_small by lia. done.
  - mstep (ld_run p d m H0). apply Forall_cons in Hn as [[x Hx] Hn]. rewrite Hx.
    rewrite (IH _ _ ds Ha Hn Hc) by (lia || apply wrap_range; lia). f_equal. f_equal; [|simpl; lia].
    rewrite number_wrap. unfold number. simpl. by rewrite Hx.
Qed.

Lemma skip_spaces_run fuel p k c m :
  arr (cells m) p (replicate k 32 ++ [c]) → isspace c = false → (k < fuel)%nat → skip_spaces fuel p m = Done (p + Z.of_nat k) m.
Proof.
  revert p k. induction fuel as [|fuel IH]; intros p k Ha Hc Hf; [lia|]. cbn [skip_spaces].
  destruct k as [|k]; simpl in Ha; apply arr_cons in Ha as [H0 Ha]; mstep (ld_run _ _ _ H0).
  - rewrite Hc. by rewrite Z.add_0_r.
  - change (isspace 32) with true. cbv iota. rewrite (IH (p + 1) k Ha Hc) by lia. f_equal. lia.
Qed.

Lemma numeral_plain base c : 2 ≤ base ≤ 16 → is_numeral base c → isspace c = false ∧ c ≠ chr "x" ∧ c ≠ chr "X".
Proof.
  intros Hb [d Hd]. unfold digit_value in Hd. change (chr "0") with 48 in *. change (chr "9") with 57 in *. change (chr "a") with 97 in *.
  change (chr "z") with 122 in *. change (chr "A") with 65 in *. change (chr "Z") with 90 in *.
  assert (48 ≤ c ≤ 57 ∨ 97 ≤ c < 103 ∨ 65 ≤ c < 71) as Hc.
  { repeat case_match; rewrite ?andb_true_iff, ?Z.leb_le, ?Z.ltb_lt in *; try done; lia. }
  change (chr "x") with 120. change (chr "X") with 88. split; [|lia].
  unfold isspace. change (chr " ") with 32. rewrite !orb_false_iff, !Z.eqb_neq. lia.
Qed.

(** Blanks, a number, and a character that ends it. *)
Lemma strtoul_run p k ds c base m :
  (base = 8 ∨ base = 10 ∨ base = 16) → arr (cells m) p (replicate k 32 ++ ds ++ [c]) → ds ≠ [] → Forall (is_numeral base) ds →
  digit_value base c = None → c ≠ chr "x" ∧ c ≠ chr "X" →
  strtoul p base m = Done (u64 (number base 0 ds), p + Z.of_nat (k + length ds)) m.
Proof.
  intros Hbase Ha Hne Hn Hc Hx. pose proof (arr_size _ _ _ Ha) as Hsz. rewrite !length_app, length_replicate in Hsz. simpl in Hsz.
  unfold strtoul. mstep (scan_run m). set (fuel := S (size (cells m))).
  destruct ds as [|d ds]; [done|]. pose proof Hn as [Hd Hn']%Forall_cons. destruct (numeral_plain base d ltac:(lia) Hd) as (Hsp & Hdx & HdX).
  pose proof Ha as [Hk Hds]%arr_app. rewrite length_replicate in Hds.
  assert (arr (cells m) p (replicate k 32 ++ [d])) as Hk1.
  { apply arr_app. split; [done|]. rewrite length_replicate. simpl in Hds. apply arr_cons in Hds as [H0 _]. apply arr_cons. split; [done|apply arr_nil]. }
  rewrite (bind_Done _ _ _ _ _ (skip_spaces_run fuel p k d m Hk1 Hsp ltac:(unfold fuel; lia))). cbn beta iota.
  simpl in Hds. pose proof Hds as [H0 H1]%arr_cons. mstep (ld_run _ _ _ H0).
  assert (∃ c1, (if ((base =? 16) || (base =? 0)) && (d =? chr "0") then ld (p + Z.of_nat k + 1) else mret 0) m = Done c1 m ∧ c1 ≠ chr "x" ∧ c1 ≠ chr "X") as (c1 & Hc1 & Hcx & HcX).
  { destruct (((base =? 16) || (base =? 0)) && (d =? chr "0")); [|by exists 0].
    destruct ds as [|d1 ds]; simpl in H1; apply arr_cons in H1 as [H1 _].
    - exists c. by rewrite (ld_run _ _ _ H1).
    - exists d1. rewrite (ld_run _ _ _ H1). split; [done|]. apply Forall_cons in Hn' as [Hd1 _]. by apply (numeral_plain base d1 ltac:(lia)). }
  mstep Hc1. destruct (Z.eqb_spec c1 (chr "x")); [done|]. destruct (Z.eqb_spec c1 (chr "X")); [done|]. cbn [orb].
  mstep (ld_run _ _ _ H0). destruct (Z.eqb_spec base 0); [lia|].
  rewrite (strtoul_loop_run fuel base 0 (p + Z.of_nat k) (d :: ds) c m) by (done || (unfold fuel; simpl in *; lia)). do 2 f_equal. lia.
Qed.

(** The text of an unsigned conversion without prefix: blanks, zeros, digits,
    blanks. *)
Lemma puts_collect t l : puts_ collect t l = Done tt (l ++ t).
Proof.
  unfold puts_. revert l. induction t as [|x t IH]; intros l; simpl; [by rewrite app_nil_r|].
  rewrite (bind_Done (collect x) _ _ _ _ eq_refl), IH, <-app_assoc. done.
Qed.
Lemma pad_run c n l : pad collect c n l = Done (Z.min n 0 - 1) (l ++ replicate (Z.to_nat n) c).
Proof. unfold pad. by rewrite (bind_Done _ _ _ _ _ (puts_collect _ l)). Qed.

(** Run code that collects. *)
Ltac run_out :=
  change (chr " " =? chr " ") with true; change (chr " " =? chr "0") with false;
  change (chr "0" =? chr " ") with false; change (chr "0" =? chr "0") with true; cbn [andb negb];
  repeat first [rewrite bind_ret | rewrite (bind_Done _ _ _ _ _ (puts_collect _ _)) | rewrite (bind_Done _ _ _ _ _ (pad_run _ _ _))];
  change (chr " ") with 32; change (chr "0") with 48; cbn [replicate]; unfold mret, M_ret; f_equal; rewrite ?app_nil_r, <-?app_assoc, ?app_nil_l; done.

Definition plain (f : fields) : Prop :=
  f_altfmt f = false ∧ (f_padc f = chr " " ∨ f_padc f = chr "0") ∧ 0 ≤ f_length f < 2 ^ 30 ∧ -1 ≤ f_prec f < 2 ^ 30.

Lemma print_num_text f u base l :
  plain f → (base = 8 ∨ base = 10 ∨ base = 16) → 0 ≤ u < 2 ^ 64 →
  ∃ k1 k2 ds k3, print_num collect f false u base 0 l = Done tt (l ++ replicate k1 32 ++ (replicate k2 48 ++ ds) ++ replicate k3 32) ∧
    (k1 + k2 + length ds + k3 ≤ Z.to_nat (f_length f) + Z.to_nat (f_prec f) + 64)%nat ∧
    ds ≠ [] ∧ Forall (λ c, is_numeral base c ∧ 0 < c < 256) ds ∧ number base 0 ds = u.
Proof.
  intros (Halt & Hpad & Hl & Hp) Hbase Hu. unfold print_num. rewrite Halt, andb_false_r.
  assert (u64 base = base) as -> by (apply wrap_small; lia).
  destruct (digits_run MAXBUF u base [] l ltac:(lia)) as (ds & Hds & Hne & Hlen & Hnum & Hval).
  { split; [lia|]. change (Z.of_nat MAXBUF) with 64. apply (Z.lt_le_trans _ (2 ^ 64)); [lia|]. apply Z.pow_le_mono_l. lia. }
  { unfold MAXBUF. lia. }
  rewrite app_nil_r in Hds. mstep Hds. change MAXBUF with 64%nat in Hlen. cbn [length]. change (negb (0 =? 0)) with false. cbv iota.
  set (prec := f_prec f - Z.of_nat (length ds)). set (len := if 0 <? prec then _ else _).
  assert (len = f_length f - Z.of_nat (length ds) - Z.max prec 0) as Elen by (unfold len; destruct (Z.ltb_spec 0 prec); lia).
  destruct (Z.ltb_spec prec (- MAXINT)); [unfold MAXINT in *; lia|]. destruct (Z.ltb_spec len (- MAXINT)); [unfold MAXINT in *; lia|]. cbn [orb].
  assert (number base 0 ds = u) as Hv0 by (rewrite Hval; lia).
  assert (prec = f_prec f - Z.of_nat (length ds)) as Eprec by done. clearbody len prec.
  destruct Hpad as [->| ->]; destruct (f_ladjust f).
  - exists 0%nat, (Z.to_nat prec), ds, (Z.to_nat len). split; [run_out|split_and!; try done; lia].
  - exists (Z.to_nat len), (Z.to_nat prec), ds, 0%nat. split; [run_out|split_and!; try done; lia].
  - exists 0%nat, (Z.to_nat prec + Z.to_nat len)%nat, ds, (Z.to_nat (Z.min len 0 - 1)). rewrite replicate_add. split; [run_out|split_and!; try done; lia].
  - exists 0%nat, (Z.to_nat prec + Z.to_nat len)%nat, ds, 0%nat. rewrite replicate_add. split; [run_out|split_and!; try done; lia].
Qed.

(** ** Formats with width and precision from the arguments *)

Definition star_format (zero : bool) (c : ascii) : list Z :=
  codes "%" ++ (if zero then codes "0" else []) ++ codes "*.*" ++ [chr c].
Definition unsigned_letter (c : ascii) (base : Z) : Prop := (c, base) ∈ [("u"%char, 10); ("x"%char, 16); ("o"%char, 8)].

Lemma s32_u64 x : - 2 ^ 31 ≤ x < 2 ^ 31 → s32 (u64 x) = x.
Proof.
  intros Hx. rewrite <-(sext_id 32 x) at 2 by lia. unfold sext. assert (u32 (u64 x) = u32 x) as ->; [|done].
  unfold wrap. apply Z.mod_mod_divide. by exists (2 ^ 32).
Qed.

Lemma va_num_run {S} x args (s : S) : va_num (VNum x :: args) s = Done (x, args) s.
Proof. done. Qed.
Lemma convert_unsigned c base f args l :
  unsigned_letter c base → convert collect (chr c) 0 f args l = print_unsigned collect f false base args l.
Proof.
  unfold unsigned_letter. rewrite !elem_of_cons. by intros [[= -> ->]|[[= -> ->]|[[= -> ->]|[]%not_elem_of_nil]]].
Qed.

Lemma star_conversion (zero : bool) (c : ascii) w p u l :
  - 2 ^ 30 < w < 2 ^ 30 → - 1 ≤ p < 2 ^ 30 → chr c ≠ chr "l" →
  conversion collect 0 ((if zero then codes "0" else []) ++ codes "*.*" ++ [chr c]) [VNum (u64 w); VNum (u64 p); VNum u] l =
  (args ← convert collect (chr c) 0 (Fields (Z.abs w) p (w <? 0) (if zero then chr "0" else chr " ") 0 false) [VNum u]; mret ([] : list Z, args)) l.
Proof.
  intros Hw Hp Hl. unfold conversion.
  assert (flags_loop false false 0 ((if zero then codes "0" else []) ++ codes "*.*" ++ [chr c]) =
    (false, false, 0, (if zero then codes "0" else []) ++ codes "*.*" ++ [chr c])) as -> by (by destruct zero).
  assert ((if next ((if zero then codes "0" else []) ++ codes "*.*" ++ [chr c]) =? chr "0"
    then (chr "0", tail ((if zero then codes "0" else []) ++ codes "*.*" ++ [chr c])) else (chr " ", (if zero then codes "0" else []) ++ codes "*.*" ++ [chr c])) =
    (if zero then chr "0" else chr " ", codes "*.*" ++ [chr c])) as -> by (by destruct zero).
  assert (∀ l, read_width (S := list Z) false (codes "*.*" ++ [chr c]) [VNum (u64 w); VNum (u64 p); VNum u] l =
    Done (Z.abs w, w <? 0, codes ".*" ++ [chr c], [VNum (u64 p); VNum u]) l) as Hrw.
  { intros l0. unfold read_width. change (is_digit (next (codes "*.*" ++ [chr c]))) with false. change (next (codes "*.*" ++ [chr c]) =? chr "*") with true.
    cbv iota. rewrite (bind_Done _ _ _ _ _ (va_num_run _ _ _)). cbv zeta. cbn [fst snd]. rewrite s32_u64 by lia. destruct (Z.eqb_spec w (- 2 ^ 31)); [lia|].
    destruct (Z.ltb_spec w 0); unfold mret, M_ret; by rewrite ?Z.abs_neq, ?Z.abs_eq by lia. }
  mstep (Hrw l).
  assert (∀ l, read_prec (S := list Z) (codes ".*" ++ [chr c]) [VNum (u64 p); VNum u] l = Done (p, [chr c], [VNum u]) l) as Hrp.
  { intros l0. unfold read_prec. change (next (codes ".*" ++ [chr c]) =? chr ".") with true. cbv iota zeta.
    change (is_digit (next (tail (codes ".*" ++ [chr c])))) with false. change (next (tail (codes ".*" ++ [chr c])) =? chr "*") with true.
    cbv iota. rewrite (bind_Done _ _ _ _ _ (va_num_run _ _ _)). cbn [fst snd]. by rewrite s32_u64 by lia. }
  mstep (Hrp l). change (next [chr c]) with (chr c). destruct (Z.eqb_spec (chr c) (chr "l")); [done|]. done.
Qed.

Lemma star_text zero c base w p u :
  unsigned_letter c base → - 2 ^ 30 < w < 2 ^ 30 → -1 ≤ p < 2 ^ 30 → 0 ≤ u < 2 ^ 64 →
  ∃ k1 k2 ds k3, text (star_format zero c) [VNum (u64 w); VNum (u64 p); VNum u] 0 (replicate k1 32 ++ (replicate k2 48 ++ ds) ++ replicate k3 32) ∧
    (k1 + k2 + length ds + k3 ≤ Z.to_nat (Z.abs w) + Z.to_nat p + 64)%nat ∧
    ds ≠ [] ∧ Forall (λ c, is_numeral base c ∧ 0 < c < 256) ds ∧ number base 0 ds = u.
Proof.
  intros Hc Hw Hp Hu.
  set (f := Fields (Z.abs w) p (w <? 0) (if zero then chr "0" else chr " ") 0 false).
  assert (plain f) as Hf by (unfold plain, f; simpl; destruct zero; lia || (split_and!; auto; lia)).
  assert (base = 8 ∨ base = 10 ∨ base = 16) as Hbase by (unfold unsigned_letter in Hc; set_solver).
  destruct (print_num_text f u base [] Hf Hbase Hu) as (k1 & k2 & ds & k3 & Hrun & Hk & Hrest).
  exists k1, k2, ds, k3. split; [|done]. simpl app in Hrun. revert Hrun. set (t := replicate k1 32 ++ _). intros Hrun.
  change (_doprnt collect (star_format zero c) [VNum (u64 w); VNum (u64 p); VNum u] 0 [] = Done tt t).
  unfold _doprnt. change (star_format zero c) with (chr "%" :: ((if zero then codes "0" else []) ++ codes "*.*" ++ [chr c])).
  cbn [length doprnt_loop]. change (chr "%" =? chr "%") with true. cbn [negb].
  assert (convert collect (chr c) 0 f [VNum u] [] = Done [] t) as Hconv.
  { rewrite (convert_unsigned c base) by done. unfold print_unsigned. rewrite (bind_Done _ _ _ _ _ (va_num_run _ _ _)). cbn [fst snd].
    rewrite (wrap_small 64) by lia. by rewrite (bind_Done _ _ _ _ _ Hrun). }
  assert (chr c ≠ chr "l") as Hl by (unfold unsigned_letter in Hc; set_solver).
  assert (conversion collect 0 ((if zero then codes "0" else []) ++ codes "*.*" ++ [chr c]) [VNum (u64 w); VNum (u64 p); VNum u] [] = Done ([], []) t) as Hcv.
  { rewrite star_conversion by done. by rewrite (bind_Done _ _ _ _ _ Hconv). }
  rewrite (bind_Done _ _ _ _ _ Hcv). cbn [fst snd]. destruct zero; done.
Qed.

(** ** Claims *)

(** C32: The routines agree on the text of a format.  When formatting with an
    output that only collects characters gives the text [t], printf sends
    exactly [t] to the console behind what was sent before, whatever its buffer
    holds back in between; and snprintf stores the first [size] characters of
    [t], terminates them, returns their number and changes no other byte.  The
    terminator is one byte more than [size] when the text is that long. *)
Theorem output_routines_agree fmt args t p m s size :
  text fmt args 0 t → Forall (λ c, 0 ≤ c < 256) t → Z.of_nat (length t) < 2 ^ 31 →
  0 ≤ size < 2 ^ 32 - 1 → mapped (cells m) s (Z.min size (Z.of_nat (length t)) + 1) →
  wp (printf fmt args p) (λ r p', r = 0 ∧ p_console p' = p_console p ++ t) ∧
  wp (snprintf s size fmt args m) (λ r m', r = Z.min size (Z.of_nat (length t)) ∧ stored_at m m' s (take (Z.to_nat size) t ++ [0])).
Proof.
  intros Ht Hb Hlen Hsz Hmp. split; [by apply printf_run|].
  assert (fitting size t = take (Z.to_nat size) t) as E.
  { unfold fitting, SPRINTF_UNLIMITED. destruct (Z.eqb_spec size (2 ^ 32 - 1)); [lia|done]. }
  assert (Z.of_nat (length (fitting size t)) = Z.min size (Z.of_nat (length t))) as El by (rewrite E, length_take; lia).
  unfold snprintf, vsnprintf. rewrite (wrap_small 32) by lia.
  eapply wp_mono; [apply (sprintf_at_run m s size fmt args t); try done; [lia|by rewrite El]|].
  intros r m' [-> Hst]. rewrite E in Hst. split; [exact El|exact Hst].
Qed.

(** C31: Numbers survive printing.  sprintf with %u, %x or %o, with or without
    zero padding and for any width (negative: left adjusted) and precision,
    followed by strtoul on what it stored in the same base, returns the number,
    for every number of 64 bits. *)
Theorem sprintf_strtoul zero c base w p u s m :
  unsigned_letter c base → - 2 ^ 29 < w < 2 ^ 29 → - 1 ≤ p < 2 ^ 29 → 0 ≤ u < 2 ^ 64 →
  mapped (cells m) s (Z.abs w + Z.max p 0 + 65) →
  wp ((sprintf s (star_format zero c) [VNum (u64 w); VNum (u64 p); VNum u];; strtoul s base) m) (λ r _, r.1 = u).
Proof.
  intros Hc Hw Hp Hu Hmp. destruct (star_text zero c base w p u Hc ltac:(lia) ltac:(lia) Hu) as (k1 & k2 & ds & k3 & Ht & Hk & Hne & Hds & Hv).
  assert (base = 8 ∨ base = 10 ∨ base = 16) as Hbase by (unfold unsigned_letter in Hc; set_solver).
  assert (length (replicate k1 32 ++ (replicate k2 48 ++ ds) ++ replicate k3 32) = (k1 + k2 + length ds + k3)%nat) as El.
  { rewrite !length_app, !length_replicate. lia. }
  revert Ht El. set (t := replicate k1 32 ++ _). intros Ht El.
  rewrite wp_bind. unfold sprintf, vsprintf. eapply wp_mono; [apply (sprintf_at_run m s SPRINTF_UNLIMITED _ _ t Ht)|].
  - unfold t. rewrite !Forall_app. split_and!; try (apply Forall_replicate; lia). eapply Forall_impl; [exact Hds|]. simpl. lia.
  - unfold SPRINTF_UNLIMITED. lia.
  - lia.
  - change (fitting SPRINTF_UNLIMITED t) with t. intros b Hb. apply Hmp. lia.
  - change (fitting SPRINTF_UNLIMITED t) with t. intros r m' [_ (Ha & _ & _)].
    assert (∃ c rest, replicate k3 32 ++ [0] = c :: rest ∧ (c = 32 ∨ c = 0)) as (e & rest & Ee & Hec) by (destruct k3; simpl; eauto).
    unfold t in Ha. rewrite <-!app_assoc, Ee in Ha.
    rewrite (strtoul_run s k1 (replicate k2 48 ++ ds) e base m' Hbase).
    + simpl. rewrite number_app. assert (number base 0 (replicate k2 48) = 0) as ->.
      { clear -Hbase. induction k2 as [|k2 IH]; [done|]. unfold number in *. simpl.
        replace (default 0 (digit_value base 48)) with 0; [exact IH|]. by destruct Hbase as [->|[->| ->]]. }
      rewrite Hv. apply wrap_small. lia.
    + rewrite (app_assoc _ ds), (app_assoc (replicate k1 32)) in Ha. rewrite (app_assoc (replicate k1 32)).
      apply arr_app in Ha as [Ha1 Ha2]. apply arr_app. split; [done|]. apply arr_cons in Ha2 as [Ha2 _]. apply arr_cons. split; [done|apply arr_nil].
    + destruct k2; [done|]. done.
    + apply Forall_app. split; [apply Forall_replicate; by destruct Hbase as [->|[->| ->]]; eexists|]. eapply Forall_impl; [exact Hds|]. by intros x [? _].
    + by destruct Hec as [->| ->], Hbase as [->|[->| ->]].
    + by destruct Hec as [->| ->].
Qed.

(** ** Witnesses *)

Definition out_mem : cmem := Cmem (list_to_map ((λ a, (a, 7)) <$> seqZ 100 100)) 0.
Lemma out_mapped n : 0 ≤ n ≤ 100 → mapped (cells out_mem) 100 n.
Proof.
  intros Hn b Hb. assert (forallb (λ b, match cells out_mem !! b with Some _ => true | None => false end) (seqZ 100 100) = true) as Hf by (vm_compute; reflexivity).
  rewrite forallb_forall in Hf. specialize (Hf b). destruct (cells out_mem !! b); [eauto|]. discriminate Hf. apply list_elem_of_In, elem_of_seqZ. lia.
Qed.

Lemma output_routines_agree_witness :
  wp (snprintf 100 4 (codes "n=%d.") [VNum 42] out_mem) (λ r m', r = 4 ∧ stored_at out_mem m' 100 (codes "n=42" ++ [0])).
Proof.
  apply (output_routines_agree (codes "n=%d.") [VNum 42] (codes "n=42.") (Pstate ∅ 0 []) out_mem 100 4).
  - vm_compute. reflexivity.
  - repeat (apply Forall_cons; split; [vm_compute; split; [discriminate|reflexivity]|]). apply Forall_nil. exact I.
  - vm_compute. reflexivity.
  - lia.
  - apply (out_mapped 5). lia.
Defined.

Lemma sprintf_strtoul_witness :
  wp ((sprintf 100 (star_format true "x") [VNum (u64 (-8)); VNum (u64 3); VNum 48879];; strtoul 100 16) out_mem) (λ r _, r.1 = 48879).
Proof.
  apply (sprintf_strtoul true "x" 16 (-8) 3 48879 100 out_mem).
  - unfold unsigned_letter. right. left.
  - lia.
  - lia.
  - lia.
  - apply (out_mapped 76). lia.
Defined.

(** ** Where the routines differ from what they are meant to do *)

(** snprintf of a text longer than the buffer writes past it: the buffer of four
    bytes at 100 is followed by nothing. *)
Theorem snprintf_overruns :
  snprintf 100 4 (codes "abcdef") [] (Cmem (list_to_map ((λ a, (a, 7)) <$> seqZ 100 4)) 0) = Fault.
Proof. vm_compute. reflexivity. Qed.

(** A left-adjusted string that the precision cuts is padded to one less than its
    width. *)
Theorem ladjust_cut_short : text (codes "%-6.3s|") [VStr (Some (codes "abcdef"))] 0 (codes "abc  |").
Proof. vm_compute. reflexivity. Qed.

(** The example of a bit field in the comment of doprnt.c prints otherwise. *)
Theorem bits_example :
  text (codes "reg = %b") [VNum 11; VStr (Some ([8; 4; 3] ++ codes "FIELD1=" ++ [2] ++ codes "BITTWO" ++ [1] ++ codes "BITONE"))] 0
    (codes "reg = 13<FIELD1=2,BITTWO,BITONE>").
Proof. vm_compute. reflexivity. Qed.
