(* ===== verification/Fs.v ===== *)
(** * Directories and paths (kernel/core/fs/fs.c)

    [junk] is what the stack holds where a directory entry is declared and not
    initialised. *)

From S2P Require Import Prelude Clist Buf Bitmap FsState Layout Bcache Balloc Inode Str.

Definition FS_MAX_PATH : Z := 10 * (MAXNAME + 2).
Definition FS_PATH_DELIMITATOR : list Z := [47].
Definition O_MODE_MASK : Z := 7.
Definition O_R : Z := 1.
Definition O_W : Z := 2.
Definition O_X : Z := 4.
Definition O_CREAT : Z := 8.

Section Fs.
Context {E : Type} `{Env E}.
Context (junk : list Z).

Definition set_root : M (sys E) Z :=
  r ← inode_get FS_ROOT_INODE_ID;
  on_fs (with_root r);;
  res ← inode_lock r;
  if res <? 0 then mret res else
  v ← get_slot r;
  if negb (di_type (i_content v) =? INODE_DIRECTORY) then inode_unlock r;; mret (- EIO) else
  inode_unlock r;;
  mret 0.

(** When the superblock cannot be read the label [out] releases a null
    pointer. *)
Definition check_format : M (sys E) Z :=
  blk ← bcache_read FS_SUPERBLK;
  match blk with
  | None => fault
  | Some blk =>
    b ← get_buf blk;
    on_fs (with_sb (meta_get (cb_buf b)));;
    sbk ← get_sb;
    let res :=
      if negb (magic sbk =? FS_MAGIC_NUMBER) then - EIO
      else if negb (blk_size sbk =? FS_BLK_SIZE) then - EIO else 0 in
    bcache_release blk;;
    mret res
  end.

Definition fs_init : M (sys E) Z :=
  bcache_init;;
  res ← check_format;
  if res <? 0 then mret res else
  res ← inode_init;
  if res <? 0 then mret res else
  res ← set_root;
  if res <? 0 then mret res else mret 0.

(** The entry as it is built on the stack. *)
Definition new_entry (name : list Z) (inum : Z) : dirent :=
  Dirent (name ++ [0] ++ drop (S (length name)) (take 16 junk)) inum.

Definition dir_add_entry (dir : Z) (name : list Z) (inum : Z) : M (sys E) Z :=
  let len := s32 (Z.of_nat (length name) + 1) in
  if MAXNAME <? len then mret (- ENAMETOOLONG) else
  let entry := new_entry name inum in
  res ← inode_lock dir;
  if res <? 0 then mret res else
  v ← get_slot dir;
  res ← inode_write dir (KernSrc (dirent_bytes entry)) (di_size (i_content v)) SIZEOF_DIRENT;
  inode_unlock dir;;
  mret (s32 res).

(** The loop over the entries from offset [off] on; [entry] is the structure
    on the stack.  The result: [res] and the inode that was found. *)
Fixpoint dir_lookup_loop (fuel : nat) (dir : Z) (name : list Z) (off : Z) (entry : list Z) :
    M (sys E) (Z * option Z) :=
  match fuel with
  | O => nofuel
  | S fuel =>
    v ← get_slot dir;
    if off <? di_size (i_content v) then
      r ← inode_read dir KernDst (u32 off) SIZEOF_DIRENT;
      let '(res, data) := r in
      let entry := data ++ drop (length data) entry in
      if s32 res <? 0 then mret (s32 res, None) else
      let e := dirent_of entry in
      if de_inum e =? 0 then dir_lookup_loop fuel dir name (off + SIZEOF_DIRENT) entry else
      c ← of_opt (strncmp_val (Z.to_nat MAXNAME) (de_name e) (name ++ [0]));
      if c =? 0 then i ← inode_get (de_inum e); mret (0, Some i)
      else dir_lookup_loop fuel dir name (off + SIZEOF_DIRENT) entry
    else mret (- ENOENT, None)
  end.
(** The size of a file is a [uint32_t]: that bounds the entries. *)
Definition dir_lookup (dir : Z) (name : list Z) : M (sys E) (Z * option Z) :=
  res ← inode_lock dir;
  if res <? 0 then mret (res, None) else
  v ← get_slot dir;
  if negb (di_type (i_content v) =? INODE_DIRECTORY) then inode_unlock dir;; mret (- ENOTDIR, None) else
  r ← dir_lookup_loop (S (Z.to_nat (di_size (i_content v)))) dir name 0 junk;
  inode_unlock dir;;
  mret r.

Definition strtok (s : option (list Z)) : M (sys E) (option (list Z)) :=
  (match s with Some s => on_fs (with_holder (Some s)) | None => mret tt end);;
  f ← get_fs;
  let '(t, h) := strtok_val FS_PATH_DELIMITATOR (holder f) in
  on_fs (with_holder h);;
  mret t.

(** The walk from [curr], down to the last token. *)
Fixpoint walk_path (fuel : nat) (flags leaf_type : Z) (token : option (list Z)) (curr : Z) : M (sys E) eptr :=
  match fuel with
  | O => nofuel
  | S fuel =>
    match token with
    | None => mret (PTR curr)
    | Some token =>
      next_token ← strtok None;
      r ← dir_lookup curr token;
      let '(res, found) := r in
      let err (res : Z) : M (sys E) eptr := inode_put curr;; mret (ERR_PTR res) in
      let on (next : Z) := inode_put curr;; walk_path fuel flags leaf_type next_token next in
      if res =? - ENOENT then
        if has flags O_CREAT then
          created ← inode_create (match next_token with Some _ => INODE_DIRECTORY | None => leaf_type end);
          match created with
          | ERR_PTR e => err (s32 e)
          | PTR created =>
            v ← get_slot created;
            res ← dir_add_entry curr token (i_ino v);
            if res <? 0 then err res else on created
          end
        else err res
      else if res <? 0 then err res
      else match found with Some next => on next | None => fault end
    end
  end.

(** The path is a string of the kernel; the copy has [FS_MAX_PATH] bytes. *)
Definition fs_inode_from_path (path : list Z) (flags leaf_type : Z) : M (sys E) eptr :=
  match path with
  | [] => mret (ERR_PTR (- EINVAL))
  | c :: _ =>
    if negb (c =? 47) then mret (ERR_PTR (- EINVAL)) else
    if FS_MAX_PATH <? Z.of_nat (length path) + 1 then fault else
    token ← strtok (Some path);
    f ← get_fs;
    r ← get_slot (root f);
    curr ← inode_get (i_ino r);
    walk_path (S (length path)) flags leaf_type token curr
  end.

Definition fs_mknod (path : list Z) (dev_id : Z) : M (sys E) Z :=
  i ← fs_inode_from_path path O_CREAT INODE_DEVICE;
  match i with
  | ERR_PTR e => mret (s32 e)
  | PTR i =>
    res ← inode_lock i;
    if res <? 0 then inode_put i;; mret res else
    upd_slot i (on_content (di_set_dev_id (u8 dev_id)));;
    inode_mark_dirty i;;
    inode_unlock i;;
    inode_put i;;
    mret 0
  end.
End Fs.
