(* ===== verification/File.v ===== *)
(** * Open files (kernel/core/fs/file.c)

    The table of open files.  A device registers callbacks; the driver is a
    parameter of the calls that go through them. *)

From S2P Require Import Prelude Clist Buf Bitmap FsState Layout Bcache Balloc Inode Str Fs.

Definition FILE_MAX_NUM : Z := 100.
Definition FILE_MAX_DEV : Z := 30.
Definition SEEK_SET : Z := 1.
Definition SEEK_CUR : Z := 2.
Definition SEEK_END : Z := 4.

Definition f_set_refcnt (v : Z) (f : file) : file := File v (f_i f) (f_off f) (f_mode f) (f_ops f).
Definition f_set_i (v : Z) (f : file) : file := File (f_refcnt f) v (f_off f) (f_mode f) (f_ops f).
Definition f_set_off (v : Z) (f : file) : file := File (f_refcnt f) (f_i f) v (f_mode f) (f_ops f).
Definition f_set_mode (v : Z) (f : file) : file := File (f_refcnt f) (f_i f) (f_off f) v (f_ops f).
Definition f_set_ops (v : file_ops) (f : file) : file := File (f_refcnt f) (f_i f) (f_off f) (f_mode f) v.

(** The table starts zeroed: an entry that is absent was never used. *)
Definition file_zero : file := File 0 0 0 0 NoOps.
Definition ftable_at (f : fs) (k : Z) : file := default file_zero (ftable f !! k).

Section File.
Context {E : Type} `{Env E}.
Context (junk : list Z).
(** The callbacks of the driver [d]: read and write on the file [k]. *)
Context (r_cb : Z → Z → rdst → Z → M (sys E) (Z * list Z)) (w_cb : Z → Z → wsrc → Z → M (sys E) Z).

Definition file_at (k : Z) : M (sys E) file :=
  if (0 <=? k) && (k <? FILE_MAX_NUM) then f ← get_fs; mret (ftable_at f k) else fault.
Definition upd_file_at (k : Z) (g : file → file) : M (sys E) unit := f ← file_at k; set_file k (g f).

Fixpoint file_alloc_loop (ks : list Z) : M (sys E) (option Z) :=
  match ks with
  | [] => mret None
  | k :: ks => f ← file_at k; if f_refcnt f =? 0 then mret (Some k) else file_alloc_loop ks
  end.
Definition file_alloc : M (sys E) (option Z) :=
  file_alloc_loop (Z.of_nat <$> seq 0 (Z.to_nat FILE_MAX_NUM)).

Definition file_clone (k : Z) : M (sys E) (option Z) :=
  new ← file_alloc;
  match new with
  | None => mret None
  | Some n =>
    f ← file_at k;
    upd_file_at n (λ _, f);;
    v ← get_slot (f_i f);
    i ← inode_get (i_ino v);
    upd_file_at n (f_set_i i);;
    upd_file_at n (f_set_refcnt 1);;
    mret (Some n)
  end.

Definition file_put (k : Z) : M (sys E) unit :=
  f ← file_at k;
  upd_file_at k (λ f, f_set_refcnt (u32 (f_refcnt f - 1)) f);;
  if f_refcnt f =? 1 then inode_put (f_i f) else mret tt.

Definition file_get (k : Z) : M (sys E) Z :=
  upd_file_at k (λ f, f_set_refcnt (u32 (f_refcnt f + 1)) f);; mret k.

Definition file_map_dev_cb (dev_id drv : Z) : M (sys E) unit :=
  if (0 <=? dev_id) && (dev_id <? FILE_MAX_DEV) then on_fs (λ f, with_dev_map (<[dev_id := drv]> (dev_map f)) f)
  else fault.

Definition file_reader (k : Z) (dst : rdst) (count : Z) : M (sys E) (Z * list Z) :=
  f ← file_at k;
  let i := f_i f in
  res ← inode_lock i;
  if res <? 0 then mret (- EIO, []) else
  f ← file_at k;
  r ← inode_read i dst (u32 (f_off f)) count;
  let '(readed, data) := r in
  if readed <? 0 then inode_unlock i;; mret (res, data) else
  upd_file_at k (λ f, f_set_off (s64 (f_off f + readed)) f);;
  inode_unlock i;;
  mret (s32 readed, data).

Definition file_writer (k : Z) (src : wsrc) (count : Z) : M (sys E) Z :=
  f ← file_at k;
  let i := f_i f in
  res ← inode_lock i;
  if res <? 0 then mret (- EIO) else
  f ← file_at k;
  written ← inode_write i src (u32 (f_off f)) count;
  if written <? 0 then inode_unlock i;; mret res else
  res ← inode_mark_dirty i;
  if res <? 0 then inode_unlock i;; mret res else
  upd_file_at k (λ f, f_set_off (s64 (f_off f + written)) f);;
  inode_unlock i;;
  mret (s32 written).

Definition link_dev_cb (k dev_id : Z) : M (sys E) unit :=
  if dev_id <? FILE_MAX_DEV then
    fs ← get_fs;
    upd_file_at k (f_set_ops (match dev_map fs !! dev_id with Some drv => DevOps drv | None => NoOps end))
  else fault.

Definition file_write (k : Z) (src : wsrc) (count : Z) : M (sys E) Z :=
  f ← file_at k;
  if negb (has (f_mode f) O_W) then mret (- EBADF) else
  match f_ops f with
  | FileOps => file_writer k src count
  | DevOps d => w_cb d k src count
  | NoOps => fault
  end.

Definition file_read (k : Z) (dst : rdst) (count : Z) : M (sys E) (Z * list Z) :=
  f ← file_at k;
  if negb (has (f_mode f) O_R) then mret (- EBADF, []) else
  match f_ops f with
  | FileOps => file_reader k dst count
  | DevOps d => r_cb d k dst count
  | NoOps => fault
  end.

Definition file_open (path : list Z) (flags : Z) : M (sys E) eptr :=
  i ← fs_inode_from_path junk path flags INODE_FILE;
  match i with
  | ERR_PTR e => mret (ERR_PTR e)
  | PTR i =>
    f ← file_alloc;
    match f with
    | None => inode_put i;; mret (ERR_PTR (- ENFILE))
    | Some k =>
      res ← inode_lock i;
      if res <? 0 then inode_put i;; mret (ERR_PTR res) else
      v ← get_slot i;
      (if di_type (i_content v) =? INODE_DEVICE then link_dev_cb k (di_dev_id (i_content v))
       else upd_file_at k (f_set_ops FileOps));;
      inode_unlock i;;
      upd_file_at k (f_set_i i);;
      upd_file_at k (f_set_mode (u8 (Z.land flags O_MODE_MASK)));;
      upd_file_at k (f_set_off 0);;
      upd_file_at k (f_set_refcnt 1);;
      mret (PTR k)
    end
  end.

Definition file_seek (k offset whence : Z) : M (sys E) Z :=
  let move (next : Z) :=
    if next <? 0 then mret (- EINVAL) else upd_file_at k (f_set_off next);; mret next in
  f ← file_at k;
  if whence =? SEEK_SET then move offset
  else if whence =? SEEK_CUR then move (s64 (f_off f + offset))
  else if whence =? SEEK_END then
    let i := f_i f in
    res ← inode_lock i;
    if res <? 0 then mret res else
    v ← get_slot i;
    let next := s64 (di_size (i_content v) + offset) in
    inode_unlock i;;
    move next
  else mret (- EINVAL).
End File.
