(* ===== verification/FsDemo.v ===== *)
(** * A machine with a disk

    A disk made by mkfs, in the kernel's environment, and the file system
    started on it: the concrete states of the witnesses. *)

From S2P Require Import Prelude Clist Sched Sync Pages Vpages Buf Bitmap FsState Layout Mkfs Bcache BcacheInv Kenv CacheThm Balloc Inode Str Fs File.

(** The image as the blocks of a disk. *)
Definition disk_of (im : bytes) : gmap Z bytes :=
  map_fold (λ a v dk, if v =? 0 then dk else
    let k := 8 * (a / FS_BLK_SIZE) in <[k := <[a mod FS_BLK_SIZE := v]> (default ∅ (dk !! k))]> dk) ∅ im.

(** An image of one megabyte with the file "hi". *)
Definition demo_files : list hfile := [HFile [47; 104; 105] (Some 3) [[72; 105; 33]] false].
Definition demo_img : bytes := img (end_of (mkfs_main 1 (λ _ _, true) demo_files (mkst0 1)) (mkst0 1)).

Definition blank_ino : inode := Inode 0 0 false (Dinode 0 0 0 0 (replicate 12 0) 0).
Definition fs_zero : fs :=
  Fs {[FBufList := CNode FBufList FBufList false; FIcache := CNode FIcache FIcache false]}
    (list_to_map ((λ i, (i, blank)) <$> buf_idx)) (list_to_map ((λ i, (i, blank_ino)) <$> buf_idx)) ∅ ∅
    (FsMeta 0 0 0 0 0 0 0 0 0 0 0) 0 None.
Definition demo_start : sys kenv := Sys fs_zero (KEnv kst0 (Pmem ∅ ∅ ∅) (disk_of demo_img) devs0).
Definition demo : sys kenv := end_of (fs_init demo_start) demo_start.

(** The members of a list, in order. *)
Fixpoint ring (fuel : nat) (s : store fnode) (h n : fnode) : list fnode :=
  match fuel with
  | O => []
  | S fuel => match s !! n with
    | Some c => if bool_decide (next c = h) then [] else next c :: ring fuel s h (next c)
    | None => []
    end
  end.
Definition bl_of (f : fs) : list Z :=
  omap (λ n, match n with FBuf i => Some i | _ => None end) (ring 100 (fs_nodes f) FBufList FBufList).
Definition il_of (f : fs) : list Z :=
  omap (λ n, match n with FIno i => Some i | _ => None end) (ring 100 (fs_nodes f) FIcache FIcache).
