(* ===== verification/InodeThm.v ===== *)
(** * What files promise

    The claims on inodes, with their witnesses on the machine of FsDemo.v. *)

From S2P Require Import Prelude Clist Sched Sync Pages Vpages Buf Bitmap FsState Layout Mkfs Bcache BcacheInv Kenv CacheThm Balloc BallocInv AllocThm Inode FileMap InodeInv Str Fs File FsDemo.

Section Claims.
Context {E : Type} {HEnv : Env E} {HSpec : EnvSpec E} {HLaws : EnvLaws E}.


(** When the disk is full, asking for a direct block a file does not have
    fails with -ENOSPC, and the inode then keeps that code, 2^32 - 28, where the
    number of the block belongs: the test of the number for an error is on an
    unsigned variable.  From then on asking for the block fails with -ENOSPC
    even when blocks have become free, without looking for one. *)
Theorem enospc_is_remembered f e hs dk il i v nth :
  iat f e hs dk il i v → file_ok (sb f) (lblk f dk) (i_content v) → 0 ≤ nth < 12 → 2 ≤ spare f →
  blkno_of (lblk f dk) (i_content v) nth = 0 → full (sb f) (lblk f dk) →
  runs (get_dir_blk i nth (Sys f e)) (λ r s', r = - ENOSPC ∧
    ∀ s2 : sys E, islots (s_fs s2) !! i = islots (s_fs s') !! i → get_dir_blk i nth s2 = Done (- ENOSPC) s2).
Proof.
  intros Hat Hfo Hn Hsp H0 Hfull. eapply runs_mono; [by apply (get_dir_blk_runs f e hs dk il i v nth)|].
  intros r s' (c' & d' & He' & Hg & Hgv). pose proof Hg as (_ & (Hsl & _) & _). simpl in Hsl.
  destruct Hgv as [(Hne & _)|[(_ & j & d1 & (Hj & Hf & _) & _)|(_ & -> & _ & Hp)]]; [done|by rewrite Hfull in Hf|].
  split; [done|]. intros [f2 e2] Hs2. simpl in Hs2. rewrite Hsl, lookup_insert_eq in Hs2.
  unfold placed in Hp. change FS_INODE_DIR_DBLKNO with 12 in Hp. destruct (Z.ltb_spec nth 12); [|lia].
  destruct Hp as [-> _]. unfold get_dir_blk. mstep (get_slot_run i f2 e2 _ Hs2). simpl.
  rewrite list_lookup_insert_eq; [done|]. destruct (dw_dir _ (fo_wf _ _ _ Hfo)) as [_ ->]. lia.
Qed.
End Claims.

(** ** Witnesses *)

(** The file "hi" open and locked: inode 2. *)
Definition open_hi : M (sys kenv) Z := i ← inode_get 2; inode_lock i;; mret i.
Definition hi_slot : Z := match open_hi demo with Done i _ => i | _ => 0 end.
Definition hi_sys : sys kenv := end_of (open_hi demo) demo.
Definition hi_ino : inode := default blank_ino (islots (s_fs hi_sys) !! hi_slot).
Definition hi_locks : gset lock := {[LIno hi_slot]}.

Definition usedb (m : fs_meta) (d : Z → bytes) (b : Z) : bool :=
  (data_start m <=? b) && (b <? nb_blk m) && dbit m d (b - data_start m).
Lemma usedb_used m d b : usedb m d b = true → used m d b.
Proof. unfold usedb. rewrite !andb_true_iff, Z.leb_le, Z.ltb_lt. intros [[? ?] ?]. done. Qed.

(** The check of a file without an indirect block. *)
Definition file_okb (m : fs_meta) (d : Z → bytes) (c : dinode) : bool :=
  (di_indir c =? 0) && bool_decide (0 ≤ di_size c < 12 * 4096) && bool_decide (0 ≤ di_type c < 256) &&
  bool_decide (0 ≤ di_dev_id c < 256) && bool_decide (0 ≤ di_nblink c < 2 ^ 32) &&
  bool_decide (length (di_dirblkno c) = 12%nat) && forallb (λ b, bool_decide (0 ≤ b < 2 ^ 32)) (di_dirblkno c) &&
  forallb (λ n, (blkno_of d c n =? 0) || usedb m d (blkno_of d c n)) (seqZ 0 12) &&
  forallb (λ n, forallb (λ n', (blkno_of d c n =? 0) || negb (blkno_of d c n =? blkno_of d c n') || (n =? n')) (seqZ 0 12)) (seqZ 0 12) &&
  forallb (λ n, negb (n * 4096 <? di_size c) || negb (blkno_of d c n =? 0)) (seqZ 0 12).

Lemma file_okb_ok m d c : file_okb m d c = true → file_ok m d c.
Proof.
  unfold file_okb. rewrite !andb_true_iff, !forallb_forall, Z.eqb_eq.
  intros (((((((((Hi & Hs) & Ht) & Hd) & Hn) & Hl) & Hb) & Hu) & Hj) & Hden).
  apply bool_decide_eq_true_1 in Hs, Ht, Hd, Hn, Hl. assert (nmax c = 12) as Enm by (unfold nmax; by rewrite Hi).
  assert (∀ n, 0 ≤ n < 12 → In n (seqZ 0 12)) as Hin by (intros n Hn0; apply list_elem_of_In, elem_of_seqZ; lia).
  split; [|split|]; rewrite ?Enm.
  - split; try done; unfold is_u32; [lia| |lia]. split; [|done]. apply Forall_forall. intros b Hb0%list_elem_of_In.
    specialize (Hb b Hb0). by apply bool_decide_eq_true_1 in Hb.
  - intros n Hn0 Hne. specialize (Hu n (Hin n Hn0)). apply orb_true_iff in Hu as [Hu|Hu]; [apply Z.eqb_eq in Hu; lia|by apply usedb_used].
  - intros n n' Hn0 Hn1 Hne Heq. specialize (Hj n (Hin n Hn0)). rewrite forallb_forall in Hj. specialize (Hj n' (Hin n' Hn1)).
    rewrite !orb_true_iff, negb_true_iff, !Z.eqb_eq, Z.eqb_neq in Hj. naive_solver.
  - done.
  - change FS_BLK_SIZE with 4096. intros n Hn0 Hlt. assert (n < 12) by lia. split; [done|].
    specialize (Hden n (Hin n ltac:(lia))). rewrite orb_true_iff, !negb_true_iff, Z.ltb_ge, Z.eqb_neq in Hden. naive_solver lia.
Qed.

Lemma hi_iat : iat (s_fs hi_sys) (s_env hi_sys) hi_locks (dk_of hi_sys) (il_of (s_fs hi_sys)) hi_slot hi_ino.
Proof.
  split.
  - apply at_envb_at. vm_compute. reflexivity.
  - apply (binvb_inv _ hi_locks _ (bl_of (s_fs hi_sys))). vm_compute. reflexivity.
  - assert (sb (s_fs hi_sys) = superblock 1) as -> by (vm_compute; reflexivity). apply superblock_layout. lia.
  - unfold hi_locks. set_solver.
  - unfold hi_locks. set_solver.
  - vm_compute. reflexivity.
Qed.
Lemma hi_file_ok : file_ok (sb (s_fs hi_sys)) (lblk (s_fs hi_sys) (dk_of hi_sys)) (i_content hi_ino).
Proof. apply file_okb_ok. vm_compute. reflexivity. Qed.


(** The same machine with every bit of the data bitmap set. *)
Definition full_disk : gmap Z bytes := <[32 := of_list (replicate 4096 255)]> (disk_of demo_img).
Definition full_start : sys kenv := Sys fs_zero (KEnv kst0 (Pmem ∅ ∅ ∅) full_disk devs0).
Definition full_sys : sys kenv := end_of ((fs_init;; open_hi) full_start) full_start.
Definition full_ino : inode := default blank_ino (islots (s_fs full_sys) !! hi_slot).

Lemma full_iat : iat (s_fs full_sys) (s_env full_sys) hi_locks (dk_of full_sys) (il_of (s_fs full_sys)) hi_slot full_ino.
Proof.
  split.
  - apply at_envb_at. vm_compute. reflexivity.
  - apply (binvb_inv _ hi_locks _ (bl_of (s_fs full_sys))). vm_compute. reflexivity.
  - assert (sb (s_fs full_sys) = superblock 1) as -> by (vm_compute; reflexivity). apply superblock_layout. lia.
  - unfold hi_locks. set_solver.
  - unfold hi_locks. set_solver.
  - vm_compute. reflexivity.
Qed.
Lemma full_file_ok : file_ok (sb (s_fs full_sys)) (lblk (s_fs full_sys) (dk_of full_sys)) (i_content full_ino).
Proof. apply file_okb_ok. vm_compute. reflexivity. Qed.
Lemma full_full : full (sb (s_fs full_sys)) (lblk (s_fs full_sys) (dk_of full_sys)).
Proof.
  intros j Hj. assert (nb_dblk (sb (s_fs full_sys)) = 245) as En by (vm_compute; reflexivity). rewrite En in Hj.
  assert (forallb (dbit (sb (s_fs full_sys)) (lblk (s_fs full_sys) (dk_of full_sys))) (seqZ 0 245) = true) as Hf by (vm_compute; reflexivity).
  rewrite forallb_forall in Hf. apply Hf, list_elem_of_In, elem_of_seqZ. exact Hj.
Qed.

Lemma enospc_is_remembered_witness : runs (get_dir_blk hi_slot 1 full_sys) (λ r _, r = -28).
Proof.
  assert (full_sys = Sys (s_fs full_sys) (s_env full_sys)) as Es by apply surjective_sys. rewrite Es at 1.
  eapply runs_mono; [apply (enospc_is_remembered _ _ _ _ _ _ _ 1 full_iat full_file_ok)|].
  - split; [discriminate|reflexivity].
  - vm_compute. discriminate.
  - vm_compute. reflexivity.
  - exact full_full.
  - intros r s' [-> _]. reflexivity.
Defined.

(** ** Files past twelve blocks *)

Definition no_dev_r : Z → Z → rdst → Z → M (sys kenv) (Z * list Z) := λ _ _ _ _, fault.
Definition no_dev_w : Z → Z → wsrc → Z → M (sys kenv) Z := λ _ _ _ _, fault.
Definition fill (k x : Z) : M (sys kenv) unit :=
  each (λ _ : nat, file_write no_dev_w k (KernSrc (replicate 4096 x)) 4096;; mret tt) (seq 0 13).

(** Thirteen blocks of 'A' into the new file /a, as many of 'B' into the new
    file /b, then what /a holds at its thirteenth block. *)
Definition two_large_files : M (sys kenv) (list Z) :=
  a ← file_open (replicate 20 0) [47; 97] (O_R + O_W + O_CREAT);
  b ← file_open (replicate 20 0) [47; 98] (O_R + O_W + O_CREAT);
  match a, b with
  | PTR a, PTR b =>
    fill a 65;; fill b 66;;
    file_seek a (12 * FS_BLK_SIZE) SEEK_SET;;
    r ← file_read no_dev_r a KernDst 4;
    mret r.2
  | _, _ => fault
  end.

