(* ===== verification/Mmap.v ===== *)
(** * The state of the whole kernel, and its address spaces
      (kernel/core/memory/mmap.c, the trap frames of arch/trap.c)

    The kernel's state puts together the file system and its environment (the
    scheduler, physical memory and the disk), the kernel heap, the root of the
    kernel's page table, the satp register, and for each task the fields of its
    structure that only the context switch reads. *)

From S2P Require Import Prelude Clist Sched Pages Vpages Tinyalloc FsState Pci Kenv.

(** How a task starts when it is first given the processor. *)
Inductive entry_point := Idle | KtaskLauncher | TrapReturnToUser.
Record start := Start { st_code : Z; st_ra : option entry_point; st_sp : Z }.

Record kern := Kern {
  kn_sys : sys kenv;
  kn_heap : theap;
  kn_kroot : Z;
  kn_satp : Z;
  kn_start : gmap tid start;
}.

Definition kn_set_sys (v : sys kenv) (s : kern) : kern := Kern v (kn_heap s) (kn_kroot s) (kn_satp s) (kn_start s).
Definition kn_set_heap (v : theap) (s : kern) : kern := Kern (kn_sys s) v (kn_kroot s) (kn_satp s) (kn_start s).
Definition kn_set_kroot (v : Z) (s : kern) : kern := Kern (kn_sys s) (kn_heap s) v (kn_satp s) (kn_start s).
Definition kn_set_satp (v : Z) (s : kern) : kern := Kern (kn_sys s) (kn_heap s) (kn_kroot s) v (kn_start s).
Definition kn_set_start (v : gmap tid start) (s : kern) : kern := Kern (kn_sys s) (kn_heap s) (kn_kroot s) (kn_satp s) v.

(** ** Running the parts *)

Fixpoint zoom_sys {A : Type} (s : kern) (o : outcome (sys kenv) A) : outcome kern A :=
  match o with
  | Done a x => Done a (kn_set_sys x s)
  | Panic msg => Panic msg
  | Fault => Fault
  | NoFuel => NoFuel
  | Switch x k => Switch (kn_set_sys x s) (λ s', zoom_sys s' (k (kn_sys s')))
  end.
Definition on_sys {A} (m : M (sys kenv) A) : M kern A := λ s, zoom_sys s (m (kn_sys s)).
Definition on_k {A} (m : M kst A) : M kern A := on_sys (env (on_kst m)).
Definition on_p {A} (m : M pmem A) : M kern A := on_sys (env (on_pmem m)).

Fixpoint zoom_heap {A : Type} (s : kern) (o : outcome theap A) : outcome kern A :=
  match o with
  | Done a x => Done a (kn_set_heap x s)
  | Panic msg => Panic msg
  | Fault => Fault
  | NoFuel => NoFuel
  | Switch x k => Switch (kn_set_heap x s) (λ s', zoom_heap s' (k (kn_heap s')))
  end.
Definition on_heap {A} (m : M theap A) : M kern A := λ s, zoom_heap s (m (kn_heap s)).

(** ** More fields of a task *)

Definition with_root_ptable (v : Z) (t : task) : task :=
  Task (pid t) (tgid t) (name t) (state t) v (user t) (tframe_pa t) (tframe_va t)
    (wake_up_time t) (parent t) (exit_code t) (prio t) (fdtable t).
Definition with_tframe_pa (v : Z) (t : task) : task :=
  Task (pid t) (tgid t) (name t) (state t) (root_ptable t) (user t) v (tframe_va t)
    (wake_up_time t) (parent t) (exit_code t) (prio t) (fdtable t).
Definition with_tframe_va (v : Z) (t : task) : task :=
  Task (pid t) (tgid t) (name t) (state t) (root_ptable t) (user t) (tframe_pa t) v
    (wake_up_time t) (parent t) (exit_code t) (prio t) (fdtable t).
Definition with_tgid (v : Z) (t : task) : task :=
  Task (pid t) v (name t) (state t) (root_ptable t) (user t) (tframe_pa t) (tframe_va t)
    (wake_up_time t) (parent t) (exit_code t) (prio t) (fdtable t).
Definition with_fdtable (v : list Z) (t : task) : task :=
  Task (pid t) (tgid t) (name t) (state t) (root_ptable t) (user t) (tframe_pa t) (tframe_va t)
    (wake_up_time t) (parent t) (exit_code t) (prio t) v.

(** ** mmap.c *)

Definition SATP_SV39_MODE : Z := 8.
Definition SATP_MODE_SHIFT : Z := 60.
Definition UART_BASE : Z := 0x10000000.
Definition PLIC_MMIO_BASE : Z := 0x0c000000.
Definition PLIC_MMIO_SIZE : Z := 0x202000.

Section Mmap.
(** The trampoline: symbols of the linker script. *)
Context (trampoline_start trampoline_end : Z).

Definition mmap_satp (pt : Z) : Z := Z.lor (Z.shiftl SATP_SV39_MODE SATP_MODE_SHIFT) (page_get_num pt).
Definition mmap_kernel_satp : M kern Z := s ← get; mret (mmap_satp (kn_kroot s)).
Definition mmap_switch_to_kernel : M kern unit := v ← mmap_kernel_satp; modify (kn_set_satp v).

Definition iommap_kernel (addr size : Z) : M kern Z :=
  s ← get;
  res ← on_p (vpage_map_range (kn_kroot s) addr addr size (Z.lor PTE_R PTE_W));
  if res <? 0 then mret res else mret 0.

Definition mmap_kernel : M kern Z :=
  kroot ← on_p page_alloc;
  modify (kn_set_kroot kroot);;
  if kroot =? NULL then mret (- ENOMEM) else
  let err_free_root (res : Z) : M kern Z := on_p (page_put kroot);; mret res in
  res ← on_p (vpage_map_range kroot ram_start ram_start (ram_end - ram_start) (Z.lor (Z.lor PTE_R PTE_W) PTE_X));
  if res <? 0 then err_free_root res else
  res ← on_p (vpage_map_range kroot TRAMPOLINE trampoline_start (trampoline_end - trampoline_start) (Z.lor PTE_X PTE_R));
  if res <? 0 then err_free_root res else
  res ← on_p (vpage_map kroot UART_BASE UART_BASE (Z.lor PTE_R PTE_W));
  if res <? 0 then err_free_root res else
  res ← on_p (vpage_map_range kroot PCI_ECAM_BASE_ADDRESS PCI_ECAM_BASE_ADDRESS PCI_ECAM_SIZE (Z.lor PTE_R PTE_W));
  if res <? 0 then err_free_root res else
  res ← on_p (vpage_map_range kroot PLIC_MMIO_BASE PLIC_MMIO_BASE PLIC_MMIO_SIZE (Z.lor PTE_R PTE_W));
  if res <? 0 then err_free_root res else
  mmap_switch_to_kernel;;
  mret 0.

Definition mmap_uspace (p : tid) : M kern Z :=
  v ← on_k (get_task p);
  if negb (user v) then mret (- EINVAL) else
  root ← on_p page_alloc;
  if root =? NULL then mret (- ENOMEM) else
  t ← on_p page_alloc;
  if t =? NULL then on_p (vpage_tree_free root);; mret (- ENOMEM) else
  res ← on_p (vpage_map root TRAPFRAME t (Z.lor PTE_R PTE_W));
  if res <? 0 then on_p (page_put t);; on_p (vpage_tree_free root);; mret res else
  on_k (upd_task p (with_root_ptable root));;
  on_k (upd_task p (with_tframe_pa t));;
  on_k (upd_task p (with_tframe_va TRAPFRAME));;
  mret 0.

Definition mmap_uimage (p : tid) : M kern Z :=
  res ← mmap_uspace p;
  if res <? 0 then mret res else
  v ← on_k (get_task p);
  let root := root_ptable v in
  let err_free_tree (res : Z) : M kern Z :=
    on_p (vpage_tree_free root);;
    on_k (upd_task p (with_root_ptable NULL));;
    on_k (upd_task p (with_tframe_pa NULL));;
    mret res in
  res ← on_p (vpage_map_range root TRAMPOLINE trampoline_start (trampoline_end - trampoline_start) (Z.lor (Z.lor PTE_X PTE_R) PTE_G));
  if res <? 0 then err_free_tree res else
  stack ← on_p page_alloc;
  if stack =? NULL then err_free_tree (- ENOMEM) else
  res ← on_p (vpage_map_user root USTACK_TOP stack (Z.lor PTE_R PTE_W));
  if res <? 0 then on_p (page_put stack);; err_free_tree res else
  mret 0.
End Mmap.

(** ** Trap frames: a page, as the words of [tframe_t] *)

Definition TF_SP : Z := 0.
Definition TF_A : Z := 2 * 8.
Definition TF_SEPC : Z := 29 * 8.
Definition TF_SCAUSE : Z := 30 * 8.
Definition TF_SSTATUS : Z := 31 * 8.
Definition TF_SATP : Z := 32 * 8.
Definition TF_KSTACK : Z := 33 * 8.
Definition TF_KSATP : Z := 34 * 8.
Definition SIZEOF_TFRAME : Z := 35 * 8.
Definition SSTATUS_SPIE : Z := 2 ^ 5.
Definition SSTATUS_SPP : Z := 2 ^ 8.

(** [sstatus]: the register as it is read. *)
Definition get_user_sstatus (sstatus : Z) : Z := Z.lor (Z.ldiff sstatus SSTATUS_SPP) SSTATUS_SPIE.

Definition tframe_init (sstatus t root kstack_top : Z) : M kern unit :=
  on_p (store64 (t + TF_SSTATUS) (get_user_sstatus sstatus));;
  on_p (store64 (t + TF_SATP) (mmap_satp root));;
  on_p (store64 (t + TF_KSTACK) kstack_top);;
  ksatp ← mmap_kernel_satp;
  on_p (store64 (t + TF_KSATP) ksatp).
Definition tframe_start (t entry ustack : Z) : M kern unit :=
  on_p (store64 (t + TF_SP) ustack);; on_p (store64 (t + TF_SEPC) entry).
Definition tframe_set_arg (t idx value : Z) : M kern unit := on_p (store64 (t + TF_A + 8 * idx) value).
Definition tframe_set_return_val (t value : Z) : M kern unit := on_p (store64 (t + TF_A) value).
