(* ===== verification/Hart.v ===== *)
(** * The hart: registers, control registers and assembly (arch/)

    The state of the processor that the C code does not see, and the routines
    in assembly as sequences of instructions: the context switch, the two ways
    into the kernel and back, the way from machine to supervisor mode, and the
    two start files.  A run of stores or loads is the list of its registers and
    slots, in the order of the source.  A store or a load translates its
    address with the page tables that [satp] names, outside of machine mode;
    the translation is an argument.  Writing a control register stores the
    value; fences have no effect on a memory that is sequential. *)

From S2P Require Import Prelude Vpages Mmap.

(** ** State *)

Inductive reg := Zero | Ra | Sp | Gp | Tp | A (i : nat) | T (i : nat) | Sv (i : nat).
#[export] Instance reg_eq_dec : EqDecision reg.
Proof. solve_decision. Defined.

(** The register [sstatus] is a view of [mstatus]. *)
Inductive csr :=
| mstatus | mepc | mcause | mtval | medeleg | mideleg | mtvec | menvcfg | mcounteren | pmpaddr0 | pmpcfg0
| stvec | sscratch | sepc | scause | stval | satp | sie | stimecmp | time.
#[export] Instance csr_eq_dec : EqDecision csr.
Proof. solve_decision. Defined.

Record hart := Hart { hx : reg → Z; hcsr : csr → Z; hmem : gmap Z Z; hpc : Z; hmode : Z }.

Definition PRV_U : Z := 0.
Definition PRV_S : Z := 1.
Definition PRV_M : Z := 3.
Definition MSTATUS_MIE : Z := 8.
Definition MSTATUS_MPP_SHIFT : Z := 11.
Definition MSTATUS_MPP_MASK : Z := 3 * 2 ^ 11.
Definition SSTATUS_SIE : Z := 2.
Definition SSTATUS_SPIE : Z := 2 ^ 5.
Definition SSTATUS_SPP : Z := 2 ^ 8.
Definition MENVCFG_STCE : Z := 2 ^ 63.
Definition MCOUNTEREN_TM : Z := 2.
Definition S_IRQ_TMR : Z := 5.
Definition S_IRQ_EXT : Z := 9.
Definition SIE_STIE : Z := 2 ^ 5.
(** The bits of [mstatus] that [sstatus] shows: SIE, SPIE, UBE, SPP, VS, FS,
    XS, SUM, MXR, UXL and SD. *)
Definition SSTATUS_MASK : Z := 2 + 2 ^ 5 + 2 ^ 6 + 2 ^ 8 + 3 * 2 ^ 9 + 3 * 2 ^ 13 + 3 * 2 ^ 15 + 2 ^ 18 + 2 ^ 19 + 3 * 2 ^ 32 + 2 ^ 63.

Definition set_x (r : reg) (v : Z) (h : hart) : hart :=
  Hart (λ q, if decide (q = r) then v else hx h q) (hcsr h) (hmem h) (hpc h) (hmode h).
Definition set_csr (c : csr) (v : Z) (h : hart) : hart :=
  Hart (hx h) (λ d, if decide (d = c) then v else hcsr h d) (hmem h) (hpc h) (hmode h).
Definition set_hmem (m : gmap Z Z) (h : hart) : hart := Hart (hx h) (hcsr h) m (hpc h) (hmode h).
Definition set_pc (p : Z) (h : hart) : hart := Hart (hx h) (hcsr h) (hmem h) p (hmode h).
Definition set_mode (p : Z) (h : hart) : hart := Hart (hx h) (hcsr h) (hmem h) (hpc h) p.
Definition get_x (r : reg) (h : hart) : Z := match r with Zero => 0 | _ => hx h r end.

(** ** Control registers (include/arch/csr.h, cpu.h) *)

Definition csr_read (c : csr) : M hart Z := gets (λ h, hcsr h c).
Definition csr_write (c : csr) (v : Z) : M hart unit := modify (set_csr c (u64 v)).
Definition csr_set (c : csr) (v : Z) : M hart unit := modify (λ h, set_csr c (Z.lor (hcsr h c) v) h).
Definition csr_clear (c : csr) (v : Z) : M hart unit := modify (λ h, set_csr c (Z.ldiff (hcsr h c) v) h).
Definition sstatus_of (h : hart) : Z := Z.land (hcsr h mstatus) SSTATUS_MASK.
Definition sstatus_put (v : Z) (h : hart) : hart :=
  set_csr mstatus (Z.lor (Z.ldiff (hcsr h mstatus) SSTATUS_MASK) (Z.land v SSTATUS_MASK)) h.
Definition read_sstatus : M hart Z := gets sstatus_of.
Definition write_sstatus (v : Z) : M hart unit := modify (sstatus_put v).

Definition irq_enable_m : M hart unit := csr_set mstatus MSTATUS_MIE.
Definition irq_disable_m : M hart unit := csr_clear mstatus MSTATUS_MIE.
Definition irq_enable_s : M hart unit := s ← read_sstatus; write_sstatus (Z.lor s SSTATUS_SIE).
Definition irq_disable_s : M hart unit := s ← read_sstatus; write_sstatus (Z.ldiff s SSTATUS_SIE).
Definition irq_save : M hart Z :=
  flags ← read_sstatus; (if has flags SSTATUS_SIE then irq_disable_s else mret tt);; mret flags.
Definition irq_restore (flags : Z) : M hart unit := if has flags SSTATUS_SIE then irq_enable_s else mret tt.

(** arch/trap.c, kernel/core/memory/memory.c, kernel/core/time/time.c *)
Definition get_user_sstatus : M hart Z :=
  val ← read_sstatus; mret (Z.lor (Z.ldiff val SSTATUS_SPP) SSTATUS_SPIE).
Definition init_mtvec (entry : Z) : M hart unit := csr_write mtvec entry.
Definition init_stvec (entry : Z) : M hart unit := csr_write stvec entry.
Definition PMP_R_BIT : Z := 1.
Definition PMP_W_BIT : Z := 2.
Definition PMP_X_BIT : Z := 4.
Definition PMP_A_NAPOT : Z := 24.
Definition pmp_allow_all : M hart unit :=
  csr_write pmpaddr0 (-1);;
  csr_write pmpcfg0 (Z.lor (Z.lor (Z.lor PMP_A_NAPOT PMP_R_BIT) PMP_W_BIT) PMP_X_BIT).
Definition enable_sstc_extension : M hart unit := csr_set menvcfg MENVCFG_STCE.
Definition enable_stimecmp : M hart unit := csr_set mcounteren MCOUNTEREN_TM.
Definition enable_s_timer : M hart unit := csr_set sie SIE_STIE.
Definition DELAY : Z := 10000000 / 20.
Definition update_timer : M hart unit := t ← csr_read time; csr_write stimecmp (u64 (t + DELAY)).

(** ** Instructions *)

Definition bit_to (n : Z) (b : bool) (v : Z) : Z := if b then Z.setbit v n else Z.clearbit v n.

Definition li (rd : reg) (v : Z) : M hart unit := modify (set_x rd (u64 v)).
Definition mv (rd rs : reg) : M hart unit := modify (λ h, set_x rd (get_x rs h) h).
Definition addi (rd rs : reg) (v : Z) : M hart unit := modify (λ h, set_x rd (u64 (get_x rs h + v)) h).
Definition not_ (rd rs : reg) : M hart unit := modify (λ h, set_x rd (u64 (Z.lnot (get_x rs h))) h).
Definition and_ (rd r1 r2 : reg) : M hart unit := modify (λ h, set_x rd (Z.land (get_x r1 h) (get_x r2 h)) h).
Definition or_ (rd r1 r2 : reg) : M hart unit := modify (λ h, set_x rd (Z.lor (get_x r1 h) (get_x r2 h)) h).
Definition slli (rd rs : reg) (n : Z) : M hart unit := modify (λ h, set_x rd (u64 (Z.shiftl (get_x rs h) n)) h).
Definition csrr (rd : reg) (c : csr) : M hart unit := modify (λ h, set_x rd (hcsr h c) h).
Definition csrw (c : csr) (rs : reg) : M hart unit := modify (λ h, set_csr c (get_x rs h) h).
Definition csrs (c : csr) (rs : reg) : M hart unit := modify (λ h, set_csr c (Z.lor (hcsr h c) (get_x rs h)) h).
Definition csrrw (rd : reg) (c : csr) (rs : reg) : M hart unit :=
  modify (λ h, set_x rd (hcsr h c) (set_csr c (get_x rs h) h)).
Definition csrr_sstatus (rd : reg) : M hart unit := modify (λ h, set_x rd (sstatus_of h) h).
Definition csrw_sstatus (rs : reg) : M hart unit := modify (λ h, sstatus_put (get_x rs h) h).
(** A call through a register; [link] is the address behind it. *)
Definition jalr (rs : reg) (link : Z) : M hart unit := modify (λ h, set_pc (get_x rs h) (set_x Ra link h)).
Definition jr (rs : reg) : M hart unit := modify (λ h, set_pc (get_x rs h) h).
Definition ret : M hart unit := jr Ra.

(** The mode and the status go back to what they were before the trap. *)
Definition sret : M hart unit := modify (λ h,
  let s := sstatus_of h in
  let s' := bit_to 8 false (bit_to 5 true (bit_to 1 (Z.testbit s 5) s)) in
  set_mode (if Z.testbit s 8 then PRV_S else PRV_U) (set_pc (hcsr h sepc) (sstatus_put s' h))).
Definition mret_ : M hart unit := modify (λ h,
  let s := hcsr h mstatus in
  let s' := bit_to 12 false (bit_to 11 false (bit_to 7 true (bit_to 3 (Z.testbit s 7) s))) in
  set_mode (Z.land (Z.shiftr s 11) 3) (set_pc (hcsr h mepc) (set_csr mstatus s' h))).

(** What the processor does on a trap to supervisor mode. *)
Definition take_trap (cause tval : Z) (h : hart) : hart :=
  let s := sstatus_of h in
  let s' := bit_to 8 (negb (hmode h =? PRV_U)) (bit_to 5 (Z.testbit s 1) (bit_to 1 false s)) in
  set_mode PRV_S (set_pc (hcsr h stvec)
    (sstatus_put s' (set_csr stval tval (set_csr scause cause (set_csr sepc (hpc h) h))))).

(** One instruction, and one read of the state. *)
Ltac hstep :=
  match goal with
  | |- context [@mbind _ _ _ _ ?k (modify ?f) ?h] => change (@mbind _ _ _ _ k (modify f) h) with (k tt (f h)); cbv beta
  end.

Ltac hget :=
  match goal with
  | |- context [@mbind _ _ _ _ ?k (gets ?f) ?h] => change (@mbind _ _ _ _ k (gets f) h) with (k (f h) h); cbv beta
  end.

Section Hart.
(** The page tables: from the value of [satp] and a virtual address to a
    physical one. *)
Context (mmu : Z → Z → option Z).

Definition address (a : Z) (h : hart) : option Z := if hmode h =? PRV_M then Some a else mmu (hcsr h satp) a.
Definition sd (rs : reg) (slot : Z) (rb : reg) : M hart unit := λ h,
  match address (u64 (get_x rb h + 8 * slot)) h with
  | Some p => match hmem h !! p with Some _ => Done tt (set_hmem (<[p := get_x rs h]> (hmem h)) h) | None => Fault end
  | None => Fault
  end.
Definition ld (rd : reg) (slot : Z) (rb : reg) : M hart unit := λ h,
  match address (u64 (get_x rb h + 8 * slot)) h with
  | Some p => match hmem h !! p with Some v => Done tt (set_x rd v h) | None => Fault end
  | None => Fault
  end.
Definition sds (l : list (reg * Z)) (rb : reg) : M hart unit := each (λ e, sd e.1 e.2 rb) l.
Definition lds (l : list (reg * Z)) (rb : reg) : M hart unit := each (λ e, ld e.1 e.2 rb) l.

(** ** ctxt.S *)

Definition ctx_regs : list (reg * Z) :=
  [(Ra, 0); (Sp, 1); (Sv 0, 2); (Sv 1, 3); (Sv 2, 4); (Sv 3, 5); (Sv 4, 6); (Sv 5, 7); (Sv 6, 8); (Sv 7, 9);
   (Sv 8, 10); (Sv 9, 11); (Sv 10, 12); (Sv 11, 13)].
Definition ctx_sw : M hart unit := sds ctx_regs (A 0);; lds ctx_regs (A 1);; ret.

(** ** enter_kernel.S *)

Definition enter_kernel : M hart unit :=
  csrw mepc (A 0);;
  csrr (T 0) mstatus;;
  li (T 1) MSTATUS_MPP_MASK;;
  not_ (T 1) (T 1);;
  and_ (T 0) (T 0) (T 1);;
  li (T 1) PRV_S;;
  slli (T 1) (T 1) MSTATUS_MPP_SHIFT;;
  or_ (T 0) (T 0) (T 1);;
  csrw mstatus (T 0);;
  mret_.
Definition delegate_traps : M hart unit :=
  li (T 0) (-1);;
  csrw medeleg (T 0);;
  li (T 0) 1;;
  slli (T 0) (T 0) S_IRQ_EXT;;
  li (T 1) 1;;
  slli (T 1) (T 1) S_IRQ_TMR;;
  or_ (T 0) (T 1) (T 0);;
  csrs mideleg (T 0);;
  ret.

(** ** kernelvec.S *)

Definition caller_regs : list (reg * Z) :=
  [(Ra, 1); (A 0, 2); (A 1, 3); (A 2, 4); (A 3, 5); (A 4, 6); (A 5, 7); (A 6, 8); (A 7, 9);
   (T 0, 10); (T 1, 11); (T 2, 12); (T 3, 13); (T 4, 14); (T 5, 15); (T 6, 16)].
(** [kerneltrap]: the call of the handler. *)
Definition kernelvec (kerneltrap : M hart unit) : M hart unit :=
  addi Sp Sp (-8 * 17);;
  sds caller_regs Sp;;
  kerneltrap;;
  lds caller_regs Sp;;
  addi Sp Sp (8 * 17);;
  sret.

(** ** trampoline.S *)

(** The addresses of [kernelvec] and of [usertrap], in the literal pool, and of
    [trap_return], which follows the call. *)
Context (kernelvec_at usertrap_at trap_return_at : Z).

Definition entry_regs : list (reg * Z) :=
  [(Ra, 1); (A 0, 2); (A 1, 3); (A 2, 4); (A 3, 5); (A 4, 6); (A 5, 7); (A 6, 8); (A 7, 9);
   (T 1, 11); (T 2, 12); (T 3, 13); (T 4, 14); (T 5, 15); (T 6, 16);
   (Sv 0, 17); (Sv 1, 18); (Sv 2, 19); (Sv 3, 20); (Sv 4, 21); (Sv 5, 22); (Sv 6, 23); (Sv 7, 24);
   (Sv 8, 25); (Sv 9, 26); (Sv 10, 27); (Sv 11, 28)].
Definition trap_entry : M hart unit :=
  csrrw Sp sscratch Sp;;
  sd (T 0) 10 Sp;;
  csrr (T 0) sscratch;;
  sd (T 0) 0 Sp;;
  sds entry_regs Sp;;
  csrr (T 0) sepc;;
  sd (T 0) 29 Sp;;
  csrr (T 0) scause;;
  sd (T 0) 30 Sp;;
  csrr_sstatus (T 0);;
  sd (T 0) 31 Sp;;
  csrr (T 0) satp;;
  sd (T 0) 32 Sp;;
  ld (T 0) 33 Sp;;
  ld (T 1) 34 Sp;;
  mv Sp (T 0);;
  csrw satp (T 1);;
  csrw sscratch Zero;;
  li (T 0) kernelvec_at;;
  csrw stvec (T 0);;
  li (T 1) usertrap_at;;
  jalr (T 1) trap_return_at.

Definition return_regs : list (reg * Z) :=
  [(Sp, 0); (Ra, 1); (A 0, 2); (A 2, 4); (A 3, 5); (A 4, 6); (A 5, 7); (A 6, 8); (A 7, 9);
   (Sv 0, 17); (Sv 1, 18); (Sv 2, 19); (Sv 3, 20); (Sv 4, 21); (Sv 5, 22); (Sv 6, 23); (Sv 7, 24);
   (Sv 8, 25); (Sv 9, 26); (Sv 10, 27); (Sv 11, 28);
   (T 2, 12); (T 3, 13); (T 4, 14); (T 5, 15); (T 6, 16); (T 1, 11); (T 0, 10)].
Definition trap_return : M hart unit :=
  li (T 0) TRAMPOLINE;;
  csrw stvec (T 0);;
  csrw satp (A 0);;
  ld (T 0) 31 (A 1);;
  csrw_sstatus (T 0);;
  ld (T 0) 29 (A 1);;
  csrw sepc (T 0);;
  lds return_regs (A 1);;
  csrw sscratch (A 1);;
  ld (A 1) 3 (A 1);;
  sret.

(** ** arch/trap.c, kernel/init/init.c *)

Definition XCAUSE_IRQ : Z := 2 ^ 63.
(** The registers around the handler of the interrupt, an argument. *)
Definition kerneltrap_csr (handler_async_irq : Z → M hart unit) : M hart unit :=
  scause_ ← csr_read scause;
  sstatus_ ← read_sstatus;
  sepc_ ← csr_read sepc;
  (if has scause_ XCAUSE_IRQ then handler_async_irq (Z.ldiff scause_ XCAUSE_IRQ) else panic "unhandled kernel trap");;
  write_sstatus sstatus_;;
  csr_write sepc sepc_.

Context (machine_trap_panic_at kernel_start_at : Z).

Definition trap_init : M hart unit := init_mtvec machine_trap_panic_at;; init_stvec kernelvec_at.
Definition time_init_csr : M hart unit :=
  enable_sstc_extension;; enable_s_timer;; enable_stimecmp;; update_timer.
(** [start], behind the initialisation of the memory and of the uart. *)
Definition start_csr : M hart unit :=
  pmp_allow_all;; delegate_traps;; trap_init;; time_init_csr;; li (A 0) kernel_start_at;; enter_kernel.

(** ** crt0.S, user/crt0.S *)

Context (boot_stack_top bss_start bss_end start_at : Z).

(** [fuel]: the words to clear. *)
Fixpoint clear_bss (fuel : nat) : M hart unit :=
  match fuel with
  | O => λ _, NoFuel
  | S n =>
      sd Zero 0 (T 0);;
      addi (T 0) (T 0) 8;;
      t0 ← gets (get_x (T 0));
      t1 ← gets (get_x (T 1));
      if t0 <? t1 then clear_bss n else mret tt
  end.
Definition entry (fuel : nat) : M hart unit :=
  li Sp boot_stack_top;;
  li (T 0) bss_start;;
  li (T 1) bss_end;;
  clear_bss fuel;;
  modify (set_pc start_at).

Fixpoint clear_user_bss (fuel : nat) : M hart unit :=
  match fuel with
  | O => λ _, NoFuel
  | S n =>
      t0 ← gets (get_x (T 0));
      t1 ← gets (get_x (T 1));
      if t1 <=? t0 then mret tt else
      sd Zero 0 (T 0);;
      addi (T 0) (T 0) 8;;
      clear_user_bss n
  end.
(** The lower half of a word. *)
Definition lw (rd : reg) (slot : Z) (rb : reg) : M hart unit :=
  ld rd slot rb;; modify (λ h, set_x rd (u64 (sext 32 (get_x rd h))) h).
(** [main] and [exit_group]: the calls. *)
Definition start_user (main exit_group : M hart unit) (fuel : nat) : M hart unit :=
  li (T 0) bss_start;;
  li (T 1) bss_end;;
  clear_user_bss fuel;;
  lw (A 0) 0 Sp;;
  addi (A 1) Sp 16;;
  main;;
  exit_group.

(** ** Runs of stores and loads *)

Lemma get_x_pc r q h : get_x r (set_pc q h) = get_x r h.
Proof. by destruct r. Qed.
Lemma get_x_mode r q h : get_x r (set_mode q h) = get_x r h.
Proof. by destruct r. Qed.
Lemma get_x_csr r c q h : get_x r (set_csr c q h) = get_x r h.
Proof. by destruct r. Qed.
Lemma get_x_mem r q h : get_x r (set_hmem q h) = get_x r h.
Proof. by destruct r. Qed.
Lemma get_x_x r r' v h : r ≠ r' → get_x r (set_x r' v h) = get_x r h.
Proof. intros Hne. destruct r; try done; unfold get_x; simpl; by rewrite decide_False. Qed.
Lemma get_x_same r v h : r ≠ Zero → get_x r (set_x r v h) = v.
Proof. intros Hne. destruct r; try done; unfold get_x; simpl; by rewrite decide_True. Qed.

(** The [n] slots from the address in [rb] on are the words at [p]. *)
Definition Slots (h : hart) (b p n : Z) : Prop :=
  ∀ i, 0 ≤ i < n → address (u64 (b + 8 * i)) h = Some (p + 8 * i) ∧ is_Some (hmem h !! (p + 8 * i)).

Lemma slots_ext h h' b p n :
  Slots h b p n → hmode h' = hmode h → hcsr h' satp = hcsr h satp → (∀ a, is_Some (hmem h !! a) → is_Some (hmem h' !! a)) → Slots h' b p n.
Proof. intros HS Hm Hc Hk i Hi. destruct (HS i Hi) as [Ha Hs]. unfold address in *. rewrite Hm, Hc. auto. Qed.

Lemma hart_sd_run h b p n rs slot rb : Slots h b p n → get_x rb h = b → 0 ≤ slot < n →
  sd rs slot rb h = Done tt (set_hmem (<[p + 8 * slot := get_x rs h]> (hmem h)) h).
Proof. intros HS <- Hs. destruct (HS slot Hs) as [Ha [v Hv]]. unfold sd. by rewrite Ha, Hv. Qed.

Lemma hart_ld_run h b p n rd slot rb : Slots h b p n → get_x rb h = b → 0 ≤ slot < n →
  ∃ v, hmem h !! (p + 8 * slot) = Some v ∧ ld rd slot rb h = Done tt (set_x rd v h).
Proof. intros HS <- Hs. destruct (HS slot Hs) as [Ha [v Hv]]. exists v. split; [done|]. unfold ld. by rewrite Ha, Hv. Qed.

(** What the stores leave in the memory. *)
Definition stored (l : list (reg * Z)) (x : reg → Z) (p : Z) (m : gmap Z Z) : gmap Z Z :=
  foldl (λ m e, <[p + 8 * e.2 := x e.1]> m) m l.

Lemma stored_other l x p m a : (∀ e, e ∈ l → a ≠ p + 8 * e.2) → stored l x p m !! a = m !! a.
Proof.
  revert m. induction l as [|e l IH]; intros m Ha; [done|]. simpl. rewrite IH by (intros; apply Ha; by right).
  apply lookup_insert_ne. intros E. apply (Ha e); [left|done].
Qed.
Lemma stored_some l x p m a : is_Some (m !! a) → is_Some (stored l x p m !! a).
Proof. revert m. induction l as [|e l IH]; intros m Ha; [done|]. simpl. apply IH, lookup_insert_is_Some'. by right. Qed.
Lemma stored_in l x p m r i : NoDup (snd <$> l) → (r, i) ∈ l → stored l x p m !! (p + 8 * i) = Some (x r).
Proof.
  revert m. induction l as [|e l IH]; intros m Hnd Hin; [by apply elem_of_nil in Hin|].
  simpl in Hnd. apply NoDup_cons in Hnd as [Hni Hnd]. apply elem_of_cons in Hin as [<-|Hin]; [|by apply IH].
  cbn [stored foldl fst snd]. change (foldl _ _ _) with (stored l x p (<[p + 8 * i := x r]> m)).
  rewrite stored_other; [apply lookup_insert_eq|]. intros e He E. apply Hni, list_elem_of_fmap. exists e. split; [simpl; lia|done].
Qed.

Lemma sds_run l rb h b p n : Slots h b p n → get_x rb h = b → Forall (λ e, 0 ≤ e.2 < n) l →
  sds l rb h = Done tt (set_hmem (stored l (λ r, get_x r h) p (hmem h)) h).
Proof.
  intros HS Hb Hl. revert h HS Hb. induction Hl as [|[r i] l Hi _ IH]; intros h HS Hb; [by destruct h|].
  unfold sds. cbn [each fst snd]. mstep (hart_sd_run h b p n r i rb HS Hb Hi). unfold sds in IH. rewrite IH; [done| |done].
  apply (slots_ext h); [done..|]. intros a Ha. simpl. apply lookup_insert_is_Some'. by right.
Qed.

(** What the loads leave in the registers. *)
Definition loaded (l : list (reg * Z)) (p : Z) (h : hart) : hart :=
  foldl (λ h e, set_x e.1 (default 0 (hmem h !! (p + 8 * e.2))) h) h l.

Lemma loaded_frame l p h :
  hmem (loaded l p h) = hmem h ∧ hcsr (loaded l p h) = hcsr h ∧ hpc (loaded l p h) = hpc h ∧ hmode (loaded l p h) = hmode h.
Proof. revert h. induction l as [|e l IH]; intros h; [done|]. simpl. by destruct (IH (set_x e.1 (default 0 (hmem h !! (p + 8 * e.2))) h)) as (-> & -> & -> & ->). Qed.
Lemma loaded_other l p h r : r ∉ fst <$> l → get_x r (loaded l p h) = get_x r h.
Proof.
  revert h. induction l as [|e l IH]; intros h Hr; [done|]. simpl in *. apply not_elem_of_cons in Hr as [Hne Hr].
  rewrite IH by done. unfold get_x, set_x. simpl. by rewrite decide_False.
Qed.
Lemma loaded_in l p h r i v : NoDup (fst <$> l) → (r, i) ∈ l → r ≠ Zero → hmem h !! (p + 8 * i) = Some v → get_x r (loaded l p h) = v.
Proof.
  revert h. induction l as [|e l IH]; intros h Hnd Hin Hr Hv; [by apply elem_of_nil in Hin|].
  simpl in Hnd. apply NoDup_cons in Hnd as [Hni Hnd]. apply elem_of_cons in Hin as [<-|Hin]; [|by apply IH].
  cbn [loaded foldl fst snd]. change (foldl _ _ _) with (loaded l p (set_x r (default 0 (hmem h !! (p + 8 * i))) h)).
  rewrite loaded_other by done. unfold get_x, set_x. simpl. rewrite Hv, decide_True by done. by destruct r.
Qed.

Lemma lds_run l rb h b p n : Slots h b p n → get_x rb h = b → Forall (λ e, 0 ≤ e.2 < n ∧ e.1 ≠ rb) l →
  lds l rb h = Done tt (loaded l p h).
Proof.
  intros HS Hb Hl. revert h HS Hb. induction Hl as [|[r i] l [Hi Hne] _ IH]; intros h HS Hb; [done|].
  unfold lds. cbn [each fst snd] in *. destruct (hart_ld_run h b p n r i rb HS Hb Hi) as (v & Hv & E). mstep E.
  unfold lds in IH. simpl. rewrite Hv. simpl. apply IH; [by apply (slots_ext h)|].
  rewrite <-Hb. unfold get_x, set_x. simpl. by rewrite decide_False.
Qed.

(** The two runs, with what they leave behind. *)
Lemma sds_spec l rb h b p n : Slots h b p n → get_x rb h = b → Forall (λ e, 0 ≤ e.2 < n) l → NoDup (snd <$> l) →
  ∃ m, sds l rb h = Done tt (set_hmem m h) ∧ (∀ r i, (r, i) ∈ l → m !! (p + 8 * i) = Some (get_x r h)) ∧
    (∀ a, is_Some (hmem h !! a) → is_Some (m !! a)) ∧ ∀ a, (∀ i, 0 ≤ i < n → a ≠ p + 8 * i) → m !! a = hmem h !! a.
Proof.
  intros HS Hb Hl Hnd. eexists. split_and!; [by apply (sds_run l rb h b p n)|..].
  - intros r i. by apply (stored_in l (λ r, get_x r h)).
  - intros a. apply stored_some.
  - intros a Ha. apply stored_other. intros e He. apply Ha. exact (proj1 (Forall_forall _ _) Hl _ He).
Qed.
Lemma lds_spec l rb h b p n : Slots h b p n → get_x rb h = b → Forall (λ e, 0 ≤ e.2 < n ∧ e.1 ≠ rb) l → NoDup (fst <$> l) →
  ∃ h', lds l rb h = Done tt h' ∧ hmem h' = hmem h ∧ hcsr h' = hcsr h ∧ hmode h' = hmode h ∧
    (∀ r i v, (r, i) ∈ l → r ≠ Zero → hmem h !! (p + 8 * i) = Some v → get_x r h' = v) ∧
    ∀ r, r ∉ fst <$> l → get_x r h' = get_x r h.
Proof.
  intros HS Hb Hl Hnd. exists (loaded l p h). destruct (loaded_frame l p h) as (Hm & Hc & _ & Hmo).
  split_and!; [by apply (lds_run l rb h b p n)|done..| |].
  - intros r i v. by apply loaded_in.
  - intros r. apply loaded_other.
Qed.

(** ** The context switch *)

(** Two runs of words that do not meet. *)
Definition apart_words (p q n : Z) : Prop := p + 8 * n ≤ q ∨ q + 8 * n ≤ p.

Lemma ctx_slots : Forall (λ e : reg * Z, 0 ≤ e.2 < 14) ctx_regs.
Proof. repeat constructor; simpl; lia. Qed.
Lemma ctx_loads : Forall (λ e : reg * Z, 0 ≤ e.2 < 14 ∧ e.1 ≠ A 1) ctx_regs.
Proof. apply (bool_decide_unpack _). by vm_compute. Qed.
Lemma ctx_slot r i : (r, i) ∈ ctx_regs → 0 ≤ i < 14 ∧ r ≠ Zero.
Proof. intros Hin. split; [exact (proj1 (Forall_forall _ _) ctx_slots _ Hin)|]. intros ->. by repeat (apply elem_of_cons in Hin as [[=]|Hin]); apply elem_of_nil in Hin. Qed.

Lemma ctx_nodup : NoDup (fst <$> ctx_regs) ∧ NoDup (snd <$> ctx_regs).
Proof. split; apply (bool_decide_unpack _); by vm_compute. Qed.

Lemma ctx_sw_run h oldc po newc pn :
  get_x (A 0) h = oldc → get_x (A 1) h = newc → Slots h oldc po 14 → Slots h newc pn 14 → apart_words po pn 14 →
  ∃ h', ctx_sw h = Done tt h' ∧
    (∀ r i, (r, i) ∈ ctx_regs → hmem h' !! (po + 8 * i) = Some (get_x r h)) ∧
    (∀ r i v, (r, i) ∈ ctx_regs → hmem h !! (pn + 8 * i) = Some v → get_x r h' = v) ∧
    hpc h' = get_x Ra h' ∧
    (∀ r, r ∉ fst <$> ctx_regs → get_x r h' = get_x r h) ∧ hcsr h' = hcsr h ∧ hmode h' = hmode h ∧
    (∀ a, (∀ i, 0 ≤ i < 14 → a ≠ po + 8 * i) → hmem h' !! a = hmem h !! a).
Proof.
  intros Ho Hn HSo HSn Hap. destruct ctx_nodup as [Hn1 Hn2].
  destruct (sds_spec ctx_regs (A 0) h oldc po 14 HSo Ho ctx_slots Hn2) as (m' & Es & Hst & Hsome & Hkeep).
  assert (HSn' : Slots (set_hmem m' h) newc pn 14) by by apply (slots_ext h).
  destruct (lds_spec ctx_regs (A 1) _ newc pn 14 HSn' Hn ctx_loads Hn1) as (hl & El & Hm & Hc & Hmo & Hw & Hoth).
  exists (set_pc (get_x Ra hl) hl). split_and!.
  - unfold ctx_sw. mstep Es. mstep El. done.
  - intros r i Hin. cbn [set_pc hmem]. rewrite Hm. by apply Hst.
  - intros r i v Hin Hv. rewrite get_x_pc. apply ctx_slot in Hin as Hi. apply (Hw r i v Hin); [by destruct Hi|].
    cbn [set_hmem hmem]. rewrite Hkeep; [done|]. unfold apart_words in Hap. lia.
  - by rewrite get_x_pc.
  - intros r Hr. rewrite get_x_pc, Hoth by done. apply get_x_mem.
  - exact Hc.
  - exact Hmo.
  - intros a Ha. cbn [set_pc hmem]. rewrite Hm. by apply Hkeep.
Qed.

(** C11: a task that is switched out resumes where it was.  [ctx_sw] keeps the
    return address, the stack pointer and the callee-saved registers of the
    task in its structure, and goes on with those of the next task; whenever a
    later switch, from whatever state, goes back to the structure, and its words
    are as they were left, all these registers have the values of the first
    call again, and the processor is behind that call. *)
Theorem context_switch_resumes h ca pa cb pb :
  get_x (A 0) h = ca → get_x (A 1) h = cb → Slots h ca pa 14 → Slots h cb pb 14 → apart_words pa pb 14 →
  ∃ h1, ctx_sw h = Done tt h1 ∧
    (∀ r i v, (r, i) ∈ ctx_regs → hmem h !! (pb + 8 * i) = Some v → get_x r h1 = v) ∧
    ∀ h2 cc pc, get_x (A 0) h2 = cc → get_x (A 1) h2 = ca → Slots h2 cc pc 14 → Slots h2 ca pa 14 → apart_words pc pa 14 →
      (∀ i, 0 ≤ i < 14 → hmem h2 !! (pa + 8 * i) = hmem h1 !! (pa + 8 * i)) →
      ∃ h3, ctx_sw h2 = Done tt h3 ∧ hpc h3 = get_x Ra h ∧ (∀ r, r ∈ fst <$> ctx_regs → get_x r h3 = get_x r h) ∧
        ∀ r, r ∉ fst <$> ctx_regs → get_x r h3 = get_x r h2.
Proof.
  intros Ha Hb HSa HSb Hap. destruct (ctx_sw_run h ca pa cb pb Ha Hb HSa HSb Hap) as (h1 & E1 & Hs & Hl & _).
  exists h1. split_and!; [done|done|]. intros h2 cc pc Hc Ha2 HSc HSa2 Hap2 Hkeep.
  destruct (ctx_sw_run h2 cc pc ca pa Hc Ha2 HSc HSa2 Hap2) as (h3 & E3 & _ & Hl3 & Hp3 & Ho3 & _).
  assert (Hw : ∀ r i, (r, i) ∈ ctx_regs → hmem h2 !! (pa + 8 * i) = Some (get_x r h)).
  { intros r i Hin. rewrite Hkeep by by eapply ctx_slot. by apply Hs. }
  exists h3. split_and!; [done|rewrite Hp3; apply (Hl3 Ra 0), Hw; left| |done].
  intros r ([r' i] & -> & Hin)%list_elem_of_fmap. by apply (Hl3 r' i), Hw.
Qed.

(** ** Traps from user mode *)

Lemma status_put v h : sstatus_of (sstatus_put v h) = Z.land v SSTATUS_MASK.
Proof.
  unfold sstatus_of, sstatus_put, set_csr. cbn [hcsr]. rewrite decide_True by done. apply Z.bits_inj'. intros n Hn.
  rewrite !Z.land_spec, Z.lor_spec, Z.ldiff_spec, Z.land_spec.
  by destruct (Z.testbit (hcsr h mstatus) n), (Z.testbit v n), (Z.testbit SSTATUS_MASK n).
Qed.

(** The slot of the frame that holds a register of the user. *)
Definition slot_of (r : reg) : option Z :=
  match r with
  | Sp => Some 0
  | Ra => Some 1
  | A i => if decide (i < 8)%nat then Some (2 + Z.of_nat i) else None
  | T i => if decide (i < 7)%nat then Some (10 + Z.of_nat i) else None
  | Sv i => if decide (i < 12)%nat then Some (17 + Z.of_nat i) else None
  | _ => None
  end.

Definition user_regs : list reg := Sp :: Ra :: (A <$> seq 0 8) ++ (T <$> seq 0 7) ++ (Sv <$> seq 0 12).
Lemma slot_user r i : slot_of r = Some i → r ∈ user_regs.
Proof.
  intros Hs. unfold user_regs. rewrite !elem_of_cons, !elem_of_app, !list_elem_of_fmap.
  destruct r as [| | | | |j|j|j]; simpl in Hs; try done; try tauto; case_decide; try done;
    [do 2 right; left|do 3 right; left|do 4 right]; exists j; (split; [done|apply elem_of_seq; lia]).
Qed.
(** A check of every register of the user. *)
Lemma user_check (P : reg → Z → Prop) `{∀ r i, Decision (P r i)} :
  forallb (λ r, match slot_of r with Some i => bool_decide (P r i) | None => true end) user_regs = true →
  ∀ r i, slot_of r = Some i → P r i.
Proof.
  intros Hb r i Hs. rewrite forallb_forall in Hb. specialize (Hb r). rewrite Hs in Hb.
  apply (bool_decide_eq_true_1 _), Hb. by apply list_elem_of_In, (slot_user r i).
Qed.

Lemma slot_entry r i : slot_of r = Some i → (r, i) = (Sp, 0) ∨ (r, i) = (T 0, 10) ∨ (r, i) ∈ entry_regs.
Proof. revert r i. apply (user_check (λ r i, (r, i) = (Sp, 0) ∨ (r, i) = (T 0, 10) ∨ (r, i) ∈ entry_regs)). by vm_compute. Qed.
Lemma slot_return r i : slot_of r = Some i → (r, i) = (A 1, 3) ∨ (r, i) ∈ return_regs.
Proof. revert r i. apply (user_check (λ r i, (r, i) = (A 1, 3) ∨ (r, i) ∈ return_regs)). by vm_compute. Qed.
Lemma slot_small r i : slot_of r = Some i → 0 ≤ i < 29 ∧ r ≠ Zero.
Proof. revert r i. apply (user_check (λ r i, 0 ≤ i < 29 ∧ r ≠ Zero)). by vm_compute. Qed.
Lemma slot_inj r r' i : slot_of r = Some i → slot_of r' = Some i → r = r'.
Proof. destruct r, r'; simpl; repeat case_decide; intros; simplify_eq; try done; f_equal; lia. Qed.

(** A control register, through t0, to a slot of the frame. *)
Record Pushed (p : Z) (h h' : hart) (slot v : Z) : Prop := {
  pu_mem : hmem h' = <[p + 8 * slot := v]> (hmem h);
  pu_csr : hcsr h' = hcsr h;
  pu_mode : hmode h' = hmode h;
  pu_reg r : r ≠ T 0 → get_x r h' = get_x r h;
}.

Lemma pushed_slots p h h' slot v b n : Pushed p h h' slot v → Slots h b p n → Slots h' b p n.
Proof.
  intros [Hm Hc Hmo _] HS. apply (slots_ext h); [done..|by rewrite Hc|]. intros a Ha. rewrite Hm. apply lookup_insert_is_Some'. by right.
Qed.

Lemma push_run (read : hart → Z) slot (k : M hart unit) h b p n :
  Slots h b p n → get_x Sp h = b → 0 ≤ slot < n →
  ∃ h', (modify (λ h, set_x (T 0) (read h) h);; sd (T 0) slot Sp;; k) h = k h' ∧ Pushed p h h' slot (read h).
Proof.
  intros HS Hb Hs. set (h1 := set_x (T 0) (read h) h).
  assert (HS1 : Slots h1 b p n) by by apply (slots_ext h).
  exists (set_hmem (<[p + 8 * slot := read h]> (hmem h)) h1). split.
  - change ((sd (T 0) slot Sp;; k) h1 = k (set_hmem (<[p + 8 * slot := read h]> (hmem h)) h1)).
    by mstep (hart_sd_run h1 b p n (T 0) slot Sp HS1 Hb Hs).
  - split; try done. intros r Hr. destruct r; try done. unfold get_x. simpl. by rewrite decide_False.
Qed.

Lemma csrr_push c slot (k : M hart unit) h b p n :
  Slots h b p n → get_x Sp h = b → 0 ≤ slot < n →
  ∃ h', (csrr (T 0) c;; sd (T 0) slot Sp;; k) h = k h' ∧ Pushed p h h' slot (hcsr h c) ∧ Slots h' b p n ∧ get_x Sp h' = b.
Proof.
  intros HS Hb Hs. destruct (push_run (λ h, hcsr h c) slot k h b p n HS Hb Hs) as (h' & E & P). exists h'.
  split_and!; [exact E|exact P|by eapply pushed_slots|by rewrite (pu_reg _ _ _ _ _ P)].
Qed.
Lemma sstatus_push slot (k : M hart unit) h b p n :
  Slots h b p n → get_x Sp h = b → 0 ≤ slot < n →
  ∃ h', (csrr_sstatus (T 0);; sd (T 0) slot Sp;; k) h = k h' ∧ Pushed p h h' slot (sstatus_of h) ∧ Slots h' b p n ∧ get_x Sp h' = b.
Proof.
  intros HS Hb Hs. destruct (push_run sstatus_of slot k h b p n HS Hb Hs) as (h' & E & P). exists h'.
  split_and!; [exact E|exact P|by eapply pushed_slots|by rewrite (pu_reg _ _ _ _ _ P)].
Qed.

Lemma entry_slots : Forall (λ e : reg * Z, 0 ≤ e.2 < 29 ∧ e.2 ≠ 0 ∧ e.2 ≠ 10 ∧ e.1 ≠ T 0 ∧ e.1 ≠ Sp ∧ e.1 ≠ Zero) entry_regs.
Proof. apply (bool_decide_unpack _). by vm_compute. Qed.
Lemma entry_nodup : NoDup (snd <$> entry_regs).
Proof. apply (bool_decide_unpack _). by vm_compute. Qed.

(** The stores of the registers. *)
Record RegsSaved (tf p : Z) (h h' : hart) : Prop := {
  rs_regs r i : slot_of r = Some i → hmem h' !! (p + 8 * i) = Some (get_x r h);
  rs_rest i : 28 < i → hmem h' !! (p + 8 * i) = hmem h !! (p + 8 * i);
  rs_other r : r ≠ T 0 → r ≠ Sp → get_x r h' = get_x r h;
  rs_csr c : c ≠ sscratch → hcsr h' c = hcsr h c;
  rs_mode : hmode h' = hmode h;
  rs_base : get_x Sp h' = tf;
  rs_slots : Slots h' tf p 35;
}.

Lemma save_regs_run h tf p (k : M hart unit) :
  hcsr h sscratch = tf → Slots h tf p 35 →
  ∃ h', (csrrw Sp sscratch Sp;; sd (T 0) 10 Sp;; csrr (T 0) sscratch;; sd (T 0) 0 Sp;; sds entry_regs Sp;; k) h = k h' ∧
    RegsSaved tf p h h'.
Proof.
  intros Hsc HS. unfold csrrw, csrr. hstep. set (h1 := set_x Sp _ _).
  assert (HS1 : Slots h1 tf p 35) by by apply (slots_ext h).
  mstep (hart_sd_run h1 tf p 35 (T 0) 10 Sp HS1 Hsc ltac:(lia)). set (h2 := set_hmem _ h1).
  assert (HS2 : Slots h2 tf p 35) by (apply (slots_ext h1); [done..|]; intros a Ha; apply lookup_insert_is_Some'; by right).
  destruct (push_run (λ h, hcsr h sscratch) 0 (sds entry_regs Sp;; k) h2 tf p 35 HS2 Hsc ltac:(lia)) as (h3 & -> & P3).
  pose proof (pushed_slots _ _ _ _ _ _ _ P3 HS2) as HS3. destruct P3 as [Hm3 Hc3 Hmo3 Hr3].
  assert (Hsp3 : get_x Sp h3 = tf) by (rewrite Hr3 by done; exact Hsc).
  assert (Hreg : ∀ r, r ≠ T 0 → r ≠ Sp → get_x r h3 = get_x r h).
  { intros r H1 H2. rewrite Hr3 by done. unfold h2, h1. by rewrite get_x_mem, get_x_x, get_x_csr by done. }
  assert (Hes : Forall (λ e : reg * Z, 0 ≤ e.2 < 35) entry_regs) by (eapply Forall_impl; [apply entry_slots|]; simpl; intros; lia).
  assert (Hnot : ∀ i, i = 0 ∨ i = 10 ∨ 28 < i → stored entry_regs (λ r, get_x r h3) p (hmem h3) !! (p + 8 * i) = hmem h3 !! (p + 8 * i)).
  { intros i Hi. apply stored_other. intros e He. pose proof (proj1 (Forall_forall _ _) entry_slots _ He) as Hs. simpl in Hs. lia. }
  mstep (sds_run entry_regs Sp h3 tf p 35 HS3 Hsp3 Hes). eexists. split; [reflexivity|]. split.
  - intros r i Hs. cbn [set_hmem hmem]. destruct (slot_entry r i Hs) as [[= -> ->]|[[= -> ->]|Hin]].
    + rewrite Hnot, Hm3 by tauto. rewrite lookup_insert_eq. done.
    + rewrite Hnot, Hm3 by tauto. rewrite lookup_insert_ne by lia. by apply lookup_insert_eq.
    + etransitivity; [by apply (stored_in _ _ _ _ r i entry_nodup)|]. pose proof (proj1 (Forall_forall _ _) entry_slots _ Hin) as (_ & _ & _ & ? & ? & _).
      f_equal. by apply Hreg.
  - intros i Hi. cbn [set_hmem hmem]. rewrite Hnot, Hm3 by tauto. rewrite lookup_insert_ne by lia. by apply lookup_insert_ne; lia.
  - intros r H1 H2. rewrite get_x_mem. by apply Hreg.
  - intros c Hc. cbn [set_hmem hcsr]. rewrite Hc3. unfold h2, h1. simpl. by rewrite decide_False.
  - by cbn [set_hmem hmode].
  - by rewrite get_x_mem.
  - apply (slots_ext h3); [done..|]. intros a. apply stored_some.
Qed.

(** The frame after the entry. *)
Record FrameSaved (p : Z) (h : hart) (m : gmap Z Z) : Prop := {
  fs_regs r i : slot_of r = Some i → m !! (p + 8 * i) = Some (get_x r h);
  fs_sepc : m !! (p + 8 * 29) = Some (hcsr h sepc);
  fs_scause : m !! (p + 8 * 30) = Some (hcsr h scause);
  fs_sstatus : m !! (p + 8 * 31) = Some (sstatus_of h);
  fs_satp : m !! (p + 8 * 32) = Some (hcsr h satp);
}.
(** The processor at the start of [usertrap]. *)
Record InKernel (h h' : hart) (kstack ksatp : Z) : Prop := {
  ik_pc : hpc h' = u64 usertrap_at;
  ik_mode : hmode h' = hmode h;
  ik_sp : get_x Sp h' = kstack;
  ik_satp : hcsr h' satp = ksatp;
  ik_stvec : hcsr h' stvec = u64 kernelvec_at;
  ik_sscratch : hcsr h' sscratch = 0;
  ik_fixed r : r = Gp ∨ r = Tp → get_x r h' = get_x r h;
}.

Lemma trap_entry_run h tf p kstack ksatp :
  hcsr h sscratch = tf → Slots h tf p 35 → hmem h !! (p + 8 * 33) = Some kstack → hmem h !! (p + 8 * 34) = Some ksatp →
  ∃ h', trap_entry h = Done tt h' ∧ InKernel h h' kstack ksatp ∧ FrameSaved p h (hmem h').
Proof.
  intros Hsc HS Hk Hks. unfold trap_entry.
  match goal with |- context [(_ ≫= λ _, _ ≫= λ _, _ ≫= λ _, _ ≫= λ _, sds entry_regs Sp ≫= λ _, ?k) h] =>
    destruct (save_regs_run h tf p k Hsc HS) as (h1 & -> & [Hr1 Hm1 Ho1 Hc1 Hmo1 Hb1 HS1]) end.
  edestruct (csrr_push sepc 29) as (h2 & -> & [Hm2 Hc2 Hmo2 Hr2] & HS2 & Hb2); [exact HS1|exact Hb1|lia|].
  edestruct (csrr_push scause 30) as (h3 & -> & [Hm3 Hc3 Hmo3 Hr3] & HS3 & Hb3); [exact HS2|exact Hb2|lia|].
  edestruct (sstatus_push 31) as (h4 & -> & [Hm4 Hc4 Hmo4 Hr4] & HS4 & Hb4); [exact HS3|exact Hb3|lia|].
  edestruct (csrr_push satp 32) as (h5 & -> & [Hm5 Hc5 Hmo5 Hr5] & HS5 & Hb5); [exact HS4|exact Hb4|lia|].
  assert (Hm : hmem h5 = <[p + 8 * 32 := hcsr h satp]> (<[p + 8 * 31 := sstatus_of h]> (<[p + 8 * 30 := hcsr h scause]>
    (<[p + 8 * 29 := hcsr h sepc]> (hmem h1))))).
  { rewrite Hm5, Hm4, Hm3, Hm2. unfold sstatus_of. by rewrite Hc4, Hc3, Hc2, !Hc1. }
  assert (Hhi : ∀ i, 32 < i → hmem h5 !! (p + 8 * i) = hmem h !! (p + 8 * i)).
  { intros i Hi. rewrite Hm. rewrite !lookup_insert_ne by lia. apply Hm1. lia. }
  destruct (hart_ld_run h5 tf p 35 (T 0) 33 Sp HS5 Hb5 ltac:(lia)) as (v & Hv & E6). rewrite Hhi, Hk in Hv by lia. injection Hv as <-.
  mstep E6. set (h6 := set_x (T 0) kstack h5). assert (HS6 : Slots h6 tf p 35) by by apply (slots_ext h5).
  assert (Hb6 : get_x Sp h6 = tf) by by rewrite <-Hb5.
  destruct (hart_ld_run h6 tf p 35 (T 1) 34 Sp HS6 Hb6 ltac:(lia)) as (v & Hv & E7). change (hmem h6) with (hmem h5) in Hv.
  rewrite Hhi, Hks in Hv by lia. injection Hv as <-. mstep E7. unfold mv, csrw, li, jalr. do 6 hstep.
  eexists. split; [reflexivity|]. split.
  - split; try done; [by simpl; rewrite Hmo5, Hmo4, Hmo3, Hmo2|].
    intros r Hr. rewrite get_x_pc. rewrite !get_x_x, ?get_x_csr by (by destruct Hr as [-> | ->]).
    assert (r ≠ T 0 ∧ r ≠ T 1 ∧ r ≠ Sp ∧ r ≠ Ra) as (? & ? & ? & ?) by (by destruct Hr as [-> | ->]).
    repeat first [rewrite get_x_csr|rewrite get_x_x by done]. unfold h6. rewrite get_x_x, Hr5, Hr4, Hr3, Hr2 by done. by apply Ho1.
  - change (hmem _) with (hmem h5). rewrite Hm. split.
    + intros r i Hs. apply slot_small in Hs as Hi. rewrite !lookup_insert_ne by lia. by apply Hr1.
    + rewrite !lookup_insert_ne by lia. apply lookup_insert_eq.
    + rewrite !lookup_insert_ne by lia. apply lookup_insert_eq.
    + rewrite !lookup_insert_ne by lia. apply lookup_insert_eq.
    + apply lookup_insert_eq.
Qed.

Lemma return_slots : Forall (λ e : reg * Z, (0 ≤ e.2 < 35 ∧ e.1 ≠ A 1) ∧ e.1 ≠ Zero) return_regs.
Proof. apply (bool_decide_unpack _). by vm_compute. Qed.
Lemma return_nodup : NoDup (fst <$> return_regs).
Proof. apply (bool_decide_unpack _). by vm_compute. Qed.
Lemma return_fixed r : r = Gp ∨ r = Tp ∨ r = A 1 → r ∉ fst <$> return_regs.
Proof. intros [->|[->| ->]]; apply (bool_decide_unpack _); by vm_compute. Qed.

(** The user program after [trap_return], from a frame of the words [f]. *)
Record InUser (p tf usatp : Z) (h h' : hart) : Prop := {
  iu_regs r i v : slot_of r = Some i → hmem h !! (p + 8 * i) = Some v → get_x r h' = v;
  iu_fixed r : r = Gp ∨ r = Tp → get_x r h' = get_x r h;
  iu_pc v : hmem h !! (p + 8 * 29) = Some v → hpc h' = v;
  iu_status v : hmem h !! (p + 8 * 31) = Some v → let s := Z.land v SSTATUS_MASK in
    hmode h' = (if Z.testbit s 8 then PRV_S else PRV_U) ∧
    sstatus_of h' = Z.land (bit_to 8 false (bit_to 5 true (bit_to 1 (Z.testbit s 5) s))) SSTATUS_MASK;
  iu_satp : hcsr h' satp = usatp;
  iu_stvec : hcsr h' stvec = u64 TRAMPOLINE;
  iu_sscratch : hcsr h' sscratch = tf;
  iu_mem : hmem h' = hmem h;
}.

(** The control registers and the frame are read before the others. *)
Lemma return_head h tf p usatp (k : M hart unit) :
  get_x (A 0) h = usatp → get_x (A 1) h = tf → Slots (set_csr satp usatp h) tf p 35 →
  ∃ h' s e, (li (T 0) TRAMPOLINE;; csrw stvec (T 0);; csrw satp (A 0);; ld (T 0) 31 (A 1);; csrw_sstatus (T 0);;
      ld (T 0) 29 (A 1);; csrw sepc (T 0);; k) h = k h' ∧
    hmem h !! (p + 8 * 31) = Some s ∧ hmem h !! (p + 8 * 29) = Some e ∧
    sstatus_of h' = Z.land s SSTATUS_MASK ∧ hcsr h' sepc = e ∧ hcsr h' satp = usatp ∧ hcsr h' stvec = u64 TRAMPOLINE ∧
    hmem h' = hmem h ∧ (∀ r, r ≠ T 0 → get_x r h' = get_x r h) ∧ Slots h' tf p 35.
Proof.
  intros Ha0 Ha1 HS. unfold li, csrw, csrw_sstatus. do 3 hstep. set (h1 := set_csr satp _ _).
  assert (HS1 : Slots h1 tf p 35) by by apply (slots_ext (set_csr satp usatp h)).
  assert (Hc1 : hcsr h1 satp = usatp ∧ hcsr h1 stvec = u64 TRAMPOLINE ∧ hmem h1 = hmem h) by done.
  assert (Hr1 : ∀ r, r ≠ T 0 → get_x r h1 = get_x r h) by (intros r Hr; unfold h1; by rewrite !get_x_csr, get_x_x).
  clearbody h1. destruct Hc1 as (Es & Et & Em).
  destruct (hart_ld_run h1 tf p 35 (T 0) 31 (A 1) HS1 ltac:(by rewrite Hr1) ltac:(lia)) as (s & Hs & E). mstep E. hstep.
  rewrite get_x_same by done. set (h2 := sstatus_put s _).
  assert (HS2 : Slots h2 tf p 35) by by apply (slots_ext h1).
  assert (Hc2 : hcsr h2 satp = usatp ∧ hcsr h2 stvec = u64 TRAMPOLINE ∧ hmem h2 = hmem h1) by done.
  assert (Hr2 : ∀ r, r ≠ T 0 → get_x r h2 = get_x r h1) by (intros r Hr; unfold h2, sstatus_put; by rewrite !get_x_csr, get_x_x).
  assert (Hs2 : sstatus_of h2 = Z.land s SSTATUS_MASK) by apply status_put.
  clearbody h2. destruct Hc2 as (Es2 & Et2 & Em2).
  destruct (hart_ld_run h2 tf p 35 (T 0) 29 (A 1) HS2 ltac:(by rewrite Hr2, Hr1) ltac:(lia)) as (e & He & E2). mstep E2. hstep.
  rewrite get_x_same by done. eexists _, s, e. split; [reflexivity|]. rewrite Em2, Em in *. split_and!; try done.
  intros r Hr. by rewrite get_x_csr, get_x_x, Hr2, Hr1.
Qed.

Lemma trap_return_run h tf p usatp :
  get_x (A 0) h = usatp → get_x (A 1) h = tf → Slots (set_csr satp usatp h) tf p 35 →
  ∃ h', trap_return h = Done tt h' ∧ InUser p tf usatp h h'.
Proof.
  intros Ha0 Ha1 HS. unfold trap_return.
  edestruct (return_head h tf p usatp) as (h3 & s & e & -> & Hs & He & Hst & Hse & Esa & Est & Hm3 & Hr3 & HS3); [done..|].
  assert (Hrs : Forall (λ e : reg * Z, 0 ≤ e.2 < 35 ∧ e.1 ≠ A 1) return_regs) by (eapply Forall_impl; [apply return_slots|]; by intros ? []).
  mstep (lds_run return_regs (A 1) h3 tf p 35 HS3 ltac:(by rewrite Hr3) Hrs). destruct (loaded_frame return_regs p h3) as (Hm & Hc & _ & Hmo).
  assert (Hin : ∀ r i v, (r, i) ∈ return_regs → hmem h !! (p + 8 * i) = Some v → get_x r (loaded return_regs p h3) = v).
  { intros r i v Hin Hv. apply (loaded_in _ _ _ r i); [apply return_nodup|done| |by rewrite Hm3].
    by pose proof (proj1 (Forall_forall _ _) return_slots _ Hin) as [_ Hz]. }
  assert (Hoth : ∀ r, r = Gp ∨ r = Tp ∨ r = A 1 → get_x r (loaded return_regs p h3) = get_x r h).
  { intros r Hr. rewrite loaded_other by by apply return_fixed. apply Hr3. by destruct Hr as [->|[->| ->]]. }
  set (h4 := loaded return_regs p h3) in *. clearbody h4. unfold csrw. hstep. rewrite Hoth, Ha1 by tauto.
  set (h5 := set_csr sscratch tf h4).
  assert (HS5 : Slots h5 tf p 35).
  { apply (slots_ext h3); [done|done|simpl; by rewrite Hc|]. intros a Ha. simpl. by rewrite Hm. }
  destruct (hart_ld_run h5 tf p 35 (A 1) 3 (A 1) HS5 ltac:(unfold h5; by rewrite get_x_csr, Hoth by tauto) ltac:(lia)) as (a1 & Hv1 & E5).
  mstep E5. unfold h5 in *. cbn [set_csr hmem] in Hv1. rewrite Hm, Hm3 in Hv1.
  assert (Hst4 : sstatus_of (set_x (A 1) a1 (set_csr sscratch tf h4)) = Z.land s SSTATUS_MASK)
    by (rewrite <-Hst; unfold sstatus_of; cbn [set_x set_csr hcsr]; by rewrite Hc).
  set (h6 := set_x (A 1) a1 _) in *. eexists. split; [reflexivity|]. cbv zeta. rewrite Hst4. split.
  - intros r i v Hsl Hv. rewrite get_x_mode, get_x_pc. unfold sstatus_put. rewrite get_x_csr. unfold h6.
    destruct (slot_return r i Hsl) as [[= -> ->]|Hi]; [rewrite get_x_same by done; congruence|].
    pose proof (proj1 (Forall_forall _ _) return_slots _ Hi) as [[_ Hne] _]. rewrite get_x_x, get_x_csr by done. by apply (Hin r i).
  - intros r Hr. rewrite get_x_mode, get_x_pc. unfold sstatus_put, h6. rewrite get_x_csr, get_x_x, get_x_csr by (by destruct Hr as [->| ->]).
    apply Hoth. tauto.
  - intros v Hv. cbn [set_mode set_pc hpc]. unfold h6. cbn [set_x set_csr hcsr]. rewrite decide_False, Hc by done. congruence.
  - intros v Hv. assert (v = s) as -> by congruence. split; [done|]. etransitivity; [|apply (status_put _ h6)]. done.
  - cbn [set_mode set_pc hcsr]. unfold sstatus_put, h6. cbn [set_x set_csr hcsr]. by rewrite !decide_False, Hc by done.
  - cbn [set_mode set_pc hcsr]. unfold sstatus_put, h6. cbn [set_x set_csr hcsr]. by rewrite !decide_False, Hc by done.
  - cbn [set_mode set_pc hcsr]. unfold sstatus_put, h6. cbn [set_x set_csr hcsr]. by rewrite decide_False, decide_True by done.
  - cbn [set_mode set_pc hmem]. unfold sstatus_put, h6. cbn [set_x set_csr hmem]. congruence.
Qed.

(** *** The status *)

Lemma bit_to_spec n b v m : 0 ≤ n → Z.testbit (bit_to n b v) m = if decide (m = n) then b else Z.testbit v m.
Proof.
  intros Hn. unfold bit_to. destruct b, (decide (m = n)) as [->|Hne].
  - by apply Z.setbit_eq.
  - apply Z.setbit_neq; lia.
  - apply Z.clearbit_eq.
  - apply Z.clearbit_neq; lia.
Qed.

(** The status in the handler, and after the return. *)
Lemma trap_status cause tval h n : Z.testbit SSTATUS_MASK n = true →
  Z.testbit (sstatus_of (take_trap cause tval h)) n =
    if decide (n = 8) then negb (hmode h =? PRV_U) else if decide (n = 5) then Z.testbit (sstatus_of h) 1
    else if decide (n = 1) then false else Z.testbit (sstatus_of h) n.
Proof.
  intros Hm. unfold take_trap. cbv zeta. etransitivity; [apply (f_equal (λ v, Z.testbit v n)), status_put|].
  rewrite Z.land_spec, Hm, andb_true_r, !bit_to_spec by lia. done.
Qed.
Lemma return_status s n : Z.testbit SSTATUS_MASK n = true →
  Z.testbit (Z.land (bit_to 8 false (bit_to 5 true (bit_to 1 (Z.testbit s 5) s))) SSTATUS_MASK) n =
    if decide (n = 8) then false else if decide (n = 5) then true else if decide (n = 1) then Z.testbit s 5 else Z.testbit s n.
Proof. intros Hm. by rewrite Z.land_spec, Hm, andb_true_r, !bit_to_spec by lia. Qed.


(** ** Traps in the kernel *)

Definition callee_saved (r : reg) : bool :=
  match r with Sp | Gp | Tp | Sv _ => true | _ => false end.

(** What the calling convention says of the handler of an interrupt: it gives
    back the stack pointer and the callee-saved registers and leaves the stack
    of its caller alone.  It may be interrupted itself, so nothing is said of
    [sepc] and of the status. *)
Definition Handler (f : Z → M hart unit) : Prop := ∀ irq h, hmode h = PRV_S → ∃ h', f irq h = Done tt h' ∧
  (∀ r, callee_saved r = true → get_x r h' = get_x r h) ∧ hmode h' = PRV_S ∧ hcsr h' satp = hcsr h satp ∧
  (∀ i q, 0 ≤ i < 17 → address (u64 (get_x Sp h + 8 * i)) h = Some q → hmem h' !! q = hmem h !! q).

Lemma caller_slots : Forall (λ e : reg * Z, 0 ≤ e.2 < 17 ∧ e.1 ≠ Sp ∧ e.1 ≠ Zero) caller_regs.
Proof. apply (bool_decide_unpack _). by vm_compute. Qed.
Lemma caller_nodup : NoDup (fst <$> caller_regs) ∧ NoDup (snd <$> caller_regs).
Proof. split; apply (bool_decide_unpack _); by vm_compute. Qed.
(** The registers the processor has. *)
Definition real (r : reg) : bool :=
  match r with A i => (i <? 8)%nat | T i => (i <? 7)%nat | Sv i => (i <? 12)%nat | _ => true end.
Lemma caller_or_callee r : real r = true → r = Zero ∨ callee_saved r = true ∨ ∃ i, (r, i) ∈ caller_regs.
Proof.
  destruct r as [| | | | |i|i|i]; simpl; intros Hr; clear -Hr; try tauto; right; right.
  - exists 1. left.
  - exists (2 + Z.of_nat i). do 8 (destruct i as [|i]; [apply (bool_decide_unpack _); by vm_compute|]). done.
  - exists (10 + Z.of_nat i). do 7 (destruct i as [|i]; [apply (bool_decide_unpack _); by vm_compute|]). done.
Qed.
Lemma callee_not_saved r : callee_saved r = true → r ∉ fst <$> caller_regs.
Proof.
  assert (Hall : Forall (λ r, callee_saved r = false) (fst <$> caller_regs)) by (apply (bool_decide_unpack _); by vm_compute).
  intros Hr Hin. pose proof (proj1 (Forall_forall _ _) Hall _ Hin) as Hf. simpl in Hf. congruence.
Qed.

(** [kerneltrap] for an interrupt: what the handler does, with [sepc] and the
    status as before. *)
Lemma kerneltrap_run f h :
  Handler f → hmode h = PRV_S → has (hcsr h scause) XCAUSE_IRQ = true → 0 ≤ hcsr h sepc < 2 ^ 64 →
  ∃ h', kerneltrap_csr f h = Done tt h' ∧ (∀ r, callee_saved r = true → get_x r h' = get_x r h) ∧ hmode h' = PRV_S ∧
    hcsr h' satp = hcsr h satp ∧ hcsr h' sepc = hcsr h sepc ∧ sstatus_of h' = sstatus_of h ∧
    (∀ i q, 0 ≤ i < 17 → address (u64 (get_x Sp h + 8 * i)) h = Some q → hmem h' !! q = hmem h !! q).
Proof.
  intros Hf Hm Hc Hse. destruct (Hf (Z.ldiff (hcsr h scause) XCAUSE_IRQ) h Hm) as (h1 & E & Hr & Hm1 & Hs1 & Hk).
  unfold kerneltrap_csr. unfold csr_read, read_sstatus. do 3 hget. rewrite Hc. mstep E. unfold write_sstatus. hstep. eexists. split; [reflexivity|]. split_and!.
  - intros r Hcs. unfold sstatus_put. by rewrite !get_x_csr, Hr.
  - exact Hm1.
  - exact Hs1.
  - cbn [set_csr hcsr]. rewrite decide_True by done. by apply wrap_small.
  - etransitivity; [apply (status_put (sstatus_of h) h1)|]. unfold sstatus_of. by rewrite <-Z.land_assoc, Z.land_diag.
  - exact Hk.
Qed.

(** C12: an interrupt of the kernel and back.  For a handler that keeps to the
    calling convention, and that may itself be interrupted, the interrupted code
    of the kernel finds every register, its program counter and the state of the
    interrupts as they were. *)
Theorem kernel_trap_roundtrip f h cause tval p :
  Handler f → hmode h = PRV_S → has cause XCAUSE_IRQ = true → 0 ≤ hpc h < 2 ^ 64 → 0 ≤ get_x Sp h < 2 ^ 64 →
  Slots h (u64 (get_x Sp h - 136)) p 17 →
  ∃ h', kernelvec (kerneltrap_csr f) (take_trap cause tval h) = Done tt h' ∧ hpc h' = hpc h ∧ hmode h' = PRV_S ∧
    (∀ r, real r = true → get_x r h' = get_x r h) ∧ Z.testbit (sstatus_of h') 1 = Z.testbit (sstatus_of h) 1.
Proof.
  intros Hf Hmo Hca Hpc Hsp HS. set (h0 := take_trap cause tval h). set (b := u64 (get_x Sp h - 136)).
  unfold kernelvec, addi, sret. hstep. set (h1 := set_x Sp _ h0).
  assert (Hb1 : get_x Sp h1 = b) by done.
  assert (HS1 : Slots h1 b p 17) by (apply (slots_ext h); try done; by rewrite Hmo).
  assert (Hc1 : hcsr h1 sepc = hpc h ∧ hcsr h1 scause = cause ∧ hmode h1 = PRV_S ∧ sstatus_of h1 = sstatus_of h0) by done.
  assert (Hr1 : ∀ r, r ≠ Sp → get_x r h1 = get_x r h).
  { intros r Hr. unfold h1. rewrite get_x_x by done. by destruct r. }
  clearbody h1. destruct Hc1 as (Hse & Hsc & Hm1 & Hs1).
  assert (Hsl : Forall (λ e : reg * Z, 0 ≤ e.2 < 17) caller_regs) by (eapply Forall_impl; [apply caller_slots|]; by intros ? []).
  mstep (sds_run caller_regs Sp h1 b p 17 HS1 Hb1 Hsl). set (m2 := stored _ _ _ _). set (h2 := set_hmem m2 h1).
  assert (HS2 : Slots h2 b p 17) by (apply (slots_ext h1); [done..|]; intros a; apply stored_some).
  destruct (kerneltrap_run f h2 Hf Hm1) as (h3 & E3 & Hcs & Hm3 & Hsa3 & Hse3 & Hs3 & Hst3); [exact (eq_trans (f_equal (λ v, has v _) Hsc) Hca)|by cbn [h2 set_hmem hcsr]; rewrite Hse|].
  mstep E3.
  assert (Hb3 : get_x Sp h3 = b) by (rewrite Hcs by done; exact Hb1).
  assert (Hw : ∀ i, 0 ≤ i < 17 → hmem h3 !! (p + 8 * i) = m2 !! (p + 8 * i)).
  { intros i Hi. apply (Hst3 i _ Hi). change (get_x Sp h2) with (get_x Sp h1). rewrite Hb1. apply HS2. done. }
  assert (HS3 : Slots h3 b p 17).
  { intros i Hi. destruct (HS2 i Hi) as [Ha Hs]. rewrite Hw by done. split; [|done]. unfold address in *. rewrite Hm3, Hsa3. change (hmode h2) with (hmode h1) in Ha. by rewrite Hm1 in Ha. }
  assert (Hl3 : Forall (λ e : reg * Z, 0 ≤ e.2 < 17 ∧ e.1 ≠ Sp) caller_regs) by (eapply Forall_impl; [apply caller_slots|]; by intros ? (? & ? & ?)).
  mstep (lds_run caller_regs Sp h3 b p 17 HS3 Hb3 Hl3). destruct (loaded_frame caller_regs p h3) as (_ & Hc4 & _ & Hm4).
  assert (Hin : ∀ r i, (r, i) ∈ caller_regs → get_x r (loaded caller_regs p h3) = get_x r h).
  { intros r i Hin. pose proof (proj1 (Forall_forall _ _) caller_slots _ Hin) as (Hi & Hn & Hz). simpl in Hi, Hn, Hz.
    apply (loaded_in _ _ _ r i); [apply caller_nodup|done|done|]. rewrite Hw by done. unfold m2.
    etransitivity; [by apply (stored_in _ _ _ _ r i); [apply caller_nodup|]|]. f_equal. by apply Hr1. }
  assert (Hoth : ∀ r, callee_saved r = true → get_x r (loaded caller_regs p h3) = get_x r h1).
  { intros r Hr. rewrite loaded_other by by apply callee_not_saved. rewrite Hcs by done. apply get_x_mem. }
  assert (Hs4 : sstatus_of (loaded caller_regs p h3) = sstatus_of h0)
    by (transitivity (sstatus_of h3); [unfold sstatus_of; by rewrite Hc4|rewrite Hs3; exact Hs1]).
  set (h4 := loaded caller_regs p h3) in *. clearbody h4. hstep. rewrite (Hoth Sp), Hb1 by done. set (h5 := set_x Sp _ h4).
  assert (Hs5 : sstatus_of h5 = sstatus_of h0) by exact Hs4.
  eexists. split; [reflexivity|]. cbv zeta. rewrite Hs5. split_and!.
  - cbn [set_mode set_pc hpc]. unfold h5. cbn [set_x hcsr]. by rewrite Hc4, Hse3.
  - cbn [set_mode hmode]. unfold h0. rewrite trap_status, decide_True by done. by rewrite Hmo.
  - intros r Hr. rewrite get_x_mode, get_x_pc. unfold sstatus_put. rewrite get_x_csr. unfold h5.
    destruct (decide (r = Sp)) as [->|Hn].
    + rewrite get_x_same by done. unfold b. rewrite wrap_add_l. rewrite wrap_small by lia. lia.
    + rewrite get_x_x by done. destruct (caller_or_callee r Hr) as [->|[Hc|[i Hi]]]; [done|by rewrite Hoth, Hr1|by apply (Hin r i)].
  - etransitivity; [apply (f_equal (λ v, Z.testbit v 1)), (status_put _ h5)|]. rewrite return_status, !decide_False, decide_True by done.
    unfold h0. by rewrite trap_status, decide_False, decide_True by done.
Qed.

(** The handler of the kernel runs with the stack pointer 8 bytes off the
    alignment of the calling convention (abi.h), whenever the interrupted code
    kept to it: the frame of [kernelvec] is of 17 words. *)
Theorem kernelvec_misaligns h b :
  get_x Sp h = 16 * b → ∃ h', addi Sp Sp (-8 * 17) h = Done tt h' ∧ get_x Sp h' mod 16 = 8.
Proof.
  intros Hb. eexists. split; [reflexivity|]. rewrite get_x_same by done. rewrite Hb. unfold wrap.
  change (2 ^ 64) with (16 * 2 ^ 60). rewrite Z.rem_mul_r by lia. replace (16 * b + -8 * 17) with (8 + (b - 9) * 16) by lia.
  rewrite Z.add_mod, (Z.mul_comm 16 (_ mod _)), Z.mod_mul, Z.add_0_r by lia. rewrite Z.mod_mod, Z.mod_mod by lia. by rewrite Z.mod_add by lia.
Qed.

(** ** The way to supervisor mode *)

(** The registers of [start], at the first instruction of [kernel_start]. *)
Record Started (h h' : hart) : Prop := {
  st_mode : hmode h' = PRV_S;
  st_pc : hpc h' = u64 kernel_start_at;
  st_sp : get_x Sp h' = get_x Sp h;
  st_mem : hmem h' = hmem h;
  st_exceptions n : 0 ≤ n < 64 → Z.testbit (hcsr h' medeleg) n = true;
  st_irqs n : 0 ≤ n → Z.testbit (hcsr h' mideleg) n = (n =? S_IRQ_EXT) || (n =? S_IRQ_TMR) || Z.testbit (hcsr h mideleg) n;
  st_vectors : hcsr h' mtvec = u64 machine_trap_panic_at ∧ hcsr h' stvec = u64 kernelvec_at;
  st_memory : hcsr h' pmpaddr0 = 2 ^ 64 - 1 ∧ hcsr h' pmpcfg0 = 31;
  st_timer : Z.testbit (hcsr h' menvcfg) 63 = true ∧ Z.testbit (hcsr h' mcounteren) 1 = true ∧
    Z.testbit (hcsr h' sie) S_IRQ_TMR = true ∧ hcsr h' stimecmp = u64 (hcsr h time + 500000);
  st_interrupts : Z.testbit (sstatus_of h') 1 = Z.testbit (sstatus_of h) 1;
  st_paging : hcsr h' satp = hcsr h satp;
}.

(** The status word [enter_kernel] writes, and the one [mret] leaves. *)
Definition mpp_s (s : Z) : Z := Z.lor (Z.land s (u64 (Z.lnot MSTATUS_MPP_MASK))) (2 ^ 11).
Lemma mpp_s_field s : Z.land (Z.shiftr (mpp_s s) 11) 3 = PRV_S.
Proof.
  apply Z.bits_inj'. intros n Hn. rewrite Z.land_spec, Z.shiftr_spec by done. unfold mpp_s. rewrite Z.lor_spec, Z.land_spec.
  destruct (decide (n = 0)) as [->|H0]; [by rewrite orb_true_r|]. destruct (decide (n = 1)) as [->|H1]; [by rewrite andb_false_r|].
  change 3 with (Z.ones 2). rewrite Z.ones_spec_high, andb_false_r by lia. symmetry. change PRV_S with (Z.ones 1). apply Z.ones_spec_high. lia.
Qed.

Lemma enter_kernel_run h :
  ∃ h', enter_kernel h = Done tt h' ∧ hmode h' = PRV_S ∧ hpc h' = get_x (A 0) h ∧
    hcsr h' mstatus = bit_to 12 false (bit_to 11 false (bit_to 7 true (bit_to 3 (Z.testbit (mpp_s (hcsr h mstatus)) 7) (mpp_s (hcsr h mstatus))))) ∧
    (∀ c, c ≠ mstatus → c ≠ mepc → hcsr h' c = hcsr h c) ∧ hmem h' = hmem h ∧ (∀ r, r ≠ T 0 → r ≠ T 1 → get_x r h' = get_x r h).
Proof.
  eexists. split; [reflexivity|]. cbv zeta. split_and!.
  - apply mpp_s_field.
  - done.
  - done.
  - intros c H1 H2. simpl. by rewrite !decide_False by done.
  - done.
  - intros r H0 H1. rewrite get_x_mode, get_x_pc. repeat first [rewrite get_x_csr|rewrite get_x_x by done]. done.
Qed.

Lemma entered_interrupts s : Z.testbit (Z.land (bit_to 12 false (bit_to 11 false (bit_to 7 true
  (bit_to 3 (Z.testbit (mpp_s s) 7) (mpp_s s))))) SSTATUS_MASK) 1 = Z.testbit (Z.land s SSTATUS_MASK) 1.
Proof.
  rewrite !Z.land_spec, !bit_to_spec by lia. rewrite !decide_False by done. unfold mpp_s. rewrite Z.lor_spec, Z.land_spec.
  by destruct (Z.testbit s 1).
Qed.

Lemma hcsr_same c v h : hcsr (set_csr c v h) c = v.
Proof. simpl. by rewrite decide_True. Qed.
Lemma hcsr_ne c d v h : c ≠ d → hcsr (set_csr d v h) c = hcsr h c.
Proof. intros. simpl. by rewrite decide_False. Qed.
Lemma hcsr_x c r v h : hcsr (set_x r v h) c = hcsr h c.
Proof. done. Qed.
Ltac csrs := repeat first [rewrite hcsr_same|rewrite hcsr_ne by done|rewrite hcsr_x].

Lemma delegate_traps_run h :
  ∃ h', delegate_traps h = Done tt h' ∧ hcsr h' medeleg = Z.ones 64 ∧ hcsr h' mideleg = Z.lor (hcsr h mideleg) (2 ^ 5 + 2 ^ 9) ∧
    (∀ c, c ≠ medeleg → c ≠ mideleg → hcsr h' c = hcsr h c) ∧ hmem h' = hmem h ∧ (∀ r, r ≠ T 0 → r ≠ T 1 → get_x r h' = get_x r h).
Proof.
  eexists. split; [reflexivity|]. split_and!.
  - reflexivity.
  - reflexivity.
  - intros c H1 H2. change (hcsr (set_pc ?p ?g) c) with (hcsr g c). by csrs.
  - reflexivity.
  - intros r H0 H1. rewrite get_x_pc. by repeat first [rewrite get_x_csr|rewrite get_x_x by done].
Qed.

Definition timer_armed (h : hart) : hart :=
  set_csr stimecmp (u64 (hcsr h time + 500000)) (set_csr mcounteren (Z.lor (hcsr h mcounteren) 2)
    (set_csr sie (Z.lor (hcsr h sie) (2 ^ 5)) (set_csr menvcfg (Z.lor (hcsr h menvcfg) (2 ^ 63)) h))).
Lemma time_init_run h : time_init_csr h = Done tt (timer_armed h).
Proof.
  assert (E : time_init_csr h = Done tt (set_csr stimecmp (u64 (u64 (hcsr h time + 500000))) (set_csr mcounteren (Z.lor (hcsr h mcounteren) 2)
    (set_csr sie (Z.lor (hcsr h sie) (2 ^ 5)) (set_csr menvcfg (Z.lor (hcsr h menvcfg) (2 ^ 63)) h))))) by reflexivity.
  by rewrite E, wrap_wrap by done.
Qed.

(** C13: [start] hands the machine over: the processor is in supervisor mode at
    [kernel_start]; every exception, and the external and timer interrupts of
    the supervisor, go to the kernel, at [kernelvec]; all of the memory is open
    to it; and the timer is armed for one tick, under the kernel's control. *)
Theorem start_enters_supervisor h : ∃ h', start_csr h = Done tt h' ∧ Started h h'.
Proof.
  set (hp := set_csr pmpcfg0 31 (set_csr pmpaddr0 (2 ^ 64 - 1) h)).
  destruct (delegate_traps_run hp) as (hd & Ed & He & Hi & Hc & Hm & Hr).
  set (ht := set_csr stvec (u64 kernelvec_at) (set_csr mtvec (u64 machine_trap_panic_at) hd)).
  set (h1 := set_x (A 0) (u64 kernel_start_at) (timer_armed ht)).
  destruct (enter_kernel_run h1) as (h2 & E2 & Emo & Epc & Ems & Ec & Em & Er). exists h2. split.
  { unfold start_csr. assert (E : pmp_allow_all h = Done tt hp) by reflexivity. mstep E. mstep Ed.
    assert (Et : trap_init hd = Done tt ht) by reflexivity. mstep Et. mstep (time_init_run ht). unfold li. hstep. exact E2. }
  assert (Eo : ∀ c, c ≠ mstatus → c ≠ mepc → hcsr h2 c = hcsr (timer_armed ht) c) by (intros c H0 H1; by rewrite Ec by done).
  assert (Hms : hcsr h1 mstatus = hcsr h mstatus).
  { unfold h1, timer_armed, ht. csrs. rewrite Hc by done. unfold hp. by csrs. }
  assert (Hsp : get_x Sp h2 = get_x Sp h ∧ hmem h2 = hmem h).
  { rewrite Er by done. unfold h1, timer_armed, ht. rewrite get_x_x by done. rewrite !get_x_csr, Hr by done. unfold hp. rewrite !get_x_csr. split; [done|].
    rewrite Em. exact Hm. }
  assert (Hall : ∀ c, hcsr hp c = if decide (c = pmpcfg0) then 31 else if decide (c = pmpaddr0) then 2 ^ 64 - 1 else hcsr h c) by done.
  clearbody hp. split; rewrite ?Eo by done; unfold timer_armed, ht; csrs; rewrite ?He, ?Hi, ?Hc, ?Hall by done; try done.
  - apply Hsp.
  - apply Hsp.
  - intros n Hn. by apply Z.ones_spec_low.
  - intros n Hn. rewrite Z.lor_spec. change (2 ^ 5 + 2 ^ 9) with (Z.lor (2 ^ 5) (2 ^ 9)). rewrite Z.lor_spec, !Z.pow2_bits_eqb by lia.
    unfold S_IRQ_EXT, S_IRQ_TMR. rewrite (Z.eqb_sym 5), (Z.eqb_sym 9). by destruct (n =? 9), (n =? 5), (Z.testbit _ n).
  - by rewrite !Z.lor_spec, !orb_true_r.
  - unfold sstatus_of. rewrite Ems, Hms. apply entered_interrupts.
Qed.

(** ** The two start files *)

(** The words from [b] to [e], at the physical address [p]. *)
Definition Bss (h : hart) (p : Z) (n : nat) : Prop :=
  bss_end = bss_start + 8 * Z.of_nat n ∧ 0 ≤ bss_start ∧ bss_end < 2 ^ 64 ∧ Slots h bss_start p (Z.of_nat n).

(** The memory behind the first [k] stores. *)
Definition zeroed (p : Z) (k : nat) (m : gmap Z Z) : gmap Z Z :=
  foldl (λ m i, <[p + 8 * Z.of_nat i := 0]> m) m (seq 0 k).
Lemma zeroed_S p k m : zeroed p (S k) m = <[p + 8 * Z.of_nat k := 0]> (zeroed p k m).
Proof. unfold zeroed. by rewrite seq_S, foldl_app. Qed.
Lemma zeroed_in p k m i : 0 ≤ i < Z.of_nat k → zeroed p k m !! (p + 8 * i) = Some 0.
Proof.
  induction k as [|k IH]; intros Hi; [lia|]. rewrite zeroed_S. destruct (decide (i = Z.of_nat k)) as [->|Hne]; [apply lookup_insert_eq|].
  rewrite lookup_insert_ne by lia. apply IH. lia.
Qed.
Lemma zeroed_out p k m a : (∀ i, 0 ≤ i < Z.of_nat k → a ≠ p + 8 * i) → zeroed p k m !! a = m !! a.
Proof. induction k as [|k IH]; intros Ha; [done|]. rewrite zeroed_S, lookup_insert_ne by (intros E; apply (Ha (Z.of_nat k)); lia). apply IH. intros i Hi. apply Ha. lia. Qed.
Lemma zeroed_some p k m a : is_Some (m !! a) → is_Some (zeroed p k m !! a).
Proof. intros Ha. induction k as [|k IH]; [done|]. rewrite zeroed_S. apply lookup_insert_is_Some'. by right. Qed.

(** The processor in the loop, behind [k] of the [n] stores. *)
Record Clearing (h0 : hart) (p : Z) (n k : nat) (h : hart) : Prop := {
  cl_t0 : get_x (T 0) h = bss_start + 8 * Z.of_nat k;
  cl_t1 : get_x (T 1) h = bss_end;
  cl_mem : hmem h = zeroed p k (hmem h0);
  cl_reg r : r ≠ T 0 → get_x r h = get_x r h0;
  cl_csr : hcsr h = hcsr h0;
  cl_mode : hmode h = hmode h0;
}.

Lemma clearing_step h0 p n k h : Bss h0 p n → Clearing h0 p n k h → (k < n)%nat →
  ∃ h', (∀ (f : M hart unit), (sd Zero 0 (T 0);; addi (T 0) (T 0) 8;; f) h = f h') ∧ Clearing h0 p n (S k) h'.
Proof.
  intros (Hn & H0 & H64 & HS) [Ht0 Ht1 Hm Hr Hc Hmo] Hk. destruct (HS (Z.of_nat k) ltac:(lia)) as [Ha Hs].
  assert (E : sd Zero 0 (T 0) h = Done tt (set_hmem (zeroed p (S k) (hmem h0)) h)).
  { unfold sd, address in *. rewrite Ht0, Hmo, Hc. replace (_ + 8 * 0) with (bss_start + 8 * Z.of_nat k) by lia. rewrite Ha, Hm.
    destruct (zeroed_some p k _ _ Hs) as [v ->]. by rewrite zeroed_S. }
  eexists. split; [intros f; mstep E; unfold addi; hstep; reflexivity|]. split; try done.
  - rewrite get_x_same, get_x_mem, Ht0 by done. rewrite wrap_small; lia.
  - intros r Hne. rewrite get_x_x, get_x_mem by done. by apply Hr.
Qed.

Lemma clear_bss_run h0 p n k h : Bss h0 p n → Clearing h0 p n k h → (k < n)%nat →
  ∃ h', clear_bss (n - k) h = Done tt h' ∧ Clearing h0 p n n h'.
Proof.
  intros HB. remember (n - k)%nat as d eqn:Hd. revert k h Hd. induction d as [|d IH]; intros k h Hd HC Hk; [lia|].
  cbn [clear_bss]. destruct (clearing_step h0 p n k h HB HC Hk) as (h1 & -> & HC1). do 2 hget.
  rewrite (cl_t0 _ _ _ _ _ HC1), (cl_t1 _ _ _ _ _ HC1). destruct HB as (Hn & HB).
  destruct (decide (S k = n)) as [<-|Hne].
  - exists h1. split; [|done]. by destruct (Z.ltb_spec (bss_start + 8 * Z.of_nat (S k)) bss_end); [lia|].
  - destruct (Z.ltb_spec (bss_start + 8 * Z.of_nat (S k)) bss_end); [|lia]. apply (IH (S k)); [lia|done|lia].
Qed.

Lemma clear_user_run h0 p n k h : Bss h0 p n → Clearing h0 p n k h → (k ≤ n)%nat →
  ∃ h', clear_user_bss (S (n - k)) h = Done tt h' ∧ Clearing h0 p n n h'.
Proof.
  intros HB. remember (n - k)%nat as d eqn:Hd. revert k h Hd. induction d as [|d IH]; intros k h Hd HC Hk.
  - assert (k = n) as -> by lia. exists h. split; [|done]. cbn [clear_user_bss]. do 2 hget.
    rewrite (cl_t0 _ _ _ _ _ HC), (cl_t1 _ _ _ _ _ HC). destruct HB as (Hn & _). by rewrite (proj2 (Z.leb_le _ _)) by lia.
  - remember (S d) as d' eqn:Hd'. cbn [clear_user_bss]. subst d'. do 2 hget. rewrite (cl_t0 _ _ _ _ _ HC), (cl_t1 _ _ _ _ _ HC).
    rewrite (proj2 (Z.leb_gt _ _)) by (destruct HB as (Hn & _); lia).
    destruct (clearing_step h0 p n k h HB HC ltac:(lia)) as (h1 & -> & HC1). apply (IH (S k)); [lia|done|lia].
Qed.

Lemma clearing_start h p n : Bss h p n → ∃ h', (∀ f : M hart unit, (li (T 0) bss_start;; li (T 1) bss_end;; f) h = f h') ∧
  Clearing (set_x (T 1) bss_end h) p n 0 h' ∧ Bss (set_x (T 1) bss_end h) p n.
Proof.
  intros HB. eexists. split; [intros f; unfold li; do 2 hstep; reflexivity|]. split; [|exact HB]. destruct HB as (Hn & H0 & H64 & HS).
  assert (u64 bss_start = bss_start ∧ u64 bss_end = bss_end) as [E0 E1] by (split; apply wrap_small; lia). rewrite E0, E1. split; try done.
  - rewrite get_x_x, get_x_same by done. lia.
  - intros r Hr. destruct (decide (r = T 1)) as [->|Hne]; [done|]. by rewrite !get_x_x by done.
Qed.

(** The kernel starts on its own stack with every word of its bss zero, and no
    other word of the memory changed; the section is not empty, as the stack
    is in it. *)
Theorem entry_clears_bss h n :
  hmode h = PRV_M → (0 < n)%nat → Bss h bss_start n →
  ∃ h', entry n h = Done tt h' ∧ hpc h' = start_at ∧ get_x Sp h' = u64 boot_stack_top ∧ hmode h' = PRV_M ∧
    (∀ i, 0 ≤ i < Z.of_nat n → hmem h' !! (bss_start + 8 * i) = Some 0) ∧
    (∀ a, (∀ i, 0 ≤ i < Z.of_nat n → a ≠ bss_start + 8 * i) → hmem h' !! a = hmem h !! a).
Proof.
  intros Hmo Hn HB. unfold entry. change (li Sp boot_stack_top) with (modify (set_x Sp (u64 boot_stack_top))). hstep. set (h1 := set_x Sp _ h).
  destruct (clearing_start h1 bss_start n HB) as (h2 & -> & HC & HB2).
  destruct (clear_bss_run _ _ _ _ _ HB2 HC Hn) as (h3 & E & [_ _ Hm Hr _ Hmo3]). rewrite Nat.sub_0_r in E. mstep E.
  eexists. split; [reflexivity|]. cbn [set_pc hpc hmode hmem]. rewrite get_x_pc, Hr, Hmo3, Hm by done. split_and!; try done.
  - intros i Hi. by apply zeroed_in.
  - intros a Ha. by apply zeroed_out.
Qed.

(** A user program starts [main] with the number of arguments and their vector
    from the stack the kernel made, its bss zero; behind [main] it ends. *)
Theorem user_start_clears_bss h n p q w main exit_group :
  Bss h p n → address (u64 (get_x Sp h + 8 * 0)) h = Some q → hmem h !! q = Some w → (∀ i, 0 ≤ i < Z.of_nat n → q ≠ p + 8 * i) →
  ∃ h', start_user main exit_group (S n) h = (main;; exit_group) h' ∧
    get_x (A 0) h' = u64 (sext 32 w) ∧ get_x (A 1) h' = u64 (get_x Sp h + 16) ∧ get_x Sp h' = get_x Sp h ∧
    (∀ i, 0 ≤ i < Z.of_nat n → hmem h' !! (p + 8 * i) = Some 0) ∧
    (∀ a, (∀ i, 0 ≤ i < Z.of_nat n → a ≠ p + 8 * i) → hmem h' !! a = hmem h !! a).
Proof.
  intros HB Ha Hw Hq. unfold start_user. destruct (clearing_start h p n HB) as (h2 & -> & HC & HB2).
  destruct (clear_user_run _ _ _ _ _ HB2 HC ltac:(lia)) as (h3 & E & [_ _ Hm Hr Hc3 Hmo3]). rewrite Nat.sub_0_r in E. mstep E.
  assert (Hsp : get_x Sp h3 = get_x Sp h) by by rewrite Hr.
  assert (El : ld (A 0) 0 Sp h3 = Done tt (set_x (A 0) w h3)).
  { unfold ld, address in *. rewrite Hsp, Hmo3, Hc3. cbn [set_x hmode hcsr]. rewrite Ha, Hm, zeroed_out by done. cbn [set_x hmem]. by rewrite Hw. }
  unfold lw. assert (Ew : ∀ f : M hart unit, ((ld (A 0) 0 Sp;; modify (λ h, set_x (A 0) (u64 (sext 32 (get_x (A 0) h))) h));; f) h3 =
    f (set_x (A 0) (u64 (sext 32 w)) (set_x (A 0) w h3))) by (intros f; unfold mbind, M_bind in *; by rewrite El).
  rewrite Ew. unfold addi. hstep. eexists. split; [reflexivity|].
  repeat first [rewrite get_x_same by done|rewrite get_x_x by done]. rewrite Hsp. cbn [set_x hmem]. rewrite Hm. split_and!; try done.
  - intros i Hi. by apply zeroed_in.
  - intros a Ha'. by apply zeroed_out.
Qed.
End Hart.

(** ** The interrupts around a critical section (include/arch/cpu.h) *)

Definition irqs_on (h : hart) : bool := Z.testbit (sstatus_of h) 1.

Lemma irqs_on_put v h : irqs_on (sstatus_put v h) = Z.testbit v 1.
Proof. unfold irqs_on. by rewrite status_put, Z.land_spec, andb_true_r. Qed.
Lemma has_sie s : has s SSTATUS_SIE = Z.testbit s 1.
Proof.
  unfold has, SSTATUS_SIE. change 2 with (2 ^ 1) at 1. destruct (Z.testbit s 1) eqn:E.
  - destruct (Z.eqb_spec (Z.land s (2 ^ 1)) 0) as [Hz|]; [|done]. exfalso.
    assert (Hb : Z.testbit (Z.land s (2 ^ 1)) 1 = false) by by rewrite Hz. by rewrite Z.land_spec, E in Hb.
  - apply negb_false_iff, Z.eqb_eq, Z.bits_inj'. intros n Hn. rewrite Z.land_spec, Z.pow2_bits_eqb, Z.bits_0 by lia.
    destruct (Z.eqb_spec 1 n) as [<-|]; [by rewrite E|apply andb_false_r].
Qed.

(** A section between [irq_save] and [irq_restore] runs without interrupts, and
    leaves them as they were, whether it is inside another one or not. *)
Theorem irq_section h : ∃ flags h1, irq_save h = Done flags h1 ∧ irqs_on h1 = false ∧
  ∀ h2, irqs_on h2 = false → ∃ h3, irq_restore flags h2 = Done tt h3 ∧ irqs_on h3 = irqs_on h.
Proof.
  unfold irq_save, irq_restore, read_sstatus, irq_disable_s, irq_enable_s. hget. exists (sstatus_of h). rewrite has_sie. fold (irqs_on h).
  destruct (irqs_on h) eqn:E.
  - eexists. split; [reflexivity|]. split; [etransitivity; [apply irqs_on_put|]; by rewrite Z.ldiff_spec, andb_false_r|].
    intros h2 _. eexists. split; [reflexivity|]. etransitivity; [apply irqs_on_put|]. by rewrite Z.lor_spec, orb_true_r.
  - exists h. split_and!; [done|done|]. intros h2 H2. by exists h2.
Qed.

(** ** A processor *)

Lemma slots_check mmu h b p n :
  forallb (λ i, bool_decide (address mmu (u64 (b + 8 * i)) h = Some (p + 8 * i)) &&
    match hmem h !! (p + 8 * i) with Some _ => true | None => false end) (seqZ 0 (n - 0)) = true → Slots mmu h b p n.
Proof.
  intros Hf i Hi. pose proof (forall_range _ _ _ Hf i Hi) as [Ha Hs]%andb_true_iff.
  split; [by apply bool_decide_eq_true_1 in Ha|by apply bool_some].
Qed.

Definition demo_words (a : Z) : list (Z * Z) := (λ i, (a + 8 * i, a + i)) <$> seqZ 0 40.
Definition demo_mem : gmap Z Z := list_to_map (demo_words 4096 ++ demo_words 8192 ++ demo_words (32768 - 136)).
Definition demo_x (r : reg) : Z :=
  match r with
  | Zero => 0
  | Ra => 1000
  | Sp => 32768
  | Gp => 1
  | Tp => 2
  | A i => if (i =? 0)%nat then 4096 else if (i =? 1)%nat then 8192 else 200 + Z.of_nat i
  | T i => 300 + Z.of_nat i
  | Sv i => 400 + Z.of_nat i
  end.
Definition demo_csr (c : csr) : Z := match c with sscratch => 4096 | mstatus => 2 | satp => 5 | _ => 0 end.
Definition demo_hart (mode : Z) : hart := Hart demo_x demo_csr demo_mem 512 mode.
(** The user's page tables map the frame at 4096 to 8192; those of the kernel
    map every address to itself. *)
Definition demo_mmu (s a : Z) : option Z := if (s =? 5) && (4096 <=? a) && (a <? 8192) then Some (a + 4096) else Some a.
Definition flat_mmu (s a : Z) : option Z := Some a.

Definition after {A} (m : M hart A) (h : hart) : hart := match m h with Done _ h' => h' | _ => h end.
Definition demo_back (h : hart) : hart := set_x (A 0) 8192 (set_x (A 1) 4096 h).

Lemma context_switch_resumes_witness :
  ∃ h3, ctx_sw flat_mmu (demo_back (after (ctx_sw flat_mmu) (demo_hart PRV_S))) = Done tt h3 ∧ hpc h3 = 1000 ∧ get_x Sp h3 = 32768.
Proof.
  destruct (context_switch_resumes flat_mmu (demo_hart PRV_S) 4096 4096 8192 8192) as (h1 & E & _ & K);
    [reflexivity|reflexivity|apply slots_check; by vm_compute|apply slots_check; by vm_compute|left; lia|].
  assert (Eh : h1 = after (ctx_sw flat_mmu) (demo_hart PRV_S)) by (unfold after; by rewrite E).
  destruct (K (demo_back h1) 8192 8192) as (h3 & E3 & Hpc & Hr & _); [reflexivity|reflexivity| | |right; lia|done|].
  - rewrite Eh. apply slots_check. by vm_compute.
  - rewrite Eh. apply slots_check. by vm_compute.
  - exists h3. rewrite <-Eh. split_and!; [done|done|]. rewrite (Hr Sp); [done|]. apply (bool_decide_unpack _). by vm_compute.
Defined.

Definition demo_trap : hart := after (trap_entry demo_mmu 600 700 800) (take_trap 8 0 (demo_hart PRV_U)).
Definition demo_return (h : hart) : hart := set_x (A 0) 5 (set_x (A 1) 4096 h).


(** A handler that uses the registers it may, and is interrupted itself. *)
Definition demo_handler (irq : Z) : M hart unit :=
  li (A 0) irq;; li (T 3) 9;; csr_write sepc 4;; modify (sstatus_put 0).

Lemma kernel_trap_roundtrip_witness :
  ∃ h', kernelvec flat_mmu (kerneltrap_csr demo_handler) (take_trap (2 ^ 63 + 5) 0 (demo_hart PRV_S)) = Done tt h' ∧
    hpc h' = 512 ∧ get_x (A 0) h' = 4096 ∧ get_x (T 3) h' = 303 ∧ irqs_on h' = true.
Proof.
  destruct (kernel_trap_roundtrip flat_mmu demo_handler (demo_hart PRV_S) (2 ^ 63 + 5) 0 (32768 - 136)) as (h' & E & Hp & _ & Hr & Hi).
  - intros irq h Hm. eexists. split; [reflexivity|]. split_and!; try done. intros r Hr. by destruct r.
  - reflexivity.
  - reflexivity.
  - simpl. lia.
  - simpl. lia.
  - apply slots_check. by vm_compute.
  - exists h'. split_and!; [done|done|by rewrite Hr|by rewrite Hr|]. unfold irqs_on. by rewrite Hi.
Defined.
