(* ===== verification/Elf.v ===== *)
(** * Executables (kernel/core/memory/elf.c)

    [junk] is what the stack holds where the headers are read to: a read that
    ends early leaves it in place. *)

From S2P Require Import Prelude Clist Sched Pages Vpages Tinyalloc FsState Inode Fs File Kenv Mmap.

Definition ELF_MAX_PHDR : Z := 16.
Definition ELF_HDR_NIDENT : Z := 16.
Definition ELF_HDR_IDENT_MAG_NIDENT : Z := 4.
Definition ELF_HDR_IDENT_CLASS : Z := 4.
Definition ELF_HDR_IDENT_DATA : Z := 5.
Definition ELF_MAGIC_STR : list Z := [127; 69; 76; 70].
Definition ELF_HDR_IDENT_CLASS_64 : Z := 2.
Definition ELF_HDR_IDENT_DATA_2LSB : Z := 1.
Definition ELF_HDR_TYPE_EXEC : Z := 2.
Definition ELF_PHDR_TYPE_LOAD : Z := 1.
Definition ELF_HDR_MACHINE_RISCV : Z := 243.
Definition ELF_PHDR_FLAG_X : Z := 1.
Definition ELF_PHDR_FLAG_W : Z := 2.
Definition ELF_PHDR_FLAG_R : Z := 4.

Record elf_hdr := ElfHdr {
  eh_ident : list Z;
  eh_type : Z;
  eh_machine : Z;
  eh_version : Z;
  eh_entry : Z;
  eh_phdroff : Z;
  eh_shdroff : Z;
  eh_flags : Z;
  eh_size : Z;
  eh_phdr_size : Z;
  eh_phdr_num : Z;
}.
Record elf_phdr := ElfPhdr {
  ph_type : Z;
  ph_flags : Z;
  ph_offset : Z;
  ph_va : Z;
  ph_pa : Z;
  ph_filesz : Z;
  ph_memsz : Z;
  ph_align : Z;
}.
(** With the padding to the alignment of 8 bytes. *)
Definition SIZEOF_ELF_HDR : Z := 64.
Definition SIZEOF_ELF_PHDR : Z := 56.

(** A little-endian number, and the field of [n] bytes at [off]. *)
Fixpoint le_value (l : list Z) : Z := match l with [] => 0 | b :: l => b + 256 * le_value l end.
Definition field (l : list Z) (off n : nat) : Z := le_value (take n (drop off l)).

Definition hdr_of (l : list Z) : elf_hdr :=
  ElfHdr (take 16 l) (field l 16 2) (field l 18 2) (field l 20 4) (field l 24 8) (field l 32 8) (field l 40 8)
    (field l 48 4) (field l 52 2) (field l 54 2) (field l 56 2).
Definition phdr_of (l : list Z) : elf_phdr :=
  ElfPhdr (field l 0 4) (field l 4 4) (field l 8 8) (field l 16 8) (field l 24 8) (field l 32 8) (field l 40 8) (field l 48 8).

(** A structure on the stack after [data] was read to its start. *)
Definition read_over (data junk : list Z) : list Z := data ++ drop (length data) junk.

Section Elf.
Context (junk : list Z).
Context (r_cb : Z → Z → rdst → Z → M (sys kenv) (Z * list Z)).

Definition elf_load_hdr (f : Z) : M kern (Z * elf_hdr) :=
  res ← on_sys (file_seek f 0 SEEK_SET);
  if s32 res <? 0 then mret (s32 res, hdr_of junk) else
  r ← on_sys (file_read r_cb f KernDst SIZEOF_ELF_HDR);
  let hdr := hdr_of (read_over r.2 junk) in
  if s32 r.1 <? 0 then mret (s32 r.1, hdr) else mret (0, hdr).

Definition elf_verify_file_format (hdr : elf_hdr) : Z :=
  if negb (bool_decide (take (Z.to_nat ELF_HDR_IDENT_MAG_NIDENT) (eh_ident hdr) = ELF_MAGIC_STR)) then - ENOEXEC
  else if negb (default 0 (eh_ident hdr !! Z.to_nat ELF_HDR_IDENT_CLASS) =? ELF_HDR_IDENT_CLASS_64) then - ENOEXEC
  else if negb (default 0 (eh_ident hdr !! Z.to_nat ELF_HDR_IDENT_DATA) =? ELF_HDR_IDENT_DATA_2LSB) then - ENOEXEC
  else if negb (eh_type hdr =? ELF_HDR_TYPE_EXEC) then - ENOEXEC
  else if negb (eh_machine hdr =? ELF_HDR_MACHINE_RISCV) then - ENOEXEC
  else 0.

(** The number of program headers and the table. *)
Definition load_phdr (f : Z) (hdr : elf_hdr) : M kern (Z * list elf_phdr) :=
  if (eh_phdr_num hdr =? 0) || (ELF_MAX_PHDR <? eh_phdr_num hdr) then mret (- ENOEXEC, []) else
  if negb (eh_phdr_size hdr =? SIZEOF_ELF_PHDR) then mret (- ENOEXEC, []) else
  res ← on_sys (file_seek f (s64 (eh_phdroff hdr)) SEEK_SET);
  if s32 res <? 0 then mret (s32 res, []) else
  r ← on_sys (file_read r_cb f KernDst (eh_phdr_num hdr * SIZEOF_ELF_PHDR));
  if s32 r.1 <? 0 then mret (s32 r.1, []) else
  let tab := read_over r.2 junk in
  mret (eh_phdr_num hdr, (λ i, phdr_of (drop (i * Z.to_nat SIZEOF_ELF_PHDR) tab)) <$> seq 0 (Z.to_nat ELF_MAX_PHDR)).

Definition is_load_phdr (ph : elf_phdr) : bool := ph_type ph =? ELF_PHDR_TYPE_LOAD.

Definition is_valid_phdr (ph : elf_phdr) : bool :=
  if ph_memsz ph <? ph_filesz ph then false
  else if negb (ph_va ph mod PAGE_SIZE =? 0) then false
  else if ram_start <? u64 (ph_va ph + ph_memsz ph) then false
  else true.

Definition phdr_flag_to_pte_flag (flags : Z) : Z :=
  let pte_flag := 0 in
  let pte_flag := if has flags ELF_PHDR_FLAG_X then Z.lor pte_flag PTE_X else pte_flag in
  let pte_flag := if has flags ELF_PHDR_FLAG_W then Z.lor pte_flag PTE_W else pte_flag in
  if has flags ELF_PHDR_FLAG_R then Z.lor pte_flag PTE_R else pte_flag.

(** Each round takes a page: there are no more rounds than pages. *)
Fixpoint map_phdr_loop (fuel : nat) (root f : Z) (ph : elf_phdr) (off : Z) : M kern Z :=
  match fuel with
  | O => nofuel
  | S fuel =>
    if off <? ph_memsz ph then
      page ← on_p page_alloc;
      if page =? NULL then mret (- ENOMEM) else
      res ← (if off <? ph_filesz ph then
          let n := if ph_filesz ph - off <? PAGE_SIZE then ph_filesz ph - off else PAGE_SIZE in
          r ← on_sys (file_read r_cb f KernDst n);
          on_p (store_bytes page r.2);;
          mret (s32 r.1)
        else mret 0);
      if res <? 0 then mret res else
      res ← on_p (vpage_map_user root (u64 (ph_va ph + off)) page (phdr_flag_to_pte_flag (ph_flags ph)));
      if res <? 0 then on_p (page_put page);; mret res else
      map_phdr_loop fuel root f ph (u64 (off + PAGE_SIZE))
    else mret 0
  end.
Definition map_phdr_fuel : nat := S (S (Z.to_nat (RAM_SIZE / PAGE_SIZE))).

Definition map_phdr (root f : Z) (ph : elf_phdr) : M kern Z :=
  res ← on_sys (file_seek f (s64 (ph_offset ph)) SEEK_SET);
  if s32 res <? 0 then mret (s32 res) else
  map_phdr_loop map_phdr_fuel root f ph 0.

Fixpoint elf_map_loop (root f : Z) (phs : list elf_phdr) : M kern Z :=
  match phs with
  | [] => mret 0
  | ph :: phs =>
    if negb (is_load_phdr ph) then elf_map_loop root f phs else
    if negb (is_valid_phdr ph) then mret (- ENOEXEC) else
    res ← map_phdr root f ph;
    if res <? 0 then mret res else elf_map_loop root f phs
  end.

Definition elf_map (root f : Z) (hdr : elf_hdr) : M kern Z :=
  r ← load_phdr f hdr;
  if r.1 <? 0 then mret r.1 else elf_map_loop root f (take (Z.to_nat r.1) r.2).
End Elf.
