(* ===== verification/Task.v ===== *)
(** * Tasks (kernel/core/task/task.c, and the exits of scheduler.c)

    Creation, duplication, replacement and end of tasks over the state of the
    whole kernel.  A task structure is a block of the kernel heap, named by its
    address; when it is freed its fields and list nodes are gone, and reading
    them faults.  An entry of a table of file descriptors is 0, or the file [k]
    of the file table as [k + 1]. *)

From S2P Require Import Prelude Clist Sched Pages Vpages Tinyalloc FsState Inode Fs File Kenv Mmap Elf.

Definition MAX_TASK : Z := 32.
Definition NOFILE : nat := 16.
Definition KSTACK_SIZE : Z := 512.
Definition STACK_ALIGN : Z := 16.
Definition EXEC_MAX_ARGS : Z := 7.
Definition CLONE_VM : Z := 1.
Definition CLONE_FILES : Z := 2.
Definition STDOUT : nat := 0.
Definition STDIN : nat := 1.
Definition FILE_DEV_CONSOLE : Z := 0.
Definition THREAD_TRAPFRAME (pid : Z) : Z := MAX_VA - (4 + pid) * PAGE_SIZE.
(** [offsetof(task_t, kstack)] and [sizeof(task_t)]. *)
Definition OFFSETOF_KSTACK : Z := 152.
Definition SIZEOF_TASK : Z := 4576.

Definition ALIGN_DOWN (addr size : Z) : Z := Z.land addr (u64 (Z.lnot (size - 1))).

Definition file_ptr (k : Z) : Z := k + 1.
Definition file_idx (p : Z) : Z := p - 1.

(** ** The nodes of the scheduler in the state of the kernel *)

Definition kn_kst (s : kern) : kst := ke_k (s_env (kn_sys s)).
Definition kn_set_kst (k : kst) (s : kern) : kern :=
  let e := s_env (kn_sys s) in kn_set_sys (Sys (s_fs (kn_sys s)) (KEnv k (ke_m e) (ke_d e) (ke_v e))) s.
#[export] Program Instance kern_has_nodes : HasNodes nid kern :=
  {| nodes s := k_nodes (kn_kst s); set_nodes n s := kn_set_kst (with_nodes n (kn_kst s)) s |}.
Next Obligation. done. Qed.
Next Obligation. by intros [[f [[] m d]] h kr sa st]. Qed.
Next Obligation. done. Qed.

(** A zeroed structure. *)
Definition zero_task : task := Task 0 0 [] NEW 0 false 0 0 0 None 0 HIGH (replicate NOFILE 0).

(** The typed view of a structure that was just allocated, and of one that is
    about to be freed. *)
Definition adopt_task (t : tid) : M kern unit :=
  on_k (modify (λ k, with_tasks (<[t := zero_task]> (tasks k)) k));;
  modify (λ s, kn_set_start (<[t := Start 0 None 0]> (kn_start s)) s).
Definition drop_task (t : tid) : M kern unit :=
  on_k (modify (λ k, with_nodes (foldr delete (k_nodes k) [NTask t; NReady t; NWait t; NSleep t; NZombies t; NZombieWq t])
    (with_tasks (delete t (tasks k)) k)));;
  modify (λ s, kn_set_start (delete t (kn_start s)) s).

Definition get_task_ (t : tid) : M kern task := on_k (get_task t).
Definition upd_task_ (t : tid) (f : task → task) : M kern unit := on_k (upd_task t f).
Definition set_start (t : tid) (st : start) : M kern unit := modify (λ s, kn_set_start (<[t := st]> (kn_start s)) s).

Definition init_task_table : M kern unit :=
  on_k (modify (λ k, with_nodes (clist_init_node NTable (k_nodes k)) k));;
  on_k (modify (with_next_pid 0));;
  on_k (modify (with_active_task 0)).

Definition init_task_queues (t : tid) : M kern unit :=
  on_k (modify (λ k, with_nodes (foldl (λ s n, clist_init_node n s) (k_nodes k)
    [NTask t; NReady t; NWait t; NSleep t; NZombies t; NZombieWq t]) k)).

Definition alloc_squeletton (name : list Z) (prior : priority) (user : bool) (parent : option tid) : M kern eptr :=
  n ← on_k (gets active_task);
  if MAX_TASK <=? n then mret (ERR_PTR (- EAGAIN)) else
  t ← on_heap (calloc 1 SIZEOF_TASK);
  if t =? NULL then mret (ERR_PTR (- ENOMEM)) else
  adopt_task t;;
  init_task_queues t;;
  pid ← on_k (gets next_pid);
  on_k (modify (with_next_pid (u8 (pid + 1))));;
  upd_task_ t (λ v, Task pid pid (take (Z.to_nat MAXNAME - 1) name) NEW (root_ptable v) user (tframe_pa v) (tframe_va v)
    (wake_up_time v) parent (exit_code v) prior (fdtable v));;
  mret (PTR t).

Definition activate_task (p : tid) : M kern unit :=
  upd_task_ p (with_state READY);;
  on_k (on_nodes (clist_push_back NTable (NTask p)));;
  on_k (modify (λ k, with_active_task (u8 (active_task k + 1)) k));;
  on_k (scheduler_admit p).

(** ** File descriptors *)

Definition fd_at (t : task) (fd : nat) : M kern Z := of_opt (fdtable t !! fd).
Definition set_fd (p : tid) (fd : nat) (f : Z) : M kern unit := upd_task_ p (λ t, with_fdtable (<[fd := f]> (fdtable t)) t).

Definition release_fds (p : tid) : M kern unit :=
  each (λ i, t ← get_task_ p; f ← fd_at t i;
    if negb (f =? NULL) then on_sys (file_put (file_idx f)) else mret tt) (seq 0 NOFILE).

Definition copy_fds (child : tid) (parent : option tid) (clone : bool) : M kern unit :=
  match parent with
  | None => mret tt
  | Some parent =>
    each (λ i, t ← get_task_ parent; f ← fd_at t i;
      if negb (f =? NULL) then
        if clone then
          n ← on_sys (file_clone (file_idx f));
          set_fd child i (match n with Some n => file_ptr n | None => NULL end)
        else n ← on_sys (file_get (file_idx f)); set_fd child i (file_ptr n)
      else mret tt) (seq 0 NOFILE)
  end.

Fixpoint give_fd_loop (p : tid) (f : Z) (fds : list nat) : M kern Z :=
  match fds with
  | [] => mret (- EMFILE)
  | fd :: fds =>
    t ← get_task_ p;
    cur ← fd_at t fd;
    if cur =? NULL then set_fd p fd f;; mret (Z.of_nat fd) else give_fd_loop p f fds
  end.
Definition task_give_fd (p : tid) (f : Z) : M kern Z := give_fd_loop p f (seq 0 NOFILE).

Definition task_get_fd (p : tid) (fd : Z) : M kern Z :=
  if (Z.of_nat NOFILE <=? fd) || (fd <? 0) then mret NULL else
  t ← get_task_ p; fd_at t (Z.to_nat fd).

(** The descriptor is not checked: an index out of the table is an invalid
    access. *)
Definition task_release_fd (p : tid) (fd : Z) : M kern Z :=
  t ← get_task_ p;
  f ← (if fd <? 0 then fault else fd_at t (Z.to_nat fd));
  if f =? NULL then mret (- EBADF) else
  set_fd p (Z.to_nat fd) NULL;;
  on_sys (file_put (file_idx f));;
  mret 0.

(** ** The end of a task *)

Definition task_zombify (t : tid) (code : Z) : M kern unit :=
  flags ← on_k irq_save;
  v ← get_task_ t;
  match parent v with
  | None => panic "Zombify an orphan task is not permitted"
  | Some parent =>
    upd_task_ t (with_state ZOMBIE);;
    upd_task_ t (with_exit_code (s8 code));;
    on_k (remove_from_sched_queues t);;
    release_fds t;;
    on_k (on_nodes (clist_push_back (NZombies parent) (NWait t)));;
    pv ← get_task_ parent;
    (if decide (state pv = BLOCKED) then on_k (scheduler_wake_waiting_queue (NZombieWq parent)) else mret tt);;
    on_k (irq_restore flags)
  end.

Definition task_destroy (t : tid) : M kern unit :=
  flags ← on_k irq_save;
  a ← on_k task_active;
  if decide (a = Some t) then panic "Trying to destroy the current task led to segfault. Use zombify instead" else
  upd_task_ t (with_state TERMINATED);;
  on_k (remove_from_all_queues t);;
  v ← get_task_ t;
  let root := root_ptable v in
  (if user v && negb (root =? NULL) then
     on_p (vpage_unmmap root (tframe_va v));;
     c ← on_p (page_get_ref_count root);
     if c =? 1 then on_p (vpage_tree_free root) else on_p (page_put root)
   else mret tt);;
  on_heap (free t);;
  drop_task t;;
  on_k (modify (λ k, with_active_task (u8 (active_task k - 1)) k));;
  on_k (irq_restore flags).

Definition task_reap (t : tid) : M kern unit :=
  v ← get_task_ t; if decide (state v = ZOMBIE) then task_destroy t else mret tt.

Definition scheduler_exit (code : Z) : M kern unit :=
  on_k irq_save;;
  current ← on_k task_active;
  current ← of_opt current;
  task_zombify current code;;
  on_k switch_out_active;;
  panic "Zombie exit".

Definition exit_tgid_cb (tg : Z) (node : nid) : M kern Z :=
  current ← on_k task_active;
  p ← of_opt (of_task_node node);
  v ← get_task_ p;
  (if (tg =? tgid v) && negb (bool_decide (Some p = current)) then task_destroy p else mret tt);;
  mret 0.

Definition scheduler_exit_group (code : Z) : M kern unit :=
  on_k irq_save;;
  t ← on_k task_active;
  t ← of_opt t;
  v ← get_task_ t;
  clist_for_each NTable (exit_tgid_cb (tgid v));;
  scheduler_exit code.

(** ** New tasks *)

Section Task.
Context (junk : list Z) (trampoline_start trampoline_end sstatus : Z).
Context (r_cb : Z → Z → rdst → Z → M (sys kenv) (Z * list Z)).
(** The bodies of the kernel threads, by the address of their code. *)
Context (run_code : Z → M kern unit).

Definition kstack_top (t : tid) : Z := t + OFFSETOF_KSTACK + 8 * KSTACK_SIZE.

Definition load_elf_image (p : tid) (elf : Z) : M kern (Z * Z) :=
  h ← elf_load_hdr junk r_cb elf;
  let '(res, hdr) := h in
  if res <? 0 then mret (res, 0) else
  let res := elf_verify_file_format hdr in
  if res <? 0 then mret (res, 0) else
  res ← mmap_uimage trampoline_start trampoline_end p;
  if res <? 0 then mret (res, 0) else
  v ← get_task_ p;
  res ← elf_map junk r_cb (root_ptable v) elf hdr;
  if res <? 0 then on_p (vpage_tree_free (root_ptable v));; mret (res, 0) else
  mret (0, eh_entry hdr).

(** The pointers of [argv] up to the null one. *)
Fixpoint get_argc_loop (fuel : nat) (old_ptable argv argc : Z) (acc : list Z) : M kern (Z * list Z) :=
  match fuel with
  | O => mret (- E2BIG, acc)
  | S fuel =>
    r ← on_p (vpage_copyin old_ptable (u64 (argv + 8 * argc)) 8);
    if r.1 <? 0 then mret (r.1, acc) else
    let arg := le_value r.2 in
    if arg =? NULL then mret (argc, acc) else get_argc_loop fuel old_ptable argv (argc + 1) (acc ++ [arg])
  end.
Definition get_argc (old_ptable argv : Z) : M kern (Z * list Z) :=
  if argv =? NULL then mret (0, []) else get_argc_loop (Z.to_nat EXEC_MAX_ARGS) old_ptable argv 0 [].

Definition le_bytes (n : nat) (v : Z) : list Z := (λ i, (v / 2 ^ (8 * Z.of_nat i)) mod 256) <$> seq 0 n.

(** The arguments from the last one on; [ptrs] are the addresses of those
    already copied. *)
Fixpoint copy_args (old_ptable new_ptable : Z) (args : list Z) (sp : Z) (ptrs : list Z) : M kern (Z * Z * list Z) :=
  match args with
  | [] => mret (0, sp, ptrs)
  | arg :: args =>
    r ← on_p (vpage_copyinstr old_ptable arg MAXNAME);
    if r.1 <? 0 then mret (s32 r.1, sp, ptrs) else
    let sp := ALIGN_DOWN (u64 (sp - r.1)) STACK_ALIGN in
    len ← on_p (vpage_copyoutstr new_ptable sp r.2 r.1);
    if len <? 0 then mret (s32 len, sp, ptrs) else
    copy_args old_ptable new_ptable args sp (sp :: ptrs)
  end.

Definition transfer_argv (old_ptable new_ptable argv : Z) : M kern (Z * Z) :=
  a ← get_argc old_ptable argv;
  let '(argc, argv_k) := a in
  if argc <? 0 then mret (argc, 0) else
  c ← copy_args old_ptable new_ptable (reverse argv_k) USTACK [];
  let '(res, sp, argv_tmp) := c in
  if res <? 0 then mret (res, 0) else
  let argv_size := (argc + 1) * 8 in
  let sp := ALIGN_DOWN (u64 (sp - argv_size)) STACK_ALIGN in
  res ← on_p (vpage_copyout new_ptable sp (concat (le_bytes 8 <$> argv_tmp ++ [NULL])));
  if res <? 0 then mret (res, 0) else
  let sp := ALIGN_DOWN (u64 (sp - 4)) STACK_ALIGN in
  res ← on_p (vpage_copyout new_ptable sp (le_bytes 4 argc));
  if res <? 0 then mret (res, 0) else
  mret (0, sp).

Definition task_start_userland (user_elf : Z) (name : list Z) (prior : priority) : M kern eptr :=
  flags ← on_k irq_save;
  a ← on_k task_active;
  p ← alloc_squeletton name prior true a;
  match p with
  | ERR_PTR e => on_k (irq_restore flags);; mret (ERR_PTR e)
  | PTR p =>
    let err_free_task (res : Z) : M kern eptr :=
      on_heap (free p);; drop_task p;; on_k (irq_restore flags);; mret (ERR_PTR res) in
    set_start p (Start 0 (Some TrapReturnToUser) (kstack_top p));;
    r ← load_elf_image p user_elf;
    let '(res, entry) := r in
    if res <? 0 then err_free_task res else
    v ← get_task_ p;
    r ← transfer_argv NULL (root_ptable v) NULL;
    let '(res, sp) := r in
    if res <? 0 then err_free_task res else
    tframe_init sstatus (tframe_pa v) (root_ptable v) (kstack_top p);;
    tframe_start (tframe_pa v) entry sp;;
    a ← on_k task_active;
    copy_fds p a false;;
    activate_task p;;
    on_k (irq_restore flags);;
    mret (PTR p)
  end.

(** [code]: the address of the body; the first task of all starts at the body
    itself, on the stack it runs on. *)
Definition task_kthread (code : Z) (name : list Z) (prior : priority) : M kern eptr :=
  flags ← on_k irq_save;
  a ← on_k task_active;
  p ← alloc_squeletton name prior false a;
  match p with
  | ERR_PTR e => on_k (irq_restore flags);; mret (ERR_PTR e)
  | PTR p =>
    v ← get_task_ p;
    set_start p (if pid v =? 0 then Start code (Some Idle) 0 else Start code (Some KtaskLauncher) (kstack_top p));;
    a ← on_k task_active;
    copy_fds p a false;;
    activate_task p;;
    on_k (irq_restore flags);;
    mret (PTR p)
  end.

Definition ktask_launcher : M kern unit :=
  on_k (modify (with_sie true));;
  p ← on_k task_active;
  p ← of_opt p;
  s ← get;
  st ← of_opt (kn_start s !! p);
  run_code (st_code st);;
  scheduler_exit_group 0.

Definition init_idle (task_idle : Z) : M kern Z :=
  p ← task_kthread task_idle [105; 100; 108; 101] IDLE;
  match p with
  | ERR_PTR e => mret (s32 e)
  | PTR p => on_k (modify (with_active (Some p)));; upd_task_ p (with_state RUNNING);; mret 0
  end.

Definition task_init (task_idle : Z) : M kern Z := init_task_table;; on_k scheduler_init;; init_idle task_idle.

(** [memcpy] of the trap frame, by words. *)
Definition copy_tframe (dst src : Z) : M kern unit :=
  each (λ i, w ← on_p (load64 (src + 8 * i)); on_p (store64 (dst + 8 * i) w)) (seqZ 0 (SIZEOF_TFRAME / 8)).

Definition task_clone (parent : tid) (entry args stack flags : Z) : M kern eptr :=
  pv ← get_task_ parent;
  if negb (user pv) then panic "Only fork for user task is supported " else
  irq ← on_k irq_save;
  child ← alloc_squeletton (name pv) (prio pv) (user pv) (Some parent);
  match child with
  | ERR_PTR e => on_k (irq_restore irq);; mret (ERR_PTR e)
  | PTR child =>
    let err_free_task (res : Z) : M kern eptr :=
      on_heap (free child);; drop_task child;; on_k (irq_restore irq);; mret (ERR_PTR res) in
    t ← on_p page_alloc;
    if t =? NULL then err_free_task (- ENOMEM) else
    upd_task_ child (with_tframe_pa t);;
    let err_free_tframe (res : Z) : M kern eptr := on_p (page_put t);; err_free_task res in
    let err_free_map (res : Z) : M kern eptr :=
      cv ← get_task_ child;
      (if has flags CLONE_VM then on_p (page_put (root_ptable cv)) else on_p (vpage_tree_free (root_ptable cv)));;
      err_free_tframe res in
    let finish : M kern eptr :=
      cv ← get_task_ child;
      res ← on_p (vpage_map (root_ptable cv) (tframe_va cv) t (Z.lor PTE_R PTE_W));
      if res <? 0 then err_free_map res else
      tframe_init sstatus t (root_ptable cv) (kstack_top child);;
      set_start child (Start 0 (Some TrapReturnToUser) (kstack_top child));;
      copy_fds child (Some parent) (has flags CLONE_FILES);;
      activate_task child;;
      on_k (irq_restore irq);;
      mret (PTR child) in
    if has flags CLONE_VM then
      root ← on_p (page_get (root_ptable pv));
      upd_task_ child (with_root_ptable root);;
      upd_task_ child (with_tgid (tgid pv));;
      if (stack =? NULL) || (entry =? NULL) then err_free_map (- EINVAL) else
      tframe_start t entry stack;;
      tframe_set_arg t 0 args;;
      cv ← get_task_ child;
      upd_task_ child (with_tframe_va (THREAD_TRAPFRAME (pid cv)));;
      finish
    else
      root ← on_p page_alloc;
      if root =? NULL then err_free_tframe (- ENOMEM) else
      upd_task_ child (with_root_ptable root);;
      cv ← get_task_ child;
      upd_task_ child (with_tgid (pid cv));;
      res ← on_p (vpage_tree_copy root (root_ptable pv));
      if res <? 0 then err_free_map res else
      copy_tframe t (tframe_pa pv);;
      tframe_set_return_val t 0;;
      upd_task_ child (with_tframe_va TRAPFRAME);;
      finish
  end.

Definition task_fork (parent : tid) : M kern eptr := task_clone parent NULL NULL NULL 0.

Definition task_exec (p : tid) (elf argv : Z) : M kern Z :=
  v ← get_task_ p;
  if negb (user v) then panic "Task exec on non user is not supported" else
  flags ← on_k irq_save;
  let old_ptable := root_ptable v in
  let old_tframe := tframe_pa v in
  let err_restore_old_state (res : Z) : M kern Z :=
    upd_task_ p (with_root_ptable old_ptable);;
    upd_task_ p (with_tframe_pa old_tframe);;
    on_k (irq_restore flags);;
    mret res in
  r ← load_elf_image p elf;
  let '(res, entry) := r in
  if res <? 0 then err_restore_old_state res else
  v ← get_task_ p;
  r ← transfer_argv old_ptable (root_ptable v) argv;
  let '(res, sp) := r in
  if res <? 0 then err_restore_old_state res else
  tframe_init sstatus (tframe_pa v) (root_ptable v) (kstack_top p);;
  tframe_start (tframe_pa v) entry sp;;
  on_p (vpage_tree_free old_ptable);;
  on_k (irq_restore flags);;
  mret 0.

Definition dev_console : list Z := [47; 100; 101; 118; 47; 99; 111; 110; 115; 111; 108; 101].

Definition task_map_console (p : tid) : M kern Z :=
  res ← on_sys (fs_mknod junk dev_console FILE_DEV_CONSOLE);
  if res <? 0 then mret res else
  f ← on_sys (file_open junk dev_console O_W);
  match f with
  | ERR_PTR e => mret (s32 e)
  | PTR f =>
    set_fd p STDOUT (file_ptr f);;
    f ← on_sys (file_open junk dev_console O_R);
    match f with
    | ERR_PTR e => mret (s32 e)
    | PTR f => set_fd p STDIN (file_ptr f);; mret 0
    end
  end.
End Task.
