(* ===== verification/Devices.v ===== *)
(** * The drivers in the kernel (arch/plic.c, kernel/drivers, time.c)

    The interrupt controller, the uart, the console and the block device on the
    state of the whole kernel, with the daemons that serve them.  The callbacks
    of the console are those that a file on the console device calls. *)

From S2P Require Import Prelude Clist Sched Sync Pages Vpages Mmio Uart Pci Console Virtio FsState Inode File Kenv Mmap Task StringLib Doprnt.

(** ** The parts of the state *)

Section Lens.
Context {S T : Type} (g : S → T) (p : T → S → S).
Fixpoint lens_run {A : Type} (s : S) (o : outcome T A) : outcome S A :=
  match o with
  | Done a t => Done a (p t s)
  | Panic msg => Panic msg
  | Fault => Fault
  | NoFuel => NoFuel
  | Switch t k => Switch (p t s) (λ s', lens_run s' (k (g s')))
  end.
Definition lens {A} (m : M T A) : M S A := λ s, lens_run s (m (g s)).
End Lens.

Definition set_devs (v : devs) (e : kenv) : kenv := KEnv (ke_k e) (ke_m e) (ke_d e) v.
Definition set_mmio (m : mmio) (v : devs) : devs :=
  Devs m (dv_con v) (dv_rx v) (dv_blk v) (dv_pci v) (dv_irq_addr v) (dv_notify_addr v).
Definition set_con (c : con) (v : devs) : devs :=
  Devs (dv_mmio v) c (dv_rx v) (dv_blk v) (dv_pci v) (dv_irq_addr v) (dv_notify_addr v).
Definition set_rx (b : uart_ring_buffer) (v : devs) : devs :=
  Devs (dv_mmio v) (dv_con v) b (dv_blk v) (dv_pci v) (dv_irq_addr v) (dv_notify_addr v).
Definition set_blk (b : vblk) (v : devs) : devs :=
  Devs (dv_mmio v) (dv_con v) (dv_rx v) b (dv_pci v) (dv_irq_addr v) (dv_notify_addr v).
Definition set_pci (d : pci_device) (v : devs) : devs :=
  Devs (dv_mmio v) (dv_con v) (dv_rx v) (dv_blk v) d (dv_irq_addr v) (dv_notify_addr v).
Definition set_irq (a : Z) (v : devs) : devs :=
  Devs (dv_mmio v) (dv_con v) (dv_rx v) (dv_blk v) (dv_pci v) a (dv_notify_addr v).
Definition set_notify (a : Z) (v : devs) : devs :=
  Devs (dv_mmio v) (dv_con v) (dv_rx v) (dv_blk v) (dv_pci v) (dv_irq_addr v) a.

Definition on_devs {A} : M devs A → M kenv A := lens ke_v set_devs.
Definition on_mmio {A} (m : M mmio A) : M kenv A := on_devs (lens dv_mmio set_mmio m).
Definition on_con {A} (m : M con A) : M kenv A := on_devs (lens dv_con set_con m).
Definition on_rx {A} (m : M uart_ring_buffer A) : M kenv A := on_devs (lens dv_rx set_rx m).
Definition on_blk {A} : M vst A → M kenv A :=
  lens (λ e, VSt (ke_k e) (dv_blk (ke_v e))) (λ t e, KEnv (vs_k t) (ke_m e) (ke_d e) (set_blk (vs_v t) (ke_v e))).
Definition in_kern {A} (m : M kenv A) : M kern A := on_sys (env m).
Definition kmmio {A} (m : M mmio A) : M kern A := in_kern (on_mmio m).
Definition get_devs : M kern devs := in_kern (gets ke_v).
Definition upd_devs (f : devs → devs) : M kern unit := in_kern (modify (λ e, set_devs (f (ke_v e)) e)).

(** ** plic.c *)

Definition PLIC_PRIORITY_BASE : Z := 0x000000.
Definition PLIC_PRIORITY_SIZE : Z := 4.
Definition PLIC_ENABLE_BASE : Z := 0x002000.
Definition PLIC_ENABLE_CTX_STRIDE : Z := 0x80.
Definition PLIC_THRESHOLD_BASE : Z := 0x200000.
Definition PLIC_THRESHOLD_CTX_STRIDE : Z := 0x1000.
Definition PLIC_CLAIM_COMPLETE_OFF : Z := 4.

Definition get_context : Z := 1.
Definition priority_reg (irq_id : Z) : Z := PLIC_MMIO_BASE + PLIC_PRIORITY_BASE + u32 (PLIC_PRIORITY_SIZE * irq_id).
Definition enable_reg (ctx irq_id : Z) : Z :=
  PLIC_MMIO_BASE + PLIC_ENABLE_BASE + u32 (PLIC_ENABLE_CTX_STRIDE * ctx) + u32 (4 * (irq_id / 32)).
Definition threshold_reg (ctx : Z) : Z := PLIC_MMIO_BASE + PLIC_THRESHOLD_BASE + u32 (PLIC_THRESHOLD_CTX_STRIDE * ctx).
Definition claim_complete_reg (ctx : Z) : Z := threshold_reg ctx + PLIC_CLAIM_COMPLETE_OFF.

Definition plic_set_pty (irq_id priority : Z) : M kenv unit :=
  on_mmio (MMIO32_set (priority_reg irq_id) (if 7 <? priority then 7 else priority)).
Definition set_priority_treshold (threshold : Z) : M kenv unit :=
  on_mmio (MMIO32_set (threshold_reg get_context) (if 7 <? threshold then 7 else threshold)).
(** The bit of the [sie] register that lets external interrupts in is not part
    of the state. *)
Definition plic_init : M kenv unit := set_priority_treshold 0.
Definition plic_enable_irq (irq_id priority : Z) : M kenv unit :=
  v ← on_mmio (MMIO32 (enable_reg get_context irq_id));
  on_mmio (MMIO32_set (enable_reg get_context irq_id) (Z.lor v (Z.shiftl 1 (irq_id mod 32))));;
  plic_set_pty irq_id priority.
Definition claim_plic : M kenv Z := on_mmio (MMIO32 (claim_complete_reg get_context)).
Definition complete_plic (irq : Z) : M kenv unit := on_mmio (MMIO32_set (claim_complete_reg get_context) irq).

(** ** ns16550.c *)

Definition UART_RBR : Z := 0x00.
Definition UART_THR : Z := 0x00.
Definition UART_IER : Z := 0x01.
Definition UART_DLL : Z := 0x00.
Definition UART_DLH : Z := 0x01.
Definition UART_FCR : Z := 0x02.
Definition UART_LCR : Z := 0x03.
Definition UART_LSR : Z := 0x05.
Definition UART_IER_RXEN : Z := 1.
Definition UART_LSR_DA : Z := 1.
Definition UART_FCR_EWL : Z := 1.
Definition UART_LCR_8BIT : Z := 3.
Definition UART_LCR_PEN : Z := 8.
Definition UART_LCR_DLAB : Z := 128.
Definition UART_CLOCK_FREQ : Z := 1843200.
Definition UART_BAUD_RATE : Z := 115200.
Definition UART_PLIC_ID : Z := 10.

(** The semaphores of the driver. *)
Definition rx_count : Z := 3.
Definition fill_signal : Z := 4.

Definition uart_reg (reg : Z) : M kenv Z := on_mmio (MMIO8 (UART_BASE + reg)).
Definition uart_reg_set (reg v : Z) : M kenv unit := on_mmio (MMIO8_set (UART_BASE + reg) v).
Definition uart_enable_fifo : M kenv unit := uart_reg_set UART_FCR UART_FCR_EWL.
Definition uart_config_lcr : M kenv unit :=
  v ← uart_reg UART_LCR; uart_reg_set UART_LCR (Z.lor v (Z.lor UART_LCR_8BIT UART_LCR_PEN)).
Definition uart_set_baud : M kenv unit :=
  let rate := u16 (UART_CLOCK_FREQ / (16 * UART_BAUD_RATE)) in
  v ← uart_reg UART_LCR;
  uart_reg_set UART_LCR (Z.lor v UART_LCR_DLAB);;
  uart_reg_set UART_DLL (u8 rate);;
  uart_reg_set UART_DLH (u8 (Z.shiftr rate 8));;
  v ← uart_reg UART_LCR;
  uart_reg_set UART_LCR (Z.ldiff v UART_LCR_DLAB).
Definition uart_enable_rxirq : M kenv unit := v ← uart_reg UART_IER; uart_reg_set UART_IER (Z.lor v UART_IER_RXEN).
Definition uart_disable_rxirq : M kenv unit := v ← uart_reg UART_IER; uart_reg_set UART_IER (Z.ldiff v UART_IER_RXEN).
Definition uart_init : M kenv unit :=
  uart_set_baud;; uart_enable_fifo;; uart_config_lcr;; uart_enable_rxirq;; plic_enable_irq UART_PLIC_ID 3.
Definition uart_putchar (c : Z) : M kenv unit := uart_reg_set UART_THR c.
Definition uart_getchar : M kenv Z := uart_reg UART_RBR.
Definition uart_rx_data_ready : M kenv Z := v ← uart_reg UART_LSR; mret (Z.land v UART_LSR_DA).

(** One turn of the loop of [fill_rx_buff_daemon]; [fuel] bounds the characters
    that have arrived. *)
Fixpoint fill_loop (fuel : nat) : M kenv unit :=
  match fuel with
  | O => nofuel
  | S fuel =>
    r ← uart_rx_data_ready;
    if r =? 0 then mret tt else
    c ← uart_getchar;
    res ← on_rx (buffer_put c);
    (if res =? 0 then on_kst (sem_post rx_count) else mret tt);;
    fill_loop fuel
  end.
Definition fill_rx_buff_daemon_turn (fuel : nat) : M kenv unit :=
  on_kst (sem_wait fill_signal);; fill_loop fuel;; uart_enable_rxirq.

Definition uart_read : M kenv Z := on_kst (sem_wait rx_count);; on_rx buffer_get.
Definition uart_irq_handler : M kenv unit := uart_disable_rxirq;; on_kst (sem_post fill_signal).

(** ** bochs.c: the device, and the console as a file *)

Definition SYS_BUFFER_SIZE : Z := 2 ^ 10.
Definition DISPLAY_BPP : Z := 32.
Definition DISPLAY_BANK : Z := 0.
Definition BOCHS_VENDOR_ID : Z := 0x1234.
Definition BOCHS_DEV_ID : Z := 0x1111.
Definition BOCHS_DISPLAY_BASE_ADDRESS : Z := 0x50000000.
Definition BOCHS_CONFIG_BASE_ADDRESS : Z := 0x40000000.
Definition BOCHS_CONFIG_DISPI_ADDRESS : Z := 0x500.
Definition VBE_DISPI_INDEX_ID : Z := 0x00.
Definition VBE_DISPI_INDEX_XRES : Z := 0x01.
Definition VBE_DISPI_INDEX_YRES : Z := 0x02.
Definition VBE_DISPI_INDEX_BPP : Z := 0x03.
Definition VBE_DISPI_INDEX_ENABLE : Z := 0x04.
Definition VBE_DISPI_INDEX_BANK : Z := 0x05.
Definition VBE_DISPI_INDEX_X_OFFSET : Z := 0x08.
Definition VBE_DISPI_INDEX_Y_OFFSET : Z := 0x09.
Definition VBE_DISPI_ID0 : Z := 0xb0c0.
Definition VBE_DISPI_ENABLED : Z := 0x01.
Definition VBE_DISPI_LFB_ENABLED : Z := 0x40.

Definition ALIGN_UP (addr size : Z) : Z := Z.land (u64 (addr + size - 1)) (u64 (Z.lnot (size - 1))).

Definition set_bases (base cfg size : Z) (c : con) : con := Con base cfg size (fb c) (cursor_row c) (cursor_col c).

(** Sizing, placing and mapping one register of the device. *)
Definition place_bar (dev : pci_device) (n base : Z) : M kern (Z * Z * Z) :=
  size ← kmmio (pci_get_bar_size dev n);
  if size <? 0 then mret (s32 size, 0, 0) else
  let map_addr := ALIGN_UP base size in
  res ← kmmio (pci_set_bar dev n map_addr);
  if res <? 0 then mret (res, 0, 0) else
  res ← iommap_kernel map_addr size;
  if res <? 0 then mret (res, 0, 0) else
  mret (0, map_addr, size).

Definition config_pcie : M kern Z :=
  r ← kmmio (pci_find_device BOCHS_VENDOR_ID BOCHS_DEV_ID);
  match r with
  | (res, None) => mret res
  | (_, Some dev) =>
    r ← place_bar dev 0 BOCHS_DISPLAY_BASE_ADDRESS;
    let '(res, map_addr, size) := r in
    if res <? 0 then mret res else
    upd_devs (λ v, set_con (set_bases map_addr (cfg_base (dv_con v)) (size / 4) (dv_con v)) v);;
    r ← place_bar dev 2 BOCHS_CONFIG_BASE_ADDRESS;
    let '(res, map_addr, _) := r in
    if res <? 0 then mret res else
    upd_devs (λ v, set_con (set_bases (fb_base (dv_con v)) map_addr (fb_size (dv_con v)) (dv_con v)) v);;
    kmmio (pci_enable_device dev);;
    mret 0
  end.

Definition DISPI16 (reg_idx : Z) : M kenv Z :=
  e ← get; on_mmio (MMIO16 (cfg_base (dv_con (ke_v e)) + BOCHS_CONFIG_DISPI_ADDRESS + Z.shiftl reg_idx 1)).
Definition DISPI16_set (reg_idx val : Z) : M kenv unit :=
  e ← get; on_mmio (MMIO16_set (cfg_base (dv_con (ke_v e)) + BOCHS_CONFIG_DISPI_ADDRESS + Z.shiftl reg_idx 1) val).

Definition config_screen : M kenv Z :=
  id ← DISPI16 VBE_DISPI_INDEX_ID;
  if negb (Z.land id 0xFFF0 =? VBE_DISPI_ID0) then mret (- ENODEV) else
  DISPI16_set VBE_DISPI_INDEX_ENABLE 0;;
  DISPI16_set VBE_DISPI_INDEX_XRES DISPLAY_WIDTH;;
  DISPI16_set VBE_DISPI_INDEX_YRES DISPLAY_HEIGHT;;
  DISPI16_set VBE_DISPI_INDEX_BPP DISPLAY_BPP;;
  DISPI16_set VBE_DISPI_INDEX_BANK DISPLAY_BANK;;
  DISPI16_set VBE_DISPI_INDEX_X_OFFSET 0;;
  DISPI16_set VBE_DISPI_INDEX_Y_OFFSET 0;;
  DISPI16_set VBE_DISPI_INDEX_ENABLE (Z.lor VBE_DISPI_ENABLED VBE_DISPI_LFB_ENABLED);;
  mret 0.

Definition console_putbytes (s : list Z) : M kenv unit :=
  each (λ c, uart_putchar c;;
    e ← get;
    if negb (fb_base (dv_con (ke_v e)) =? 0) then on_con (handle_char c) else mret tt) s.

(** The callbacks: the file is not used. *)
Definition console_write (src : wsrc) (count : Z) : M (sys kenv) Z :=
  match src with
  | UserSrc va =>
    if SYS_BUFFER_SIZE <? count then mret (- EINVAL) else
    r ← env (env_copyin va count);
    let '(res, kbuf) := r in
    if res <? 0 then mret res else
    env (console_putbytes kbuf);; mret count
  | KernSrc l => env (console_putbytes (take (Z.to_nat (s32 count)) l));; mret count
  end.

Fixpoint read_chars (n : nat) : M kenv (list Z) :=
  match n with O => mret [] | S n => c ← uart_read; l ← read_chars n; mret (c :: l) end.
Definition console_read (dst : rdst) (count : Z) : M (sys kenv) (Z * list Z) :=
  match dst with
  | UserDst va =>
    if SYS_BUFFER_SIZE <? count then mret (- EINVAL, []) else
    buf ← env (read_chars (Z.to_nat count));
    res ← env (env_copyout va buf);
    if res <? 0 then mret (res, []) else mret (count, [])
  | KernDst => buf ← env (read_chars (Z.to_nat count)); mret (count, buf)
  end.

(** The one driver that registers callbacks. *)
Definition console_drv : Z := 1.
Definition dev_read (drv _ : Z) (dst : rdst) (count : Z) : M (sys kenv) (Z * list Z) :=
  if drv =? console_drv then console_read dst count else fault.
Definition dev_write (drv _ : Z) (src : wsrc) (count : Z) : M (sys kenv) Z :=
  if drv =? console_drv then console_write src count else fault.

Definition console_init : M kern Z :=
  on_sys (file_map_dev_cb FILE_DEV_CONSOLE console_drv);;
  res ← config_pcie;
  if res <? 0 then mret res else
  res ← in_kern config_screen;
  if res <? 0 then mret res else mret 0.

(** [printf]: the characters it gives to the console, in order. *)
Definition kprintf (fmt : list Z) (args : list varg) : M kern unit := λ s,
  match vprintf fmt args (Pstate ∅ 0 []) with
  | Done _ p => in_kern (console_putbytes (p_console p)) s
  | Panic msg => Panic msg
  | NoFuel => NoFuel
  | _ => Fault
  end.

(** ** virtio_blk.c: the configuration of the device *)

Definition VIRTIO_VENDOR_ID : Z := 0x1AF4.
Definition VIRTIO_BLK_DEV_ID : Z := 0x1042.
Definition VIRTIO_CAP_VENDOR : Z := 0x09.
Definition VIRTIO_BLK_BASE_ADDRESS : Z := 0x60000000.
Definition VIRTIO_QUEUE_SELECT : Z := 0.
Definition VIRTIO_BLK_PLIC_ID : Z := 33.
Definition VIRTIO_PCI_CAP_COMMON_CFG : Z := 1.
Definition VIRTIO_PCI_CAP_NOTIFY_CFG : Z := 2.
Definition VIRTIO_PCI_CAP_ISR_CFG : Z := 3.
Definition VIRTIO_STATUS_ACK : Z := 1.
Definition VIRTIO_STATUS_DRIVER : Z := 2.
Definition VIRTIO_STATUS_DRIVER_OK : Z := 4.
Definition VIRTIO_STATUS_FEATURES_OK : Z := 8.
Definition VIRTIO_STATUS_FAILED : Z := 128.
Definition VIRTIO_BLK_F_SIZE_MAX : Z := 2.
Definition VIRTIO_BLK_F_SEG_MAX : Z := 4.
Definition VIRTIO_BLK_F_FLUSH : Z := 512.
Definition VIRTIO_F_VERSION_1 : Z := 1.
Definition VIRTQ_DESC_ALIGN : Z := 16.
Definition VIRTQ_AVAIL_ALIGN : Z := 2.
Definition VIRTQ_USED_ALIGN : Z := 4.

(** Offsets in [struct virtio_pci_cap], [struct virtio_pci_notify_cap] and
    [struct virtio_pci_common_cfg]. *)
Definition VCAP_CFG_TYPE : Z := 3.
Definition VCAP_BAR : Z := 4.
Definition VCAP_OFFSET : Z := 8.
Definition VCAP_NOTIFY_MULTIPLIER : Z := 16.
Definition CFG_DEVICE_FEATURE_SELECT : Z := 0.
Definition CFG_DEVICE_FEATURE : Z := 4.
Definition CFG_DRIVER_FEATURE_SELECT : Z := 8.
Definition CFG_DRIVER_FEATURE : Z := 12.
Definition CFG_DEVICE_STATUS : Z := 20.
Definition CFG_QUEUE_SELECT : Z := 22.
Definition CFG_QUEUE_SIZE : Z := 24.
Definition CFG_QUEUE_ENABLE : Z := 28.
Definition CFG_QUEUE_NOTIFY_OFF : Z := 30.
Definition CFG_QUEUE_DESC : Z := 32.
Definition CFG_QUEUE_DRIVER : Z := 40.
Definition CFG_QUEUE_DEVICE : Z := 48.
Definition SIZEOF_VIRTQ_DESC : Z := 16.
Definition SIZEOF_VIRTQ_AVAIL : Z := 4.

Fixpoint get_virtio_cap_loop (fuel : nat) (dev : pci_device) (cap cfg_type : Z) : M mmio Z :=
  match fuel with
  | O => nofuel
  | S fuel =>
    cap ← pci_find_cap dev cap VIRTIO_CAP_VENDOR;
    if cap =? NULL then mret NULL else
    ty ← MMIO8 (cap + VCAP_CFG_TYPE);
    if ty =? cfg_type then mret cap else get_virtio_cap_loop fuel dev cap cfg_type
  end.
Definition _get_virtio_cap (dev : pci_device) (cfg_type : Z) : M mmio Z := get_virtio_cap_loop 64 dev NULL cfg_type.

(** The address a capability points to: its base register and its offset. *)
Definition set_notify_addr (notify_off : Z) : M kern Z :=
  v ← get_devs;
  cap ← kmmio (_get_virtio_cap (dv_pci v) VIRTIO_PCI_CAP_NOTIFY_CFG);
  if cap =? NULL then mret (- ENODEV) else
  bar ← kmmio (MMIO8 (cap + VCAP_BAR));
  r ← kmmio (pci_bar_addr (dv_pci v) bar);
  let '(res, bar_addr) := r in
  if res <? 0 then mret res else
  offset ← kmmio (MMIO32 (cap + VCAP_OFFSET));
  mult ← kmmio (MMIO32 (cap + VCAP_NOTIFY_MULTIPLIER));
  upd_devs (set_notify (u64 (bar_addr + offset + u32 (mult * notify_off))));;
  mret 0.

Definition set_irq_addr : M kern Z :=
  v ← get_devs;
  cap ← kmmio (_get_virtio_cap (dv_pci v) VIRTIO_PCI_CAP_ISR_CFG);
  if cap =? NULL then mret (- ENODEV) else
  bar ← kmmio (MMIO8 (cap + VCAP_BAR));
  r ← kmmio (pci_bar_addr (dv_pci v) bar);
  let '(res, bar_addr) := r in
  if res <? 0 then mret res else
  offset ← kmmio (MMIO32 (cap + VCAP_OFFSET));
  upd_devs (set_irq (u64 (bar_addr + offset)));;
  mret 0.

(** The three parts of the queue in one page of zeros. *)
Definition setup_queues (cfg : Z) : M kern Z :=
  kmmio (MMIO16_set (cfg + CFG_QUEUE_SELECT) VIRTIO_QUEUE_SELECT);;
  size ← kmmio (MMIO16 (cfg + CFG_QUEUE_SIZE));
  (if VIRTIO_MAX_QUEUE_SIZE <? size then kmmio (MMIO16_set (cfg + CFG_QUEUE_SIZE) VIRTIO_MAX_QUEUE_SIZE) else mret tt);;
  n ← kmmio (MMIO16 (cfg + CFG_QUEUE_SIZE));
  if n =? 0 then mret (- ENODEV) else
  addr ← on_p page_alloc;
  if addr =? NULL then upd_devs (set_blk (VBlk n [] 0 [] 0 [] 0 [] 0 ∅));; mret (- ENOMEM) else
  let desc := ALIGN_UP addr VIRTQ_DESC_ALIGN in
  kmmio (MMIO64_set (cfg + CFG_QUEUE_DESC) desc);;
  let avail := ALIGN_UP (desc + SIZEOF_VIRTQ_DESC * n) VIRTQ_AVAIL_ALIGN in
  kmmio (MMIO64_set (cfg + CFG_QUEUE_DRIVER) avail);;
  let used := ALIGN_UP (avail + SIZEOF_VIRTQ_AVAIL * n) VIRTQ_USED_ALIGN in
  kmmio (MMIO64_set (cfg + CFG_QUEUE_DEVICE) used);;
  upd_devs (λ v, set_blk (virtq_init n) v);;
  in_kern (on_blk init_free_list);;
  kmmio (MMIO16_set (cfg + CFG_QUEUE_ENABLE) 1);;
  mret 0.

(** [fuel]: how often the device is asked whether its reset is done. *)
Fixpoint wait_reset (fuel : nat) (cfg : Z) : M mmio unit :=
  match fuel with
  | O => nofuel
  | S fuel => s ← MMIO8 (cfg + CFG_DEVICE_STATUS); if s =? 0 then mret tt else wait_reset fuel cfg
  end.
Definition or_status (cfg bit : Z) : M mmio unit :=
  s ← MMIO8 (cfg + CFG_DEVICE_STATUS); MMIO8_set (cfg + CFG_DEVICE_STATUS) (Z.lor s bit).

Definition setup_features (fuel : nat) (cfg : Z) : M mmio Z :=
  MMIO8_set (cfg + CFG_DEVICE_STATUS) 0;;
  wait_reset fuel cfg;;
  or_status cfg VIRTIO_STATUS_ACK;;
  or_status cfg VIRTIO_STATUS_DRIVER;;
  MMIO32_set (cfg + CFG_DEVICE_FEATURE_SELECT) 0;;
  dev_feature ← MMIO32 (cfg + CFG_DEVICE_FEATURE);
  MMIO32_set (cfg + CFG_DRIVER_FEATURE_SELECT) 0;;
  MMIO32_set (cfg + CFG_DRIVER_FEATURE)
    (Z.land dev_feature (Z.lor (Z.lor VIRTIO_BLK_F_FLUSH VIRTIO_BLK_F_SEG_MAX) VIRTIO_BLK_F_SIZE_MAX));;
  MMIO32_set (cfg + CFG_DEVICE_FEATURE_SELECT) 1;;
  MMIO32_set (cfg + CFG_DRIVER_FEATURE_SELECT) 1;;
  dev_feature ← MMIO32 (cfg + CFG_DEVICE_FEATURE);
  MMIO32_set (cfg + CFG_DRIVER_FEATURE) (Z.land dev_feature VIRTIO_F_VERSION_1);;
  or_status cfg VIRTIO_STATUS_FEATURES_OK;;
  s ← MMIO8 (cfg + CFG_DEVICE_STATUS);
  if negb (has s VIRTIO_STATUS_FEATURES_OK) then mret (- ENODEV) else mret 0.

Definition config_common (fuel : nat) : M kern Z :=
  v ← get_devs;
  cap_cfg ← kmmio (_get_virtio_cap (dv_pci v) VIRTIO_PCI_CAP_COMMON_CFG);
  if cap_cfg =? NULL then mret (- ENODEV) else
  bar ← kmmio (MMIO8 (cap_cfg + VCAP_BAR));
  r ← kmmio (pci_bar_addr (dv_pci v) bar);
  let '(res, bar_addr) := r in
  if res <? 0 then mret res else
  offset ← kmmio (MMIO32 (cap_cfg + VCAP_OFFSET));
  let cfg := u64 (bar_addr + offset) in
  res ← kmmio (setup_features fuel cfg);
  if res <? 0 then mret res else
  res ← setup_queues cfg;
  if res <? 0 then mret res else
  off ← kmmio (MMIO16 (cfg + CFG_QUEUE_NOTIFY_OFF));
  res ← set_notify_addr off;
  if res <? 0 then mret res else
  res ← set_irq_addr;
  if res <? 0 then mret res else
  kmmio (or_status cfg VIRTIO_STATUS_DRIVER_OK);;
  s ← kmmio (MMIO8 (cfg + CFG_DEVICE_STATUS));
  if has s VIRTIO_STATUS_FAILED then panic "BOOT: Failed to start the block driver" else mret 0.

Definition config_pci : M kern Z :=
  r ← kmmio (pci_find_device VIRTIO_VENDOR_ID VIRTIO_BLK_DEV_ID);
  match r with
  | (res, None) => mret res
  | (_, Some dev) =>
    cap_cfg ← kmmio (_get_virtio_cap dev VIRTIO_PCI_CAP_COMMON_CFG);
    if cap_cfg =? NULL then mret (- ENODEV) else
    bar ← kmmio (MMIO8 (cap_cfg + VCAP_BAR));
    r ← place_bar dev bar VIRTIO_BLK_BASE_ADDRESS;
    let '(res, _, _) := r in
    if res <? 0 then mret res else
    kmmio (pci_enable_device dev);;
    kmmio (pci_set_master dev);;
    upd_devs (set_pci dev);;
    mret 0
  end.

Definition virtio_blk_init (fuel : nat) : M kern Z :=
  res ← config_pci;
  if res <? 0 then mret res else
  res ← config_common fuel;
  if res <? 0 then mret res else
  in_kern (plic_enable_irq VIRTIO_BLK_PLIC_ID 3);;
  mret 0.

(** The handler reads the status of the interrupt, which acknowledges it. *)
Definition blk_irq_handler (fuel : nat) : M kenv unit :=
  e ← get;
  irq_status ← on_mmio (MMIO8 (dv_irq_addr (ke_v e)));
  on_blk (virtio_irq_handler fuel irq_status).
Definition notify_device : M kenv unit := e ← get; on_mmio (MMIO16_set (dv_notify_addr (ke_v e)) VIRTIO_QUEUE_SELECT).

(** ** plic.c: the dispatch of an external interrupt *)

Definition plic_handle_irq (fuel : nat) : M kenv unit :=
  irq ← claim_plic;
  (if irq =? UART_PLIC_ID then uart_irq_handler
   else if irq =? VIRTIO_BLK_PLIC_ID then blk_irq_handler fuel
   else mret tt);;
  complete_plic irq.

(** ** time.c and ns16550.c: the daemons *)

(** The text [[hh:mm:ss]] in a buffer of the stack. *)
Definition clock_text (s : Z) : M kern (list Z) := λ k,
  let m := (s / 60) mod 60 in
  let h := s / 3600 in
  match sprintf 0 (codes "[%02d:%02d:%02d]") [VNum h; VNum m; VNum (s mod 60)]
    (Cmem (list_to_map ((λ i, (i, 0)) <$> seqZ 0 16)) 0) with
  | Done _ c => Done ((λ i, default 0 (cells c !! i)) <$> seqZ 0 10) k
  | Panic msg => Panic msg
  | NoFuel => NoFuel
  | _ => Fault
  end.

(** One turn of the loop of [clock_daemon]. *)
Definition clock_daemon_turn : M kern unit :=
  on_k (sem_wait clock);;
  s ← on_k time_seconds;
  buf ← clock_text s;
  in_kern (on_con (console_display_top_right buf)).

Section Daemons.
(** The addresses of the bodies. *)
Context (clock_daemon tick_daemon fill_rx_buff_daemon : Z).

Definition time_spawn_daemons : M kern Z :=
  p ← task_kthread clock_daemon (codes "clock daemon") HIGH;
  match p with
  | ERR_PTR e => mret (s32 e)
  | PTR _ =>
    p ← task_kthread tick_daemon (codes "tick daemon") HIGH;
    match p with ERR_PTR e => mret (s32 e) | PTR _ => mret 0 end
  end.

Definition uart_spawn_daemons : M kern Z :=
  p ← task_kthread fill_rx_buff_daemon (codes "uart rx daem") HIGH;
  match p with ERR_PTR e => mret (s32 e) | PTR _ => mret 0 end.
End Daemons.
