(* ===== verification/Syscall.v ===== *)
(** * System calls (kernel/core/syscall)

    The handlers, each with its parameters at the width of its signature, and
    the dispatch by number.  A handler that waits takes a bound on the number
    of times the task is woken. *)

From S2P Require Import Prelude Clist Sched Pages Vpages Tinyalloc FsState Inode Fs File Kenv Mmap Elf Task.

(** In the order of [SYSCALLS]. *)
Inductive sysno :=
| SYS_sleep | SYS_exit | SYS_exit_group | SYS_wait | SYS_waitpid | SYS_getpid | SYS_clone | SYS_fork | SYS_exec
| SYS_open | SYS_write | SYS_read | SYS_close | SYS_seek.
Definition syscalls : list sysno :=
  [SYS_sleep; SYS_exit; SYS_exit_group; SYS_wait; SYS_waitpid; SYS_getpid; SYS_clone; SYS_fork; SYS_exec;
   SYS_open; SYS_write; SYS_read; SYS_close; SYS_seek].
Definition SYS_NBR : Z := Z.of_nat (length syscalls).

(** The running task: the handlers read its fields without a test. *)
Definition current_task : M kern tid := t ← on_k task_active; of_opt t.

(** The characters of a string that was copied with its terminator. *)
Definition chars (buf : list Z) : list Z := removelast buf.

(** ** sys_sync.c *)

Fixpoint wait_zombie (fuel : nat) (parent : tid) : M kern unit :=
  match fuel with
  | O => nofuel
  | S fuel =>
    e ← on_k (read_nodes (clist_empty (NZombies parent)));
    if (e : bool) then on_k (scheduler_block_on (NZombieWq parent));; wait_zombie fuel parent else mret tt
  end.

Definition sys_wait (fuel : nat) : M kern Z :=
  flags ← on_k irq_save;
  parent ← current_task;
  wait_zombie fuel parent;;
  node ← on_k (pop_front (NZombies parent));
  to_reap ← of_opt (node ≫= of_wait);
  v ← get_task_ to_reap;
  let pid := pid v in
  task_reap to_reap;;
  on_k (irq_restore flags);;
  mret (s8 pid).

Definition find_pid_cb (k : kst) (p : Z) (node : nid) : bool :=
  default false (t ← of_wait node; v ← tasks k !! t; Some (p =? pid v)).

Fixpoint wait_pid (fuel : nat) (parent : tid) (p : Z) : M kern nid :=
  match fuel with
  | O => nofuel
  | S fuel =>
    k ← on_k get;
    found_node ← on_k (read_nodes (clist_find (NZombies parent) (find_pid_cb k p)));
    match found_node with
    | None => on_k (scheduler_block_on (NZombieWq parent));; wait_pid fuel parent p
    | Some node => mret node
    end
  end.

Definition sys_waitpid (fuel : nat) (p : Z) : M kern Z :=
  flags ← on_k irq_save;
  parent ← current_task;
  found_node ← wait_pid fuel parent p;
  on_k (on_nodes (clist_remove (Some found_node)));;
  to_reap ← of_opt (of_wait found_node);
  task_reap to_reap;;
  on_k (irq_restore flags);;
  mret p.

(** ** sys_time.c *)

Definition sys_sleep (s : Z) : M kern unit := on_k (scheduler_sleep s).

Section Syscall.
Context (junk : list Z) (trampoline_start trampoline_end sstatus : Z).
Context (r_cb : Z → Z → rdst → Z → M (sys kenv) (Z * list Z)) (w_cb : Z → Z → wsrc → Z → M (sys kenv) Z).

(** ** sys_proc.c *)

Definition sys_getpid : M kern Z := t ← current_task; v ← get_task_ t; mret (pid v).

Definition sys_fork : M kern Z :=
  parent ← current_task;
  child ← task_fork sstatus parent;
  match child with
  | ERR_PTR e => mret (s8 e)
  | PTR child => v ← get_task_ child; mret (s8 (pid v))
  end.

Definition sys_clone (entry args stack flags : Z) : M kern Z :=
  parent ← current_task;
  child ← task_clone sstatus parent entry args stack flags;
  match child with
  | ERR_PTR e => mret (s8 e)
  | PTR child => v ← get_task_ child; mret (s8 (pid v))
  end.

Definition sys_exec (path argv : Z) : M kern Z :=
  p ← current_task;
  v ← get_task_ p;
  r ← on_p (vpage_copyinstr (root_ptable v) path MAXNAME);
  let '(res, kpath) := r in
  if s32 res <? 0 then mret (s32 res) else
  user_elf ← on_sys (file_open junk (chars kpath) O_R);
  match user_elf with
  | ERR_PTR e => mret (s32 e)
  | PTR user_elf =>
    res ← task_exec junk trampoline_start trampoline_end sstatus r_cb p user_elf argv;
    on_sys (file_put user_elf);;
    mret res
  end.

Definition sys_exit (code : Z) : M kern unit := scheduler_exit code.
Definition sys_exit_group (code : Z) : M kern unit := scheduler_exit_group code.

(** ** sys_io.c *)

Definition sys_open (path flags : Z) : M kern Z :=
  active ← current_task;
  v ← get_task_ active;
  r ← on_p (vpage_copyinstr (root_ptable v) path FS_MAX_PATH);
  let '(res, kernel_path) := r in
  if s32 res <? 0 then mret (s32 res) else
  f ← on_sys (file_open junk (chars kernel_path) flags);
  match f with
  | ERR_PTR e => mret (s32 e)
  | PTR f =>
    fd ← task_give_fd active (file_ptr f);
    (if fd <? 0 then on_sys (file_put f) else mret tt);;
    mret fd
  end.

Definition sys_write (fd ubuf count : Z) : M kern Z :=
  active ← current_task;
  f ← task_get_fd active fd;
  if f =? NULL then mret (- EBADF) else on_sys (file_write w_cb (file_idx f) (UserSrc ubuf) count).

Definition sys_read (fd ubuf count : Z) : M kern Z :=
  active ← current_task;
  f ← task_get_fd active fd;
  if f =? NULL then mret (- EBADF) else
  r ← on_sys (file_read r_cb (file_idx f) (UserDst ubuf) count);
  mret r.1.

Definition sys_close (fd : Z) : M kern Z := active ← current_task; task_release_fd active fd.

Definition sys_seek (fd offset whence : Z) : M kern Z :=
  active ← current_task;
  f ← task_get_fd active fd;
  if f =? NULL then mret (- EBADF) else on_sys (file_seek (file_idx f) offset whence).

(** ** syscall.c *)

(** [a0]: the register that holds a result, after a handler without one.  The
    arguments are registers; each handler reads those of its signature. *)
Definition syscall_fn (fuel : nat) (a0 : Z) (n : sysno) (a b c d : Z) : M kern Z :=
  match n with
  | SYS_sleep => sys_sleep (u32 a);; mret a0
  | SYS_exit => sys_exit (u8 a);; mret a0
  | SYS_exit_group => sys_exit_group (u8 a);; mret a0
  | SYS_wait => sys_wait fuel
  | SYS_waitpid => sys_waitpid fuel (s8 a)
  | SYS_getpid => sys_getpid
  | SYS_clone => sys_clone a b c d
  | SYS_fork => sys_fork
  | SYS_exec => sys_exec a b
  | SYS_open => sys_open a b
  | SYS_write => sys_write (s32 a) b c
  | SYS_read => sys_read (s32 a) b c
  | SYS_close => sys_close (s32 a)
  | SYS_seek => sys_seek (s32 a) (s64 b) (s32 c)
  end.

Definition syscall_dispatch (fuel : nat) (a0 n a b c d : Z) : M kern Z :=
  if SYS_NBR <=? n then panic "Unsupported syscall" else
  h ← of_opt (syscalls !! Z.to_nat n);
  syscall_fn fuel a0 h a b c d.
End Syscall.
