(* ===== verification/Lifecycle.v ===== *)
(** * The end of a task

    What [scheduler_exit] does to the queues of the scheduler and to the table
    of open files, from a state that satisfies the invariant of SchedInv.v: the
    task is handed to its parent, which is woken. *)

From S2P Require Import Prelude Clist Tinyalloc TinyallocInv TinyallocThm Sched SchedInv Pages Vpages FsState Inode Fs File Kenv Mmap Elf Task Syscall.

(** ** Running the scheduler in the kernel *)

Lemma on_k_Done {A} (m : M kst A) s a k : m (kn_kst s) = Done a k → on_k m s = Done a (kn_set_kst k s).
Proof. intros E. unfold on_k, on_sys, env, on_kst. unfold kn_kst in E. by rewrite E. Qed.

Lemma on_k_Switch {A} (m : M kst A) s k c : m (kn_kst s) = Switch k c → ∃ c', on_k m s = Switch (kn_set_kst k s) c'.
Proof. intros E. unfold on_k, on_sys, env, on_kst. unfold kn_kst in E. rewrite E. simpl. by eexists. Qed.

Lemma kn_kst_set k s : kn_kst (kn_set_kst k s) = k.
Proof. done. Qed.
Lemma kn_set_set k k' s : kn_set_kst k (kn_set_kst k' s) = kn_set_kst k s.
Proof. done. Qed.
Lemma kn_set_kst_id s : kn_set_kst (kn_kst s) s = s.
Proof. by destruct s as [[? []]]. Qed.

(** A step of the scheduler that returns. *)
Ltac kstep H :=
  match goal with
  | |- context [(on_k ?m ≫= ?f) ?s] =>
    rewrite (bind_Done (on_k m) f s _ _ (on_k_Done m s _ _ H)); cbn beta iota; rewrite ?kn_set_set
  end.

(** ** Readying a task while the running one is leaving *)

Lemma no_preempt_run k t v a va :
  active k = Some a → tasks k !! t = Some v → tasks k !! a = Some va → (prio va ≤ prio v)%nat →
  check_and_preempt t k = Done tt k.
Proof.
  intros Ha Ht Hva Hp. unfold check_and_preempt, task_active. erewrite bind_Done by reflexivity. cbn beta. rewrite Ha.
  run (get_task_run k t v). run (get_task_run k a va). unfold priority_higher. by rewrite (proj2 (Nat.ltb_ge _ _) Hp).
Qed.

Lemma ready_track_run X k L a va t v :
  Inv X k L → (X = None ∨ X = Some t) → Track k L → active k = Some a → tasks k !! a = Some va → t ≠ a →
  tasks k !! t = Some v → waiting (state v) = true → (prio va ≤ prio v)%nat →
  ∃ k', scheduler_ready_task t k = Done tt k' ∧ Inv None k' (woken t (prio v) L) ∧ Track k' (woken t (prio v) L) ∧
    tasks k' = <[t := with_state RUNNING v]> (tasks k) ∧ sie k' = sie k ∧
    rest k' = rest (with_highest (highest_ready_tracking k') k).
Proof.
  intros HI HX [Hb Hab Hid] Ha Hva Hne Ht Hw Hpr. pose proof (inv_prio _ _ _ HI t v Ht) as Hpb.
  destruct (ready_front X k L t v HI HX Ht Hw) as (k' & L0 & E & HI' & Hrq & HW & Hh & Hts & Hsie & Hrest).
  pose proof Hrest as Hr. injection Hr as Ha1 Hnp Hat Hpc Hnr Htk Hmu Hse.
  exists (with_sie (sie k) k'). split_and!; [|by eapply inv_ext| |done|done|done].
  - rewrite E. assert (check_and_preempt t k' = Done tt k') as E1.
    { apply (no_preempt_run k' t (with_state RUNNING v) a va); [congruence|..|done]; rewrite Hts;
        [apply lookup_insert_eq|by rewrite lookup_insert_ne]. }
    mstep E1. rewrite irq_restore_run, Hsie. by rewrite orb_false_r.
  - rewrite HW. split; simpl; rewrite ?Hh.
    + lia.
    + intros p Hp. rewrite rqs_insert, decide_False by lia. rewrite Hrq. apply Hab. lia.
    + rewrite rqs_insert. case_decide; [by destruct (rqs L0 _)|by rewrite Hrq].
Qed.

(** ** Leaving the queues for the list of the dead *)

Definition dead (code : Z) (v : task) : task := with_exit_code code (with_state ZOMBIE v).
Definition retired (p a : tid) (zs : list nid) (L : gmap nid (list nid)) : gmap nid (list nid) :=
  <[NZombies p := zs ++ [NWait a]]> (unlinked (NReady a) L).

Lemma unlink_tasks n k s ts :
  unlink n k = Done tt (with_nodes s k) → unlink n (with_tasks ts k) = Done tt (with_nodes s (with_tasks ts k)).
Proof.
  unfold unlink, read_nodes, on_nodes, modify_opt, of_opt, gets, mbind, M_bind.
  cbn -[clist_remove clist_is_in_list].
  destruct (clist_is_in_list n (k_nodes k)) as [[]|]; cbn -[clist_remove].
  - destruct (clist_remove (Some n) (k_nodes k)) as [s'|]; [|done]. by intros [= ->].
  - intros [= E]. unfold mret, M_ret. apply (f_equal k_nodes) in E. simpl in E. subst s. by destruct k.
  - done.
Qed.

Lemma unqueue_run k L a va :
  Inv None k L → Top k L a va →
  ∃ s, (∀ ts, remove_from_sched_queues a (with_tasks ts k) = Done tt (with_nodes s (with_tasks ts k))) ∧
    Inv (Some a) (with_nodes s k) (unlinked (NReady a) L).
Proof.
  intros HI HT. pose proof (top_task _ _ _ _ HT) as Hva.
  pose proof (running_unqueued _ _ _ _ _ HI Hva (top_running _ _ _ _ HT)) as Hun.
  destruct (unlink_run None k L (NReady a) a va) as (s1 & H1 & HI1); [done..|by left|].
  destruct (unlink_run (Some a) _ _ (NSleep a) a va HI1) as (s2 & H2 & HI2); [done..|by right|].
  destruct (unlink_run (Some a) _ _ (NWait a) a va HI2) as (s3 & H3 & HI3); [done..|by right|].
  exists s3. split.
  - intros ts. unfold remove_from_sched_queues, remove_from_blocking_queues.
    mstep (unlink_tasks _ _ _ ts H1). mstep (unlink_tasks _ _ _ ts H2). exact (unlink_tasks _ _ _ ts H3).
  - rewrite (unlinked_absent (NSleep a)) in HI3; [rewrite (unlinked_absent (NWait a)) in HI3; [done|]|];
      intros h l Hl Hn; destruct (unlinked_elem _ _ _ _ _ Hl Hn) as (_ & l0 & Hl0 & Hn0); by destruct (Hun _ _ Hl0).
Qed.

Lemma retired_inv k L a va p zs code s :
  Inv None k L → Top k L a va → L !! NZombies p = Some zs → Inv (Some a) (with_nodes s k) (unlinked (NReady a) L) →
  ∃ s', clist_push_back (NZombies p) (NWait a) s = Some s' ∧
    Inv None (with_nodes s' (with_tasks (<[a := dead code va]> (tasks k)) k)) (retired p a zs L).
Proof.
  intros HI HT Hz HI1. pose proof (top_task _ _ _ _ HT) as Hva.
  pose proof (running_unqueued _ _ _ _ _ HI Hva (top_running _ _ _ _ HT)) as Hun.
  set (L1 := unlinked (NReady a) L) in *.
  assert (Hno : ∀ h l n, L1 !! h = Some l → n ∈ l → owner n = Some a → n = NTask a).
  { intros h l n Hl Hn Ho. destruct (unlinked_elem _ _ _ _ _ Hl Hn) as (Hne & l0 & Hl0 & Hn0).
    destruct n; simpl in Ho; try done; simplify_eq; [done|..]; by destruct (Hun _ _ Hl0). }
  assert (HI2 : Inv (Some a) (with_tasks (<[a := dead code va]> (tasks k)) (with_nodes s k)) L1).
  { apply (inv_task (Some a) (with_nodes s k) L1 a va (dead code va)); [done..| |by left|by left].
    intros h l n Hl Hn Ho. pose proof (inv_belongs _ _ _ HI1 _ _ _ Hl Hn) as Hb.
    rewrite (Hno h l n Hl Hn Ho) in *. destruct h; simpl in *; try done. by rewrite lookup_insert_eq. }
  assert (Hz1 : L1 !! NZombies p = Some zs).
  { apply unlinked_lookup. exists zs. split; [done|]. symmetry. apply filter_not_elem. intros Hn.
    by pose proof (inv_belongs _ _ _ HI _ _ _ Hz Hn). }
  assert (Ha2 : <[a := dead code va]> (tasks k) !! a = Some (dead code va)) by apply lookup_insert_eq.
  destruct (push_back_rep None _ _ (NZombies p) zs (NWait a) (inv_rep _ _ _ HI2)) as (s' & Hs' & HR' & Hd'); [done|done| |].
  { eapply (unused_node _ _ _ _ a); [done|done|exact Ha2|]. intros h l Hl Hn. by specialize (Hno h l _ Hl Hn eq_refl). }
  exists s'. split; [done|]. eapply inv_settle; [|exact Ha2|by split_and!].
  apply (inv_link (Some a) _ _ s' (NZombies p) zs [] (NWait a) HI2); [by rewrite app_nil_r| |done..].
  simpl. rewrite lookup_insert_eq. eauto.
Qed.

Lemma retired_track k L a va p zs ts s :
  Inv None k L → Top k L a va → prio va ≠ IDLE → Track (with_nodes s (with_tasks ts k)) (retired p a zs L).
Proof.
  intros HI HT Hid. destruct (track_leave k L a va (retired p a zs L) HT Hid HI) as [Hb Hab Hi]; [|by split].
  intros q. unfold retired. rewrite rqs_insert_other by done. apply unlinked_rqs.
Qed.

(** ** Waking the parent *)

Lemma unlinked_waiter k L p v :
  Inv None k L → tasks k !! p = Some v → L !! NZombieWq p = Some [NWait p] →
  unlinked (NWait p) L = <[NZombieWq p := []]> L.
Proof.
  intros HI Hp Hq. apply map_eq. intros h. unfold unlinked. rewrite lookup_fmap, lookup_insert.
  case_decide as Hh; [subst h; rewrite Hq; simpl; rewrite filter_cons_False; [done|tauto]|].
  destruct (L !! h) as [l|] eqn:Hl; [|done]. simpl. f_equal. apply filter_not_elem. intros Hn. apply Hh.
  apply (rep_disj None _ L (inv_rep _ _ _ HI) (NZombieWq p) h [NWait p] l (NWait p)); [done..|right; left|by right].
Qed.

(** The parent as the only one on its queue, once it has been woken. *)
Definition parent_woken (p : tid) (vp : task) (L : gmap nid (list nid)) : gmap nid (list nid) :=
  woken p (prio vp) (<[NZombieWq p := []]> L).

Lemma parent_woken_empty p vp L : parent_woken p vp L !! NZombieWq p = Some [].
Proof.
  unfold parent_woken, woken. rewrite lookup_insert_ne by done.
  do 2 (apply unlinked_lookup; exists []; split; [|done]). by rewrite lookup_insert_eq.
Qed.

(** The traversal of the queue from [k]: before and after its one node. *)
Record ParentUp (k : kst) (p : tid) (vp : task) (L : gmap nid (list nid)) (w : kst) : Prop := {
  up_inv : Inv None w (parent_woken p vp L);
  up_track : Track w (parent_woken p vp L);
  up_tasks : tasks w = <[p := with_state RUNNING vp]> (tasks k);
  up_rest : rest w = rest (with_highest (highest_ready_tracking w) k);
}.
Definition Waking (k : kst) (p : tid) (vp : task) (L : gmap nid (list nid)) (log : list (nid * Z))
    (L' : gmap nid (list nid)) (w : kst) : Prop :=
  match log with
  | [] => L' = L ∧ ∃ s, w = with_nodes s k ∧ dom s = dom (k_nodes k)
  | _ => L' = parent_woken p vp L ∧ ParentUp k p vp L w ∧ sie w = sie k
  end.

Section Parent.
Context (k : kst) (L : gmap nid (list nid)) (a : tid) (va : task) (p : tid) (vp : task).
Hypotheses (HI : Inv None k L) (HT : Track k L) (Ha : active k = Some a) (Hva : tasks k !! a = Some va) (Hne : p ≠ a).
Hypotheses (Hp : tasks k !! p = Some vp) (Hb : state vp = BLOCKED) (Hq : L !! NZombieWq p = Some [NWait p]).
Hypothesis Hpr : (prio va ≤ prio vp)%nat.
#[local] Set Default Proof Using "All".

Lemma parent_ready s : Rep s (<[NZombieWq p := []]> L) → dom s = dom (k_nodes k) →
  ∃ k', scheduler_ready_task p (with_nodes s k) = Done tt k' ∧ ParentUp k p vp L k' ∧ sie k' = sie k.
Proof.
  intros HR Hd.
  assert (HI1 : Inv (Some p) (with_nodes s k) (<[NZombieWq p := []]> L)).
  { rewrite <-(unlinked_waiter k L p vp) in * by done. by apply (inv_unlink None k L s (NWait p) p); [..|left| |]. }
  destruct (ready_track_run (Some p) (with_nodes s k) _ a va p vp HI1) as (k' & E & HI' & HT' & Hts & Hsie & Hr);
    [by right| |done..|by rewrite Hb|done|exists k'; by split_and!].
  destruct HT as [? Hab Hi]. split; simpl; [done|..].
  - intros q Hlt. rewrite rqs_insert_other by done. auto.
  - by rewrite rqs_insert_other.
Qed.

Lemma parent_drained :
  wp (wq_for_each_and_del (NZombieWq p) wake_up_waiting_cb k) (λ _ w, ParentUp k p vp L w ∧ sie w = sie k).
Proof.
  assert (wp (wq_for_each_and_del (NZombieWq p) wake_up_waiting_cb k) (λ r w', ∃ log L',
    Waking k p vp L log L' w' ∧ Rep (nodes w') L' ∧ log.*1 = [NWait p] ∧ L' !! NZombieWq p = Some [] ∧ r = first_failure log)) as Hw.
  - apply (for_each_and_del_wp (NZombieWq p) wake_up_waiting_cb (Waking k p vp L)) with L; [| | |apply HI|done].
    + intros [|e log] x rest' L' w s HP Hx HR Hd; simpl in HP.
      * destruct HP as (-> & s0 & -> & Hs). rewrite Hq in Hx. injection Hx as <- <-.
        destruct (parent_ready s HR) as (k' & E & U & Hsie); [etransitivity; [exact Hd|exact Hs]|].
        assert (Ecb : wake_up_waiting_cb (NWait p) (with_nodes s k) = Done 0 k').
        { unfold wake_up_waiting_cb. erewrite bind_Done by reflexivity. by mstep E. }
        change (set_nodes s (with_nodes s0 k)) with (with_nodes s k). rewrite Ecb. exists (parent_woken p vp L).
        split_and!; [done..|apply (up_inv _ _ _ _ _ U)|apply parent_woken_empty].
      * destruct HP as (-> & _). by rewrite parent_woken_empty in Hx.
    + intros L' w s (-> & s0 & -> & Hs) Hd. split; [done|]. exists s. split; [done|]. etransitivity; [exact Hd|exact Hs].
    + split; [done|]. exists (k_nodes k). by destruct k.
  - eapply wp_mono; [exact Hw|]. intros r w ([|e log] & L' & HP & _ & Hlog & _); [done|apply HP].
Qed.
End Parent.

Lemma wake_parent_run k L a va p vp :
  Inv None k L → Track k L → active k = Some a → tasks k !! a = Some va → p ≠ a →
  tasks k !! p = Some vp → state vp = BLOCKED → L !! NZombieWq p = Some [NWait p] → (prio va ≤ prio vp)%nat →
  ∃ k', scheduler_wake_waiting_queue (NZombieWq p) k = Done tt k' ∧ ParentUp k p vp L k' ∧ sie k' = sie k.
Proof.
  intros HI HT Ha Hva Hne Hp Hb Hq Hpr.
  assert (HI0 : Inv None (with_sie false k) L) by by eapply inv_ext.
  assert (HT0 : Track (with_sie false k) L) by by destruct HT.
  destruct (proj1 (wp_Done _ _) (parent_drained (with_sie false k) L a va p vp HI0 HT0 Ha Hva Hne Hp Hb Hq Hpr))
    as (r & k1 & Hrun & [U1 [? ? ?] U3 U4] & Hsie).
  exists (with_sie (sie k) k1). split_and!; [|split; [by eapply inv_ext|by split|done|done]|done].
  unfold scheduler_wake_waiting_queue. run irq_save_run. mstep Hrun.
  rewrite irq_restore_run, Hsie. simpl. by rewrite orb_false_r.
Qed.

(** ** Giving up the open files *)

Definition kn_fs (s : kern) : fs := s_fs (kn_sys s).
Definition set_ftable (ft : gmap Z file) (s : kern) : kern :=
  kn_set_sys (Sys (with_ftable ft (kn_fs s)) (s_env (kn_sys s))) s.
Definition refs (s : kern) (k : Z) : Z := f_refcnt (ftable_at (kn_fs s) k).
Definition nb_fds (l : list Z) (k : Z) : Z := Z.of_nat (length (filter (λ f, f = file_ptr k) l)).

(** The descriptors [l] of a task name open files, which others refer to as well. *)
Definition fds_shared (s : kern) (l : list Z) : Prop :=
  ∀ f, f ∈ l → f = NULL ∨ 0 ≤ file_idx f < FILE_MAX_NUM ∧ nb_fds l (file_idx f) < refs s (file_idx f) < 2 ^ 32.

Lemma nb_fds_cons f l k : nb_fds (f :: l) k = (if decide (f = file_ptr k) then 1 else 0) + nb_fds l k.
Proof. unfold nb_fds. rewrite filter_cons. case_decide; simpl; lia. Qed.

Lemma put_shared_run s k :
  0 ≤ k < FILE_MAX_NUM → 1 < refs s k < 2 ^ 32 →
  ∃ ft, on_sys (file_put k) s = Done tt (set_ftable ft s) ∧
    ∀ j, refs (set_ftable ft s) j = refs s j - if decide (j = k) then 1 else 0.
Proof.
  intros Hk Hr. set (f := ftable_at (kn_fs s) k).
  exists (<[k := f_set_refcnt (refs s k - 1) f]> (ftable (kn_fs s))). split.
  - unfold on_sys, file_put, upd_file_at, file_at.
    rewrite (proj2 (Z.leb_le 0 k)), (proj2 (Z.ltb_lt k FILE_MAX_NUM)) by lia. cbn [andb].
    unfold get_fs, set_file, on_fs, modify, gets, mbind, M_bind, mret, M_ret. cbn [obind s_fs]. fold (kn_fs s).
    change (f_refcnt (ftable_at (kn_fs s) k)) with (refs s k). rewrite (wrap_small 32) by lia.
    by rewrite (proj2 (Z.eqb_neq _ _)) by lia.
  - intros j. unfold refs, ftable_at. cbn. rewrite lookup_insert. case_decide as Hj; subst.
    + rewrite decide_True by done. cbn. done.
    + rewrite decide_False by done. fold (kn_fs s). lia.
Qed.

Lemma set_ftable_id s : set_ftable (ftable (kn_fs s)) s = s.
Proof. by destruct s as [[[] ?] ? ? ? ?]. Qed.

Lemma fds_shared_next s ft f l :
  fds_shared s (f :: l) → (∀ j, 0 ≤ j → refs (set_ftable ft s) j = refs s j - if decide (f = file_ptr j) then 1 else 0) →
  fds_shared (set_ftable ft s) l.
Proof.
  intros Hs Hr g Hg. destruct (Hs g) as [->|[Hb Hn]]; [by right|by left|right]. split; [done|].
  rewrite Hr by lia. rewrite nb_fds_cons in Hn. assert (0 ≤ nb_fds l (file_idx g)) by (unfold nb_fds; lia). case_decide; lia.
Qed.

Lemma get_task_kern s t v : tasks (kn_kst s) !! t = Some v → get_task_ t s = Done v s.
Proof.
  intros Ht. unfold get_task_. rewrite (on_k_Done _ _ _ _ (get_task_run _ _ _ Ht)). by rewrite kn_set_kst_id.
Qed.

Lemma release_one s t v i f l :
  tasks (kn_kst s) !! t = Some v → fdtable v !! i = Some f → fds_shared s (f :: l) →
  ∃ ft, (v ← get_task_ t; f ← fd_at v i; if negb (f =? NULL) then on_sys (file_put (file_idx f)) else mret tt) s
      = Done tt (set_ftable ft s) ∧
    ∀ j, 0 ≤ j → refs (set_ftable ft s) j = refs s j - if decide (f = file_ptr j) then 1 else 0.
Proof.
  intros Ht Hi Hs.
  assert (E : (v ← get_task_ t; f ← fd_at v i; if negb (f =? NULL) then on_sys (file_put (file_idx f)) else mret tt) s
    = (if negb (f =? NULL) then on_sys (file_put (file_idx f)) else mret tt) s).
  { mstep (get_task_kern s t v Ht). unfold fd_at. rewrite Hi. by erewrite bind_Done by reflexivity. }
  destruct (Hs f) as [->|[Hb Hn]]; [left|..].
  - exists (ftable (kn_fs s)). rewrite E, set_ftable_id. split; [done|].
    intros j Hj. rewrite decide_False by (unfold file_ptr, NULL; lia). lia.
  - rewrite nb_fds_cons, decide_True in Hn by (unfold file_ptr, file_idx; lia).
    assert (0 ≤ nb_fds l (file_idx f)) by (unfold nb_fds; lia).
    destruct (put_shared_run s (file_idx f) Hb) as (ft & Hp & Hr); [lia|]. exists ft. split.
    + rewrite E. rewrite (proj2 (Z.eqb_neq f NULL)); [done|]. unfold file_idx, NULL in *. lia.
    + intros j Hj. rewrite Hr. unfold file_ptr, file_idx. repeat case_decide; lia.
Qed.

Lemma release_loop_run t v l : ∀ i s,
  tasks (kn_kst s) !! t = Some v → drop i (fdtable v) = l → fds_shared s l →
  ∃ ft, each (λ i, v ← get_task_ t; f ← fd_at v i; if negb (f =? NULL) then on_sys (file_put (file_idx f)) else mret tt)
      (seq i (length l)) s = Done tt (set_ftable ft s) ∧
    ∀ j, 0 ≤ j → refs (set_ftable ft s) j = refs s j - nb_fds l j.
Proof.
  induction l as [|f l IH]; intros i s Ht Hl Hs.
  - exists (ftable (kn_fs s)). rewrite set_ftable_id. split; [done|]. intros j _. unfold nb_fds. simpl. lia.
  - assert (Hi : fdtable v !! i = Some f). { rewrite <-(Nat.add_0_r i), <-lookup_drop, Hl. done. }
    destruct (release_one s t v i f l Ht Hi Hs) as (ft & E & Hr).
    destruct (IH (S i) (set_ftable ft s)) as (ft' & E' & Hr'); [done| |by eapply fds_shared_next|].
    { rewrite <-Nat.add_1_r, <-drop_drop, Hl. done. }
    exists ft'. cbn [length seq each]. rewrite (bind_Done _ _ _ _ _ E). split; [exact E'|].
    intros j Hj. transitivity (refs (set_ftable ft' (set_ftable ft s)) j); [done|].
    rewrite Hr', Hr by done. rewrite nb_fds_cons. lia.
Qed.

Lemma release_fds_run s t v :
  tasks (kn_kst s) !! t = Some v → length (fdtable v) = NOFILE → fds_shared s (fdtable v) →
  ∃ ft, release_fds t s = Done tt (set_ftable ft s) ∧
    ∀ j, 0 ≤ j → refs (set_ftable ft s) j = refs s j - nb_fds (fdtable v) j.
Proof. intros Ht Hl Hs. unfold release_fds. rewrite <-Hl. by apply (release_loop_run t v). Qed.

(** ** The end of a task *)

Section Exit.
Context (s : kern) (L : gmap nid (list nid)) (a : tid) (va : task) (p : tid) (vp : task) (zs : list nid) (code : Z).
Let k := kn_kst s.
Let k0 := with_sie false k.
Let ts := <[a := dead (s8 code) va]> (tasks k).
Let L1 := retired p a zs L.
Hypotheses (HI : Inv None k L) (HT : Top k L a va) (Hid : prio va ≠ IDLE).
Hypotheses (Hpar : parent va = Some p) (Hp : tasks k !! p = Some vp) (Hb : state vp = BLOCKED).
Hypotheses (Hq : L !! NZombieWq p = Some [NWait p]) (Hz : L !! NZombies p = Some zs) (Hpr : (prio va ≤ prio vp)%nat).
#[local] Set Default Proof Using "All".

Lemma exit_not_self : p ≠ a.
Proof. intros ->. pose proof (top_task _ _ _ _ HT). pose proof (top_running _ _ _ _ HT). congruence. Qed.

Lemma dying_run : ∃ s1 s2 k3,
  remove_from_sched_queues a (with_tasks ts k0) = Done tt (with_nodes s1 (with_tasks ts k0)) ∧
  clist_push_back (NZombies p) (NWait a) s1 = Some s2 ∧
  scheduler_wake_waiting_queue (NZombieWq p) (with_nodes s2 (with_tasks ts k0)) = Done tt k3 ∧
  ParentUp (with_nodes s2 (with_tasks ts k0)) p vp L1 k3 ∧ sie k3 = false.
Proof.
  pose proof exit_not_self as Hne. destruct (masked k L a va HI HT) as [HI0 HT0]. fold k0 in HI0, HT0.
  destruct (unqueue_run k0 L a va HI0 HT0) as (s1 & E1 & HI1).
  destruct (retired_inv k0 L a va p zs (s8 code) s1 HI0 HT0 Hz HI1) as (s2 & E2 & HI2).
  assert (HT2 : Track (with_nodes s2 (with_tasks ts k0)) L1) by by eapply retired_track.
  destruct (wake_parent_run (with_nodes s2 (with_tasks ts k0)) L1 a (dead (s8 code) va) p vp) as (k3 & E3 & U & Hs);
    [done|done|apply HT0|apply lookup_insert_eq|done|..].
  - simpl. unfold ts. by rewrite lookup_insert_ne.
  - done.
  - unfold L1, retired. rewrite lookup_insert_ne by done. apply unlinked_lookup. exists [NWait p]. split; [done|].
    by rewrite filter_cons_True, filter_nil by done.
  - done.
  - exists s1, s2, k3. by split_and!.
Qed.

Lemma zombify_run :
  length (fdtable va) = NOFILE → fds_shared s (fdtable va) →
  ∃ ft s2 k3, task_zombify a code s = Done tt (kn_set_kst (with_sie (sie k) k3) (set_ftable ft s)) ∧
    (∀ j, 0 ≤ j → refs (set_ftable ft s) j = refs s j - nb_fds (fdtable va) j) ∧
    ParentUp (with_nodes s2 (with_tasks ts k0)) p vp L1 k3.
Proof.
  intros Hlen Hfd. destruct dying_run as (s1 & s2 & k3 & E1 & E2 & E3 & U & Hsie).
  pose proof (top_task _ _ _ _ HT) as Hva.
  set (sa := kn_set_kst (with_nodes s1 (with_tasks ts k0)) s).
  destruct (release_fds_run sa a (dead (s8 code) va)) as (ft & E4 & Hr); [apply lookup_insert_eq|done|done|].
  exists ft, s2, k3. split_and!; [|exact Hr|exact U].
  unfold task_zombify. kstep (irq_save_run k). fold k0.
  mstep (get_task_kern (kn_set_kst k0 s) a va Hva). rewrite Hpar.
  unfold upd_task_. kstep (upd_task_run k0 a va (with_state ZOMBIE) Hva).
  kstep (upd_task_run (with_tasks (<[a := with_state ZOMBIE va]> (tasks k0)) k0) a _ (with_exit_code (s8 code)) (lookup_insert_eq _ _ _)).
  replace (with_tasks _ (with_tasks _ k0)) with (with_tasks ts k0) by (unfold with_tasks; simpl; by rewrite insert_insert_eq).
  kstep E1. mstep E4. change (set_ftable ft sa) with (kn_set_kst (with_nodes s1 (with_tasks ts k0)) (set_ftable ft s)).
  kstep (on_nodes_run (with_nodes s1 (with_tasks ts k0)) _ s2 E2).
  change (set_nodes s2 _) with (with_nodes s2 (with_tasks ts k0)).
  assert (Hp2 : ts !! p = Some vp) by (unfold ts; rewrite lookup_insert_ne; [done|intros E; by apply exit_not_self]).
  mstep (get_task_kern (kn_set_kst (with_nodes s2 (with_tasks ts k0)) (set_ftable ft s)) p vp Hp2).
  rewrite decide_True by done. kstep E3. rewrite (on_k_Done _ _ _ _ (irq_restore_run _ _)), kn_set_set, kn_kst_set, Hsie.
  by rewrite orb_false_r.
Qed.

End Exit.

Lemma parent_up_sie b k p vp L w : ParentUp k p vp L w → ParentUp k p vp L (with_sie b w).
Proof. intros [U1 [? ? ?] U3 U4]. split; [by eapply inv_ext|by split|done|done]. Qed.

(** The switch away from a task that cannot run any more. *)
Lemma away_switch k L a va :
  Inv None k L → Track k L → active k = Some a → tasks k !! a = Some va → runnable (state va) = false → need_resched k = false →
  ∃ next vn k', switch_out_active k = Switch k' (λ k1, irq_restore (sie k) k1) ∧ next ≠ a ∧ Inv None k' L ∧ Top k' L next (with_state RUNNING vn) ∧
    tasks k !! next = Some vn ∧ tasks k' = <[next := with_state RUNNING vn]> (tasks k) ∧ need_resched k' = false.
Proof.
  intros HI HT Ha Hva Hs Hn.
  destruct (switch_out_run k L a va HI HT Ha Hva Hn) as (next & v & h & E & _ & Hv & Hh & Hhd & Hab).
  destruct (rqs_elem None k L h (NReady next) HI) as (t & v' & [= <-] & Hv' & _ & Hrun);
    [destruct (rqs L h); [done|]; simplify_eq/=; left|]. simplify_eq.
  assert (Hne : next ≠ a) by (intros ->; simplify_eq; by rewrite Hs in Hrun).
  exists next, v. eexists. split; [exact E|]. split; [done|].
  destruct (switched_top (with_highest (prio v) (with_sie false k)) L a va next v) as [HI' HT']; try done;
    [by eapply inv_ext|destruct HT; split; [by eapply inv_prio|done|done]|simpl; by destruct (rqs L (prio v))|].
  split_and!; [done..| |by unfold switched; simpl; repeat case_match]. unfold switched. simpl. rewrite Ha, Hva, decide_False by (intros E'; by rewrite E' in Hs). by rewrite Hv.
Qed.

Lemma exit_run s L a va p vp zs code :
  Inv None (kn_kst s) L → Top (kn_kst s) L a va → prio va ≠ IDLE → preempt_count (kn_kst s) = 0 →
  parent va = Some p → tasks (kn_kst s) !! p = Some vp → state vp = BLOCKED →
  L !! NZombieWq p = Some [NWait p] → L !! NZombies p = Some zs → (prio va ≤ prio vp)%nat →
  length (fdtable va) = NOFILE → fds_shared s (fdtable va) →
  ∃ ft next vn k' c,
    scheduler_exit code s = Switch (kn_set_kst k' (set_ftable ft s)) c ∧
    (∀ j, 0 ≤ j → refs (set_ftable ft s) j = refs s j - nb_fds (fdtable va) j) ∧ next ≠ a ∧
    tasks k' = <[next := with_state RUNNING vn]> (<[p := with_state RUNNING vp]> (<[a := dead (s8 code) va]> (tasks (kn_kst s)))) ∧
    (<[p := with_state RUNNING vp]> (<[a := dead (s8 code) va]> (tasks (kn_kst s)))) !! next = Some vn ∧
    Inv None k' (parent_woken p vp (retired p a zs L)) ∧ Top k' (parent_woken p vp (retired p a zs L)) next (with_state RUNNING vn) ∧
    need_resched k' = false.
Proof.
  intros HI HT Hid Hpc Hpar Hp Hb Hq Hz Hpr Hlen Hfd. set (k := kn_kst s) in *. set (k0 := with_sie false k).
  destruct (masked k L a va HI HT) as [HI0 HT0]. set (s0 := kn_set_kst k0 s).
  assert (Hne : p ≠ a) by by eapply (exit_not_self s L a va p vp zs).
  destruct (zombify_run s0 L a va p vp zs code HI0 HT0 Hid Hpar Hp Hb Hq Hz Hpr Hlen Hfd) as (ft & s2 & k3 & E & Hr & U).
  apply (parent_up_sie false) in U. destruct U as [U1 U2 U3 U4]. set (k4 := with_sie false k3) in *.
  change (kn_kst s0) with k0 in *. injection U4 as Ha Hnp Hat Hpc4 Hnr Htk Hmu Hse.
  assert (Hva4 : tasks k4 !! a = Some (dead (s8 code) va)).
  { rewrite U3, lookup_insert_ne by done. apply lookup_insert_eq. }
  assert (Hn4 : need_resched k4 = false).
  { change (need_resched k4) with (need_resched k3). rewrite Hnr. simpl. destruct (need_resched k) eqn:Hn; [|done].
    destruct (top_pending _ _ _ _ HT Hn). lia. }
  assert (Ha4 : active k4 = Some a). { change (active k4) with (active k3). rewrite Ha. apply HT. }
  destruct (away_switch k4 _ a _ U1 U2 Ha4 Hva4 eq_refl Hn4) as (next & vn & k' & E5 & Hna & HI' & HT' & Hv & Hts & Hnr').
  destruct (on_k_Switch _ (kn_set_kst k4 (set_ftable ft s)) _ _ E5) as [c' E6].
  rewrite U3 in Hts, Hv. exists ft, next, vn, k'. eexists. split_and!; [|exact Hr|done..].
  unfold scheduler_exit. kstep (irq_save_run k). fold k0 s0.
  assert (Eact : task_active k0 = Done (Some a) k0). { unfold task_active, gets. f_equal. apply HT. }
  kstep Eact. erewrite (bind_Done (of_opt _)) by reflexivity. cbn beta. fold s0. mstep E.
  change (kn_set_kst _ (set_ftable ft s0)) with (kn_set_kst k4 (set_ftable ft s)).
  unfold mbind, M_bind. rewrite E6. reflexivity.
Qed.

Lemma parent_woken_zombies k L a p vp zs :
  Inv None k L → tasks k !! p = Some vp → state vp = BLOCKED → p ≠ a → L !! NZombies p = Some zs →
  parent_woken p vp (retired p a zs L) !! NZombies p = Some (zs ++ [NWait a]).
Proof.
  intros HI Hp Hb Hne Hz. unfold parent_woken, woken. rewrite lookup_insert_ne by done.
  assert (Hn : NWait p ∉ zs ++ [NWait a]).
  { intros [Hn|Hn%list_elem_of_singleton]%elem_of_app; [|congruence].
    destruct (inv_belongs _ _ _ HI _ _ _ Hz Hn) as (v & Hv & Hs). congruence. }
  apply unlinked_lookup. exists (zs ++ [NWait a]). split; [|symmetry; by apply filter_not_elem].
  apply unlinked_lookup. exists (zs ++ [NWait a]). split.
  - rewrite lookup_insert_ne by done. unfold retired. by rewrite lookup_insert_eq.
  - symmetry. apply filter_not_elem. intros [Hx|Hx%list_elem_of_singleton]%elem_of_app; [|done].
    by pose proof (inv_belongs _ _ _ HI _ _ _ Hz Hx).
Qed.


(** A kernel with the idle task (1), a task (2) and its child (4224), which
    holds an open file that others hold as well; the structure of the child is
    a block of the heap. *)
Definition fam_child (st : tstate) : task :=
  Task 7 7 [] st 0 false 0 0 0 (Some 2) 0 NORMAL (file_ptr 3 :: replicate 15 NULL).
Definition fam_tasks (sp sc : tstate) : gmap tid task :=
  {[1 := demo_task 0 READY IDLE 0; 2 := demo_task 1 sp NORMAL 0; 4224 := fam_child sc]}.
Definition fam_ids : list nid :=
  [NTable; NReadyQ 0%nat; NReadyQ 1%nat; NReadyQ 2%nat; NReadyQ 3%nat; NSleepHead] ++
  concat ((λ t, [NTask t; NReady t; NWait t; NSleep t; NZombies t; NZombieWq t]) <$> [1; 2; 4224]).
Definition fam_lists (ls : list (nid * list nid)) : gmap nid (list nid) :=
  list_to_map (ls ++ [(NTable, NTask <$> [1; 2; 4224]); (NReadyQ 3%nat, [NReady 1])] ++
    ((λ h, (h, [])) <$> filter (λ h, is_head h = true) fam_ids)).
Definition fam_nodes (ls : list (nid * list nid)) : store nid :=
  default ∅ (snd <$> lops_run (concat (map (λ e : nid * list nid, map (PushBack e.1) e.2) (ls ++
      [(NTable, NTask <$> [1; 2; 4224]); (NReadyQ 3%nat, [NReady 1])])))
    (foldr clist_init_node ∅ fam_ids)).
Definition fam_k (sp sc : tstate) (run : tid) (ls : list (nid * list nid)) : kst :=
  Kst (fam_nodes ls) (fam_tasks sp sc) (Some run) 8 3 0 false NORMAL 120 true ∅ ∅ ∅.
Definition fam_heap : theap :=
  match (ta_init 4096 4352 4 16 8;; hops_run [HAlloc 100]) small_heap with Done _ h => h | _ => small_heap end.
Definition fam_kern (k : kst) : kern :=
  Kern (Sys (Fs ∅ ∅ ∅ {[3 := File 2 0 0 0 NoOps]} ∅ (FsMeta 0 0 0 0 0 0 0 0 0 0 0) 0 None) (KEnv k (Pmem ∅ ∅ ∅) ∅ devs0)) fam_heap 0 0 ∅.

(** The parent waits, the child runs. *)
Definition fam_waited : list (nid * list nid) := [(NZombieWq 2, [NWait 2]); (NReadyQ 1%nat, [NReady 4224])].

Lemma fam_heap_inv : ∃ fl ul rl, HInv fam_heap fl ul rl.
Proof.
  assert (Hok : Forall hop_ok [HAlloc 100]) by (repeat constructor; simpl; lia).
  assert (Hw : wp ((ta_init 4096 4352 4 16 8;; hops_run [HAlloc 100]) small_heap) (λ _ h, ∃ fl ul rl, HInv h fl ul rl)).
  { rewrite wp_bind. eapply wp_mono; [by apply (ta_init_wp 4096 4352 4 16 8 3 small_heap), small_heap_pre|].
    intros _ h1 (_ & rl & HI & Hc). assert (h_mem h1 = h_mem small_heap) as Em by (unfold cfg in Hc; congruence).
    eapply wp_mono; [apply (hops_at 4096 4352 4 3 [HAlloc 100] h1 []); try done|].
    - exists [], [], rl, 16. split_and!; try done; [by rewrite Hc, Em|]. intros x Hx. rewrite Em. by apply small_heap_pre.
    - intros _ h (live & (fl & ul & rl2 & _ & HI2 & _) & _). by exists fl, ul, rl2. }
  unfold fam_heap. by destruct ((ta_init _ _ _ _ _;; _) small_heap).
Qed.

Lemma fam_shared k : fds_shared (fam_kern k) (fdtable (fam_child RUNNING)).
Proof.
  intros f [->|Hf]%elem_of_cons; [right|left].
  - vm_compute. split; split; congruence || done.
  - change (f ∈ replicate 15 NULL) in Hf. by apply elem_of_replicate_inv in Hf.
Qed.

