(* ===== verification/Reap.v ===== *)
(** * Waiting for a child

    [sys_wait] takes the first zombie of the running task off its list and gives
    back everything the child had: its place in the table of tasks, its address
    space and the structure itself. *)

From S2P Require Import Prelude Clist Tinyalloc TinyallocInv Sched SchedInv Pages Vpages FsState Inode Fs File Kenv Mmap Elf Task Syscall Lifecycle.

(** ** A task structure that is freed *)

Section Buried.
Context {N : Type} `{Countable N}.
Implicit Types (s : store N) (L : gmap N (list N)).

(** A node that no list links can go, with the empty list it heads. *)
Lemma rep_bury s L x :
  Rep s L → (∀ h l, L !! h = Some l → x ∉ l) → (L !! x = None ∨ L !! x = Some []) → Rep (delete x s) (delete x L).
Proof.
  intros HR Hno Hx.
  assert (Hs : ∀ y, y ≠ x → delete x s !! y = s !! y) by (intros; by apply lookup_delete_ne).
  split.
  - intros h l [Hne Hl]%lookup_delete_Some. apply (is_clist_frame _ s); [|by apply (rep_clist _ _ _ HR)].
    intros y Hy. assert (y ≠ x) by (intros ->; apply elem_of_cons in Hy as [?|?]; [done|by eapply Hno]).
    unfold nxt, prv, inl. by rewrite Hs.
  - intros h1 h2 l1 l2 y [_ H1]%lookup_delete_Some [_ H2]%lookup_delete_Some. by apply (rep_disj _ _ _ HR).
  - intros y Hy. unfold inl in Hy. destruct (decide (y = x)) as [->|Hne]; [by rewrite lookup_delete_eq in Hy|].
    rewrite Hs in Hy by done. destruct (rep_flag _ _ _ HR y Hy) as (h & l & Hl & Hin). exists h, l. split; [|done].
    rewrite lookup_delete_ne; [done|]. intros <-. destruct Hx as [Hx|Hx]; rewrite Hx in Hl; [done|].
    injection Hl as <-. by apply elem_of_nil in Hin.
Qed.
End Buried.

Definition structure_nodes (t : tid) : list nid := [NTask t; NReady t; NWait t; NSleep t; NZombies t; NZombieWq t].
Definition buried (t : tid) (L : gmap nid (list nid)) : gmap nid (list nid) := foldr delete L (structure_nodes t).

Lemma buried_lookup t L h l : (buried t L !! h = Some l) ↔ ((h ∉ structure_nodes t) ∧ L !! h = Some l).
Proof.
  unfold buried. induction (structure_nodes t) as [|x xs IH]; simpl.
  - split; [intros ?; split; [by intros ?%elem_of_nil|done]|naive_solver].
  - rewrite lookup_delete_Some, IH, not_elem_of_cons. naive_solver.
Qed.

Lemma rep_buried s L (ns : list nid) :
  Rep s L → (∀ x h l, x ∈ ns → L !! h = Some l → x ∉ l) → (∀ x, x ∈ ns → L !! x = None ∨ L !! x = Some []) →
  Rep (foldr delete s ns) (foldr delete L ns).
Proof.
  intros HR. induction ns as [|x ns IH]; intros Hno He; [done|]. simpl.
  assert (Hle : foldr delete L ns ⊆ L).
  { clear. induction ns as [|y ns IH]; simpl; [done|]. etransitivity; [apply delete_subseteq|done]. }
  apply rep_bury.
  - apply IH; intros; [eapply Hno; [by right|done]|apply He; by right].
  - intros h l Hl. eapply Hno; [left|]. by eapply lookup_weaken.
  - destruct (foldr delete L ns !! x) as [l|] eqn:Hl; [right|by left]. f_equal.
    pose proof (lookup_weaken _ _ _ _ Hl Hle) as Hx. destruct (He x) as [E|E]; [left|..]; congruence.
Qed.

Lemma structure_cases t x : (x ∈ structure_nodes t) ↔ (owner x = Some t ∨ x = NZombies t ∨ x = NZombieWq t).
Proof.
  unfold structure_nodes. rewrite !elem_of_cons, elem_of_nil. split.
  - intros [->|[->|[->|[->|[->|[->|[]]]]]]]; simpl; tauto.
  - intros [Ho|[->| ->]]; [destruct x; simplify_eq/=|..]; tauto.
Qed.

Lemma foldr_delete_dom {A} (s : gmap nid A) ns x : x ∈ dom s → x ∉ ns → x ∈ dom (foldr delete s ns).
Proof.
  intros Hd. induction ns as [|y ns IH]; [done|]. rewrite not_elem_of_cons. intros [Hne Hn]. simpl.
  rewrite dom_delete_L. apply elem_of_difference. split; [by apply IH|by rewrite elem_of_singleton].
Qed.

(** The scheduler without a task that is in no queue. *)
Section Bury.
Context (k : kst) (L : gmap nid (list nid)) (t : tid).
Hypotheses (HI : Inv (Some t) k L) (Hno : ∀ h l n, L !! h = Some l → n ∈ l → owner n ≠ Some t).
Hypotheses (Hz : L !! NZombies t = Some []) (Hw : L !! NZombieWq t = Some []).
#[local] Set Default Proof Using "All".

Lemma structure_unlinked x h l : x ∈ structure_nodes t → L !! h = Some l → x ∉ l.
Proof.
  intros [Ho|Hx]%structure_cases Hl Hin; [by eapply Hno|].
  pose proof (inv_belongs _ _ _ HI _ _ _ Hl Hin) as Hb. destruct Hx as [->| ->]; by destruct h.
Qed.

Lemma structure_empty x : x ∈ structure_nodes t → L !! x = None ∨ L !! x = Some [].
Proof.
  intros [Ho|[->| ->]]%structure_cases; [left|by right..]. destruct (L !! x) eqn:Hl; [|done].
  apply (inv_heads _ _ _ HI) in Hl. unfold is_head in Hl. by rewrite Ho in Hl.
Qed.

Lemma buried_keeps h l n : L !! h = Some l → n ∈ l → buried t L !! h = Some l.
Proof.
  intros Hl Hn. apply buried_lookup. split; [|done]. intros Hx.
  destruct (structure_empty h Hx); simplify_eq. by apply elem_of_nil in Hn.
Qed.

Lemma buried_is_Some h : h ∉ structure_nodes t → is_Some (L !! h) → is_Some (buried t L !! h).
Proof. intros Hh [l Hl]. exists l. by apply buried_lookup. Qed.

Lemma inv_buried :
  Inv None (with_nodes (foldr delete (k_nodes k) (structure_nodes t)) (with_tasks (delete t (tasks k)) k)) (buried t L).
Proof.
  assert (Hts : ∀ t' v, delete t (tasks k) !! t' = Some v → t' ≠ t ∧ tasks k !! t' = Some v).
  { intros t' v [? ?]%lookup_delete_Some. done. }
  pose proof HI as [HR Hh Hb Hp Hn Ho Hpr Hrq Hsl Hso]. split; cbn [k_nodes tasks with_nodes with_tasks].
  - apply rep_buried; [done|..]; [intros x h l; apply structure_unlinked|apply structure_empty].
  - intros h l [_ Hl]%buried_lookup. eauto.
  - intros h l n [_ Hl]%buried_lookup Hin. pose proof (Hb h l n Hl Hin) as Hbel. specialize (Hno h l n Hl Hin).
    destruct h, n; simpl in *; try done; rewrite lookup_delete_ne by congruence; done.
  - intros t' v [Hne Ht']%Hts _. eapply placed_mono; [apply (Hp t' v Ht'); congruence|].
    intros h l x Hl Hx _. exists l. split; [by eapply buried_keeps|done].
  - intros t' v n [Hne Ht']%Hts Hown. apply foldr_delete_dom; [by eauto|].
    intros [E|[E|E]]%structure_cases; [congruence|by subst n..].
  - intros t' v [Hne Ht']%Hts. destruct (Ho t' v Ht') as [H1 H2].
    split; (apply buried_is_Some; [|done]); intros [?|[?|?]]%structure_cases; simplify_eq/=.
  - intros t' v [_ Ht']%Hts. eauto.
  - intros p Hlt. apply buried_is_Some; [|by apply Hrq]. by intros [?|[?|?]]%structure_cases.
  - apply buried_is_Some; [|done]. by intros [?|[?|?]]%structure_cases.
  - intros l [_ Hl]%buried_lookup. apply (sorted_ext (sleep_key k)); [|by apply Hso].
    intros n Hin. pose proof (Hno _ _ _ Hl Hin) as Hown. unfold sleep_key. destruct n as [| | |t'| | | | | | |]; try done.
    simpl in *. by rewrite lookup_delete_ne by congruence.
Qed.
End Bury.

(** ** Destroying a task *)

Lemma bind_inv {S A B} (m : M S A) (f : A → M S B) s b s' :
  (m ≫= f) s = Done b s' → ∃ a s1, m s = Done a s1 ∧ f a s1 = Done b s'.
Proof. unfold mbind, M_bind. destruct (m s) as [a s1| | | |]; try done. eauto. Qed.

Definition kn_mem (s : kern) : pmem := ke_m (s_env (kn_sys s)).
Definition set_mem (m : pmem) (s : kern) : kern :=
  let e := s_env (kn_sys s) in kn_set_sys (Sys (s_fs (kn_sys s)) (KEnv (ke_k e) m (ke_d e) (ke_v e))) s.

Lemma on_p_Done {A} (f : M pmem A) s a m : f (kn_mem s) = Done a m → on_p f s = Done a (set_mem m s).
Proof. intros E. unfold on_p, on_sys, env, on_pmem. unfold kn_mem in E. by rewrite E. Qed.

Lemma on_heap_Done {A} (f : M theap A) s a h : f (kn_heap s) = Done a h → on_heap f s = Done a (kn_set_heap h s).
Proof. intros E. unfold on_heap. by rewrite E. Qed.

(** Giving up the address space of a task returns. *)
Definition free_space (v : task) : M pmem unit :=
  if user v && negb (root_ptable v =? NULL) then
    vpage_unmmap (root_ptable v) (tframe_va v);;
    c ← page_get_ref_count (root_ptable v);
    if c =? 1 then vpage_tree_free (root_ptable v) else page_put (root_ptable v)
  else mret tt.

Lemma free_space_run v s m :
  free_space v (kn_mem s) = Done tt m →
  (if user v && negb (root_ptable v =? NULL) then
     on_p (vpage_unmmap (root_ptable v) (tframe_va v));;
     c ← on_p (page_get_ref_count (root_ptable v));
     if c =? 1 then on_p (vpage_tree_free (root_ptable v)) else on_p (page_put (root_ptable v))
   else mret tt) s = Done tt (set_mem m s).
Proof.
  unfold free_space. destruct (_ && _).
  - intros (a & m1 & E1 & (c & m2 & E2 & E3)%bind_inv)%bind_inv.
    rewrite (bind_Done _ _ _ _ _ (on_p_Done _ _ _ _ E1)). rewrite (bind_Done _ _ _ _ _ (on_p_Done _ (set_mem m1 s) _ _ E2)).
    destruct (c =? 1); by rewrite (on_p_Done _ (set_mem m2 (set_mem m1 s)) _ _ E3).
  - intros [= <-]. by destruct s as [[? []]].
Qed.

Definition unqueued (t : tid) (L : gmap nid (list nid)) : gmap nid (list nid) :=
  unlinked (NWait t) (unlinked (NSleep t) (unlinked (NReady t) (unlinked (NTask t) L))).

Lemma unqueue_all_run k L t v :
  Inv (Some t) k L → tasks k !! t = Some v →
  ∃ s, (∀ ts, remove_from_all_queues t (with_tasks ts k) = Done tt (with_nodes s (with_tasks ts k))) ∧
    Inv (Some t) (with_nodes s k) (unqueued t L).
Proof.
  intros HI Ht.
  destruct (unlink_run (Some t) k L (NTask t) t v) as (s1 & H1 & HI1); [done..|by right|].
  destruct (unlink_run (Some t) _ _ (NReady t) t v HI1) as (s2 & H2 & HI2); [done..|by right|].
  destruct (unlink_run (Some t) _ _ (NSleep t) t v HI2) as (s3 & H3 & HI3); [done..|by right|].
  destruct (unlink_run (Some t) _ _ (NWait t) t v HI3) as (s4 & H4 & HI4); [done..|by right|].
  exists s4. split; [|done]. intros ts.
  unfold remove_from_all_queues, remove_from_sched_queues, remove_from_blocking_queues.
  mstep (unlink_tasks _ _ _ ts H1). mstep (unlink_tasks _ _ _ ts H2). mstep (unlink_tasks _ _ _ ts H3).
  exact (unlink_tasks _ _ _ ts H4).
Qed.

Lemma unqueued_owner t L h l n : unqueued t L !! h = Some l → n ∈ l → owner n ≠ Some t.
Proof.
  intros Hl Hn Ho. destruct (unlinked_elem _ _ _ _ _ Hl Hn) as (N1 & l1 & Hl1 & Hn1).
  destruct (unlinked_elem _ _ _ _ _ Hl1 Hn1) as (N2 & l2 & Hl2 & Hn2).
  destruct (unlinked_elem _ _ _ _ _ Hl2 Hn2) as (N3 & l3 & Hl3 & Hn3).
  destruct (unlinked_elem _ _ _ _ _ Hl3 Hn3) as (N4 & _). destruct n; simplify_eq/=.
Qed.

Lemma unqueued_empty t L h : L !! h = Some [] → unqueued t L !! h = Some [].
Proof. intros Hl. unfold unqueued. do 4 (apply unlinked_lookup; exists []; split; [|done]). done. Qed.

(** The scheduler without the task [t]. *)
Definition without (t : tid) (nd : store nid) (k : kst) : kst :=
  with_active_task (u8 (active_task k - 1)) (with_nodes nd (with_tasks (delete t (tasks k)) k)).

Lemma without_masked t nd v k :
  with_sie (sie k || false) (with_active_task (u8 (active_task k - 1))
    (with_nodes nd (with_tasks (delete t (<[t := v]> (tasks k))) (with_sie false k)))) = without t nd k.
Proof. unfold without. destruct k. cbn. by rewrite delete_insert_eq, orb_false_r. Qed.

Lemma destroy_run s L t v m h b :
  Inv (Some t) (kn_kst s) L → active (kn_kst s) ≠ Some t → tasks (kn_kst s) !! t = Some v →
  L !! NZombies t = Some [] → L !! NZombieWq t = Some [] →
  free_space v (kn_mem s) = Done tt m → ta_free t (kn_heap s) = Done b h →
  ∃ nd, task_destroy t s =
      Done tt (kn_set_start (delete t (kn_start s)) (kn_set_heap h (set_mem m (kn_set_kst (without t nd (kn_kst s)) s)))) ∧
    Inv None (without t nd (kn_kst s)) (buried t (unqueued t L)).
Proof.
  intros HI Hact Ht Hz Hw Hm Hh. set (k := kn_kst s) in *. set (k0 := with_sie false k).
  assert (HI0 : Inv (Some t) k0 L) by by eapply inv_ext.
  destruct (unqueue_all_run k0 L t v HI0 Ht) as (s1 & E1 & HI1).
  set (ts := <[t := with_state TERMINATED v]> (tasks k)).
  set (nd := foldr delete s1 (structure_nodes t)). exists nd. split.
  - unfold task_destroy. kstep (irq_save_run k). fold k0.
    assert (Eact : task_active k0 = Done (active k) k0) by done. kstep Eact. rewrite decide_False by done.
    unfold upd_task_. kstep (upd_task_run k0 t v (with_state TERMINATED) Ht). change (tasks k0) with (tasks k). fold ts.
    kstep (E1 ts). set (k1 := with_nodes s1 (with_tasks ts k0)). set (sa := kn_set_kst k1 s).
    assert (Ht1 : tasks (kn_kst sa) !! t = Some (with_state TERMINATED v)) by apply lookup_insert_eq.
    mstep (get_task_kern sa t _ Ht1). rewrite (bind_Done _ _ _ _ _ (free_space_run (with_state TERMINATED v) sa m Hm)).
    assert (Eh : free t (kn_heap (set_mem m sa)) = Done tt h). { unfold free. by mstep Hh. }
    rewrite (bind_Done _ _ _ _ _ (on_heap_Done _ _ _ _ Eh)).
    set (k2 := with_nodes nd (with_tasks (delete t ts) k0)).
    set (sb := kn_set_start (delete t (kn_start s)) (kn_set_heap h (set_mem m (kn_set_kst k2 s)))).
    assert (Ed : drop_task t (kn_set_heap h (set_mem m sa)) = Done tt sb) by reflexivity. mstep Ed.
    set (k3 := with_active_task (u8 (active_task k2 - 1)) k2).
    assert (Em : on_k (modify (λ k, with_active_task (u8 (active_task k - 1)) k)) sb = Done tt (kn_set_kst k3 sb)) by reflexivity.
    mstep Em. rewrite (on_k_Done _ (kn_set_kst k3 sb) _ _ (irq_restore_run _ _)).
    rewrite <-(without_masked t nd (with_state TERMINATED v) k). reflexivity.
  - apply (inv_ext None (with_nodes nd (with_tasks (delete t (tasks (with_nodes s1 k0))) (with_nodes s1 k0)))); [|done..].
    apply (inv_buried (with_nodes s1 k0) (unqueued t L) t HI1); [apply unqueued_owner|by apply unqueued_empty..].
Qed.

(** ** The first zombie *)

(** [sys_wait] once a child has ended. *)
Definition reap_first (parent : tid) (flags : bool) : M kern Z :=
  node ← on_k (pop_front (NZombies parent));
  to_reap ← of_opt (node ≫= of_wait);
  v ← get_task_ to_reap;
  let pid := pid v in
  task_reap to_reap;;
  on_k (irq_restore flags);;
  mret (s8 pid).

Lemma sys_wait_reap fuel :
  sys_wait fuel = (flags ← on_k irq_save; parent ← current_task; wait_zombie fuel parent;; reap_first parent flags).
Proof. done. Qed.

(** The child [t], with fields [v], is the first zombie of [a], which runs, and
    nothing hangs from [t] any more. *)
Record Reapable (s : kern) (L : gmap nid (list nid)) (a : tid) (va : task) (t : tid) (v : task) (zs : list nid) : Prop := {
  rp_inv : Inv None (kn_kst s) L;
  rp_top : Top (kn_kst s) L a va;
  rp_first : L !! NZombies a = Some (NWait t :: zs);
  rp_task : tasks (kn_kst s) !! t = Some v;
  rp_orphan : L !! NZombies t = Some [];
  rp_alone : L !! NZombieWq t = Some [];
  rp_space : ∃ m, free_space v (kn_mem s) = Done tt m;
  rp_heap : ∃ fl ul rl, HInv (kn_heap s) fl ul rl;
}.

(** What [a] finds once [t] is gone. *)
Record Reaped (s s' : kern) (a : tid) (va : task) (t : tid) (zs : list nid) : Prop := {
  rd_sched : ∃ L, Inv None (kn_kst s') L ∧ Top (kn_kst s') L a va ∧ L !! NZombies a = Some zs;
  rd_tasks : tasks (kn_kst s') = delete t (tasks (kn_kst s));
  rd_count : active_task (kn_kst s') = u8 (active_task (kn_kst s) - 1);
  rd_heap : ∀ fl ul rl, HInv (kn_heap s) fl ul rl →
    ∃ b fl' ul' rl', HInv (kn_heap s') fl' ul' rl' ∧ freed t ul ul' b;
  rd_space : ∀ v, tasks (kn_kst s) !! t = Some v → free_space v (kn_mem s) = Done tt (kn_mem s');
  rd_files : kn_fs s' = kn_fs s;
}.

Definition reaped_lists (a t : tid) (zs : list nid) (L : gmap nid (list nid)) : gmap nid (list nid) :=
  buried t (unqueued t (<[NZombies a := zs]> L)).

Section Reap.
Context (s : kern) (L : gmap nid (list nid)) (a : tid) (va : task) (t : tid) (v : task) (zs : list nid).
Hypothesis R : Reapable s L a va t v zs.
Let k := kn_kst s.
#[local] Set Default Proof Using "R".

Lemma reap_zombie : state v = ZOMBIE.
Proof.
  destruct R as [HI _ Hf Ht _ _ _ _]. destruct (inv_belongs _ _ _ HI _ _ (NWait t) Hf) as (v' & Hv' & Hs); [left|].
  congruence.
Qed.

Lemma reap_other : t ≠ a.
Proof.
  intros E. pose proof reap_zombie as Hz. destruct R as [_ HT _ Ht _ _ _ _].
  pose proof (top_task _ _ _ _ HT). pose proof (top_running _ _ _ _ HT). subst. congruence.
Qed.

Lemma reap_lists : unlinked (NWait t) L = <[NZombies a := zs]> L.
Proof. destruct R as [HI _ Hf _ _ _ _ _]. apply (remove_fmap (k_nodes k) L (NZombies a) [] zs); [apply HI|done]. Qed.

Lemma reaped_rqs p : rqs (reaped_lists a t zs L) p = rqs L p.
Proof.
  pose proof reap_zombie as Hz. destruct R as [HI _ Hf Ht _ _ _ _].
  assert (Hq : ∀ n, owner n = Some t → n ∉ rqs L p).
  { intros n Hn Hin. destruct (rqs_elem _ _ _ _ _ HI Hin) as (t' & v' & -> & Hv' & _ & Hr). simplify_eq/=.
    by rewrite Hz in Hr. }
  transitivity (rqs (unqueued t (<[NZombies a := zs]> L)) p).
  - unfold rqs. destruct (unqueued t (<[NZombies a := zs]> L) !! NReadyQ p) as [l|] eqn:Hl.
    + assert (buried t (unqueued t (<[NZombies a := zs]> L)) !! NReadyQ p = Some l) as E; [|unfold reaped_lists; by rewrite E].
      apply buried_lookup. split; [|done]. by intros [?|[?|?]]%structure_cases.
    + destruct (reaped_lists a t zs L !! NReadyQ p) as [l|] eqn:Hl'; [|done].
      apply buried_lookup in Hl' as [_ E]. congruence.
  - unfold unqueued. rewrite !unlinked_rqs, rqs_insert_other by done.
    rewrite !filter_not_elem; [done|..]; intros Hx; rewrite ?list_elem_of_filter in Hx; by eapply Hq; [|naive_solver].
Qed.

Lemma reaped_zombies : reaped_lists a t zs L !! NZombies a = Some zs.
Proof.
  pose proof reap_other as Hne. destruct R as [HI _ Hf Ht _ _ _ _].
  apply buried_lookup. split; [intros [?|[?|?]]%structure_cases; simplify_eq/=; congruence|].
  assert (Hno : ∀ n, owner n = Some t → n ∉ zs).
  { intros n Hn Hin. destruct n as [| |t'| | | | | | | |]; simpl in Hn; try done.
    all: try by pose proof (inv_belongs _ _ _ HI _ _ _ Hf (list_elem_of_further _ _ _ Hin)).
    injection Hn as ->. pose proof (rep_nodup _ _ _ _ _ (inv_rep _ _ _ HI) Hf) as [Hx _]%NoDup_cons. done. }
  unfold unqueued. do 4 (apply unlinked_lookup; exists zs; split; [|symmetry; apply filter_not_elem; by apply Hno]).
  apply lookup_insert_eq.
Qed.

Lemma pop_run : ∃ nd, pop_front (NZombies a) k = Done (Some (NWait t)) (with_nodes nd k) ∧
  Inv (Some t) (with_nodes nd k) (<[NZombies a := zs]> L).
Proof.
  destruct R as [HI _ Hf _ _ _ _ _].
  destruct (pop_front_rep None _ L (NZombies a) _ (inv_rep _ _ _ HI) Hf) as (nd & E & HR & Hd).
  exists nd. split.
  - unfold pop_front. erewrite bind_Done; [|by apply read_nodes_run]. done.
  - rewrite <-reap_lists. eapply (inv_unlink None); [done|done|by left| |done]. rewrite reap_lists. exact HR.
Qed.

Lemma reap_first_run b :
  ∃ s', reap_first a b s = Done (s8 (pid v)) s' ∧ Reaped s s' a va t zs.
Proof.
  pose proof reap_other as Hne. pose proof reap_zombie as Hs. destruct pop_run as (nd & Epop & HI1).
  pose proof reaped_rqs as Hrq. pose proof reaped_zombies as Hzs.
  destruct R as [HI HT Hf Ht Ho Hw [m Hm] (fl & ul & rl & HH)].
  destruct (proj1 (wp_Done _ _) (ta_free_wp t fl ul rl (kn_heap s) HH)) as (b' & h & Eh & Hcfg & HH').
  set (sa := kn_set_kst (with_nodes nd k) s).
  assert (Hne' : NZombies a ≠ NZombies t) by congruence.
  destruct (destroy_run sa (<[NZombies a := zs]> L) t v m h b') as (nd' & Ed & HI2);
    [done|intros E; apply Hne; pose proof (top_active _ _ _ _ HT) as Ha; change (active (kn_kst sa)) with (active (kn_kst s)) in E; congruence
    |done|by rewrite lookup_insert_ne|by rewrite lookup_insert_ne|done|done|].
  change (kn_kst sa) with (with_nodes nd k) in *. fold (reaped_lists a t zs L) in HI2.
  set (k2 := without t nd' (with_nodes nd k)) in *.
  eexists. split.
  - unfold reap_first. kstep Epop. fold sa. erewrite (bind_Done (of_opt _)) by reflexivity. cbn beta.
    mstep (get_task_kern sa t v Ht). assert (Er : task_reap t sa = task_destroy t sa).
    { unfold task_reap. mstep (get_task_kern sa t v Ht). by rewrite decide_True. }
    rewrite Ed in Er. mstep Er.
    set (sb := kn_set_start _ _). rewrite (bind_Done _ _ _ _ _ (on_k_Done _ sb _ _ (irq_restore_run b (kn_kst sb)))).
    reflexivity.
  - change (kn_kst (kn_set_start _ _)) with k2. split; try done.
    + exists (reaped_lists a t zs L). split_and!; [by eapply inv_ext| |done].
      destruct (top_rqs k L _ a va HT Hrq) as [[] ? ? ? ? ? ? ?]. split; try done.
      simpl. by rewrite lookup_delete_ne.
    + intros fl0 ul0 rl0 HH0.
      destruct (proj1 (wp_Done _ _) (ta_free_wp t fl0 ul0 rl0 (kn_heap s) HH0)) as (b0 & h0 & Eh0 & _ & fl1 & ul1 & rl1 & ? & ?).
      rewrite Eh in Eh0. injection Eh0 as <- <-. exists b', fl1, ul1, rl1. done.
    + intros v0 Hv0. rewrite Ht in Hv0; injection Hv0 as <-. exact Hm.
Qed.
End Reap.

(** ** Waiting *)

Lemma current_run s a : active (kn_kst s) = Some a → current_task s = Done a s.
Proof.
  intros Ha. unfold current_task. assert (E : task_active (kn_kst s) = Done (Some a) (kn_kst s)).
  { unfold task_active, gets. by rewrite Ha. }
  kstep E. rewrite kn_set_kst_id. done.
Qed.

Lemma zombies_seen s L a l :
  Inv None (kn_kst s) L → L !! NZombies a = Some l →
  on_k (read_nodes (clist_empty (NZombies a))) s = Done (bool_decide (l = [])) s.
Proof.
  intros HI Hl. pose proof (read_nodes_run _ _ _ (empty_rep None _ L _ l (inv_rep _ _ _ HI) Hl)) as E.
  rewrite (on_k_Done _ s _ _ E). by rewrite kn_set_kst_id.
Qed.

Lemma reapable_sie b s L a va t v zs :
  Reapable s L a va t v zs → Reapable (kn_set_kst (with_sie b (kn_kst s)) s) L a va t v zs.
Proof.
  intros [HI HT Hf Ht Ho Hw Hm HH]. split; try done; [by eapply inv_ext|].
  destruct HT as [[] ? ? ? ? ? ? ?]. by do 2 (split; try done).
Qed.

Lemma reaped_sie b s s' a va t zs :
  Reaped (kn_set_kst (with_sie b (kn_kst s)) s) s' a va t zs → Reaped s s' a va t zs.
Proof. by intros []. Qed.

Lemma wait_tail_run s L a va t v zs fuel b :
  Reapable s L a va t v zs →
  ∃ s', (wait_zombie (S fuel) a;; reap_first a b) s = Done (s8 (pid v)) s' ∧ Reaped s s' a va t zs.
Proof.
  intros R. destruct (reap_first_run s L a va t v zs R b) as (s' & E & HR). exists s'. split; [|done].
  assert (Ew : wait_zombie (S fuel) a s = Done tt s).
  { cbn [wait_zombie]. mstep (zombies_seen s L a _ (rp_inv _ _ _ _ _ _ _ R) (rp_first _ _ _ _ _ _ _ R)).
    by rewrite bool_decide_false. }
  mstep Ew. done.
Qed.

(** A task that blocks: the state it leaves, and what it does when it is given
    the processor back. *)
Lemma block_run k L a va wq l :
  Inv None k L → Top k L a va → may_block a k → is_wq wq = true → L !! wq = Some l →
  ∃ next vn k', scheduler_block_on wq k = Switch k' (λ k1, (irq_restore false;; irq_restore (sie k)) k1) ∧
    Inv None k' (blocked_on wq a l L) ∧ Top k' (blocked_on wq a l L) next (with_state RUNNING vn) ∧
    tasks k' = <[next := with_state RUNNING vn]> (<[a := with_state BLOCKED va]> (tasks k)) ∧
    next ≠ a.
Proof.
  intros HI HT Hmb Hwq Hl. pose proof (may_block_resched _ _ _ _ Hmb HT) as Hnr. destruct Hmb as [Hpc Hid].
  destruct (masked _ _ _ _ HI HT) as [HI0 HT0]. pose proof HT0 as [_ Ha Hva _ _ _ _ _].
  destruct (move_to_wq_run _ L a va wq l HI0 HT0 Hwq Hl) as (s' & Hm & HI').
  set (k1 := with_nodes s' _) in Hm, HI'.
  assert (Htr : Track k1 (blocked_on wq a l L)) by (by destruct (blocked_track _ _ _ _ wq l HI0 HT0 (Hid _ Hva) Hwq)).
  assert (Hva1 : tasks k1 !! a = Some (with_state BLOCKED va)) by (simpl; by rewrite lookup_insert_eq).
  destruct (away_switch k1 _ a _ HI' Htr Ha Hva1 eq_refl Hnr) as (next & vn & k' & E & Hne & HI2 & HT2 & Hv & Hts & _).
  exists next, vn, k'. split_and!; try done.
  unfold scheduler_block_on. run irq_save_run. rewrite (bind_active _ _ a Ha). mstep Hm.
  unfold mbind at 1, M_bind. rewrite E. reflexivity.
Qed.

Lemma on_k_resume {A} (m : M kst A) s k c :
  m (kn_kst s) = Switch k c → ∃ c', on_k m s = Switch (kn_set_kst k s) c' ∧
    ∀ s1 a k1, c (kn_kst s1) = Done a k1 → c' s1 = Done a (kn_set_kst k1 s1).
Proof.
  intros E. unfold on_k, on_sys, env, on_kst. unfold kn_kst in E. rewrite E. simpl. eexists. split; [reflexivity|].
  intros s1 a k1 E1. cbn. unfold kn_kst in E1. by rewrite E1.
Qed.

(** Without a zombie the task blocks on its own queue; the rest of the call
    reaps the first zombie that there is when the task runs again. *)
Lemma wait_blocks s L a va fuel :
  Inv None (kn_kst s) L → Top (kn_kst s) L a va → may_block a (kn_kst s) →
  L !! NZombies a = Some [] → L !! NZombieWq a = Some [] →
  ∃ s1 c next vn L1, sys_wait (S (S fuel)) s = Switch s1 c ∧ next ≠ a ∧
    Inv None (kn_kst s1) L1 ∧ Top (kn_kst s1) L1 next vn ∧
    tasks (kn_kst s1) !! a = Some (with_state BLOCKED va) ∧ L1 !! NZombieWq a = Some [NWait a] ∧
    ∀ s2 L2 va2 t v zs, Reapable s2 L2 a va2 t v zs →
      ∃ s3, c s2 = Done (s8 (pid v)) s3 ∧ Reaped s2 s3 a va2 t zs.
Proof.
  intros HI HT Hmb Hz Hw. set (k := kn_kst s) in *. destruct (masked k L a va HI HT) as [HI0 HT0].
  set (s0 := kn_set_kst (with_sie false k) s).
  destruct (block_run (with_sie false k) L a va (NZombieWq a) [] HI0 HT0) as (next & vn & k' & E & HI1 & HT1 & Hts & Hne); [done..|].
  destruct (on_k_resume _ s0 _ _ E) as (c & Ec & Hc).
  exists (kn_set_kst k' s0). eexists. exists next. do 2 eexists.
  split_and!; [|done|exact HI1|exact HT1|..].
  - rewrite sys_wait_reap. kstep (irq_save_run k). fold s0. mstep (current_run s0 a (top_active _ _ _ _ HT)).
    assert (Ew : wait_zombie (S (S fuel)) a s0 = Switch (kn_set_kst k' s0) (λ s1, obind (c s1) (λ _, wait_zombie (S fuel) a))).
    { change (wait_zombie (S (S fuel)) a) with (e ← on_k (read_nodes (clist_empty (NZombies a)));
        if (e : bool) then on_k (scheduler_block_on (NZombieWq a));; wait_zombie (S fuel) a else mret tt).
      mstep (zombies_seen s0 L a [] HI0 Hz). rewrite bool_decide_true by done. unfold mbind, M_bind. by rewrite Ec. }
    unfold mbind, M_bind. rewrite Ew. reflexivity.
  - change (kn_kst (kn_set_kst k' s0)) with k'. rewrite Hts, lookup_insert_ne by done. apply lookup_insert_eq.
  - unfold blocked_on. by rewrite lookup_insert_eq.
  - intros s2 L2 va2 t v zs R. destruct (wait_tail_run s2 L2 a va2 t v zs fuel (sie k) R) as (s3 & E3 & HR).
    exists s3. split; [|done]. cbn beta. rewrite (Hc s2 tt (kn_kst s2)).
    + rewrite kn_set_kst_id. exact E3.
    + by destruct (kn_kst s2).
Qed.


(** The child of [fam_k] has ended; the parent, which runs, waits. *)
Definition fam_ended : list (nid * list nid) := [(NZombies 2, [NWait 4224]); (NReadyQ 1%nat, [NReady 2])].


(** ** The two together *)

Lemma exited_empty p a vp zs L h :
  h ≠ NZombies p → h ≠ NZombieWq p → is_head h = true → (∀ q, h ≠ NReadyQ q) → L !! h = Some [] →
  parent_woken p vp (retired p a zs L) !! h = Some [].
Proof.
  intros H1 H2 H3 H4 Hl. unfold parent_woken, woken. rewrite lookup_insert_ne by done.
  do 2 (apply unlinked_lookup; exists []; split; [|done]). rewrite lookup_insert_ne by done.
  unfold retired. rewrite lookup_insert_ne by done. apply unlinked_lookup. by exists [].
Qed.

Lemma exited_rqs k L a p vp zs q :
  Inv None k L →
  rqs (parent_woken p vp (retired p a zs L)) q =
    filter (λ x, x ≠ NReady a) (rqs L q) ++ (if decide (q = prio vp) then [NReady p] else []).
Proof.
  intros HI. unfold parent_woken, woken. rewrite rqs_insert.
  assert (E : ∀ q, rqs (<[NZombieWq p := []]> (retired p a zs L)) q = filter (λ x, x ≠ NReady a) (rqs L q)).
  { intros q0. rewrite rqs_insert_other by done. unfold retired. rewrite rqs_insert_other by done. apply unlinked_rqs. }
  case_decide as Hq; subst; [rewrite decide_True by done; by rewrite E|rewrite decide_False by congruence].
  rewrite !unlinked_rqs, E, app_nil_r.
  assert (Hno : ∀ n, (if n is NReady _ then False else True) → n ∉ filter (λ x, x ≠ NReady a) (rqs L q)).
  { intros n Hn [_ Hin]%list_elem_of_filter. by destruct (rqs_elem _ _ _ _ _ HI Hin) as (? & ? & -> & _). }
  rewrite (filter_not_elem _ (NSleep p)) by by apply Hno. by rewrite filter_not_elem by by apply Hno.
Qed.

(** The parent is the next to run when nobody else is ready at its priority or
    above. *)
Lemma parent_is_next k L k' a p vp zs next vn :
  Inv None k L → (∀ q n, (q ≤ prio vp)%nat → n ∈ rqs L q → n = NReady a) →
  Top k' (parent_woken p vp (retired p a zs L)) next vn → need_resched k' = false → next = p.
Proof.
  intros HI Honly HT Hnr. set (L' := parent_woken p vp (retired p a zs L)) in *.
  assert (Hlow : ∀ q, (q ≤ prio vp)%nat → rqs L' q = if decide (q = prio vp) then [NReady p] else []).
  { intros q Hq. unfold L'. rewrite (exited_rqs k) by done.
    destruct (filter (λ x, x ≠ NReady a) (rqs L q)) as [|n l] eqn:E; [done|].
    assert (n ∈ filter (λ x, x ≠ NReady a) (rqs L q)) as [Hne Hn]%list_elem_of_filter by (rewrite E; left).
    by destruct Hne; apply (Honly q). }
  destruct HT as [_ _ _ _ Hhd _ _ [Hx|Hab]]; [congruence|].
  destruct (decide (prio vn ≤ prio vp)%nat) as [Hle|Hgt].
  - rewrite (Hlow _ Hle) in Hhd. case_decide; [by injection Hhd|done].
  - specialize (Hab (prio vp) ltac:(lia)). rewrite (Hlow (prio vp)), decide_True in Hab by lia. done.
Qed.


Definition fam_asking : list (nid * list nid) := [(NReadyQ 1%nat, [NReady 2; NReady 4224])].

