(* ===== verification/Trap.v ===== *)
(** * Traps and boot (arch/trap.c, kernel/init/init.c)

    The two entries of the supervisor trap, and what the kernel does before and
    after its first task.  The registers of the interrupted user program are
    words of the trap frame of the running task; the control and status
    registers that are only read are arguments. *)

From S2P Require Import Prelude Clist Sched Sync Pages Vpages Tinyalloc Mmio FsState Inode Fs File Kenv Mmap Task StringLib Doprnt Devices Syscall.

Definition XCAUSE_IRQ_BIT : Z := 2 ^ 63.
Definition S_IRQ_TMR : Z := 5.
Definition S_IRQ_EXT : Z := 9.
Definition ECALL_UMODE : Z := 8.
Definition INSTRUCTION_PAGE_FAULT : Z := 12.
Definition LOAD_PAGE_FAULT : Z := 13.
Definition STORE_PAGE_FAULT : Z := 15.

(** The fault messages end in a new line. *)
Definition newline_of (s : list Z) : list Z := s ++ [10].

Definition panic_print (cause pc tval : Z) : M kern unit :=
  if has cause XCAUSE_IRQ_BIT then
    let cause := Z.land cause XCAUSE_IRQ_BIT in
    kprintf (newline_of (codes "[PANIC/IRQ]: cause=%ld epc=0x%lx tval=0x%lx")) [VNum cause; VNum pc; VNum tval]
  else kprintf (newline_of (codes "[PANIC/EXCEPTION]: cause=%ld epc=0x%lx tval=0x%lx")) [VNum cause; VNum pc; VNum tval].
Definition machine_trap_panic (mcause mepc mtval : Z) : M kern unit :=
  kprintf (newline_of (codes "[PANIC]: FROM MACHINE ")) [];;
  panic_print mcause mepc mtval;;
  panic "unhandled machine trap".
Definition kernel_trap_panic (scause sepc stval : Z) : M kern unit :=
  kprintf (newline_of (codes "[PANIC]: FROM KERNEL ")) [];;
  panic_print scause sepc stval;;
  panic "unhandled kernel trap".

(** [fuel]: the entries of the block device's queue that are handled. *)
Definition handler_async_irq (fuel : nat) (irq_cause : Z) : M kern unit :=
  if irq_cause =? S_IRQ_EXT then in_kern (plic_handle_irq fuel)
  else if irq_cause =? S_IRQ_TMR then on_k time_irq_handler
  else mret tt.

(** The value given back to [sepc]. *)
Definition kerneltrap (fuel : nat) (scause sepc stval : Z) : M kern Z :=
  saved ← on_k (gets sie);
  (if has scause XCAUSE_IRQ_BIT then handler_async_irq fuel (Z.ldiff scause XCAUSE_IRQ_BIT)
   else kernel_trap_panic scause sepc stval);;
  on_k (modify (with_sie saved));;
  mret sepc.

Section Trap.
Context (junk : list Z) (trampoline_start trampoline_end sstatus : Z).
(** The address of [trap_return] in the trampoline. *)
Context (trap_return : Z).

(** Where user code resumes: the code of the trampoline, with its two
    arguments. *)
Definition trap_return_va : Z := TRAMPOLINE + (trap_return - trampoline_start).
Definition trap_return_to_user : M kern (Z * Z * Z) :=
  p ← current_task;
  v ← get_task_ p;
  satp ← on_p (load64 (tframe_pa v + TF_SATP));
  mret (trap_return_va, satp, tframe_va v).

Definition segfault (stval sepc scause : Z) (p : tid) : M kern unit :=
  v ← get_task_ p;
  kprintf (newline_of (codes "[Kernel]: SEGFAULT - va 0x%lx, epc 0x%lx, cause %ld (pid %d)"))
    [VNum stval; VNum sepc; VNum scause; VNum (pid v)];;
  scheduler_exit (-1).

(** [lhs_first]: the order of evaluation the compiler takes for the assignment
    of the result, either the trap frame or the call first.  [a0] is that of
    [syscall_dispatch]. *)
Definition usertrap (lhs_first : bool) (fuel : nat) (a0 stval : Z) : M kern (Z * Z * Z) :=
  p ← current_task;
  v ← get_task_ p;
  let t := tframe_pa v in
  scause ← on_p (load64 (t + TF_SCAUSE));
  (if has scause XCAUSE_IRQ_BIT then handler_async_irq fuel (Z.ldiff scause XCAUSE_IRQ_BIT)
   else if scause =? ECALL_UMODE then
     sepc ← on_p (load64 (t + TF_SEPC));
     on_p (store64 (t + TF_SEPC) (u64 (sepc + 4)));;
     n ← on_p (load64 (t + TF_A + 8 * 7));
     a ← on_p (load64 (t + TF_A));
     b ← on_p (load64 (t + TF_A + 8 * 1));
     c ← on_p (load64 (t + TF_A + 8 * 2));
     d ← on_p (load64 (t + TF_A + 8 * 3));
     r ← syscall_dispatch junk trampoline_start trampoline_end sstatus dev_read dev_write fuel a0 n a b c d;
     v' ← get_task_ p;
     on_p (store64 ((if lhs_first then t else tframe_pa v') + TF_A) (u64 r))
   else
     sepc ← on_p (load64 (t + TF_SEPC));
     if scause =? STORE_PAGE_FAULT then
       r ← on_p (vpage_handle_cow (root_ptable v) stval);
       if r =? 0 then mret tt else segfault stval sepc scause p
     else if (scause =? LOAD_PAGE_FAULT) || (scause =? INSTRUCTION_PAGE_FAULT) then segfault stval sepc scause p
     else kernel_trap_panic scause sepc stval);;
  trap_return_to_user.

(** ** init.c *)

Context (kheap_start kheap_end : Z).
Definition TA_HEAP_BLOCK : Z := 256.
Definition TA_BLOCK_SPLIT : Z := 256.
Definition TA_ALIGNMENT : Z := 8.
(** The addresses of the bodies of the kernel threads. *)
Context (clock_daemon tick_daemon fill_rx_buff_daemon init_code task_idle : Z).

Definition init : M kern unit :=
  res ← on_sys fs_init;
  if res <? 0 then panic "[FAILURE] File system init has failed" else
  t ← current_task;
  res ← task_map_console junk t;
  if res <? 0 then panic "[FAILURE] Console map has failed" else
  user_elf ← on_sys (file_open junk (codes "/user.elf") O_R);
  match user_elf with
  | ERR_PTR _ => panic "[FAILURE] User Init elf image not mounted in the fs"
  | PTR user_elf =>
    p ← task_start_userland junk trampoline_start trampoline_end sstatus dev_read user_elf (codes "User") NORMAL;
    (match p with
     | ERR_PTR e => kprintf (newline_of (codes "[FAILURE]: failed to enter userland (%ld)")) [VNum e]
     | PTR _ => mret tt
     end);;
    on_sys (file_put user_elf)
  end.

(** Up to the loop of the idle task. *)
Definition kernel_start (fuel : nat) : M kern unit :=
  res ← mmap_kernel trampoline_start trampoline_end;
  if res <? 0 then panic "[FAILURE] Kernel map has failed" else
  res ← console_init;
  if (res <? 0) && negb (res =? - ENODEV) then panic "[FAILURE] Console init map has failed" else
  res ← virtio_blk_init fuel;
  if (res <? 0) && negb (res =? - ENODEV) then panic "[FAILURE] Virtio blk driver init has failed" else
  on_heap (ta_init kheap_start kheap_end TA_HEAP_BLOCK TA_BLOCK_SPLIT TA_ALIGNMENT);;
  kprintf (newline_of (codes "[INFO] Tiny alloc initialized ")) [];;
  kprintf (newline_of (codes "[INFO] init task ")) [];;
  task_init task_idle;;
  (* The result tested is that of [virtio_blk_init]. *)
  if res <? 0 then panic "[FAILURE] Init task has failed" else
  kprintf (newline_of (codes "[INFO] S irq enabled")) [];;
  on_k (modify (with_sie true));;
  kprintf (newline_of (codes "[INFO] external irq enabled")) [];;
  in_kern plic_init;;
  res ← time_spawn_daemons clock_daemon tick_daemon;
  if res <? 0 then panic "[FAILURE] Time daemon spawn has failed" else
  res ← uart_spawn_daemons fill_rx_buff_daemon;
  if res <? 0 then panic "[FAILURE] Uart daemon spawn has failed" else
  p ← task_kthread init_code (codes "init") NORMAL;
  match p with
  | ERR_PTR _ => kprintf (newline_of (codes "[FAILURE]: failed to spawn init kthread ")) []
  | PTR _ => mret tt
  end.

(** In machine mode: the switch to supervisor mode itself and the control
    registers are not part of the state. *)
Definition start_machine (page_start : Z) : M kern unit :=
  on_p (page_init page_start);; in_kern uart_init;; on_k time_init.
End Trap.
