(* ===== verification/User.v ===== *)
(** * User programs (user/)

    The shell, its parser and its commands.  A program is an interaction tree
    whose events are the system calls; it owns a memory of bytes, with the
    static variable of [strtok], which a fork copies.  What a call answers is
    left to the kernel, so that a theorem about a program says what it needs of
    the calls.  A call that copies strings or bytes from the memory carries
    them; a call that fills a buffer answers with the bytes. *)

From ITree Require Import ITree.
From S2P Require Import Prelude Str StringLib Fs File Task Doprnt.

(** ** The system calls (lib/syscall.c) *)

(** Variables that several threads share are read and written by the last two
    events, since another thread may have written them in between. *)
Inductive callE : Type → Type :=
| ERead (fd count : Z) : callE (Z * list Z)
| EWrite (fd : Z) (bs : list Z) : callE Z
| EOpen (path : list Z) (flags : Z) : callE Z
| EClose (fd : Z) : callE Z
| ESeek (fd offset whence : Z) : callE Z
| EFork : callE Z
| EClone (entry args stack flags : Z) : callE Z
| EExec (path : list Z) (argv : option (list (list Z))) : callE Z
| EWaitpid (pid : Z) : callE Z
| ESleep (sec : Z) : callE unit
| EExit (code : Z) : callE Empty_set
| EExitGroup (code : Z) : callE Empty_set
| EFault : callE Empty_set
| ELoad (a : Z) : callE Z
| EStore (a v : Z) : callE unit.

(** ** Programs *)

Definition uprog (A : Type) : Type := cmem → itree callE (A * cmem).
#[export] Instance uprog_ret : MRet uprog := λ A a m, Ret (a, m).
#[export] Instance uprog_bind : MBind uprog := λ A B k p m, ITree.bind (p m) (λ r, k r.1 r.2).

Definition call {T : Type} (e : callE T) : uprog T := λ m, Vis e (λ x, Ret (x, m)).
Definition ends {A : Type} (e : callE Empty_set) : uprog A := λ m, Vis e (λ x : Empty_set, match x with end).
(** An operation on the memory; one that faults ends the program. *)
Definition lift {A : Type} (f : M cmem A) : uprog A := λ m,
  match f m with Done a m' => Ret (a, m') | _ => ends EFault m end.
(** A loop: the body asks for another turn or ends the loop. *)
Definition uiter {I R : Type} (body : I → uprog (I + R)) (i : I) : uprog R := λ m,
  ITree.iter (λ s : I * cmem, ITree.bind (body s.1 s.2) (λ r,
    Ret (match r.1 with inl i => inl (i, r.2) | inr x => inr (x, r.2) end))) (i, m).

Definition exit {A : Type} (code : Z) : uprog A := ends (EExit code).
Definition exit_group {A : Type} (code : Z) : uprog A := ends (EExitGroup code).
Definition sleep (sec : Z) : uprog unit := call (ESleep sec).
Definition waitpid (p : Z) : uprog Z := r ← call (EWaitpid (s8 p)); mret (s8 r).
Definition fork : uprog Z := r ← call EFork; mret (s8 r).

(** The string at an address, which [exec] hands to the kernel. *)
Fixpoint cstr_loop (fuel : nat) (a : Z) : M cmem (list Z) :=
  match fuel with
  | O => nofuel
  | S fuel => c ← ld a; if c =? 0 then mret [] else l ← cstr_loop fuel (a + 1); mret (c :: l)
  end.
Definition cstr_at (a : Z) : M cmem (list Z) := fuel ← scan; cstr_loop fuel a.
(** The strings of a vector, up to the null pointer. *)
Fixpoint argv_strings (argv : list Z) : M cmem (list (list Z)) :=
  match argv with
  | [] => fault
  | p :: argv => if p =? 0 then mret [] else s ← cstr_at p; l ← argv_strings argv; mret (s :: l)
  end.
Definition exec (path : list Z) (argv : list Z) : uprog Z := l ← lift (argv_strings argv); call (EExec path (Some l)).

(** ** Output (src/console.c) *)

Fixpoint console_putbytes (s : list Z) : uprog unit :=
  match s with
  | [] => mret tt
  | c :: s => written ← call (EWrite (Z.of_nat STDOUT) [c]); if negb (written =? 1) then exit 1 else console_putbytes s
  end.

(** The formatter sends its text in pieces, one after the other. *)
Definition printf (fmt : list Z) (args : list varg) : uprog unit :=
  match Doprnt.printf fmt args (Pstate ∅ 0 []) with
  | Done _ p => console_putbytes (p_console p)
  | _ => ends EFault
  end.

(** ** Lines (src/parser.c) *)

Section User.
(** The addresses of the string literals, and what a local variable holds
    before it is set. *)
Context (lit : list Z → Z) (junk : Z).

Definition getc : uprog Z := r ← call (ERead (Z.of_nat STDIN) 1); mret (default junk (head r.2)).

Definition scan_body (line max_size i : Z) : uprog (Z + Z) :=
  c ← getc;
  if (c =? 10) || (c =? 13) then printf [13; 10] [];; mret (inr i)
  else if (c =? 8) || (c =? 127) then
    (if 0 <? i then printf [8; 32; 8] [];; mret (inl (i - 1)) else mret (inl i))
  else if i <? max_size - 1 then
    lift (st (line + i) c);; printf (codes "%c") [VNum c];; mret (inl (i + 1))
  else mret (inl i).
Definition parser_scan_line (line max_size : Z) : uprog Z :=
  if max_size =? 0 then mret (- EINVAL) else
  i ← uiter (scan_body line max_size) 0;
  lift (st (line + i) 0);;
  mret i.

(** A store in the vector of arguments. *)
Definition set_arg (argv : list Z) (i : nat) (p : Z) : M cmem (list Z) :=
  if decide (i < length argv)%nat then mret (<[i := p]> argv) else fault.

Fixpoint parse_loop (n : nat) (token : Z) (argc : nat) (argv : list Z) : M cmem (nat * list Z) :=
  match n with
  | O => mret (argc, argv)
  | S n =>
    if token =? 0 then mret (argc, argv) else
    argv ← set_arg argv argc token;
    token ← c_strtok 0 (lit (codes " "));
    parse_loop n token (S argc) argv
  end.
Definition parse_line (line : Z) (argv : list Z) (max_args : Z) : M cmem (nat * list Z) :=
  token ← c_strtok line (lit (codes " "));
  r ← parse_loop (Z.to_nat (max_args - 1)) token 0 argv;
  argv ← set_arg r.2 r.1 0;
  mret (r.1, argv).

Definition get_arg (argv : list Z) (i : nat) : M cmem Z := of_opt (argv !! i).
Definition parser_is_bg (argc : nat) (argv : list Z) : M cmem (bool * nat * list Z) :=
  match argc with
  | O => mret (false, argc, argv)
  | S n =>
    p ← get_arg argv n;
    d ← strcmp p (lit (codes "&"));
    if d =? 0 then argv ← set_arg argv n 0; mret (true, n, argv) else mret (false, argc, argv)
  end.

(** ** Commands (src/cmd_registry.c) *)

Inductive cmd_func :=
| cmd_help | cmd_segfault | cmd_stream | cmd_sleep_test | cmd_fork_test | cmd_exec_test
| cmd_exec_success | cmd_fork_exec_test | cmd_fs_io_test | cmd_fs_close_test | cmd_fs_seek_test | cmd_thread_test.
Record cmd := Cmd { c_f : cmd_func; c_name : list Z; c_desc : list Z; c_usage : list Z }.

Definition registry : list cmd :=
  [Cmd cmd_help (codes "help") (codes "Show all the commands") (codes "help");
   Cmd cmd_segfault (codes "segfault") (codes "Segfault handling") (codes "segfault");
   Cmd cmd_stream (codes "stream") (codes "Stream console input back with read/write") (codes "stream_test");
   Cmd cmd_sleep_test (codes "sleep_test") (codes "Sleep user system call test") (codes "sleep_call");
   Cmd cmd_fork_test (codes "fork_test") (codes "Test the page table copy with CoW") (codes "fork_test");
   Cmd cmd_exec_test (codes "exec_test") (codes "Exec the sleep_call app") (codes "exec_test");
   Cmd cmd_exec_success (codes "exec_success") (codes "Exec image load by an exec test") (codes "(standalone exec has no sense)");
   Cmd cmd_fork_exec_test (codes "fork_exec_test") (codes "Fork then exec in the child") (codes "fork_exec_test");
   Cmd cmd_fs_io_test (codes "fs_io_test") (codes "Read write roundtrip") (codes "fs_io_test");
   Cmd cmd_fs_close_test (codes "fs_close_test") (codes "Test close behavior on a fd") (codes "fs_close_test");
   Cmd cmd_fs_seek_test (codes "fs_seek_test") (codes "Test the seek syscall on a fd") (codes "fs_seek_test");
   Cmd cmd_thread_test (codes "thread_test") (codes "Test the thread api") (codes "thread_test")].

Fixpoint find_loop (l : list cmd) (name : Z) : M cmem (option cmd_func) :=
  match l with
  | [] => mret None
  | current :: l =>
    d ← strcmp name (lit (c_name current));
    if d =? 0 then mret (Some (c_f current)) else find_loop l name
  end.
Definition cmd_find (name : Z) : M cmem (option cmd_func) := find_loop registry name.

(** ** The shell (src/shell.c) *)

Definition MAX_DISPLAY_COLS : Z := 1024 / 8.

(** What runs in the task that [fork] returns to. *)
Definition sh_run (bg : bool) (argv : list Z) : uprog (unit + Z) :=
  p ← fork;
  if p <? 0 then printf (codes "Shell: Failed to fork " ++ [10]) [];; exit_group 1
  else if p =? 0 then
    res ← exec (codes "/user.elf") argv;
    if res <? 0 then printf (codes "Shell: Failed to exec " ++ [10]) [];; exit_group 1 else mret (inl tt)
  else if bg then mret (inl tt)
  else res ← waitpid p; if res <? 0 then exit_group 1 else mret (inl tt).

(** The command of a line. *)
Definition sh_command (bg : bool) (argc : nat) (argv : list Z) : uprog (unit + Z) :=
  if decide (argc = 0%nat) then printf (codes "Please enter a command." ++ [10]) [];; mret (inl tt) else
  name ← lift (get_arg argv 0);
  f ← lift (cmd_find name);
  match f with
  | None => printf (codes "Command not found, Please refer to help." ++ [10]) [];; mret (inl tt)
  | Some _ => sh_run bg argv
  end.

(** One turn of the loop; [line] is the address of the buffer. *)
Definition sh_turn (line : Z) (_ : unit) : uprog (unit + Z) :=
  printf (codes "(shell) ") [];;
  n ← parser_scan_line line MAX_DISPLAY_COLS;
  if n =? 0 then mret (inl tt) else
  r ← lift (parse_line line (replicate (Z.to_nat EXEC_MAX_ARGS) junk) EXEC_MAX_ARGS);
  b ← lift (parser_is_bg r.1 r.2);
  let '(bg, argc, argv) := b in sh_command bg argc argv.
Definition sh (line : Z) : uprog Z := uiter (sh_turn line) tt.

(** ** Threads (lib/thread.c) *)

(** The address of [thread_entry]. *)
Context (thread_entry_at : Z).

Definition thread_entry (fn : Z → uprog unit) (args : Z) : uprog unit := fn args;; exit 0.
Definition thread_create (wrap stack : Z) : uprog Z :=
  r ← call (EClone thread_entry_at wrap stack CLONE_VM); mret (u8 (s8 r)).
Definition thread_join (t : Z) : uprog Z := waitpid t.

(** ** The macros of the tests (include/test.h) *)

(** [file]: what __FILE__ stands for in a file. *)
Context (file : list Z → list Z).

Definition TEST_SUCCESS (func : list Z) : uprog unit :=
  printf (codes "[TEST] %s SUCCESS " ++ [10]) [VStr (Some func)].
Definition TEST_ERROR (func fname : list Z) (lineno : Z) (fmt : list Z) (args : list varg) : uprog unit :=
  printf (codes "[TEST] %s ERROR %s:%d: ") [VStr (Some func); VStr (Some (file fname)); VNum lineno];;
  printf fmt args;;
  printf [10] [];;
  exit_group 1.
Definition TEST_ASSERT_EQ (func fname : list Z) (lineno : Z) (what : list Z) (expected actual : Z) : uprog unit :=
  if negb (expected =? actual) then
    TEST_ERROR func fname lineno (codes "%s: expected %ld, got %ld") [VStr (Some what); VNum (u64 expected); VNum (u64 actual)]
  else mret tt.
Definition TEST_ASSERT_EQ_STR (func fname : list Z) (lineno : Z) (what : list Z) (expected actual : Z) : uprog unit :=
  d ← lift (strcmp expected actual);
  if negb (d =? 0) then
    e ← lift (cstr_at expected); a ← lift (cstr_at actual);
    TEST_ERROR func fname lineno (codes "%s: expected %s, got %s") [VStr (Some what); VStr (Some e); VStr (Some a)]
  else mret tt.

(** ** The commands *)

(** A buffer that a call fills. *)
Fixpoint store_bytes (a : Z) (bs : list Z) : M cmem unit :=
  match bs with [] => mret tt | b :: bs => st a b;; store_bytes (a + 1) bs end.
Definition arg_string (argv : list Z) (i : nat) : M cmem (option (list Z)) :=
  p ← get_arg argv i; if p =? 0 then mret None else s ← cstr_at p; mret (Some s).

Fixpoint help_loop (l : list cmd) : uprog unit :=
  match l with
  | [] => mret tt
  | current :: l =>
    printf (codes "- %s: %s " ++ [13; 10] ++ codes "  Usage: %s" ++ [13; 10])
      [VStr (Some (c_name current)); VStr (Some (c_desc current)); VStr (Some (c_usage current))];;
    help_loop l
  end.
Definition help (argv : list Z) : uprog unit :=
  s ← lift (arg_string argv 0); printf (codes "%s") [VStr s];; help_loop registry.

(** src/basics.c: [ubuf] is the byte of the buffer. *)
Definition stream_body (ubuf : Z) : uprog (Z + unit) :=
  let err := TEST_ERROR (codes "cmd_stream") (codes "basics.c") in
  r ← call (ERead 1 1);
  let ubuf := default ubuf (head r.2) in
  (if s8 r.1 <? 0 then err 20 (codes "read failed: %d") [VNum (u64 (s8 r.1))] else mret tt);;
  w ← call (EWrite 1 [ubuf]);
  (if s8 w <? 0 then err 25 (codes "write failed: %d") [VNum (u64 (s8 w))] else mret tt);;
  mret (inl ubuf).
Definition stream : uprog unit := uiter stream_body junk.

(** tests/proc.c *)
Definition sleep_test : uprog unit := sleep 2;; TEST_SUCCESS (codes "cmd_sleep_test").

Definition fork_test (marker : Z) : uprog unit :=
  let f := codes "cmd_fork_test" in
  let check line want := v ← lift (ld marker); TEST_ASSERT_EQ f (codes "proc.c") line (codes "marker") want (s8 v) in
  lift (st marker 0);;
  res ← fork;
  (if res <? 0 then TEST_ERROR f (codes "proc.c") 35 (codes "fork failed: %d") [VNum (u64 res)] else mret tt);;
  (if res =? 0 then lift (st marker 1);; check 42 1;; exit 0 else mret tt);;
  waitpid res;;
  check 49 0;;
  lift (st marker 2);;
  check 53 2;;
  TEST_SUCCESS f.

Definition test_strings : list (list Z) :=
  [codes "exec_success"; codes "test"; codes "is"; codes "a"; codes "success"].
Definition TEST_ARGC : Z := 5.
Definition TEST_ARGV : list Z := (lit <$> test_strings) ++ [0; 0].

Fixpoint exec_success_loop (n i : nat) (argv : list Z) : uprog unit :=
  match n with
  | O => mret tt
  | S n =>
    a ← lift (get_arg TEST_ARGV i); b ← lift (get_arg argv i);
    TEST_ASSERT_EQ_STR (codes "cmd_exec_success") (codes "proc.c") 73 (codes "argv[i]") a b;;
    exec_success_loop n (S i) argv
  end.
Definition exec_success (argc : Z) (argv : list Z) : uprog unit :=
  TEST_ASSERT_EQ (codes "cmd_exec_success") (codes "proc.c") 71 (codes "argc") TEST_ARGC argc;;
  exec_success_loop (Z.to_nat argc) 0 argv;;
  TEST_SUCCESS (codes "cmd_exec_success").

Definition fork_exec_test : uprog unit :=
  let err := TEST_ERROR (codes "cmd_fork_exec_test") (codes "proc.c") in
  p ← fork;
  (if p <? 0 then err 85 (codes "fork failed: %d") [VNum (u64 p)] else mret tt);;
  if p =? 0 then
    r ← exec (codes "/user.elf") TEST_ARGV;
    if s8 r <? 0 then err 91 (codes "exec failed: %d") [VNum (u64 (s8 r))] else mret tt
  else waitpid p;; mret tt.

Definition exec_test : uprog unit :=
  let f := codes "cmd_exec_test" in
  r ← exec (codes "/user.elf") TEST_ARGV;
  (if s8 r <? 0 then TEST_ERROR f (codes "proc.c") 105 (codes "exec failed: %d") [VNum (u64 (s8 r))] else mret tt);;
  r ← call (EExec (codes "/nofile") None);
  TEST_ASSERT_EQ f (codes "proc.c") 108 (codes "-ENOENT") r (- ENOENT);;
  r ← call (EExec (codes "/dev/console") None);
  TEST_ASSERT_EQ f (codes "proc.c") 109 (codes "-ENOEXEC") r (- ENOEXEC).

Definition segfault : uprog unit :=
  res ← fork;
  (if res <? 0 then TEST_ERROR (codes "cmd_segfault") (codes "proc.c") 119 (codes "fork failed: %d") [VNum (u64 res)] else mret tt);;
  if res =? 0 then ends EFault else waitpid res;; sleep 2.

(** tests/fs.c: [readed] and [sink] are the addresses of the buffers. *)
Definition FS_TEST_FILE : list Z := codes "/path/to/test".
Definition open_test_file (func : list Z) (lineno : Z) : uprog Z :=
  fd ← call (EOpen FS_TEST_FILE (Z.lor (Z.lor O_CREAT O_W) O_R));
  (if fd <? 0 then TEST_ERROR func (codes "fs.c") lineno (codes "open failed: %d") [VNum (u64 fd)] else mret tt);;
  mret fd.

Definition fs_io_test (readed : Z) : uprog unit :=
  let f := codes "cmd_fs_io_test" in
  let writen := codes "test" ++ [10] in
  let size := 6 in
  fd ← open_test_file f 26;
  w ← call (EWrite fd (writen ++ [0]));
  TEST_ASSERT_EQ f (codes "fs.c") 29 (codes "write(fd, writen, sizeof(writen))") size w;;
  o ← call (ESeek fd 0 SEEK_SET);
  TEST_ASSERT_EQ f (codes "fs.c") 31 (codes "seek(fd, 0, SEEK_SET)") 0 o;;
  r ← call (ERead fd size);
  lift (store_bytes readed r.2);;
  TEST_ASSERT_EQ f (codes "fs.c") 32 (codes "read(fd, readed, sizeof(readed))") size r.1;;
  TEST_ASSERT_EQ_STR f (codes "fs.c") 33 (codes "readed") (lit writen) readed;;
  TEST_SUCCESS f;;
  call (EClose fd);;
  mret tt.

Definition fs_close_test (sink : Z) : uprog unit :=
  let f := codes "cmd_fs_close_test" in
  res ← call (EClose 10);
  (if s8 res =? 0 then TEST_ERROR f (codes "fs.c") 48 (codes "close on unopened fd succeeded") [] else mret tt);;
  res ← call (EClose (Z.of_nat STDIN));
  TEST_ASSERT_EQ f (codes "fs.c") 51 (codes "close(STDIN)") 0 res;;
  r ← call (ERead (Z.of_nat STDIN) 10);
  lift (store_bytes sink r.2);;
  (if s8 r.1 =? 0 then TEST_ERROR f (codes "fs.c") 55 (codes "read on closed stdin returned 0") [] else mret tt);;
  TEST_SUCCESS f.

Definition fs_seek_test : uprog unit :=
  let f := codes "cmd_fs_seek_test" in
  let check fd line what want offset whence :=
    o ← call (ESeek fd offset whence); TEST_ASSERT_EQ f (codes "fs.c") line (codes what) want o in
  fd ← open_test_file f 68;
  check fd 71 "seek(fd, -10, SEEK_SET)"%string (- EINVAL) (-10) SEEK_SET;;
  check fd 72 "seek(fd, 10, SEEK_SET)"%string 10 10 SEEK_SET;;
  check fd 73 "seek(fd, -10, SEEK_CUR)"%string 0 (-10) SEEK_CUR;;
  check fd 74 "seek(fd, -10, SEEK_CUR)"%string (- EINVAL) (-10) SEEK_CUR;;
  off ← call (ESeek fd 10 SEEK_END);
  (if off <? 0 then TEST_ERROR f (codes "fs.c") 78 (codes "seek 10 END failed: %ld") [VNum (u64 off)] else mret tt);;
  TEST_SUCCESS f.

(** tests/thread.c: [i], [entry] and [stack] are the addresses of the variables. *)
Definition thread (args : Z) : uprog unit := v ← call (ELoad args); call (EStore args (s32 (v + 1))).
Definition thread_test (i entry stack : Z) : uprog unit :=
  call (EStore i 0);;
  t ← thread_create entry (stack + 1024);
  (if s8 t <? 0 then exit_group 1 else mret tt);;
  thread_join (s8 t);;
  v ← call (ELoad i);
  TEST_ASSERT_EQ (codes "cmd_thread_test") (codes "thread.c") 34 (codes "i") 1 v;;
  TEST_SUCCESS (codes "cmd_thread_test").

(** ** The program (src/main.c) *)

(** The variables of [cmd_thread_test]; [stack]: the variable or the buffer of
    another command. *)
Context (thread_i thread_wrap thread_stack : Z).
Definition run_cmd (f : cmd_func) (stack argc : Z) (argv : list Z) : uprog unit :=
  match f with
  | cmd_help => help argv
  | cmd_segfault => segfault
  | cmd_stream => stream
  | cmd_sleep_test => sleep_test
  | cmd_fork_test => fork_test stack
  | cmd_exec_test => exec_test
  | cmd_exec_success => exec_success argc argv
  | cmd_fork_exec_test => fork_exec_test
  | cmd_fs_io_test => fs_io_test stack
  | cmd_fs_close_test => fs_close_test stack
  | cmd_fs_seek_test => fs_seek_test
  | cmd_thread_test => thread_test thread_i thread_wrap thread_stack
  end.

Definition main (stack argc : Z) (argv : list Z) : uprog Z :=
  if argc =? 0 then sh stack;; mret 0 else
  p ← lift (get_arg argv 0);
  f ← lift (cmd_find p);
  match f with
  | None => mret (- ENOENT)
  | Some f => run_cmd f stack argc argv;; mret 0
  end.
End User.
