(* ===== verification/UserThm.v ===== *)
(** * The shell, theorems

    What a user program does against a kernel that answers its calls: the line
    editor, the words of a line, the commands, and a turn of the shell. *)

From ITree Require Import ITree ITreeFacts Props.Leaf.
From S2P Require Import Prelude Str StringLib StringThm StrtokThm Fs File Task Doprnt DoprntThm User.

(** ** Runs *)

(** What a kernel in a state answers to a call, and its state then; a call that
    does not return has no answer. *)
Class Kernel (W : Type) := handle : ∀ T : Type, callE T → W → option (T * W).
Arguments handle {W _ T} _ _.

Section Runs.
Context {W : Type} `{Kernel W}.

(** The program comes to [t'] in the state [w'] of the kernel. *)
Inductive Steps {A : Type} : itree callE A → W → itree callE A → W → Prop :=
| steps_here t t' w : observe t = observe t' → Steps t w t' w
| steps_tau t u t' w w' : observe t = TauF u → Steps u w t' w' → Steps t w t' w'
| steps_vis t T (e : callE T) k x t' w w1 w' :
    observe t = VisF e k → handle e w = Some (x, w1) → Steps (k x) w1 t' w' → Steps t w t' w'.

Lemma steps_trans {A} (t1 t2 t3 : itree callE A) w1 w2 w3 : Steps t1 w1 t2 w2 → Steps t2 w2 t3 w3 → Steps t1 w1 t3 w3.
Proof.
  induction 1 as [t t' w E|t u t' w w' E H1 IH|t T e k x t' w w1 w' E Hh H1 IH]; intros Hs.
  - destruct Hs as [t' t'' w E'|t' u t'' w w' E' Hs|t' T e k x t'' w w1 w' E' Hh Hs].
    + apply steps_here. congruence.
    + eapply steps_tau; [|done]. congruence.
    + eapply steps_vis; [|done|done]. congruence.
  - eapply steps_tau; eauto.
  - eapply steps_vis; eauto.
Qed.

(** The steps of the first part of a sequence. *)
Lemma steps_bind {A B} (t t' : itree callE A) (k : A → itree callE B) w w' :
  Steps t w t' w' → Steps (ITree.bind t k) w (ITree.bind t' k) w'.
Proof.
  induction 1 as [t t' w E|t u t' w w' E H1 IH|t T e h x t' w w1 w' E Hh H1 IH].
  - apply steps_here. by rewrite !observe_bind, E.
  - eapply steps_tau; [|exact IH]. rewrite observe_bind, E. reflexivity.
  - eapply (steps_vis _ _ _ (λ x, ITree.bind (h x) k)); [|exact Hh|exact IH]. rewrite observe_bind, E. reflexivity.
Qed.

(** A program of the user returns [a]. *)
Definition URuns {A} (p : uprog A) (m : cmem) (w : W) (a : A) (m' : cmem) (w' : W) : Prop :=
  Steps (p m) w (Ret (a, m')) w'.

Lemma uruns_ret {A} (a : A) m w : URuns (mret a) m w a m w.
Proof. by apply steps_here. Qed.
Lemma uruns_lift {A} (f : M cmem A) a m m' w : f m = Done a m' → URuns (lift f) m w a m' w.
Proof. intros E. unfold URuns, lift. rewrite E. by apply steps_here. Qed.
Lemma uruns_call {T} (e : callE T) x m w w' : handle e w = Some (x, w') → URuns (call e) m w x m w'.
Proof. intros E. eapply steps_vis; [reflexivity|exact E|]. by apply steps_here. Qed.

(** A program that runs is followed by what comes next. *)
Lemma uruns_steps {A B} (p : uprog A) (k : A → uprog B) a m m1 w w1 t w' :
  URuns p m w a m1 w1 → Steps (k a m1) w1 t w' → Steps ((p ≫= k) m) w t w'.
Proof.
  intros H1 H2. eapply steps_trans; [exact (steps_bind (p m) (Ret (a, m1)) (λ r, k r.1 r.2) w w1 H1)|].
  eapply steps_trans; [|exact H2]. apply steps_here. rewrite observe_bind. reflexivity.
Qed.
Lemma uruns_bind {A B} (p : uprog A) (k : A → uprog B) a b m m1 m2 w w1 w2 :
  URuns p m w a m1 w1 → URuns (k a) m1 w1 b m2 w2 → URuns (p ≫= k) m w b m2 w2.
Proof. apply uruns_steps. Qed.

(** A loop: a turn that goes on, and the last one. *)
Lemma uiter_steps {I R} (body : I → uprog (I + R)) i i' m m' w w' :
  URuns (body i) m w (inl i') m' w' → Steps (uiter body i m) w (uiter body i' m') w'.
Proof.
  intros Hb. unfold uiter. set (step := λ s : I * cmem, _).
  set (h := λ lr, match lr with inl l => Tau (ITree.iter step l) | inr r => Ret r end).
  eapply steps_trans; [apply (steps_here _ (ITree.bind (step (i, m)) h)); reflexivity|].
  eapply steps_trans; [by eapply steps_bind, steps_bind|].
  apply (steps_tau _ (ITree.iter step (i', m'))); [reflexivity|by apply steps_here].
Qed.
Lemma uiter_last {I R} (body : I → uprog (I + R)) i r m m' w w' :
  URuns (body i) m w (inr r) m' w' → URuns (uiter body i) m w r m' w'.
Proof.
  intros Hb. unfold URuns, uiter. set (step := λ s : I * cmem, _).
  set (h := λ lr, match lr with inl l => Tau (ITree.iter step l) | inr r => Ret r end).
  eapply steps_trans; [apply (steps_here _ (ITree.bind (step (i, m)) h)); reflexivity|].
  eapply steps_trans; [by eapply steps_bind, steps_bind|]. by apply steps_here.
Qed.

(** The program comes to a call. *)
Definition Comes {A T} (t : itree callE A) (w : W) (e : callE T) (w' : W) : Prop := ∃ k, Steps t w (Vis e k) w'.

Lemma comes_call {T} (e : callE T) m w : Comes (call e m) w e w.
Proof. eexists. by apply steps_here. Qed.
Lemma comes_ends {A} (e : callE Empty_set) m w : Comes (ends (A := A) e m) w e w.
Proof. eexists. by apply steps_here. Qed.
Lemma comes_bind {A B T} (p : uprog A) (k : A → uprog B) (e : callE T) m w w' :
  Comes (p m) w e w' → Comes ((p ≫= k) m) w e w'.
Proof.
  intros [h Hs]. eexists. eapply steps_trans; [by apply (steps_bind (p m) (Vis e h) (λ r, k r.1 r.2))|].
  apply steps_here. rewrite observe_bind. reflexivity.
Qed.
Lemma comes_after {A B T} (p : uprog A) (k : A → uprog B) (e : callE T) a m m1 w w1 w' :
  URuns p m w a m1 w1 → Comes (k a m1) w1 e w' → Comes ((p ≫= k) m) w e w'.
Proof. intros Hp [h Hs]. exists h. by eapply uruns_steps. Qed.
Lemma uiter_comes {I R T} (body : I → uprog (I + R)) (e : callE T) i m w w' :
  Comes (body i m) w e w' → Comes (uiter body i m) w e w'.
Proof.
  intros [k Hb]. unfold uiter. set (step := λ s : I * cmem, _).
  set (h := λ lr, match lr with inl l => Tau (ITree.iter step l) | inr r => Ret r end).
  eexists. eapply steps_trans; [apply (steps_here _ (ITree.bind (step (i, m)) h)); reflexivity|].
  eapply steps_trans; [by eapply steps_bind, steps_bind|]. apply steps_here. rewrite !observe_bind. reflexivity.
Qed.
End Runs.

(** ** The terminal *)

(** What the programs need of the calls that read and write the terminal: the
    characters typed are read in order, those written are shown. *)
Class Terminal (W : Type) `{Kernel W} := {
  tin : W → list Z;
  tout : W → list Z;
  tin_read w c l : tin w = c :: l →
    ∃ w', handle (ERead (Z.of_nat STDIN) 1) w = Some ((1, [c]), w') ∧ tin w' = l ∧ tout w' = tout w;
  tout_write w c :
    ∃ w', handle (EWrite (Z.of_nat STDOUT) [c]) w = Some (1, w') ∧ tin w' = tin w ∧ tout w' = tout w ++ [c];
}.

Definition byte (c : Z) : Prop := 0 ≤ c < 256.
(** Another memory that differs only in the [n] bytes from [a] on, and maps the same ones. *)
Definition only_at (a n : Z) (m m' : cmem) : Prop :=
  (∀ b, b < a ∨ a + n ≤ b → cells m' !! b = cells m !! b) ∧ (∀ b, is_Some (cells m !! b) → is_Some (cells m' !! b)).

Lemma only_at_refl a n m : only_at a n m m.
Proof. done. Qed.
Lemma only_at_trans a n m1 m2 m3 : only_at a n m1 m2 → only_at a n m2 m3 → only_at a n m1 m3.
Proof. intros [F1 D1] [F2 D2]. split; [|by auto]. intros b Hb. by rewrite F2, F1. Qed.

Section Terminal.
Context {W : Type} `{Terminal W}.

(** The program has written [s] and read nothing. *)
Definition Says (w : W) (s : list Z) (w' : W) : Prop := tin w' = tin w ∧ tout w' = tout w ++ s.

Lemma putbytes_run s m w : ∃ w', URuns (console_putbytes s) m w tt m w' ∧ Says w s w'.
Proof.
  revert w. induction s as [|c s IH]; intros w.
  - exists w. split; [apply uruns_ret|]. split; [done|by rewrite app_nil_r].
  - destruct (tout_write w c) as (w1 & Hh & Hi & Ho). destruct (IH w1) as (w' & Hr & Hi' & Ho').
    exists w'. split; [|split; [congruence|by rewrite Ho', Ho, <-app_assoc]].
    eapply uruns_bind; [by apply uruns_call|]. exact Hr.
Qed.

Lemma printf_says fmt args t m w :
  text fmt args 0 t → Forall byte t → ∃ w', URuns (printf fmt args) m w tt m w' ∧ Says w t w'.
Proof.
  intros Ht Hb. pose proof (printf_run fmt args t (Pstate ∅ 0 []) Ht Hb) as Hw.
  unfold printf. destruct (Doprnt.printf _ _ _) as [r p| | | |]; try done. destruct Hw as [_ ->]. apply putbytes_run.
Qed.

(** ** The line editor *)

Definition is_nl (c : Z) : bool := (c =? 10) || (c =? 13).
Definition is_bs (c : Z) : bool := (c =? 8) || (c =? 127).

(** The line after a character, and what the terminal shows for it. *)
Definition edit_step (max : Z) (l : list Z) (c : Z) : list Z :=
  if is_bs c then take (length l - 1) l
  else if Z.of_nat (length l) <? max - 1 then l ++ [c] else l.
Definition echo_step (max : Z) (l : list Z) (c : Z) : list Z :=
  if is_bs c then match l with [] => [] | _ => [8; 32; 8] end
  else if Z.of_nat (length l) <? max - 1 then [c] else [].
Definition edit (max : Z) (l cs : list Z) : list Z := foldl (edit_step max) l cs.
Fixpoint echo (max : Z) (l cs : list Z) : list Z :=
  match cs with [] => [] | c :: cs => echo_step max l c ++ echo max (edit_step max l c) cs end.

Lemma percent_c c : byte c → text (codes "%c") [VNum c] 0 [c].
Proof. intros Hc. rewrite <-(wrap_small 8 c) at 2 by (unfold byte in Hc; lia). reflexivity. Qed.

Lemma edit_short max l c : 0 < max → Z.of_nat (length l) < max → Z.of_nat (length (edit_step max l c)) < max.
Proof.
  intros Hm Hl. unfold edit_step. destruct (is_bs c); [rewrite length_take; lia|].
  destruct (Z.ltb_spec (Z.of_nat (length l)) (max - 1)); [rewrite length_app; simpl; lia|done].
Qed.

Lemma edit_Forall (P : Z → Prop) max l cs : Forall P cs → Forall P l → Forall P (edit max l cs).
Proof.
  intros Hcs. revert l. induction Hcs as [|c cs Hc _ IH]; intros l Hl; [done|]. apply IH. unfold edit_step.
  destruct (is_bs c); [by apply Forall_take|]. destruct (_ <? _); [|done]. apply Forall_app. by split; [|apply Forall_singleton].
Qed.

Section Scan.
Context (junk line max : Z) (Hmax : 0 < max).

(** One character that does not end the line. *)
Lemma scan_step_run c l m w rest :
  tin w = c :: rest → byte c → is_nl c = false → arr (cells m) line l → Z.of_nat (length l) < max → mapped (cells m) line max →
  ∃ m' w', URuns (scan_body junk line max (Z.of_nat (length l))) m w (inl (Z.of_nat (length (edit_step max l c)))) m' w' ∧
    arr (cells m') line (edit_step max l c) ∧ only_at line max m m' ∧ tok_holder m' = tok_holder m ∧
    tin w' = rest ∧ tout w' = tout w ++ echo_step max l c.
Proof.
  intros Hin Hc Hnl Ha Hl Hmp. destruct (tin_read w c rest Hin) as (w1 & Hh & Hi1 & Ho1).
  assert (Hg : URuns (getc junk) m w c m w1) by (eapply uruns_bind; [by apply uruns_call|apply uruns_ret]).
  unfold scan_body, edit_step, echo_step, is_nl, is_bs in *.
  destruct ((c =? 8) || (c =? 127)) eqn:Hbs.
  - destruct l as [|x l].
    + exists m, w1. split_and!; try done; [|by rewrite Ho1, app_nil_r].
      eapply uruns_bind; [exact Hg|]. rewrite Hnl, Hbs. apply uruns_ret.
    + destruct (printf_says [8; 32; 8] [] [8; 32; 8] m w1) as (w2 & Hp & Hi2 & Ho2);
        [reflexivity|unfold byte; repeat constructor; lia|].
      exists m, w2. split_and!; try done; [| |congruence|congruence].
      * eapply uruns_bind; [exact Hg|]. rewrite Hnl, Hbs. destruct (Z.ltb_spec 0 (Z.of_nat (length (x :: l)))); [|simpl in *; lia].
        eapply uruns_bind; [exact Hp|].
        assert (Z.of_nat (length (take (length (x :: l) - 1) (x :: l))) = Z.of_nat (length (x :: l)) - 1) as ->
          by (rewrite length_take; simpl; lia). apply uruns_ret.
      * rewrite <-(take_drop (length (x :: l) - 1) (x :: l)) in Ha. by apply arr_app in Ha as [Ha _].
  - destruct (Z.ltb_spec (Z.of_nat (length l)) (max - 1)) as [Hlt|Hge].
    + destruct (printf_says (codes "%c") [VNum c] [c] (Cmem (<[line + Z.of_nat (length l) := c]> (cells m)) (tok_holder m)) w1)
        as (w2 & Hp & Hi2 & Ho2); [by apply percent_c|by apply Forall_singleton|].
      exists (Cmem (<[line + Z.of_nat (length l) := c]> (cells m)) (tok_holder m)), w2. split_and!; try done; [| | |congruence|congruence].
      * eapply uruns_bind; [exact Hg|]. rewrite Hnl, Hbs. destruct (Z.ltb_spec (Z.of_nat (length l)) (max - 1)); [|lia].
        eapply uruns_bind; [apply uruns_lift; rewrite st_run by (apply Hmp; lia); by rewrite (wrap_small 8) by (unfold byte in Hc; lia)|].
        eapply uruns_bind; [exact Hp|]. rewrite length_app. simpl.
        replace (Z.of_nat (length l + 1)) with (Z.of_nat (length l) + 1) by lia. apply uruns_ret.
      * apply arr_app. split; [|apply arr_cons; split; [apply lookup_insert_eq|apply arr_nil]].
        apply (arr_ext (cells m)); [|done]. intros b Hb. simpl. by rewrite lookup_insert_ne by lia.
      * split; intros b Hb; simpl; [by rewrite lookup_insert_ne by lia|]. by apply lookup_insert_is_Some'; right.
    + exists m, w1. split_and!; try done; [|by rewrite Ho1, app_nil_r].
      eapply uruns_bind; [exact Hg|]. rewrite Hnl, Hbs. destruct (Z.ltb_spec (Z.of_nat (length l)) (max - 1)); [lia|]. apply uruns_ret.
Qed.

Lemma scan_loop_run cs nl rest : is_nl nl = true → Forall (λ c, byte c ∧ is_nl c = false) cs →
  ∀ l m w, tin w = cs ++ nl :: rest → arr (cells m) line l → Z.of_nat (length l) < max → mapped (cells m) line max →
  ∃ m' w', URuns (uiter (scan_body junk line max) (Z.of_nat (length l))) m w (Z.of_nat (length (edit max l cs))) m' w' ∧
    arr (cells m') line (edit max l cs) ∧ Z.of_nat (length (edit max l cs)) < max ∧ only_at line max m m' ∧
    tok_holder m' = tok_holder m ∧ tin w' = rest ∧ tout w' = tout w ++ echo max l cs ++ [13; 10].
Proof.
  intros Hnl. induction 1 as [|c cs [Hc Hn] _ IH]; intros l m w Hin Ha Hl Hmp.
  - destruct (tin_read w nl rest Hin) as (w1 & Hh & Hi1 & Ho1).
    destruct (printf_says [13; 10] [] [13; 10] m w1) as (w2 & Hp & Hi2 & Ho2); [reflexivity|unfold byte; repeat constructor; lia|].
    exists m, w2. split_and!; try done; [|congruence|by rewrite Ho2, Ho1].
    apply uiter_last. unfold scan_body. eapply uruns_bind; [eapply uruns_bind; [by apply uruns_call|apply uruns_ret]|].
    unfold is_nl in Hnl. simpl. rewrite Hnl. eapply uruns_bind; [exact Hp|apply uruns_ret].
  - destruct (scan_step_run c l m w (cs ++ nl :: rest)) as (m1 & w1 & Hr & Ha1 & Hf1 & Hk1 & Hi1 & Ho1); [done..|].
    destruct (IH (edit_step max l c) m1 w1) as (m2 & w2 & Hr2 & Ha2 & Hl2 & Hf2 & Hk2 & Hi2 & Ho2); try done.
    { by apply edit_short. }
    { intros b Hb. by apply Hf1, Hmp. }
    exists m2, w2. split_and!; try done; [|by eapply only_at_trans|congruence|].
    + eapply steps_trans; [by apply uiter_steps|exact Hr2].
    + rewrite Ho2, Ho1. simpl. by rewrite !app_assoc.
Qed.

(** The line that is typed up to a newline is in the buffer, with its
    terminator, as the characters that erase have left it. *)
Lemma scan_line_run cs nl rest m w :
  is_nl nl = true → Forall (λ c, byte c ∧ is_nl c = false) cs → Forall (λ c, c ≠ 0) cs → tin w = cs ++ nl :: rest →
  mapped (cells m) line max →
  ∃ m' w', URuns (parser_scan_line junk line max) m w (Z.of_nat (length (edit max [] cs))) m' w' ∧
    str (cells m') line (edit max [] cs) ∧ Z.of_nat (length (edit max [] cs)) < max ∧ only_at line max m m' ∧
    tin w' = rest ∧ tout w' = tout w ++ echo max [] cs ++ [13; 10].
Proof.
  intros Hnl Hcs Hz Hin Hmp. destruct (scan_loop_run cs nl rest Hnl Hcs [] m w) as (m1 & w1 & Hr & Ha & Hl & Hf & Hk & Hi & Ho);
    [done|apply arr_nil|done|done|].
  set (l := edit max [] cs) in *. set (e := line + Z.of_nat (length l)).
  exists (Cmem (<[e := 0]> (cells m1)) (tok_holder m1)), w1. split_and!; try done.
  - unfold parser_scan_line. destruct (Z.eqb_spec max 0); [lia|]. eapply uruns_bind; [exact Hr|]. fold e.
    eapply uruns_bind; [apply uruns_lift, (st_run _ 0); apply Hf, Hmp; lia|apply uruns_ret].
  - split.
    + apply arr_app. split; [|apply arr_cons; split; [apply lookup_insert_eq|apply arr_nil]].
      apply (arr_ext (cells m1)); [|done]. intros b Hb. simpl. by rewrite lookup_insert_ne by lia.
    + apply edit_Forall; [done|by apply Forall_nil].
  - eapply only_at_trans; [done|]. split; intros b Hb; simpl; [by rewrite lookup_insert_ne by lia|].
    by apply lookup_insert_is_Some'; right.
Qed.
End Scan.
End Terminal.

(** ** The words of a line *)

(** The words that a split returns, from the answer of its first call on. *)
Fixpoint words (n : nat) (delim : list Z) (r : option (list Z) * option (list Z)) : list (list Z) :=
  match n, r with
  | S n, (Some w, h) => w :: words n delim (strtok_val delim h)
  | _, _ => []
  end.

Lemma words_none n delim h : words n delim (None, h) = [].
Proof. by destruct n. Qed.

Lemma strtok_val_shorter delim t w r : strtok_val delim (Some t) = (Some w, Some r) → (length r < length t)%nat.
Proof.
  intros E. pose proof (strtok_loop_spec (S (S (length t))) delim t ltac:(lia)) as Hs.
  change (strtok_loop _ _ _) with (strtok_val delim (Some t)) in Hs. rewrite E in Hs.
  destruct Hs as (_ & _ & pre & _ & c & _ & ->). rewrite !length_app. simpl. lia.
Qed.

Lemma words_tokens delim (fuel n : nat) t :
  (length t < fuel)%nat → words n delim (strtok_val delim (Some t)) = take n (tokens_loop fuel delim (Some t)).
Proof.
  revert n t. induction fuel as [|fuel IH]; intros n t Hf; [lia|]. cbn [tokens_loop].
  destruct n as [|n]; [done|]. destruct (strtok_val delim (Some t)) as [[w|] h] eqn:E; [|done].
  cbn [words take]. f_equal. destruct h as [r|].
  - apply strtok_val_shorter in E. apply IH. lia.
  - assert (strtok_val delim None = (None, None)) as E0 by done. rewrite E0, words_none.
    destruct fuel; cbn [tokens_loop]; rewrite ?E0; by destruct n.
Qed.

(** A later call of a split. *)
Lemma strtok_next delim d hv m :
  holds (cells m) (tok_holder m) hv → str (cells m) d delim →
  (∀ t, hv = Some t → apart d (Z.of_nat (length delim)) (tok_holder m) (Z.of_nat (length t))) →
  ∃ tok m', c_strtok 0 d m = Done tok m' ∧
    match (strtok_val delim hv).1 with None => tok = 0 | Some w => tok_holder m ≤ tok ∧ str (cells m') tok w end ∧
    holds (cells m') (tok_holder m') (strtok_val delim hv).2 ∧ keeps (cells m) (cells m') ∧
    match hv with
    | Some t => follows (tok_holder m) t tok (tok_holder m') (strtok_val delim hv) ∧
        ∀ b, b < tok_holder m ∨ tok_holder m + Z.of_nat (length t) ≤ b → cells m' !! b = cells m !! b
    | None => cells m' = cells m
    end.
Proof.
  intros Hh Hd Hap. destruct hv as [t|].
  - destruct Hh as [Hpos Hs]. destruct (strtok_scan_run (S (size (cells m))) (S (S (length t))) delim t (tok_holder m) d m)
      as (tok & m' & h' & Hr & Htok & Hh' & Hfo & Hk & Hfr); try done; try lia.
    { apply str_size in Hs. lia. }
    { by apply Hap. }
    exists tok, (Cmem m' h'). split_and!; try done.
  - simpl in Hh. exists 0, (Cmem (cells m) 0). split_and!; try done; [|by intros b].
    unfold c_strtok, scan, strtok_scan, strsep, get, mbind, M_bind. simpl. by rewrite Hh.
Qed.

Lemma insert_middle {A} (l : list A) x y r : <[length l := y]> (l ++ x :: r) = l ++ y :: r.
Proof. rewrite <-(Nat.add_0_r (length l)). by rewrite insert_app_r. Qed.

Section Words.
Context (lit : list Z → Z) (line max : Z) (Hline : 0 < line).
Let d := lit (codes " ").
Let delim : list Z := codes " ".
Context (Hd : d + 1 < line ∨ line + max ≤ d).

(** The pointer names the word. *)
Definition points (m : cmem) (p : Z) (w : list Z) : Prop := 0 < p ∧ str (cells m) p w.

(** A split of a string in the buffer, after a call that returned [tok]. *)
Record Split (m : cmem) (tok : Z) (r : option (list Z) * option (list Z)) : Prop := {
  sp_token : match r.1 with None => tok = 0 | Some w => line ≤ tok ∧ str (cells m) tok w end;
  sp_rest : holds (cells m) (tok_holder m) r.2;
  sp_room : match r.2 with
    | Some t => line ≤ tok_holder m ∧ tok_holder m + Z.of_nat (length t) < line + max ∧
        (∀ w, r.1 = Some w → tok + Z.of_nat (length w) < tok_holder m)
    | None => True
    end;
}.

(** The bytes that later calls leave alone. *)
Definition settled (m : cmem) (hv : option (list Z)) (b : Z) : Prop :=
  match hv with Some _ => b < tok_holder m ∨ line + max ≤ b | None => True end.

Lemma split_next m tok r :
  Split m tok r → str (cells m) d delim →
  ∃ tok' m', c_strtok 0 d m = Done tok' m' ∧ Split m' tok' (strtok_val delim r.2) ∧ keeps (cells m) (cells m') ∧
    (∀ b, settled m r.2 b → cells m' !! b = cells m !! b) ∧
    (∀ b, settled m r.2 b → settled m' (strtok_val delim r.2).2 b).
Proof.
  intros [_ Hh Hr] Hs. destruct (strtok_next delim d r.2 m) as (tok' & m' & E & Ht & Hh' & Hk & Hf); [done|done| |].
  { intros t E. rewrite E in Hr. unfold apart. simpl. lia. }
  exists tok', m'. split; [done|]. destruct r.2 as [t|].
  - destruct Hr as (Hlo & Hhi & _). destruct Hf as [Hfo Hf]. destruct (strtok_val delim (Some t)) as [[w|] [l|]] eqn:Ev; simpl in *.
    + split_and!; [split; simpl; [|done|]| |intros b Hb; apply Hf; lia|intros b Hb; simpl in *; lia]; [destruct Ht; split; [lia|done]| |done].
      destruct Ht as [Ht _]. split_and!; [lia|lia|]. intros w' [= <-]. lia.
    + split_and!; [split; simpl; try done|done|intros b Hb; apply Hf; lia|done]. destruct Ht; split; [lia|done].
    + exfalso. pose proof (strtok_loop_spec (S (S (length t))) delim t ltac:(lia)) as Hs'.
      change (strtok_loop _ _ _) with (strtok_val delim (Some t)) in Hs'. rewrite Ev in Hs'. by destruct Hs'.
    + split_and!; [by split|done|intros b Hb; apply Hf; lia|done].
  - simpl in *. split_and!; [by split|done| |done]. intros b _. by rewrite Hf.
Qed.

Lemma parse_loop_run (n : nat) : ∀ tok r argc argv m,
  Split m tok r → str (cells m) d delim → (argc + n < length argv)%nat →
  ∃ argv' m' vec rest, parse_loop lit n tok argc argv m = Done ((argc + length (words n delim r))%nat, argv') m' ∧
    argv' = take argc argv ++ vec ++ rest ∧ length argv' = length argv ∧
    Forall2 (points m') vec (words n delim r) ∧ keeps (cells m) (cells m') ∧ str (cells m') d delim ∧
    ∀ b, settled m r.2 b → cells m' !! b = cells m !! b.
Proof.
  induction n as [|n IH]; intros tok r argc argv m HS Hs Hlen.
  - exists argv, m, [], (drop argc argv). cbn [parse_loop words length]. rewrite Nat.add_0_r. split_and!; try done; try by intros b.
    by rewrite app_nil_l, take_drop.
  - destruct (split_next m tok r HS Hs) as (tok' & m' & E & HS' & Hk & Hf & Hset). destruct HS as [Ht Hh Hr]. cbn [parse_loop].
    destruct r as [[w|] hv]; simpl in Ht, Hh, Hr, E, HS', Hf, Hset.
    + destruct (Z.eqb_spec tok 0) as [|_]; [lia|]. unfold set_arg at 1. rewrite decide_True by lia.
      erewrite (bind_Done (mret _)) by reflexivity. mstep E.
      assert (Hs' : str (cells m') d delim).
      { destruct Hs as [Ha Hz]. split; [|done]. apply (arr_ext (cells m)); [|done]. simpl. intros b Hb. apply Hf. unfold settled.
        destruct hv as [t|]; [|done]. lia. }
      destruct (IH tok' (strtok_val delim hv) (S argc) (<[argc:=tok]> argv) m' HS' Hs') as (argv' & m2 & vec & rest & E2 & Ev & Hl & Hv & Hk2 & Hs2 & Hf2);
        [rewrite length_insert; lia|].
      exists argv', m2, (tok :: vec), rest. split_and!; try done.
      * rewrite E2. cbn [words length]. by rewrite Nat.add_succ_r.
      * rewrite Ev. rewrite (take_S_r _ _ tok) by (apply list_lookup_insert_eq; lia). rewrite take_insert_ge by lia.
        by rewrite <-app_assoc.
      * by rewrite Hl, length_insert.
      * cbn [words]. constructor; [|done]. destruct Ht as [Hlo [Ha Hz]]. split; [lia|]. split; [|done].
        apply (arr_ext (cells m)); [|done]. intros b Hb. rewrite length_app in Hb. simpl in Hb.
        assert (settled m hv b) by (unfold settled; destruct hv as [t|]; [specialize (proj2 (proj2 Hr) w eq_refl); lia|done]).
        rewrite Hf2 by by apply Hset. by apply Hf.
      * by intros b ?%Hk%Hk2.
      * intros b Hb. rewrite Hf2 by by apply Hset. by apply Hf.
    + simpl in Ht. subst tok. exists argv, m, [], (drop argc argv). cbn [words length]. rewrite Nat.add_0_r.
      split_and!; try done; try by intros b.
      by rewrite app_nil_l, take_drop.
Qed.

Lemma parse_line_run s m argv (max_args : Z) :
  str (cells m) line s → Z.of_nat (length s) < max → str (cells m) d delim → (Z.to_nat (max_args - 1) < length argv)%nat →
  ∃ argv' m' vec rest, let ws := take (Z.to_nat (max_args - 1)) (tokens delim s) in
    parse_line lit line argv max_args m = Done (length ws, argv') m' ∧ argv' = vec ++ 0 :: rest ∧ length argv' = length argv ∧
    Forall2 (points m') vec ws ∧ only_at line max m m'.
Proof.
  intros Hs Hl Hdl Hlen. set (m0 := Cmem (cells m) line).
  assert (HS : Split m0 0 (None, Some s)) by (split; simpl; [done|done|split_and!; [lia|lia|done]]).
  destruct (split_next m0 0 _ HS Hdl) as (tok & m1 & E & HS1 & Hk & Hf & Hset). simpl in HS1, Hset, Hf.
  assert (E' : c_strtok line d m = Done tok m1) by (rewrite <-E; unfold c_strtok; by rewrite (proj2 (Z.eqb_neq line 0)) by lia).
  assert (Hd1 : str (cells m1) d delim).
  { destruct Hdl as [Ha Hz]. split; [|done]. apply (arr_ext (cells m0)); [|done]. simpl. intros b Hb. apply Hf. unfold d in *. simpl. lia. }
  destruct (parse_loop_run (Z.to_nat (max_args - 1)) tok _ 0 argv m1 HS1 Hd1 ltac:(lia)) as (argv' & m2 & vec & rest & E2 & Ev & Hlv & Hv & Hk2 & _ & Hf2).
  assert (Ew : words (Z.to_nat (max_args - 1)) delim (strtok_val delim (Some s)) = take (Z.to_nat (max_args - 1)) (tokens delim s))
    by (apply words_tokens; lia).
  rewrite Ew in *. set (ws := take _ _) in *. simpl in Ev. pose proof (Forall2_length _ _ _ Hv) as Hlw.
  assert (Hw : (length ws ≤ Z.to_nat (max_args - 1))%nat) by (unfold ws; rewrite length_take; lia).
  destruct rest as [|x rest]; [subst argv'; rewrite app_nil_r in Hlv; lia|].
  exists (vec ++ 0 :: rest), m2, vec, rest. cbn zeta. split_and!; try done.
  - unfold parse_line. fold d. mstep E'. mstep E2. unfold set_arg. cbn [fst snd]. rewrite decide_True by (rewrite Hlv; simpl; lia).
    simpl. f_equal. rewrite Ev, <-Hlw. by rewrite insert_middle.
  - rewrite <-Hlv, Ev, !length_app. done.
  - split; [|by intros b ?%Hk%Hk2]. intros b Hb.
    assert (settled m0 (Some s) b) by (simpl; lia). rewrite Hf2 by by apply Hset. by apply Hf.
Qed.

(** ** Comparing with a literal *)

Lemma str_diff_0 t1 t2 : Forall (λ x, x ≠ 0) t1 → Forall (λ x, x ≠ 0) t2 → (str_diff t1 t2 = 0 ↔ t1 = t2).
Proof.
  intros H1. revert t2. induction H1 as [|x t1 Hx _ IH]; intros t2 H2; destruct H2 as [|y t2 Hy H2]; simpl.
  - done.
  - split; [lia|done].
  - split; [lia|done].
  - destruct (Z.eqb_spec x y) as [->|Hne]; [rewrite IH by done; split; congruence|split; [lia|congruence]].
Qed.

Lemma strcmp_eq t1 t2 a b m : str (cells m) a t1 → str (cells m) b t2 →
  ∃ e, strcmp a b m = Done e m ∧ (e =? 0) = bool_decide (t1 = t2).
Proof.
  intros Ha Hb. exists (str_diff t1 t2). split.
  - unfold strcmp. mstep (scan_run m). apply strcmp_loop_run; [|done..]. apply str_size in Ha. lia.
  - pose proof (str_diff_0 t1 t2 (proj2 Ha) (proj2 Hb)) as [H1 H2].
    destruct (Z.eqb_spec (str_diff t1 t2) 0); [by rewrite bool_decide_true by auto|rewrite bool_decide_false; auto].
Qed.

(** The words without a last ampersand, and whether there was one. *)
Definition amp (ws : list (list Z)) : bool := bool_decide (last ws = Some (codes "&")).
Definition plain (ws : list (list Z)) : list (list Z) := if amp ws then take (length ws - 1) ws else ws.

Lemma is_bg_run ws vec rest m :
  Forall2 (points m) vec ws → str (cells m) (lit (codes "&")) (codes "&") →
  ∃ vec' rest', parser_is_bg lit (length ws) (vec ++ 0 :: rest) m = Done (amp ws, length (plain ws), vec' ++ 0 :: rest') m ∧
    Forall2 (points m) vec' (plain ws).
Proof.
  intros Hv Ha. destruct (decide (ws = [])) as [->|Hne].
  { apply Forall2_nil_inv_r in Hv as ->. by exists [], rest. }
  destruct (exists_last Hne) as (ws' & w & ->). apply Forall2_app_inv_r in Hv as (vec' & v & Hv' & Hv & ->).
  apply Forall2_cons_inv_r in Hv as (p & ? & [Hp Hs] & ->%Forall2_nil_inv_r & ->).
  pose proof (Forall2_length _ _ _ Hv') as Hl. rewrite length_app, Nat.add_1_r. cbn [parser_is_bg].
  assert (Eg : get_arg ((vec' ++ [p]) ++ 0 :: rest) (length ws') m = Done p m).
  { unfold get_arg. rewrite <-Hl, <-app_assoc. cbn [app]. by rewrite list_lookup_middle. }
  mstep Eg. destruct (strcmp_eq _ _ _ _ m Hs Ha) as (e & Ee & Hb). mstep Ee. rewrite Hb.
  unfold plain, amp. rewrite last_snoc. destruct (decide (w = codes "&")) as [->|Hw].
  - rewrite !bool_decide_true by done. exists vec', (0 :: rest). split.
    + unfold set_arg. rewrite decide_True by (rewrite !length_app; simpl; lia). erewrite (bind_Done (mret _)) by reflexivity.
      rewrite length_app, length_take, length_app. simpl. unfold mret, M_ret. f_equal. f_equal; [f_equal; lia|].
      rewrite <-app_assoc, <-Hl. apply insert_middle.
    + rewrite length_app, Nat.add_sub. by rewrite take_app_length.
  - rewrite !bool_decide_false by congruence. exists (vec' ++ [p]), rest. rewrite length_app, Nat.add_1_r. split; [done|].
    apply Forall2_app; [done|]. by constructor.
Qed.

(** The command of a name. *)
Fixpoint command (l : list cmd) (w : list Z) : option cmd_func :=
  match l with [] => None | c :: l => if bool_decide (w = c_name c) then Some (c_f c) else command l w end.

Lemma find_run l p w m :
  str (cells m) p w → Forall (λ c, str (cells m) (lit (c_name c)) (c_name c)) l → find_loop lit l p m = Done (command l w) m.
Proof.
  intros Hp. induction 1 as [|c l Hc _ IH]; [done|]. cbn [find_loop command].
  destruct (strcmp_eq _ _ _ _ m Hp Hc) as (e & Ee & Hb). mstep Ee. rewrite Hb. by destruct (bool_decide (w = c_name c)).
Qed.
End Words.

Lemma cstr_loop_run (fuel : nat) t a m : (length t < fuel)%nat → str (cells m) a t → cstr_loop fuel a m = Done t m.
Proof.
  revert a t. induction fuel as [|fuel IH]; intros a t Hf Hs; [lia|]. cbn [cstr_loop]. destruct t as [|x t].
  - apply str_nil in Hs. by mstep (ld_run _ _ _ Hs).
  - apply str_cons in Hs as (Hx & Hx0 & Hs). mstep (ld_run _ _ _ Hx). rewrite (proj2 (Z.eqb_neq x 0)) by done.
    simpl in Hf. mstep (IH (a + 1) t ltac:(lia) Hs). done.
Qed.

Lemma argv_strings_run m vec rest ws : Forall2 (points m) vec ws → argv_strings (vec ++ 0 :: rest) m = Done ws m.
Proof.
  induction 1 as [|p w vec ws [Hp Hs] _ IH]; [done|]. cbn [argv_strings app]. rewrite (proj2 (Z.eqb_neq p 0)) by lia.
  assert (E : cstr_at p m = Done w m).
  { unfold cstr_at. mstep (scan_run m). apply cstr_loop_run; [|done]. apply str_size in Hs. lia. }
  mstep E. by mstep IH.
Qed.

Lemma bytesb_Forall t : forallb (λ c, (0 <=? c) && (c <? 256)) t = true → Forall byte t.
Proof.
  intros Hb. apply Forall_forall. intros c Hc. rewrite forallb_forall in Hb. apply list_elem_of_In, Hb, andb_prop in Hc as [? ?].
  unfold byte. lia.
Qed.

(** ** A turn of the shell *)

Section Shell.
Context {W : Type} `{Terminal W} (lit : list Z → Z) (junk line : Z) (Hline : 0 < line).
Abbreviation max := MAX_DISPLAY_COLS.
Abbreviation sh := (sh lit junk line).

(** The literals lie outside the buffer of the shell. *)
Definition literals : list (list Z) := codes " " :: codes "&" :: (c_name <$> registry).
Definition Literals (m : cmem) : Prop := ∀ s, s ∈ literals →
  str (cells m) (lit s) s ∧ (lit s + Z.of_nat (length s) < line ∨ line + max ≤ lit s).

Lemma literals_kept m m' : only_at line max m m' → Literals m → Literals m'.
Proof.
  intros [Hf _] HL s Hs. destruct (HL s Hs) as [[Ha Hz] Hap]. split; [|done]. split; [|done].
  apply (arr_ext (cells m)); [|done]. rewrite length_app. simpl. intros b Hb. apply Hf. lia.
Qed.

(** The words of a line, and what the shell says to them. *)
Definition line_words (s : list Z) : list (list Z) := take (Z.to_nat (EXEC_MAX_ARGS - 1)) (tokens (codes " ") s).
Definition known (s : list Z) : bool :=
  match plain (line_words s) with w :: _ => bool_decide (is_Some (command registry w)) | [] => false end.
Definition reply (s : list Z) : list Z :=
  if decide (s = []) then [] else
  match plain (line_words s) with
  | [] => codes "Please enter a command." ++ [10]
  | _ => if known s then [] else codes "Command not found, Please refer to help." ++ [10]
  end.

(** What the shell says to a line that it does not run. *)
Lemma says t m w : text t [] 0 t → Forall byte t → ∃ w', URuns (printf t []) m w tt m w' ∧ Says w t w'.
Proof. apply printf_says. Qed.

(** After the line is read. *)
Definition sh_line : uprog (unit + Z) :=
  r ← lift (parse_line lit line (replicate (Z.to_nat EXEC_MAX_ARGS) junk) EXEC_MAX_ARGS);
  b ← lift (parser_is_bg lit r.1 r.2);
  let '(bg, argc, argv) := b in sh_command lit bg argc argv.

Lemma line_run s m w :
  s ≠ [] → str (cells m) line s → Z.of_nat (length s) < max → Literals m →
  ∃ m1 w1, only_at line max m m1 ∧ Says w (reply s) w1 ∧
    if known s then ∃ argv, argv_strings argv m1 = Done (plain (line_words s)) m1 ∧
      ∀ t w', Steps (sh_run (amp (line_words s)) argv m1) w1 t w' → Steps (sh_line m) w t w'
    else URuns sh_line m w (inl tt) m1 w1.
Proof.
  intros Hne Hs Hl HL. assert (HLs : codes " " ∈ literals) by left. destruct (HL _ HLs) as [Hsp Hap].
  destruct (parse_line_run lit line max Hline Hap s m (replicate (Z.to_nat EXEC_MAX_ARGS) junk) EXEC_MAX_ARGS Hs Hl Hsp)
    as (argv & m1 & vec & rest & E & -> & _ & Hv & Hf); [rewrite length_replicate; unfold EXEC_MAX_ARGS; lia|].
  fold (line_words s) in E, Hv. pose proof (literals_kept _ _ Hf HL) as HL1.
  destruct (is_bg_run lit (line_words s) vec rest m1 Hv) as (vec' & rest' & E2 & Hv'); [apply HL1; right; left|].
  assert (Hst : ∀ t w1 w', Steps (sh_command lit (amp (line_words s)) (length (plain (line_words s))) (vec' ++ 0 :: rest') m1) w1 t w' →
    Steps (sh_line m) w1 t w').
  { intros t w1 w' Ht. unfold sh_line. eapply uruns_steps; [by apply uruns_lift|]. eapply uruns_steps; [by apply uruns_lift|]. exact Ht. }
  unfold sh_command in Hst.
  unfold reply, known. rewrite decide_False by done. destruct (plain (line_words s)) as [|wd ws] eqn:Ep.
  - destruct (says (codes "Please enter a command." ++ [10]) m1 w) as (w1 & Hp & Hsay); [reflexivity|by apply bytesb_Forall|].
    exists m1, w1. split_and!; [done|done|]. apply Hst. eapply uruns_bind; [exact Hp|apply uruns_ret].
  - apply Forall2_cons_inv_r in Hv' as (p & vec2 & [Hp Hs'] & Hv2 & ->).
    assert (Ef : cmd_find lit p m1 = Done (command registry wd) m1).
    { apply find_run; [done|]. apply Forall_forall. intros c Hc. apply HL1. right. right. by apply list_elem_of_fmap_2. }
    destruct (command registry wd) as [f|] eqn:Ec.
    + rewrite bool_decide_true by eauto. exists m1, w. split_and!; [done|split; [done|by rewrite app_nil_r]|].
      eexists. split; [apply argv_strings_run; by constructor|]. intros t w' Ht. apply Hst.
      eapply uruns_steps; [by apply uruns_lift|]. eapply uruns_steps; [by apply uruns_lift|]. exact Ht.
    + rewrite bool_decide_false by by intros [].
      destruct (says (codes "Command not found, Please refer to help." ++ [10]) m1 w) as (w1 & Hpr & Hsay); [reflexivity|by apply bytesb_Forall|].
      exists m1, w1. split_and!; [done|done|]. apply Hst.
      eapply uruns_bind; [by apply uruns_lift|]. eapply uruns_bind; [by apply uruns_lift|]. eapply uruns_bind; [exact Hpr|apply uruns_ret].
Qed.

Lemma turn_run cs nl rest m w :
  is_nl nl = true → Forall (λ c, byte c ∧ is_nl c = false) cs → Forall (λ c, c ≠ 0) cs → tin w = cs ++ nl :: rest →
  mapped (cells m) line max → Literals m →
  ∃ m1 w1, let s := edit max [] cs in only_at line max m m1 ∧ tin w1 = rest ∧
    tout w1 = tout w ++ codes "(shell) " ++ echo max [] cs ++ [13; 10] ++ reply s ∧
    if known s then ∃ argv, argv_strings argv m1 = Done (plain (line_words s)) m1 ∧
      ∀ t w', Steps (sh_run (amp (line_words s)) argv m1) w1 t w' → Steps (sh_turn lit junk line tt m) w t w'
    else URuns (sh_turn lit junk line tt) m w (inl tt) m1 w1.
Proof.
  intros Hnl Hcs Hz Hin Hmp HL.
  destruct (says (codes "(shell) ") m w) as (w0 & Hp & Hi0 & Ho0); [reflexivity|by apply bytesb_Forall|].
  destruct (scan_line_run junk line max ltac:(done) cs nl rest m w0 Hnl Hcs Hz ltac:(congruence) Hmp)
    as (m1 & w1 & Hr & Hs & Hl & Hf & Hi1 & Ho1).
  set (s := edit max [] cs) in *. destruct (decide (s = [])) as [E|Hne].
  - exists m1, w1. cbn zeta. rewrite E in *. split_and!; [done|done| |].
    + rewrite Ho1, Ho0. by rewrite <-!app_assoc.
    + eapply uruns_bind; [exact Hp|]. eapply uruns_bind; [exact Hr|]. apply uruns_ret.
  - destruct (line_run s m1 w1 Hne Hs Hl (literals_kept _ _ Hf HL)) as (m2 & w2 & Hf2 & [Hi2 Ho2] & Hk).
    exists m2, w2. cbn zeta. split_and!; [by eapply only_at_trans|congruence|rewrite Ho2, Ho1, Ho0; by rewrite <-!app_assoc|].
    assert (Hlen : (Z.of_nat (length s) =? 0) = false) by (apply Z.eqb_neq; destruct s; [done|simpl; lia]).
    assert (Hst : ∀ t w', Steps (sh_line m1) w1 t w' → Steps (sh_turn lit junk line tt m) w t w').
    { intros t w' Ht. unfold sh_turn. eapply uruns_steps; [exact Hp|]. eapply uruns_steps; [exact Hr|]. rewrite Hlen. exact Ht. }
    destruct (known s); [|by apply Hst]. destruct Hk as (argv & Ha & Hk). exists argv. split; [done|]. intros t w' Ht. by apply Hst, Hk.
Qed.

Lemma fork_run p m w w' : handle EFork w = Some (p, w') → -128 ≤ p < 128 → URuns fork m w p m w'.
Proof.
  intros Hh Hp. unfold fork. eapply uruns_bind; [by apply uruns_call|]. rewrite <-(sext_id 8 p) at 2 by lia. apply uruns_ret.
Qed.

(** The task that a fork returns to. *)
Lemma run_comes_fork bg argv m w : Comes (sh_run bg argv m) w EFork w.
Proof. apply comes_bind, comes_bind, comes_call. Qed.

Lemma run_failed bg argv m w w2 p : handle EFork w = Some (p, w2) → -128 ≤ p < 0 →
  ∃ w3, Says w2 (codes "Shell: Failed to fork " ++ [10]) w3 ∧ Comes (sh_run bg argv m) w (EExitGroup 1) w3.
Proof.
  intros Hh Hp. destruct (says (codes "Shell: Failed to fork " ++ [10]) m w2) as (w3 & Hpr & Hs); [reflexivity|by apply bytesb_Forall|].
  exists w3. split; [done|]. eapply comes_after; [apply (fork_run p); [done|lia]|]. rewrite (proj2 (Z.ltb_lt p 0)) by lia.
  eapply comes_after; [exact Hpr|]. apply comes_ends.
Qed.

Lemma run_child bg argv m w w2 args : handle EFork w = Some (0, w2) → argv_strings argv m = Done args m →
  Comes (sh_run bg argv m) w (EExec (codes "/user.elf") (Some args)) w2.
Proof.
  intros Hh Ha. eapply comes_after; [by apply (fork_run 0)|]. apply comes_bind. eapply comes_after; [by apply uruns_lift|]. apply comes_call.
Qed.

Lemma run_background argv m w w2 p : handle EFork w = Some (p, w2) → 0 < p < 128 → URuns (sh_run true argv) m w (inl tt) m w2.
Proof.
  intros Hh Hp. eapply uruns_bind; [apply (fork_run p); [done|lia]|].
  rewrite (proj2 (Z.ltb_ge p 0)), (proj2 (Z.eqb_neq p 0)) by lia. apply uruns_ret.
Qed.

Lemma run_waits argv m w w2 p : handle EFork w = Some (p, w2) → 0 < p < 128 →
  Comes (sh_run false argv m) w (EWaitpid p) w2 ∧
  ∀ r w3, handle (EWaitpid p) w2 = Some (r, w3) → 0 ≤ r < 128 → URuns (sh_run false argv) m w (inl tt) m w3.
Proof.
  intros Hh Hp. assert (Hf : URuns fork m w p m w2) by (apply (fork_run p); [done|lia]).
  assert (s8 p = p) as E by (apply sext_id; lia). split.
  - eapply comes_after; [exact Hf|]. rewrite (proj2 (Z.ltb_ge p 0)), (proj2 (Z.eqb_neq p 0)) by lia. apply comes_bind, comes_bind.
    rewrite E. apply comes_call.
  - intros r w3 Hw Hr. eapply uruns_bind; [exact Hf|]. rewrite (proj2 (Z.ltb_ge p 0)), (proj2 (Z.eqb_neq p 0)) by lia.
    eapply uruns_bind; [unfold waitpid; rewrite E; eapply uruns_bind; [by apply uruns_call|apply uruns_ret]|].
    assert (s8 r = r) as -> by (apply sext_id; lia). rewrite (proj2 (Z.ltb_ge r 0)) by lia. apply uruns_ret.
Qed.

(** C14: a turn of the shell.  After the prompt, the characters typed up to a
    newline are echoed and edited: the line is what is left after every
    backspace, at most 127 characters.  It is cut at the blanks, the seventh word
    and later ones are dropped, and a last ampersand asks for the background.
    A line without a command, or with one that is not registered, gets its
    reply and the shell asks again.  Otherwise the shell forks: the child calls
    exec with exactly the words of the line; the parent goes on at once in the
    background, and else waits for that child first; if the fork fails the
    shell says so and ends.  Only the buffer of the line changes. *)
Theorem shell_turn cs nl rest m w :
  is_nl nl = true → Forall (λ c, byte c ∧ is_nl c = false) cs → Forall (λ c, c ≠ 0) cs → tin w = cs ++ nl :: rest →
  mapped (cells m) line max → Literals m →
  let s := edit max [] cs in let ws := line_words s in
  ∃ m1 w1, only_at line max m m1 ∧ tin w1 = rest ∧
    tout w1 = tout w ++ codes "(shell) " ++ echo max [] cs ++ [13; 10] ++ reply s ∧
    if known s then
      Comes (sh m) w EFork w1 ∧
      ∀ p w2, handle EFork w1 = Some (p, w2) → -128 ≤ p < 128 →
        (p < 0 → ∃ w3, Says w2 (codes "Shell: Failed to fork " ++ [10]) w3 ∧ Comes (sh m) w (EExitGroup 1) w3) ∧
        (p = 0 → Comes (sh m) w (EExec (codes "/user.elf") (Some (plain ws))) w2) ∧
        (0 < p → amp ws = true → Steps (sh m) w (sh m1) w2) ∧
        (0 < p → amp ws = false → Comes (sh m) w (EWaitpid p) w2 ∧
          ∀ r w3, handle (EWaitpid p) w2 = Some (r, w3) → 0 ≤ r < 128 → Steps (sh m) w (sh m1) w3)
    else Steps (sh m) w (sh m1) w1.
Proof.
  intros Hnl Hcs Hz Hin Hmp HL s ws.
  destruct (turn_run cs nl rest m w Hnl Hcs Hz Hin Hmp HL) as (m1 & w1 & Hf & Hi & Ho & Hk). fold s ws in Hk.
  exists m1, w1. split_and!; [done..|]. destruct (known s); [|by apply uiter_steps].
  destruct Hk as (argv & Ha & Hk).
  assert (Hc : ∀ T (e : callE T) w', Comes (sh_run (amp ws) argv m1) w1 e w' → Comes (sh m) w e w').
  { intros T e w' [k Hs]. apply uiter_comes. exists k. by apply Hk. }
  assert (Hr : ∀ w', URuns (sh_run (amp ws) argv) m1 w1 (inl tt) m1 w' → Steps (sh m) w (sh m1) w').
  { intros w' Hs. apply uiter_steps. by apply Hk. }
  split; [apply Hc, run_comes_fork|]. intros p w2 Hh Hp. split_and!.
  - intros Hneg. destruct (run_failed (amp ws) argv m1 w1 w2 p Hh ltac:(lia)) as (w3 & Hs & Hco). eauto.
  - intros ->. apply Hc. by apply run_child.
  - intros Hpos Hb. apply Hr. rewrite Hb. apply (run_background argv m1 w1 w2 p Hh). lia.
  - intros Hpos Hb. rewrite Hb in *. destruct (run_waits argv m1 w1 w2 p Hh ltac:(lia)) as [Hco Hw].
    split; [by apply Hc|]. intros r w3 Hh3 Hr3. by eapply Hr, Hw.
Qed.
End Shell.

(** ** The shell goes on for ever *)

(** A loop whose body never asks to leave it has no result. *)
Lemma iter_no_leaf {E : Type → Type} {I R : Type} (f : I → itree E (I + R)) :
  (∀ i x, ¬ Leaf (inr x) (f i)) → ∀ i r, ¬ Leaf r (ITree.iter f i).
Proof.
  intros Hf i r Hl. set (h := λ lr, match lr with inl l => Tau (ITree.iter f l) | inr r => Ret r end).
  assert (Hg : ∀ t, Leaf r t → ∀ u, (∀ x, ¬ Leaf (inr x) u) → observe t = observe (ITree.bind u h) → False).
  { induction 1 as [t E1|t t' E1 _ IH|T e t k x E1 _ IH]; intros u Hu E2; rewrite E1, observe_bind in E2;
      destruct (observe u) as [[l|y]|u'|T' e' k'] eqn:Eu; cbn in E2; try done.
    - by apply (Hu y), LeafRet.
    - injection E2 as ->. by apply (IH (f l)).
    - injection E2 as ->. apply (IH u'); [|done]. intros y Hy. apply (Hu y). by eapply LeafTau.
    - apply eq_inv_VisF_weak in E2 as (Et & _ & Ek). destruct Et. cbn in Ek. subst k. apply (IH (k' x)); [|done].
      intros y Hy. apply (Hu y). by eapply LeafVis. }
  by apply (Hg _ Hl (f i)).
Qed.

(** A part of the body that does not leave the loop. *)
Definition Stays {R : Type} (p : uprog (unit + R)) : Prop := ∀ m r m', Leaf (r, m') (p m) → r = inl tt.

Lemma stays_ret {R} : Stays (R := R) (mret (inl tt)).
Proof. intros m r m' Hl. apply Leaf_Ret_inv in Hl. congruence. Qed.
Lemma stays_ends {R} e : Stays (R := R) (ends e).
Proof. intros m r m' Hl. by apply Leaf_Vis_inv in Hl as [[] _]. Qed.
Lemma stays_bind {A R} (p : uprog A) (k : A → uprog (unit + R)) : (∀ a, Stays (k a)) → Stays (p ≫= k).
Proof. intros Hk m r m' (a & _ & Hl)%Leaf_bind_inv. by eapply Hk. Qed.

(** The shell has no result. *)
Theorem sh_never_returns lit junk line m r : ¬ Leaf r (sh lit junk line m).
Proof.
  apply iter_no_leaf. intros [[] m0] [x m1] (b & Hb & Hl)%Leaf_bind_inv. apply Leaf_Ret_inv in Hl.
  assert (Hs : Stays (sh_turn lit junk line tt)); [|destruct b as [b m']; rewrite (Hs _ _ _ Hb) in Hl; done].
  clear. unfold sh_turn, sh_command, sh_run. repeat first [apply stays_ret|apply stays_ends|apply stays_bind; intros|case_match].
Qed.

(** ** The command that streams *)

(** The descriptor 1 is the standard input, which the kernel opens for reading
    only (task.c) and refuses to write ([File.file_write]): the command ends
    with an error after the first character. *)
Theorem stream_cannot_write {W : Type} `{Terminal W} junk c l m w :
  tin w = c :: l → (∀ w, handle (EWrite 1 [c]) w = Some (- EBADF, w)) →
  ∃ w', Comes (stream junk (λ f, f) m) w (EExitGroup 1) w' ∧
    tout w' = tout w ++ codes "[TEST] cmd_stream ERROR basics.c:25: write failed: -9" ++ [10].
Proof.
  intros Hin Hwr. destruct (tin_read w c l Hin) as (w1 & Hr & _ & Ho1).
  destruct (printf_says (codes "[TEST] %s ERROR %s:%d: ") [VStr (Some (codes "cmd_stream")); VStr (Some (codes "basics.c")); VNum 25]
    (codes "[TEST] cmd_stream ERROR basics.c:25: ") m w1) as (w2 & H2 & _ & Ho2); [vm_compute; reflexivity|by apply bytesb_Forall|].
  destruct (printf_says (codes "write failed: %d") [VNum (u64 (s8 (- EBADF)))] (codes "write failed: -9") m w2)
    as (w3 & H3 & _ & Ho3); [vm_compute; reflexivity|by apply bytesb_Forall|].
  destruct (printf_says [10] [] [10] m w3) as (w4 & H4 & _ & Ho4); [reflexivity|by apply bytesb_Forall|].
  exists w4. split; [|rewrite Ho4, Ho3, Ho2, Ho1; by rewrite <-!app_assoc].
  apply uiter_comes. eapply comes_after; [by apply uruns_call|]. eapply comes_after; [apply uruns_ret|].
  eapply comes_after; [by apply uruns_call|]. apply comes_bind. unfold TEST_ERROR.
  eapply comes_after; [exact H2|]. eapply comes_after; [exact H3|]. eapply comes_after; [exact H4|]. apply comes_ends.
Qed.

(** ** A terminal *)

(** A kernel with a terminal, whose forks return the pid 3 in the parent. *)
Record tty := Tty { t_in : list Z; t_out : list Z }.
#[export] Instance tty_kernel : Kernel tty := λ T e,
  match e in callE T return tty → option (T * tty) with
  | ERead fd n => λ w, match t_in w with
      | c :: l => if (fd =? 1) && (n =? 1) then Some ((1, [c]), Tty l (t_out w)) else None
      | [] => None
      end
  | EWrite fd bs => λ w, if fd =? 0 then Some (Z.of_nat (length bs), Tty (t_in w) (t_out w ++ bs)) else None
  | EFork => λ w, Some (3, w)
  | EWaitpid p => λ w, Some (p, w)
  | _ => λ w, None
  end.
#[export] Program Instance tty_terminal : Terminal tty := {| tin := t_in; tout := t_out |}.
Next Obligation. intros [l0 o] c l Hl. simpl in Hl. subst l0. by eexists. Qed.
Next Obligation. intros [l o] c. by eexists. Qed.

(** The literals lie one after the other behind the buffer at 1000. *)
Fixpoint place (a : Z) (l : list (list Z)) (s : list Z) : Z :=
  match l with [] => a | x :: l => if decide (x = s) then a else place (a + Z.of_nat (length x) + 1) l s end.
Definition demo_lit : list Z → Z := place 2000 literals.
Definition shell_mem : cmem :=
  Cmem (list_to_map ((λ a, (a, 7)) <$> seqZ 1000 128) ∪
    list_to_map (zip (seqZ 2000 400) (concat ((λ s, s ++ [0]) <$> literals)))) 0.

Lemma shell_literals : Literals demo_lit 1000 shell_mem.
Proof.
  intros s Hs. assert (Hb : forallb (λ s, strb (cells shell_mem) (demo_lit s) s && (1128 <=? demo_lit s)) literals = true) by by vm_compute.
  rewrite forallb_forall in Hb. apply list_elem_of_In, Hb, andb_prop in Hs as [Hs ?%Z.leb_le]. split; [by apply strb_str|]. right.
  change (1000 + MAX_DISPLAY_COLS) with 1128. done.
Qed.

(** "hell", a backspace, "lp  me &". *)
Definition typed : list Z := codes "hell" ++ [8] ++ codes "p  me &".

Lemma shell_turn_witness :
  ∃ m1 w1, only_at 1000 MAX_DISPLAY_COLS shell_mem m1 ∧
    t_out w1 = codes "(shell) hell" ++ [8; 32; 8] ++ codes "p  me &" ++ [13; 10] ∧
    Steps (sh demo_lit 0 1000 shell_mem) (Tty (typed ++ [13]) []) (sh demo_lit 0 1000 m1) w1.
Proof.
  destruct (shell_turn demo_lit 0 1000 ltac:(lia) typed 13 [] shell_mem (Tty (typed ++ [13]) [])) as (m1 & w1 & Hf & _ & Ho & Hk).
  - reflexivity.
  - apply Forall_forall. intros c Hc. apply list_elem_of_In in Hc. unfold byte. by repeat destruct Hc as [<-|Hc].
  - apply Forall_forall. intros c Hc. apply list_elem_of_In in Hc. by repeat destruct Hc as [<-|Hc].
  - reflexivity.
  - intros b Hb. apply bool_some. revert b Hb. by apply (forall_range (λ b, match cells shell_mem !! b with Some _ => true | None => false end)); vm_compute.
  - apply shell_literals.
  - exists m1, w1. split_and!; [exact Hf|exact Ho|]. destruct Hk as [_ Hk].
    destruct (Hk 3 w1) as (_ & _ & Hb & _); [reflexivity|lia|]. by apply Hb.
Defined.
