(* ===== verification/UserTests.v ===== *)
(** * The tests of the program, run on the kernel

    The file tests of user/src/tests, as the programs of User.v, with their
    system calls answered by those of Syscall.v in a machine with a formatted
    disk: through the page tables of the task, its descriptors, the names, the
    inodes, the block allocator and the cache. *)

From ITree Require Import ITree ITreeFacts.
From S2P Require Import Prelude Clist Tinyalloc Sched Sync Pages Vpages VpagesInv Str StringLib FsState Kenv CacheThm Inode Fs File FsDemo Mmap Task Syscall Doprnt User UserThm.

(** ** Evaluation *)

Section Eval.
Context {W : Type} `{Kernel W}.

Fixpoint eval {A : Type} (fuel : nat) (t : itree callE A) (w : W) : option (A * W) :=
  match fuel with
  | O => None
  | S fuel =>
    match observe t with
    | RetF a => Some (a, w)
    | TauF t => eval fuel t w
    | VisF e k => match handle e w with Some (x, w) => eval fuel (k x) w | None => None end
    end
  end.

(** What the evaluation returns, the program does. *)
Lemma eval_steps {A} (fuel : nat) (t : itree callE A) w a w' : eval fuel t w = Some (a, w') → Steps t w (Ret a) w'.
Proof.
  revert t w. induction fuel as [|fuel IH]; intros t w E; [done|]. cbn [eval] in E. destruct (observe t) as [b|u|T e k] eqn:Et.
  - injection E as -> ->. by apply steps_here.
  - eapply steps_tau; [done|by apply IH].
  - destruct (handle e w) as [[x w1]|] eqn:Eh; [|done]. eapply steps_vis; [done|exact Eh|by apply IH].
Qed.
End Eval.

(** ** The machine *)

(** A kernel, and what the program has sent to its standard output. *)
Record machine := Machine { mc_kern : kern; mc_out : list Z }.

(** The buffer of a call, in a page of the task. *)
Definition put_buf (bs : list Z) : M kern Z := t ← current_task; v ← get_task_ t; on_p (vpage_copyout (root_ptable v) demo_va bs).
Definition get_buf (n : Z) : M kern (list Z) :=
  t ← current_task; v ← get_task_ t; r ← on_p (vpage_copyin (root_ptable v) demo_va n); mret r.2.
(** Devices are not used. *)
Definition no_read (d k : Z) (dst : rdst) (n : Z) : M (sys kenv) (Z * list Z) := fault.
Definition no_write (d k : Z) (src : wsrc) (n : Z) : M (sys kenv) Z := fault.

Definition answer {A} (f : M kern A) (w : machine) : option (A * machine) :=
  match f (mc_kern w) with Done a k => Some (a, Machine k (mc_out w)) | _ => None end.

#[export] Instance machine_kernel : Kernel machine := λ T e,
  match e in callE T return machine → option (T * machine) with
  | ERead fd n => answer (r ← sys_read no_read fd demo_va n; bs ← get_buf (Z.max 0 r); mret (r, bs))
  | EWrite fd bs => λ w,
      if fd =? Z.of_nat STDOUT then Some (Z.of_nat (length bs), Machine (mc_kern w) (mc_out w ++ bs))
      else answer (put_buf bs;; sys_write no_write fd demo_va (Z.of_nat (length bs))) w
  | EOpen path flags => answer (put_buf (path ++ [0]);; sys_open (replicate 16 0) demo_va flags)
  | EClose fd => answer (sys_close fd)
  | ESeek fd offset whence => answer (sys_seek fd offset whence)
  | _ => λ w, None
  end.

(** A task with a page of its own and the two standard descriptors, on the disk
    of [demo]. *)
Definition test_task : task :=
  Task 1 1 [] RUNNING demo_root true 0 0 0 None 0 NORMAL (file_ptr 30 :: file_ptr 31 :: replicate 14 NULL).
Definition test_machine : machine :=
  let e := s_env demo in
  let k := with_active (Some 1) (with_tasks {[1 := test_task]} (ke_k e)) in
  let files := <[30 := File 1 0 0 3 NoOps]> (<[31 := File 2 0 0 3 NoOps]> (ftable (s_fs demo))) in
  Machine (Kern (Sys (with_ftable files (s_fs demo)) (KEnv k vm_rw (ke_d e) (ke_v e)))
    (Heap 0 0 0 0 0 ∅ 0 0 0 0 ∅) 0 0 ∅) [].

(** The literal of the test and the buffer it reads into. *)
Definition test_lit (s : list Z) : Z := 500.
Definition test_mem : cmem :=
  Cmem (list_to_map (zip (seqZ 500 6) (codes "test" ++ [10; 0])) ∪ list_to_map ((λ a, (a, 7)) <$> seqZ 1000 32)) 0.
Definition outcome_of (t : uprog unit) : option (list Z) :=
  match eval 400 (t test_mem) test_machine with Some (_, w) => Some (mc_out w) | None => None end.

Lemma outcome_runs t o : outcome_of t = Some o → ∃ m w, URuns t test_mem test_machine tt m w ∧ mc_out w = o.
Proof.
  unfold outcome_of. destruct (eval 400 (t test_mem) test_machine) as [[[[] m] w]|] eqn:E; [|done]. intros [= <-].
  exists m, w. split; [by eapply eval_steps|done].
Qed.

